(** * The frontend protocol engine of go-pg ([messages.go])

    A shallow embedding of the message readers and writers of
    [messages.go], the properties the specification states about them and
    the properties the code itself shows.

    - Go's [byte] is [ascii]; a [[]byte] and a Go [string] are both
      [list ascii] (a Go string is a byte sequence).
    - [int16] and [int32] are [Z] with the wrap-around of the conversion
      written out; Go's [int] is 64 bits wide and no length of this
      development comes near its bounds, so it is [Z] as it stands.
    - A Go function returning [(T, error)] is a computation [M T] over the
      connection: [Ret] is a return with a nil error, [Fail e] is
      [return zero, e], [Panic] is a run-time panic.
    - The server's side of the byte stream is the field [Rd] of the
      connection: the bytes not consumed yet.  A read past its end is the
      I/O error of a closed stream. *)

From Stdlib Require Import ZArith Lia Ascii String.
From stdpp Require Import gmap strings list.

Local Open Scope Z_scope.

Abbreviation bytes := (list ascii).

(** A string literal as the bytes of a Go string. *)
Definition str (s : string) : bytes := list_ascii_of_string s.

(** ** Machine integers *)

(** Conversion to a signed integer of [w] bits. *)
Definition wrap (w z : Z) : Z := (z + 2 ^ (w - 1)) mod 2 ^ w - 2 ^ (w - 1).

Definition int16 (z : Z) : Z := wrap 16 z.
Definition int32 (z : Z) : Z := wrap 32 z.
Definition uint16 (z : Z) : Z := z mod 2 ^ 16.
Definition uint32 (z : Z) : Z := z mod 2 ^ 32.

Definition byte_of (z : Z) : ascii := ascii_of_N (Z.to_N (z mod 256)).
Definition byte_val (b : ascii) : Z := Z.of_N (N_of_ascii b).

Definition NUL : ascii := byte_of 0.

(** [encoding/binary]: [BigEndian.Uint16], [BigEndian.Uint32] and the
    bytes [BigEndian.PutUint16], [BigEndian.PutUint32] store. *)
Definition BigEndian_Uint16 (b : bytes) : Z :=
  byte_val (nth 0 b NUL) * 256 + byte_val (nth 1 b NUL).

Definition BigEndian_Uint32 (b : bytes) : Z :=
  ((byte_val (nth 0 b NUL) * 256 + byte_val (nth 1 b NUL)) * 256
   + byte_val (nth 2 b NUL)) * 256 + byte_val (nth 3 b NUL).

Definition BigEndian_PutUint16 (v : Z) : bytes :=
  [byte_of (v / 2 ^ 8); byte_of v].

Definition BigEndian_PutUint32 (v : Z) : bytes :=
  [byte_of (v / 2 ^ 24); byte_of (v / 2 ^ 16); byte_of (v / 2 ^ 8); byte_of v].

(** ** Errors *)

(** An argument of [fmt.Errorf]. *)
Inductive fmtArg : Type :=
| ArgByte (c : ascii)
| ArgInt (n : Z)
| ArgStr (s : bytes).

(** Go's [error] values of the engine.  [PGError] is the server error
    [internal.NewPGError] builds from the fields of an ErrorResponse,
    a map from the code byte of a field to its string (section 3 of the
    specification). *)
Inductive error : Type :=
| io_EOF                                   (* the stream ended inside a read *)
| io_WriteError                            (* the network refused a write *)
| errSSLNotSupported
| PGError (m : gmap ascii bytes)           (* internal.NewPGError(m) *)
| bufio_ErrBufferFull
| Errorf (format : string) (args : list fmtArg)
| ExternalError (what : string).           (* an error of a collaborator *)

(** ** Slices

    A Go slice of column names is a window of [len] elements on a backing
    array; its capacity is the length of the array. *)
Record slice (A : Type) : Type := mkSlice { arr : list A; len : nat }.
Arguments mkSlice {A} _ _.
Arguments arr {A} _.
Arguments len {A} _.

Definition nil_slice {A} : slice A := mkSlice [] 0.
Definition cap {A} (b : slice A) : nat := length (arr b).
(** The elements a slice shows. *)
Definition elems {A} (b : slice A) : list A := take (len b) (arr b).
Definition slice_of {A} (l : list A) : slice A := mkSlice l (length l).

(** ** The connection *)

(** [pool.WriteBuffer]: the bytes composed so far and the offsets its
    scoped writers remember. *)
Record WriteBuffer : Type := mkWriteBuffer {
  Bytes : bytes;
  msgStart : nat;
  paramStart : nat;
}.

Record Conn : Type := mkConn {
  Rd : bytes;                (* what the server sends, not consumed yet *)
  RdSize : positive;         (* capacity of the bufio.Reader's buffer *)
  Wr : WriteBuffer;
  NetOut : bytes;            (* what has been written to the network *)
  NetUp : bool;              (* whether a write to the network succeeds *)
  TLS : bool;                (* the stream has been swapped for a TLS one *)
  ProcessId : Z;
  SecretKey : Z;
  Columns : slice bytes;
  RemoteAddr : bytes;
}.

Definition set_Rd (r : bytes) (cn : Conn) : Conn :=
  mkConn r (RdSize cn) (Wr cn) (NetOut cn) (NetUp cn) (TLS cn)
         (ProcessId cn) (SecretKey cn) (Columns cn) (RemoteAddr cn).
Definition set_Wr (w : WriteBuffer) (cn : Conn) : Conn :=
  mkConn (Rd cn) (RdSize cn) w (NetOut cn) (NetUp cn) (TLS cn)
         (ProcessId cn) (SecretKey cn) (Columns cn) (RemoteAddr cn).
Definition set_NetOut (o : bytes) (cn : Conn) : Conn :=
  mkConn (Rd cn) (RdSize cn) (Wr cn) o (NetUp cn) (TLS cn)
         (ProcessId cn) (SecretKey cn) (Columns cn) (RemoteAddr cn).
Definition set_TLS (t : bool) (cn : Conn) : Conn :=
  mkConn (Rd cn) (RdSize cn) (Wr cn) (NetOut cn) (NetUp cn) t
         (ProcessId cn) (SecretKey cn) (Columns cn) (RemoteAddr cn).
Definition set_Key (pid key : Z) (cn : Conn) : Conn :=
  mkConn (Rd cn) (RdSize cn) (Wr cn) (NetOut cn) (NetUp cn) (TLS cn)
         pid key (Columns cn) (RemoteAddr cn).
Definition set_Columns (c : slice bytes) (cn : Conn) : Conn :=
  mkConn (Rd cn) (RdSize cn) (Wr cn) (NetOut cn) (NetUp cn) (TLS cn)
         (ProcessId cn) (SecretKey cn) c (RemoteAddr cn).

(** ** Computations over the connection *)

Inductive outcome (A : Type) : Type :=
| Ret (a : A) (cn : Conn)      (* returned, the error is nil *)
| Fail (e : error) (cn : Conn) (* returned the error [e] *)
| Panic                        (* run-time panic *)
| Exhausted.                   (* a loop of the model ran out of fuel *)
Arguments Ret {A} _ _.
Arguments Fail {A} _ _.
Arguments Panic {A}.
Arguments Exhausted {A}.

Definition M (A : Type) : Type := Conn -> outcome A.

Definition ret {A} (a : A) : M A := fun cn => Ret a cn.
Definition fail {A} (e : error) : M A := fun cn => Fail e cn.
Definition panic {A} : M A := fun _ => Panic.

(** [v, err := m; if err != nil { return zero, err }; k v] *)
Definition bind {A B} (m : M A) (k : A -> M B) : M B :=
  fun cn =>
    match m cn with
    | Ret a cn' => k a cn'
    | Fail e cn' => Fail e cn'
    | Panic => Panic
    | Exhausted => Exhausted
    end.

(** [v, err := m] with the error kept as a value. *)
Definition try {A} (m : M A) : M (A + error) :=
  fun cn =>
    match m cn with
    | Ret a cn' => Ret (inl a) cn'
    | Fail e cn' => Ret (inr e) cn'
    | Panic => Panic
    | Exhausted => Exhausted
    end.

Notation "'let!' x ':=' m 'in' k" := (bind m (fun x => k))
  (at level 10, x pattern, m at level 100, k at level 200).

Definition get : M Conn := fun cn => Ret cn cn.
Definition modify (f : Conn -> Conn) : M unit := fun cn => Ret tt (f cn).

(** A [for { ... }] loop: the body either goes round again with a new
    loop state or returns. *)
Inductive step (S R : Type) : Type :=
| Continue (s : S)
| Return (r : R).
Arguments Continue {S R} _.
Arguments Return {S R} _.

Fixpoint loop {S R} (body : S -> M (step S R)) (fuel : nat) (s : S) : M R :=
  match fuel with
  | O => fun _ => Exhausted
  | Datatypes.S fuel' =>
      let! r := body s in
      match r with
      | Continue s' => loop body fuel' s'
      | Return r => ret r
      end
  end.

(** Every round of a reader consumes input, so the number of bytes left
    bounds the number of rounds. *)
Definition rounds (cn : Conn) : nat := Datatypes.S (length (Rd cn)).

Definition for_ever {S R} (body : S -> M (step S R)) (s : S) : M R :=
  fun cn => loop body (rounds cn) s cn.

(** ** Reading from the stream *)

(** The bytes before the first NUL of [l] and the bytes after it. *)
Fixpoint span_NUL (l : bytes) : option (bytes * bytes) :=
  match l with
  | [] => None
  | c :: l' =>
      if Ascii.eqb c NUL then Some ([], l')
      else match span_NUL l' with
           | Some (s, rest) => Some (c :: s, rest)
           | None => None
           end
  end.

(** [bufio.Reader.ReadByte]. *)
Definition ReadByte : M ascii :=
  fun cn =>
    match Rd cn with
    | c :: rest => Ret c (set_Rd rest cn)
    | [] => Fail io_EOF cn
    end.

(** [bufio.Reader.ReadString(0)]: the bytes up to and including the first
    NUL; the stream ending before one is an error. *)
Definition ReadString0 : M bytes :=
  fun cn =>
    match span_NUL (Rd cn) with
    | Some (s, rest) => Ret (s ++ [NUL]) (set_Rd rest cn)
    | None => Fail io_EOF (set_Rd [] cn)
    end.

(** [bufio.Reader.ReadSlice(0)]: as [ReadString], but the line lives in
    the reader's buffer of [RdSize] bytes: when no NUL shows up within a
    full buffer, the buffer is handed out with [bufio.ErrBufferFull]. *)
Definition ReadSlice0 : M (bytes * option error) :=
  fun cn =>
    let n := Pos.to_nat (RdSize cn) in
    match span_NUL (take n (Rd cn)) with
    | Some (s, _) =>
        Ret (s ++ [NUL], None) (set_Rd (drop (Datatypes.S (length s)) (Rd cn)) cn)
    | None =>
        if (n <=? length (Rd cn))%nat
        then Ret (take n (Rd cn), Some bufio_ErrBufferFull)
                 (set_Rd (drop n (Rd cn)) cn)
        else Fail io_EOF (set_Rd [] cn)
    end.

(** Modelled from the spec: [pool.Conn.ReadN] is not among the sources;
    section 4.1 gives [read_exact(n)]: a byte slice of exactly [n] bytes,
    an I/O error on a short read.  The spec is silent on a negative count,
    for which no such slice exists: Go panics on the negative slice bound,
    and so does the model. *)
Definition ReadN (n : Z) : M bytes :=
  fun cn =>
    if n <? 0 then Panic
    else if (Z.to_nat n <=? length (Rd cn))%nat
    then Ret (take (Z.to_nat n) (Rd cn)) (set_Rd (drop (Z.to_nat n) (Rd cn)) cn)
    else Fail io_EOF (set_Rd [] cn).

Definition readInt16 : M Z :=
  let! b := ReadN 2 in
  ret (int16 (BigEndian_Uint16 b)).

Definition readInt32 : M Z :=
  let! b := ReadN 4 in
  ret (int32 (BigEndian_Uint32 b)).

Definition readString : M bytes :=
  let! s := ReadString0 in
  ret (removelast s).

Definition readBytes_body (b : bytes) : M (step bytes bytes) :=
  let! r := ReadSlice0 in
  match r with
  | (line, Some bufio_ErrBufferFull) => ret (Continue (b ++ line))
  | (line, Some err) => fail err
  | (line, None) => ret (Return (b ++ line))
  end.

Definition readBytes (b : bytes) : M bytes :=
  let! b := for_ever readBytes_body b in
  match b with
  | [] => panic
  | _ => ret (removelast b)
  end.

Definition readError_body (m : gmap ascii bytes)
  : M (step (gmap ascii bytes) (gmap ascii bytes)) :=
  let! c := ReadByte in
  if Ascii.eqb c NUL then ret (Return m)
  else
    let! s := readString in
    ret (Continue (<[c := s]> m)).

(** [readError] returns the parsed error as a value; its own error is the
    I/O error of a read. *)
Definition readError : M error :=
  let! cn := get in
  let m : gmap ascii bytes := {[ "a"%char := RemoteAddr cn ]} in
  let! m := for_ever readError_body m in
  ret (PGError m).

Definition readMessageType : M (ascii * Z) :=
  let! c := ReadByte in
  let! l := readInt32 in
  ret (c, l - 4).

Definition logNotice (msgLen : Z) : M unit :=
  let! _ := ReadN msgLen in ret tt.

Definition logParameterStatus (msgLen : Z) : M unit :=
  let! _ := ReadN msgLen in ret tt.

(** ** Message tags *)

Definition commandCompleteMsg : ascii := "C".
Definition errorResponseMsg : ascii := "E".
Definition noticeResponseMsg : ascii := "N".
Definition parameterStatusMsg : ascii := "S".
Definition authenticationOKMsg : ascii := "R".
Definition backendKeyDataMsg : ascii := "K".
Definition noDataMsg : ascii := "n".
Definition passwordMessageMsg : ascii := "p".
Definition saslInitialResponseMsg : ascii := "p".
Definition authenticationSASLContinueMsg : ascii := "R".
Definition saslResponseMsg : ascii := "p".
Definition authenticationSASLFinalMsg : ascii := "R".
Definition parameterDescriptionMsg : ascii := "t".
Definition readyForQueryMsg : ascii := "Z".
Definition rowDescriptionMsg : ascii := "T".
Definition dataRowMsg : ascii := "D".
Definition parseCompleteMsg : ascii := "1".
Definition bindMsg : ascii := "B".
Definition bindCompleteMsg : ascii := "2".
Definition executeMsg : ascii := "E".
Definition syncMsg : ascii := "S".
Definition copyDataMsg : ascii := "d".
Definition copyDoneMsg : ascii := "c".

Definition authenticationOK : Z := 0.
Definition authenticationCleartextPassword : Z := 3.
Definition authenticationMD5Password : Z := 5.
Definition authenticationSASL : Z := 10.

(** ** Results *)

(** Modelled from the spec: [types.Result] and [types.NewResult] are not
    among the sources; section 3 gives a Result as a command tag plus a
    row count accumulated by the reader. *)
Record Result : Type := mkResult { tag : bytes; returned : Z }.
Definition NewResult (b : bytes) (rows : Z) : Result := mkResult b rows.

(** The closure [setErr] of the coalescing readers. *)
Definition setErr (retErr : option error) (err : error) : option error :=
  match retErr with
  | None => Some err
  | Some _ => retErr
  end.

(** ** Row descriptions and data rows *)

(** [b[:n]]: a run-time panic outside [0 .. cap(b)]. *)
Definition reslice {A} (b : slice A) (n : Z) : option (slice A) :=
  if (0 <=? n) && (n <=? Z.of_nat (cap b))
  then Some (mkSlice (arr b) (Z.to_nat n))
  else None.

(** [b[i]] and [b[i] = x]: a run-time panic outside [0 .. len(b) - 1]. *)
Definition index {A} (b : slice A) (i : Z) : option A :=
  if (0 <=? i) && (i <? Z.of_nat (len b)) then arr b !! Z.to_nat i else None.

Definition assign {A} (b : slice A) (i : Z) (x : A) : option (slice A) :=
  if (0 <=? i) && (i <? Z.of_nat (len b))
  then Some (mkSlice (<[Z.to_nat i := x]> (arr b)) (len b))
  else None.

(** [append(b, l...)] on a slice without spare capacity: a new backing array.
    The capacity Go gives it is not observed by the readers. *)
Definition append_full {A} (b : slice A) (l : list A) : slice A :=
  mkSlice (elems b ++ l) (len b + length l).

Definition setByteSliceLen (b : slice bytes) (n : Z) : option (slice bytes) :=
  if n <=? Z.of_nat (cap b) then reslice b n
  else
    let b := mkSlice (arr b) (cap b) in
    Some (append_full b (replicate (Z.to_nat (n - Z.of_nat (cap b))) [])).

(** One round of the [for] loop of [readRowDescription]: the loop state is
    the counter [i] and the slice. *)
Definition readRowDescription_body (colNum : Z) (s : Z * slice bytes)
  : M (step (Z * slice bytes) (slice bytes)) :=
  let '(i, columns) := s in
  if i <? colNum then
    match index columns i with
    | None => panic
    | Some old =>
        let! name := readBytes (take 0 old) in
        match assign columns i name with
        | None => panic
        | Some columns =>
            let! _ := ReadN 18 in
            ret (Continue (i + 1, columns))
        end
    end
  else ret (Return columns).

Definition readRowDescription (columns : slice bytes) : M (slice bytes) :=
  let! colNum := readInt16 in
  match setByteSliceLen columns colNum with
  | None => panic
  | Some columns => for_ever (readRowDescription_body colNum) (0, columns)
  end.

(** [orm.ColumnScanner]: the scanner is an object with a state of its own;
    [ScanColumn] gets the column index, the column name and the raw bytes,
    [None] being Go's nil slice. *)
Class ColumnScanner (S : Type) : Type :=
  ScanColumn : S -> Z -> bytes -> option bytes -> S * option error.

(** One round of the [for] loop of [readDataRow]: the loop state is the
    counter [colIdx], an [int16], the scanner and the named result
    [retErr]. *)
Definition readDataRow_body {S} `{ColumnScanner S} (colNum : Z)
    (columns : slice bytes) (s : Z * S * option error)
  : M (step (Z * S * option error) (S * option error)) :=
  let '(colIdx, scanner, retErr) := s in
  if colIdx <? colNum then
    let! l := readInt32 in
    let! b := (if negb (l =? -1)
               then let! b := ReadN l in ret (Some b)
               else ret None) in
    match index columns colIdx with
    | None => panic
    | Some column =>
        let '(scanner, err) := ScanColumn scanner colIdx column b in
        let retErr := match err with
                      | Some err => setErr retErr err
                      | None => retErr
                      end in
        ret (Continue (int16 (colIdx + 1), scanner, retErr))
    end
  else ret (Return (scanner, retErr)).

(** [Ret (scanner, retErr)] is the final [return retErr]; [Fail err] is
    the [return err] of a failed read. *)
Definition readDataRow {S} `{ColumnScanner S} (scanner : S)
    (columns : slice bytes) : M (S * option error) :=
  let! colNum := readInt16 in
  for_ever (readDataRow_body colNum columns) (0, scanner, None).

(** ** The response readers *)

Definition unexpected (reader : string) (c : ascii) : error :=
  Errorf ("pg: " ++ reader ++ ": unexpected message %#x") [ArgByte c].

(** The loop state of [readSimpleQuery] and [readExtQuery]: the named
    results [res] and [retErr] and the local [rows]. *)
Record queryState : Type := mkQueryState {
  res : option Result;
  retErr : option error;
  rows : Z;
}.

Definition readSimpleQuery_body (s : queryState)
  : M (step queryState (option Result * option error)) :=
  let! (c, msgLen) := readMessageType in
  if Ascii.eqb c commandCompleteMsg then
    let! b := ReadN msgLen in
    ret (Continue (mkQueryState (Some (NewResult b (rows s))) (retErr s) (rows s)))
  else if Ascii.eqb c readyForQueryMsg then
    let! _ := ReadN msgLen in
    ret (Return (res s, retErr s))
  else if Ascii.eqb c rowDescriptionMsg then
    let! _ := ReadN msgLen in
    ret (Continue s)
  else if Ascii.eqb c dataRowMsg then
    let! _ := ReadN msgLen in
    ret (Continue (mkQueryState (res s) (retErr s) (rows s + 1)))
  else if Ascii.eqb c errorResponseMsg then
    let! e := readError in
    ret (Continue (mkQueryState (res s) (setErr (retErr s) e) (rows s)))
  else if Ascii.eqb c noticeResponseMsg then
    let! _ := logNotice msgLen in
    ret (Continue s)
  else if Ascii.eqb c parameterStatusMsg then
    let! _ := logParameterStatus msgLen in
    ret (Continue s)
  else fail (unexpected "readSimpleQuery" c).

Definition readSimpleQuery : M (option Result * option error) :=
  for_ever readSimpleQuery_body (mkQueryState None None 0).

Definition readExtQuery_body (s : queryState)
  : M (step queryState (option Result * option error)) :=
  let! (c, msgLen) := readMessageType in
  if Ascii.eqb c bindCompleteMsg then
    let! _ := ReadN msgLen in
    ret (Continue s)
  else if Ascii.eqb c dataRowMsg then
    let! _ := ReadN msgLen in
    ret (Continue (mkQueryState (res s) (retErr s) (rows s + 1)))
  else if Ascii.eqb c commandCompleteMsg then
    let! b := ReadN msgLen in
    ret (Continue (mkQueryState (Some (NewResult b (rows s))) (retErr s) (rows s)))
  else if Ascii.eqb c readyForQueryMsg then
    let! _ := ReadN msgLen in
    ret (Return (res s, retErr s))
  else if Ascii.eqb c errorResponseMsg then
    let! e := readError in
    ret (Continue (mkQueryState (res s) (setErr (retErr s) e) (rows s)))
  else if Ascii.eqb c noticeResponseMsg then
    let! _ := logNotice msgLen in
    ret (Continue s)
  else if Ascii.eqb c parameterStatusMsg then
    let! _ := logParameterStatus msgLen in
    ret (Continue s)
  else fail (unexpected "readExtQuery" c).

Definition readExtQuery : M (option Result * option error) :=
  for_ever readExtQuery_body (mkQueryState None None 0).

(** [readReadyForQuery] has no [rows] and no [setErr]: an error is stored
    by the plain assignment [retErr = e]. *)
Definition readReadyForQuery_body (s : option Result * option error)
  : M (step (option Result * option error) (option Result * option error)) :=
  let '(res, retErr) := s in
  let! (c, msgLen) := readMessageType in
  if Ascii.eqb c commandCompleteMsg then
    let! b := ReadN msgLen in
    ret (Continue (Some (NewResult b 0), retErr))
  else if Ascii.eqb c readyForQueryMsg then
    let! _ := ReadN msgLen in
    ret (Return (res, retErr))
  else if Ascii.eqb c errorResponseMsg then
    let! e := readError in
    ret (Continue (res, Some e))
  else if Ascii.eqb c noticeResponseMsg then
    let! _ := logNotice msgLen in
    ret (Continue (res, retErr))
  else if Ascii.eqb c parameterStatusMsg then
    let! _ := logParameterStatus msgLen in
    ret (Continue (res, retErr))
  else fail (unexpected "readReadyForQueryOrError" c).

Definition readReadyForQuery : M (option Result * option error) :=
  for_ever readReadyForQuery_body (None, None).

(** [readParseDescribeSync]: the loop state is the local [columns]. *)
Definition readParseDescribeSync_body (columns : slice bytes)
  : M (step (slice bytes) (slice bytes * option error)) :=
  let! (c, msgLen) := readMessageType in
  if Ascii.eqb c parseCompleteMsg then
    let! _ := ReadN msgLen in
    ret (Continue columns)
  else if Ascii.eqb c rowDescriptionMsg then
    let! columns := readRowDescription nil_slice in
    ret (Continue columns)
  else if Ascii.eqb c parameterDescriptionMsg then
    let! _ := ReadN msgLen in
    ret (Continue columns)
  else if Ascii.eqb c noDataMsg then
    let! _ := ReadN msgLen in
    ret (Continue columns)
  else if Ascii.eqb c readyForQueryMsg then
    let! r := try (ReadN msgLen) in
    match r with
    | inl _ => ret (Return (columns, None))
    | inr err => ret (Return (columns, Some err))
    end
  else if Ascii.eqb c errorResponseMsg then
    let! e := readError in
    fail e
  else if Ascii.eqb c noticeResponseMsg then
    let! _ := logNotice msgLen in
    ret (Continue columns)
  else if Ascii.eqb c parameterStatusMsg then
    let! _ := logParameterStatus msgLen in
    ret (Continue columns)
  else fail (unexpected "readParseDescribeSync" c).

(** [Ret (columns, err)] is the [return columns, err] of the
    ReadyForQuery case; [Fail e] is a [return nil, e]. *)
Definition readParseDescribeSync : M (slice bytes * option error) :=
  for_ever readParseDescribeSync_body nil_slice.

(** [io.Writer]: the sink of a COPY TO, an object with a state of its own. *)
Class Writer (W : Type) : Type :=
  Write : W -> bytes -> W * option error.

(** [readCopyData]: the loop state is the sink and the local [res]. *)
Definition readCopyData_body {W} `{Writer W} (s : W * option Result)
  : M (step (W * option Result) (W * option Result * option error)) :=
  let '(w, res) := s in
  let! (c, msgLen) := readMessageType in
  if Ascii.eqb c copyDataMsg then
    let! b := ReadN msgLen in
    match Write w b with
    | (w, Some err) => fail err
    | (w, None) => ret (Continue (w, res))
    end
  else if Ascii.eqb c copyDoneMsg then
    let! _ := ReadN msgLen in
    ret (Continue (w, res))
  else if Ascii.eqb c commandCompleteMsg then
    let! b := ReadN msgLen in
    ret (Continue (w, Some (NewResult b 0)))
  else if Ascii.eqb c readyForQueryMsg then
    let! r := try (ReadN msgLen) in
    match r with
    | inl _ => ret (Return (w, res, None))
    | inr err => ret (Return (w, res, Some err))
    end
  else if Ascii.eqb c errorResponseMsg then
    let! e := readError in
    fail e
  else if Ascii.eqb c noticeResponseMsg then
    let! _ := logNotice msgLen in
    ret (Continue (w, res))
  else if Ascii.eqb c parameterStatusMsg then
    let! _ := logParameterStatus msgLen in
    ret (Continue (w, res))
  else fail (unexpected "readCopyData" c).

Definition readCopyData {W} `{Writer W} (w : W)
  : M (W * option Result * option error) :=
  for_ever readCopyData_body (w, None).

(** ** The write buffer *)

(** [l] with the bytes [v] stored from offset [off] on. *)
Definition patch (off : nat) (v : bytes) (l : bytes) : bytes :=
  take off l ++ v ++ drop (off + length v) l.

Definition set_Bytes (b : bytes) (buf : WriteBuffer) : WriteBuffer :=
  mkWriteBuffer b (msgStart buf) (paramStart buf).

(** Modelled from the spec: [pool.WriteBuffer] is not among the sources;
    section 4.1 gives its scoped discipline.  [StartMessage] records the
    offset of the length field and writes a placeholder length, after the
    tag byte when there is one (the pre-startup requests pass 0 and have
    none). *)
Definition StartMessage (c : ascii) (buf : WriteBuffer) : WriteBuffer :=
  if Ascii.eqb c NUL
  then mkWriteBuffer (Bytes buf ++ [NUL; NUL; NUL; NUL])
                     (length (Bytes buf)) (paramStart buf)
  else mkWriteBuffer (Bytes buf ++ [c; NUL; NUL; NUL; NUL])
                     (Datatypes.S (length (Bytes buf))) (paramStart buf).

(** Modelled from the spec: [FinishMessage] back-patches the length field
    to the payload's length plus 4. *)
Definition FinishMessage (buf : WriteBuffer) : WriteBuffer :=
  set_Bytes
    (patch (msgStart buf)
       (BigEndian_PutUint32
          (uint32 (Z.of_nat (length (Bytes buf)) - Z.of_nat (msgStart buf))))
       (Bytes buf))
    buf.

(** Modelled from the spec: the [write_*] primitives of section 4.1 append
    to the payload: a byte, a big-endian integer of 16 or of 32 bits, a
    NUL-terminated string, raw bytes ([WriteBuffer.Write]). *)
Definition WriteByte (c : ascii) (buf : WriteBuffer) : WriteBuffer :=
  set_Bytes (Bytes buf ++ [c]) buf.

(** Modelled from the spec: see [WriteByte]. *)
Definition WriteInt16 (n : Z) (buf : WriteBuffer) : WriteBuffer :=
  set_Bytes (Bytes buf ++ BigEndian_PutUint16 (uint16 n)) buf.

(** Modelled from the spec: see [WriteByte]. *)
Definition WriteInt32 (n : Z) (buf : WriteBuffer) : WriteBuffer :=
  set_Bytes (Bytes buf ++ BigEndian_PutUint32 (uint32 n)) buf.

(** Modelled from the spec: see [WriteByte]. *)
Definition WriteString (s : bytes) (buf : WriteBuffer) : WriteBuffer :=
  set_Bytes (Bytes buf ++ s ++ [NUL]) buf.

(** Modelled from the spec: see [WriteByte]. *)
Definition WriteBytes (b : bytes) (buf : WriteBuffer) : WriteBuffer :=
  set_Bytes (Bytes buf ++ b) buf.

(** Modelled from the spec: [StartParam], [FinishParam] and
    [FinishNullParam] wrap a parameter value, back-patching its 4-byte
    length, or writing -1 for NULL. *)
Definition StartParam (buf : WriteBuffer) : WriteBuffer :=
  mkWriteBuffer (Bytes buf ++ [NUL; NUL; NUL; NUL])
                (msgStart buf) (length (Bytes buf)).

(** Modelled from the spec: see [StartParam]. *)
Definition FinishParam (buf : WriteBuffer) : WriteBuffer :=
  set_Bytes
    (patch (paramStart buf)
       (BigEndian_PutUint32
          (uint32 (Z.of_nat (length (Bytes buf)) - Z.of_nat (paramStart buf) - 4)))
       (Bytes buf))
    buf.

(** Modelled from the spec: see [StartParam]. *)
Definition FinishNullParam (buf : WriteBuffer) : WriteBuffer :=
  set_Bytes (patch (paramStart buf) (BigEndian_PutUint32 (uint32 (-1))) (Bytes buf))
            buf.

(** Modelled from the spec: [pool.Conn.FlushWriter] hands the buffer to the
    network and leaves it empty. *)
Definition FlushWriter : M unit :=
  fun cn =>
    let cn' := set_Wr (mkWriteBuffer [] 0 0) cn in
    if NetUp cn
    then Ret tt (set_NetOut (NetOut cn ++ Bytes (Wr cn)) cn')
    else Fail io_WriteError cn'.

(** A writer of [messages.go] run on the connection's buffer [cn.Wr]. *)
Definition on_Wr (f : WriteBuffer -> WriteBuffer) : M unit :=
  modify (fun cn => set_Wr (f (Wr cn)) cn).

(** ** Request writers *)

Definition writeSSLMsg (buf : WriteBuffer) : WriteBuffer :=
  let buf := StartMessage NUL buf in
  let buf := WriteInt32 80877103 buf in
  FinishMessage buf.

Definition writePasswordMsg (password : bytes) (buf : WriteBuffer) : WriteBuffer :=
  let buf := StartMessage passwordMessageMsg buf in
  let buf := WriteString password buf in
  FinishMessage buf.

Definition writeSyncMsg (buf : WriteBuffer) : WriteBuffer :=
  let buf := StartMessage syncMsg buf in
  FinishMessage buf.

(** Modelled from the spec: [types.Append] is not among the sources;
    section 6 gives the value codec: it appends the encoding of one
    parameter to [dst], a null return meaning SQL NULL.  The encoding of a
    parameter is the codec's, an interface here. *)
Class ValueCodec (P : Type) : Type :=
  encode_value : P -> option bytes.

Definition Append {P} `{ValueCodec P} (dst : bytes) (param : P) : option bytes :=
  match encode_value param with
  | Some enc => Some (dst ++ enc)
  | None => None
  end.

(** The [range] loop of [writeBindExecuteMsg]. *)
Fixpoint writeBindExecuteMsg_params {P} `{ValueCodec P} (params : list P)
    (buf : WriteBuffer) : WriteBuffer :=
  match params with
  | [] => buf
  | param :: params' =>
      let buf := StartParam buf in
      let buf := match Append (Bytes buf) param with
                 | Some b => FinishParam (set_Bytes b buf)
                 | None => FinishNullParam buf
                 end in
      writeBindExecuteMsg_params params' buf
  end.

(** [writeBindExecuteMsg] returns the buffer and its error, which is
    always nil. *)
Definition writeBindExecuteMsg {P} `{ValueCodec P} (name : bytes)
    (params : list P) (buf : WriteBuffer) : WriteBuffer * option error :=
  let buf := StartMessage bindMsg buf in
  let buf := WriteString [] buf in
  let buf := WriteString name buf in
  let buf := WriteInt16 0 buf in
  let buf := WriteInt16 (int16 (Z.of_nat (length params))) buf in
  let buf := writeBindExecuteMsg_params params buf in
  let buf := WriteInt16 0 buf in
  let buf := FinishMessage buf in
  let buf := StartMessage executeMsg buf in
  let buf := WriteString [] buf in
  let buf := WriteInt32 0 buf in
  let buf := FinishMessage buf in
  let buf := writeSyncMsg buf in
  (buf, None).

(** ** Transport negotiation *)

(** Modelled from the spec: [pool.Conn.SetNetConn] and [tls.Client] are
    not among the sources; section 4.2 has the byte stream swapped for a
    TLS-wrapped one, which the flag [TLS] of the connection records. *)
Definition SetNetConn_tls : M unit := modify (set_TLS true).

Definition enableSSL : M unit :=
  let! _ := on_Wr writeSSLMsg in
  let! _ := FlushWriter in
  let! c := ReadByte in
  if negb (Ascii.eqb c "S") then fail errSSLNotSupported
  else
    let! _ := SetNetConn_tls in
    ret tt.

(** ** MD5 and hexadecimal text

    [crypto/md5] and [encoding/hex] are Go's; the digest is written out
    after RFC 1321 so that [md5s] computes. *)

Definition md5_K : list Z :=
  [ 0xd76aa478; 0xe8c7b756; 0x242070db; 0xc1bdceee;
    0xf57c0faf; 0x4787c62a; 0xa8304613; 0xfd469501;
    0x698098d8; 0x8b44f7af; 0xffff5bb1; 0x895cd7be;
    0x6b901122; 0xfd987193; 0xa679438e; 0x49b40821;
    0xf61e2562; 0xc040b340; 0x265e5a51; 0xe9b6c7aa;
    0xd62f105d; 0x02441453; 0xd8a1e681; 0xe7d3fbc8;
    0x21e1cde6; 0xc33707d6; 0xf4d50d87; 0x455a14ed;
    0xa9e3e905; 0xfcefa3f8; 0x676f02d9; 0x8d2a4c8a;
    0xfffa3942; 0x8771f681; 0x6d9d6122; 0xfde5380c;
    0xa4beea44; 0x4bdecfa9; 0xf6bb4b60; 0xbebfbc70;
    0x289b7ec6; 0xeaa127fa; 0xd4ef3085; 0x04881d05;
    0xd9d4d039; 0xe6db99e5; 0x1fa27cf8; 0xc4ac5665;
    0xf4292244; 0x432aff97; 0xab9423a7; 0xfc93a039;
    0x655b59c3; 0x8f0ccc92; 0xffeff47d; 0x85845dd1;
    0x6fa87e4f; 0xfe2ce6e0; 0xa3014314; 0x4e0811a1;
    0xf7537e82; 0xbd3af235; 0x2ad7d2bb; 0xeb86d391 ].

Definition md5_shift : list Z :=
  [ 7; 12; 17; 22; 7; 12; 17; 22; 7; 12; 17; 22; 7; 12; 17; 22;
    5; 9; 14; 20; 5; 9; 14; 20; 5; 9; 14; 20; 5; 9; 14; 20;
    4; 11; 16; 23; 4; 11; 16; 23; 4; 11; 16; 23; 4; 11; 16; 23;
    6; 10; 15; 21; 6; 10; 15; 21; 6; 10; 15; 21; 6; 10; 15; 21 ].

Definition add32 (a b : Z) : Z := (a + b) mod 2 ^ 32.
Definition not32 (a : Z) : Z := 2 ^ 32 - 1 - a.
Definition rotl32 (x c : Z) : Z :=
  Z.lor (Z.shiftl x c mod 2 ^ 32) (Z.shiftr x (32 - c)).

(** The 32-bit little-endian words of a block. *)
Fixpoint le_words (b : bytes) (n : nat) : list Z :=
  match n with
  | O => []
  | Datatypes.S n' =>
      (byte_val (nth 0 b NUL) + 2 ^ 8 * byte_val (nth 1 b NUL)
       + 2 ^ 16 * byte_val (nth 2 b NUL) + 2 ^ 24 * byte_val (nth 3 b NUL))
      :: le_words (drop 4 b) n'
  end.

Definition le_bytes (width : nat) (v : Z) : bytes :=
  map (fun k => byte_of (v / 2 ^ (8 * Z.of_nat k))) (seq 0 width).

Definition md5_state : Type := Z * Z * Z * Z.

Definition md5_op (X : list Z) (st : md5_state) (i : nat) : md5_state :=
  let '(A, B, C, D) := st in
  let j := Z.of_nat i in
  let '(F, g) :=
    if j <? 16 then (Z.lor (Z.land B C) (Z.land (not32 B) D), j)
    else if j <? 32 then (Z.lor (Z.land D B) (Z.land (not32 D) C), (5 * j + 1) mod 16)
    else if j <? 48 then (Z.lxor (Z.lxor B C) D, (3 * j + 5) mod 16)
    else (Z.lxor C (Z.lor B (not32 D)), (7 * j) mod 16) in
  let F := add32 (add32 (add32 F A) (nth i md5_K 0)) (nth (Z.to_nat g) X 0) in
  (D, add32 B (rotl32 F (nth i md5_shift 0)), B, C).

Definition md5_block (st : md5_state) (block : bytes) : md5_state :=
  let '(a0, b0, c0, d0) := st in
  let '(A, B, C, D) := fold_left (md5_op (le_words block 16)) (seq 0 64) st in
  (add32 a0 A, add32 b0 B, add32 c0 C, add32 d0 D).

Fixpoint md5_blocks (n : nat) (st : md5_state) (msg : bytes) : md5_state :=
  match n with
  | O => st
  | Datatypes.S n' => md5_blocks n' (md5_block st (take 64 msg)) (drop 64 msg)
  end.

Definition md5_pad (msg : bytes) : bytes :=
  let n := Z.of_nat (length msg) in
  msg ++ [byte_of 0x80] ++ replicate (Z.to_nat ((55 - n) mod 64)) NUL
      ++ le_bytes 8 ((8 * n) mod 2 ^ 64).

(** [md5.New(); h.Write(s); h.Sum(nil)]: the 16 bytes of the digest. *)
Definition md5_Sum (s : bytes) : bytes :=
  let m := md5_pad s in
  let '(A, B, C, D) :=
    md5_blocks (length m / 64)%nat
               (0x67452301, 0xefcdab89, 0x98badcfe, 0x10325476) m in
  le_bytes 4 A ++ le_bytes 4 B ++ le_bytes 4 C ++ le_bytes 4 D.

Definition hex_digit (n : Z) : ascii :=
  if n <? 10 then byte_of (48 + n) else byte_of (87 + n).

(** [hex.EncodeToString]: two lower-case digits per byte. *)
Definition hex_EncodeToString (b : bytes) : bytes :=
  flat_map (fun c => [hex_digit (byte_val c / 16); hex_digit (byte_val c mod 16)]) b.

Definition md5s (s : bytes) : bytes := hex_EncodeToString (md5_Sum s).

(** The test suite of RFC 1321 (appendix A.5): the messages and their
    digests in hexadecimal.  The messages of 62 and of 80 bytes take two
    blocks. *)
Definition rfc1321_test_suite : list (bytes * bytes) :=
  [ ([], str "d41d8cd98f00b204e9800998ecf8427e");
    (str "a", str "0cc175b9c0f1b6a831c399e269772661");
    (str "abc", str "900150983cd24fb0d6963f7d28e17f72");
    (str "message digest", str "f96b697d7cb7938d525a2f31aaf161d0");
    (str "abcdefghijklmnopqrstuvwxyz", str "c3fcd3d76192e4007dfb496cca67e13b");
    (str "ABCDEFGHIJKLMNOPQRSTUVWXYZabcdefghijklmnopqrstuvwxyz0123456789",
     str "d174ab98d277d9f5a5611c2c9f419d9f");
    (str "12345678901234567890123456789012345678901234567890123456789012345678901234567890",
     str "57edf4a22be3c955ac49da2e2107b67a") ].

(** ** Authentication *)

(** [mellium.im/sasl] is a library of its own: its mechanisms and its
    negotiator are an interface here.  [zeroMechanism] is the zero value of
    the struct [sasl.Mechanism], what [var saslMech sasl.Mechanism] holds
    before an assignment. *)
Inductive Mechanism : Type :=
| zeroMechanism
| ScramSha256
| ScramSha256Plus.

Definition Mechanism_Name (m : Mechanism) : bytes :=
  match m with
  | zeroMechanism => []
  | ScramSha256 => str "SCRAM-SHA-256"
  | ScramSha256Plus => str "SCRAM-SHA-256-PLUS"
  end.

(** [sasl.NewClient] with the credentials, [Negotiator.Step] ([None] when
    the library panics) and [Negotiator.State]. *)
Class Sasl (Negotiator : Type) : Type := {
  NewClient : Mechanism -> bytes -> bytes -> Negotiator;
  Negotiator_Step :
    Negotiator -> option bytes -> option (Negotiator * bytes * option error);
  Negotiator_State : Negotiator -> Z;
}.

Definition ValidServerResponse : Z := 3.

(** The [switch c] after the password message, the same text in the
    cleartext and in the MD5 case of [authenticate]. *)
Definition authenticate_passwordResponse : M unit :=
  let! (c, _) := readMessageType in
  if Ascii.eqb c authenticationOKMsg then
    let! num := readInt32 in
    if negb (num =? 0)
    then fail (Errorf "pg: unexpected authentication code: %d" [ArgInt num])
    else ret tt
  else if Ascii.eqb c errorResponseMsg then
    let! e := readError in
    fail e
  else fail (Errorf "pg: unknown password message response: %q" [ArgByte c]).

(** The loop labelled [loop] of the SASL case: the loop state is the local
    [saslMech]. *)
Definition authenticate_saslLoop_body (saslMech : Mechanism)
  : M (step Mechanism Mechanism) :=
  let! s := readString in
  if bool_decide (s = []) then ret (Return saslMech)
  else if bool_decide (s = Mechanism_Name ScramSha256) then ret (Continue ScramSha256)
  else if bool_decide (s = Mechanism_Name ScramSha256Plus) then ret (Continue saslMech)
  else fail (Errorf "got %q, wanted %q"
               [ArgStr s; ArgStr (Mechanism_Name ScramSha256)]).

Definition authenticate_saslLoop : M Mechanism :=
  for_ever authenticate_saslLoop_body zeroMechanism.

Definition readAuthOK : M unit :=
  let! (c, _) := readMessageType in
  if Ascii.eqb c authenticationOKMsg then
    let! c0 := readInt32 in
    if negb (c0 =? 0)
    then fail (Errorf "pg: unexpected authentication code: %q" [ArgInt c0])
    else ret tt
  else if Ascii.eqb c errorResponseMsg then
    let! e := readError in
    fail e
  else fail (Errorf "pg: unknown password message response: %q" [ArgByte c]).

Definition readAuthSASLFinal {N} `{Sasl N} (client : N) : M unit :=
  let! (c, n) := readMessageType in
  if Ascii.eqb c authenticationSASLFinalMsg then
    let! c12 := readInt32 in
    if negb (c12 =? 12)
    then fail (Errorf "pg: SASL: got %q, wanted %q" [ArgByte c; ArgInt 12])
    else
      let! b := ReadN (n - 4) in
      match Negotiator_Step client (Some b) with
      | None => panic
      | Some (_, _, Some err) => fail err
      | Some (client, _, None) =>
          if negb (Negotiator_State client =? ValidServerResponse)
          then fail (Errorf "pg: SASL: state=%q, wanted %q"
                       [ArgInt (Negotiator_State client); ArgInt ValidServerResponse])
          else readAuthOK
      end
  else if Ascii.eqb c errorResponseMsg then
    let! e := readError in
    fail e
  else fail (Errorf "pg: SASL: got %q, wanted %q"
               [ArgByte c; ArgByte authenticationSASLFinalMsg]).

(** The SASL case of [authenticate] behind its loop: the exchange with
    the mechanism [saslMech] the loop has left. *)
Definition authenticate_saslExchange {N} `{Sasl N} (saslMech : Mechanism)
    (user password : bytes) : M unit :=
  let client : N := NewClient saslMech user password in
  match Negotiator_Step client None with
  | None => panic
  | Some (_, _, Some err) => fail err
  | Some (client, resp, None) =>
      let! _ := on_Wr (fun buf =>
                  let buf := StartMessage saslInitialResponseMsg buf in
                  let buf := WriteString (Mechanism_Name saslMech) buf in
                  let buf := WriteInt32 (int32 (Z.of_nat (length resp))) buf in
                  WriteBytes resp buf) in
      let! _ := on_Wr FinishMessage in
      let! _ := FlushWriter in
      let! (typ, n) := readMessageType in
      if Ascii.eqb typ authenticationSASLContinueMsg then
        let! c11 := readInt32 in
        if negb (c11 =? 11)
        then fail (Errorf "pg: SASL: got %q, wanted %q" [ArgByte typ; ArgInt 11])
        else
          let! b := ReadN (n - 4) in
          match Negotiator_Step client (Some b) with
          | None => panic
          | Some (_, _, Some err) => fail err
          | Some (client, resp, None) =>
              let! _ := on_Wr (fun buf =>
                          let buf := StartMessage saslResponseMsg buf in
                          WriteBytes resp buf) in
              let! _ := on_Wr FinishMessage in
              let! _ := FlushWriter in
              readAuthSASLFinal client
          end
      else if Ascii.eqb typ errorResponseMsg then
        let! e := readError in
        fail e
      else fail (Errorf "pg: SASL: got %q, wanted %q"
                   [ArgByte typ; ArgByte authenticationSASLContinueMsg])
  end.

Definition authenticate {N} `{Sasl N} (user password : bytes) : M unit :=
  let! num := readInt32 in
  if num =? authenticationOK then ret tt
  else if num =? authenticationCleartextPassword then
    let! _ := on_Wr (writePasswordMsg password) in
    let! _ := FlushWriter in
    authenticate_passwordResponse
  else if num =? authenticationMD5Password then
    let! b := ReadN 4 in
    let secret := str "md5" ++ md5s (md5s (password ++ user) ++ b) in
    let! _ := on_Wr (writePasswordMsg secret) in
    let! _ := FlushWriter in
    authenticate_passwordResponse
  else if num =? authenticationSASL then
    let! saslMech := authenticate_saslLoop in
    authenticate_saslExchange saslMech user password
  else fail (Errorf "pg: unknown authentication message response: %d" [ArgInt num]).

(** ** Startup *)

Definition writeStartupMsg (user database : bytes) (buf : WriteBuffer) : WriteBuffer :=
  let buf := StartMessage NUL buf in
  let buf := WriteInt32 196608 buf in
  let buf := WriteString (str "user") buf in
  let buf := WriteString user buf in
  let buf := WriteString (str "database") buf in
  let buf := WriteString database buf in
  let buf := WriteString [] buf in
  FinishMessage buf.

Definition startup_body {N} `{Sasl N} (user password : bytes) (_ : unit)
  : M (step unit unit) :=
  let! (c, msgLen) := readMessageType in
  if Ascii.eqb c backendKeyDataMsg then
    let! processId := readInt32 in
    let! secretKey := readInt32 in
    let! _ := modify (set_Key processId secretKey) in
    ret (Continue tt)
  else if Ascii.eqb c parameterStatusMsg then
    let! _ := logParameterStatus msgLen in
    ret (Continue tt)
  else if Ascii.eqb c authenticationOKMsg then
    let! _ := authenticate user password in
    ret (Continue tt)
  else if Ascii.eqb c readyForQueryMsg then
    let! _ := ReadN msgLen in
    ret (Return tt)
  else if Ascii.eqb c errorResponseMsg then
    let! e := readError in
    fail e
  else fail (Errorf "pg: unknown startup message response: %q" [ArgByte c]).

Definition startup {N} `{Sasl N} (user password database : bytes) : M unit :=
  let! _ := on_Wr (writeStartupMsg user database) in
  let! _ := FlushWriter in
  for_ever (startup_body user password) tt.

(** ** Messages as the server sends them

    The statements below speak of the bytes of well-formed backend
    messages; these definitions build them. *)

(** A tagged message: the tag, the length of the payload plus 4 for the
    length field itself, the payload. *)
Definition frame (c : ascii) (payload : bytes) : bytes :=
  c :: BigEndian_PutUint32 (uint32 (Z.of_nat (length payload) + 4)) ++ payload.

Definition cstring (s : bytes) : bytes := s ++ [NUL].

(** The body of an ErrorResponse: fields of a code byte and a string, and
    a terminating zero byte. *)
Definition fieldBytes (f : ascii * bytes) : bytes := f.1 :: cstring f.2.
Definition errorBody (fields : list (ascii * bytes)) : bytes :=
  flat_map fieldBytes fields ++ [NUL].

Definition wf_field (f : ascii * bytes) : Prop := f.1 <> NUL /\ (NUL ∉ f.2).

(** The error [readError] builds from the fields: later fields of a code
    replace earlier ones, and the remote address sits under the code [a]. *)
Definition addField (m : gmap ascii bytes) (f : ascii * bytes) : gmap ascii bytes :=
  <[f.1 := f.2]> m.
Definition pgError (addr : bytes) (fields : list (ascii * bytes)) : error :=
  PGError (foldl addField {[ "a"%char := addr ]} fields).

(** The backend messages the query readers meet before ReadyForQuery. *)
Inductive backendMsg : Type :=
| CommandComplete (payload : bytes)
| RowDescription (payload : bytes)
| DataRow (payload : bytes)
| BindComplete
| ErrorResponse (fields : list (ascii * bytes))
| NoticeResponse (payload : bytes)
| ParameterStatus (payload : bytes).

Definition encode (m : backendMsg) : bytes :=
  match m with
  | CommandComplete p => frame commandCompleteMsg p
  | RowDescription p => frame rowDescriptionMsg p
  | DataRow p => frame dataRowMsg p
  | BindComplete => frame bindCompleteMsg []
  | ErrorResponse fields => frame errorResponseMsg (errorBody fields)
  | NoticeResponse p => frame noticeResponseMsg p
  | ParameterStatus p => frame parameterStatusMsg p
  end.

Definition encodeAll (msgs : list backendMsg) : bytes := flat_map encode msgs.

(** ReadyForQuery with its byte of transaction status. *)
Definition ReadyForQuery (status : ascii) : bytes := frame readyForQueryMsg [status].

Definition payloadOf (m : backendMsg) : bytes :=
  match m with
  | CommandComplete p | RowDescription p | DataRow p
  | NoticeResponse p | ParameterStatus p => p
  | BindComplete => []
  | ErrorResponse fields => errorBody fields
  end.

(** A message is well formed when its length fits the signed 32-bit
    length field and, for an ErrorResponse, its fields are strings behind
    non-zero codes. *)
Definition wf_msg (m : backendMsg) : Prop :=
  Z.of_nat (length (payloadOf m)) + 4 < 2 ^ 31 /\
  match m with
  | ErrorResponse fields => Forall wf_field fields
  | _ => True
  end.

Definition isDataRow (m : backendMsg) : bool :=
  match m with DataRow _ => true | _ => false end.
Definition isCommandComplete (m : backendMsg) : bool :=
  match m with CommandComplete _ => true | _ => false end.
Definition isBindComplete (m : backendMsg) : bool :=
  match m with BindComplete => true | _ => false end.
Definition isRowDescription (m : backendMsg) : bool :=
  match m with RowDescription _ => true | _ => false end.

(** The errors a response carries, in the order of arrival, as [readError]
    builds them on a connection to [addr]. *)
Definition errorsOf (addr : bytes) (msgs : list backendMsg) : list error :=
  omap (fun m => match m with
                 | ErrorResponse fields => Some (pgError addr fields)
                 | _ => None
                 end) msgs.

(** The number of DataRow messages of a response. *)
Definition dataRows (msgs : list backendMsg) : Z :=
  Z.of_nat (length (filter (fun m => isDataRow m = true) msgs)).

(** What one accepted message does to the state of [readSimpleQuery] and
    of [readExtQuery]. *)
Definition query_step (addr : bytes) (s : queryState) (m : backendMsg) : queryState :=
  match m with
  | CommandComplete b => mkQueryState (Some (NewResult b (rows s))) (retErr s) (rows s)
  | DataRow _ => mkQueryState (res s) (retErr s) (rows s + 1)
  | ErrorResponse fields =>
      mkQueryState (res s) (setErr (retErr s) (pgError addr fields)) (rows s)
  | _ => s
  end.

(** What one accepted message does to the state of [readReadyForQuery]. *)
Definition ready_step (addr : bytes) (s : option Result * option error)
    (m : backendMsg) : option Result * option error :=
  match m with
  | CommandComplete b => (Some (NewResult b 0), s.2)
  | ErrorResponse fields => (s.1, Some (pgError addr fields))
  | _ => s
  end.

(** The messages [readReadyForQuery] has a case for. *)
Definition afterCopy (m : backendMsg) : bool :=
  match m with
  | CommandComplete _ | ErrorResponse _ | NoticeResponse _ | ParameterStatus _ => true
  | _ => false
  end.

(** ** A connection to try the readers on *)

(** A fresh connection to a server at 127.0.0.1:5432 that is about to send
    [input]: nothing written yet, a reader buffer of 4096 bytes. *)
Definition conn0 (input : bytes) : Conn :=
  mkConn input 4096 (mkWriteBuffer [] 0 0) [] true false 0 0 nil_slice
         (str "127.0.0.1:5432").

(** The field of a server error under a code, if it has one. *)
Definition errorField (e : error) (k : ascii) : option bytes :=
  match e with
  | PGError m => m !! k
  | _ => None
  end.

(** An in-memory sink, as a [bytes.Buffer]: it keeps what it is given. *)
#[export] Instance buffer_Writer : Writer bytes :=
  fun w b => (w ++ b, None).

(** The body of a RowDescription: the count of fields, and per field its
    NUL-terminated name and 18 bytes of metadata. *)
Definition fieldDesc (f : bytes * bytes) : bytes := cstring f.1 ++ f.2.
Definition rowDescription (fields : list (bytes * bytes)) : bytes :=
  BigEndian_PutUint16 (uint16 (Z.of_nat (length fields))) ++ flat_map fieldDesc fields.
Definition wf_fieldDesc (f : bytes * bytes) : Prop :=
  (NUL ∉ f.1) /\ length f.2 = 18%nat.

(** The body of a DataRow: the count of fields, and per field its length
    and that many bytes, or the length -1 and no bytes for NULL. *)
Definition fieldValue (v : option bytes) : bytes :=
  match v with
  | Some b => BigEndian_PutUint32 (uint32 (Z.of_nat (length b))) ++ b
  | None => BigEndian_PutUint32 (uint32 (-1))
  end.
Definition dataRow (values : list (option bytes)) : bytes :=
  BigEndian_PutUint16 (uint16 (Z.of_nat (length values))) ++ flat_map fieldValue values.
Definition wf_value (v : option bytes) : Prop :=
  match v with
  | Some b => Z.of_nat (length b) < 2 ^ 31
  | None => True
  end.

(** The scanner run over columns in order, from the index [i] on: each
    column is a name and a value, [None] for NULL.  The result is the
    scanner afterwards and the errors it returned, in order. *)
Fixpoint scanColumns {S} `{ColumnScanner S} (scanner : S) (i : Z)
    (cols : list (bytes * option bytes)) : S * list error :=
  match cols with
  | [] => (scanner, [])
  | (name, v) :: cols' =>
      let '(scanner, e) := ScanColumn scanner i name v in
      let '(scanner, es) := scanColumns scanner (i + 1) cols' in
      (scanner, match e with Some e => e :: es | None => es end)
  end.

(** The errors coalesced by [setErr]: the one held already, else the first
    of the new ones. *)
Definition coalesce (retErr : option error) (es : list error) : option error :=
  match retErr with
  | Some e => Some e
  | None => head es
  end.

(** A scanner that keeps what it is given and refuses the values of the
    column named "bad". *)
Definition scanLog : Type := list (Z * bytes * option bytes).
#[export] Instance log_ColumnScanner : ColumnScanner scanLog :=
  fun log i name v =>
    (log ++ [(i, name, v)],
     if bool_decide (name = str "bad")
     then Some (ExternalError "cannot scan") else None).

(** The 8 bytes of an SSLRequest: the length 8 and the opcode 80877103. *)
Definition sslRequest : bytes :=
  BigEndian_PutUint32 8 ++ BigEndian_PutUint32 80877103.

Definition emptyBuffer : WriteBuffer := mkWriteBuffer [] 0 0.

(** The connection [cn] once its write buffer and the bytes [msg] have been
    flushed and its input has come down to [rest]. *)
Definition flushed (msg rest : bytes) (cn : Conn) : Conn :=
  set_NetOut (NetOut cn ++ Bytes (Wr cn) ++ msg) (set_Wr emptyBuffer (set_Rd rest cn)).

(** ** Computations that only read

    An outcome [o] of a computation started on [cn] that returned, with or
    without an error, having done nothing to the connection but consume
    input. *)
Definition reads_from {A} (cn : Conn) (o : outcome A) : Prop :=
  match o with
  | Ret _ cn' | Fail _ cn' =>
      exists r, cn' = set_Rd r cn /\ (length r <= length (Rd cn))%nat
  | Panic | Exhausted => False
  end.

Definition reads {A} (m : M A) : Prop := forall cn, reads_from cn (m cn).

(** ** SASL mechanism lists *)

(** The server's offer: NUL-terminated names and an empty string. *)
Definition mechanismList (names : list bytes) : bytes :=
  flat_map cstring names ++ [NUL].

(** A name that can stand in such a list: not empty, no NUL in it. *)
Definition wf_mechName (s : bytes) : Prop := s <> [] /\ (NUL ∉ s).

(** The names the loop of [authenticate] has a case for. *)
Definition knownMech (s : bytes) : Prop :=
  s = Mechanism_Name ScramSha256 \/ s = Mechanism_Name ScramSha256Plus.

(** The mechanism held after the known names [names], [saslMech] being the
    one held before. *)
Definition selectMech (saslMech : Mechanism) (names : list bytes) : Mechanism :=
  foldl (fun m s => if bool_decide (s = Mechanism_Name ScramSha256)
                    then ScramSha256 else m) saslMech names.

(** A SASL library for the concrete runs.  A negotiator is the number of
    its next step, counted from 1; it answers each step with its input
    turned around and is in the state 3 after three steps.  The zero
    Mechanism has no functions to step with: its negotiator is 0, and a step
    of it is the call of a nil function, a run-time panic. *)
#[export] Instance echoSasl : Sasl nat := {|
  NewClient mech _ _ :=
    match mech with
    | zeroMechanism => 0%nat
    | _ => 1%nat
    end;
  Negotiator_Step n challenge :=
    match n with
    | O => None
    | _ => Some (Datatypes.S n, reverse (default [] challenge), None)
    end;
  Negotiator_State n := Z.of_nat n - 1;
|}.

(** ** Bind, Execute and Sync on the wire *)

(** The parameter values of a Bind: each a length and its bytes, or -1. *)
Definition paramBytes {P} `{ValueCodec P} (params : list P) : bytes :=
  flat_map (fun param => fieldValue (encode_value param)) params.

(** The three messages [writeBindExecuteMsg] composes, [count] being the
    unsigned value of the 16 bits of the parameter count. *)
Definition bindExecuteSync {P} `{ValueCodec P} (name : bytes) (count : Z)
    (params : list P) : bytes :=
  frame bindMsg (cstring [] ++ cstring name ++ BigEndian_PutUint16 0
                 ++ BigEndian_PutUint16 count ++ paramBytes params
                 ++ BigEndian_PutUint16 0)
  ++ frame executeMsg (cstring [] ++ BigEndian_PutUint32 0)
  ++ frame syncMsg [].

(** A buffer with a message under construction behind [pre]: the tag, the
    placeholder of the length, the payload written so far. *)
Definition building (pre : bytes) (c : ascii) (payload : bytes) (ps : nat)
  : WriteBuffer :=
  mkWriteBuffer (pre ++ c :: [NUL; NUL; NUL; NUL] ++ payload)
                (Datatypes.S (length pre)) ps.

(** A codec for the concrete runs: a parameter is its own encoding, or NULL. *)
#[export] Instance plain_ValueCodec : ValueCodec (option bytes) :=
  fun param => param.

(** ** Computations that return

    A computation [consumes] when on every connection it returns, fails or
    panics, never running out of the rounds of a loop, and leaves no more
    input than it found; it [advances] when a normal return has moreover
    consumed some input. *)
Definition consumes {A} (m : M A) : Prop :=
  forall cn,
    match m cn with
    | Ret _ cn' | Fail _ cn' => (length (Rd cn') <= length (Rd cn))%nat
    | Panic => True
    | Exhausted => False
    end.

Definition advances {A} (m : M A) : Prop :=
  forall cn,
    match m cn with
    | Ret _ cn' => (length (Rd cn') < length (Rd cn))%nat
    | Fail _ cn' => (length (Rd cn') <= length (Rd cn))%nat
    | Panic => True
    | Exhausted => False
    end.

(** The round of a loop [progresses] when it has consumed some input
    whenever it asks for another round. *)
Definition progresses {S R} (m : M (step S R)) : Prop :=
  forall cn,
    match m cn with
    | Ret (Continue _) cn' => (length (Rd cn') < length (Rd cn))%nat
    | Ret (Return _) cn' | Fail _ cn' => (length (Rd cn') <= length (Rd cn))%nat
    | Panic => True
    | Exhausted => False
    end.

(** The side-channel messages: notices and parameter updates. *)
Definition isSideChannel (m : backendMsg) : bool :=
  match m with
  | NoticeResponse _ | ParameterStatus _ => true
  | _ => false
  end.

(** ** The other message tags *)

Definition terminateMsg : ascii := "X".
Definition notificationResponseMsg : ascii := "A".
Definition describeMsg : ascii := "D".
Definition queryMsg : ascii := "Q".
Definition emptyQueryResponseMsg : ascii := "I".
Definition parseMsg : ascii := "P".
Definition flushMsg : ascii := "H".
Definition closeMsg : ascii := "C".
Definition closeCompleteMsg : ascii := "3".
Definition copyInResponseMsg : ascii := "G".
Definition copyOutResponseMsg : ascii := "H".

(** ** The other request writers *)

Definition writeFlushMsg (buf : WriteBuffer) : WriteBuffer :=
  let buf := StartMessage flushMsg buf in
  FinishMessage buf.

Definition writeCancelRequestMsg (processId secretKey : Z) (buf : WriteBuffer)
  : WriteBuffer :=
  let buf := StartMessage NUL buf in
  let buf := WriteInt32 80877102 buf in
  let buf := WriteInt32 processId buf in
  let buf := WriteInt32 secretKey buf in
  FinishMessage buf.

Definition writeParseDescribeSyncMsg (name q : bytes) (buf : WriteBuffer)
  : WriteBuffer :=
  let buf := StartMessage parseMsg buf in
  let buf := WriteString name buf in
  let buf := WriteString q buf in
  let buf := WriteInt16 0 buf in
  let buf := FinishMessage buf in
  let buf := StartMessage describeMsg buf in
  let buf := WriteByte "S" buf in
  let buf := WriteString name buf in
  let buf := FinishMessage buf in
  writeSyncMsg buf.

Definition writeCloseMsg (name : bytes) (buf : WriteBuffer) : WriteBuffer :=
  let buf := StartMessage closeMsg buf in
  let buf := WriteByte "S" buf in
  let buf := WriteString name buf in
  FinishMessage buf.

Definition writeCopyDone (buf : WriteBuffer) : WriteBuffer :=
  let buf := StartMessage copyDoneMsg buf in
  FinishMessage buf.

(** [terminateMessage] is a literal of the source; [terminateConn] hands
    it to the network connection itself, not to the write buffer.  The
    network takes it as it takes the bytes of [FlushWriter]. *)
Definition terminateMessage : bytes :=
  [terminateMsg; byte_of 0; byte_of 0; byte_of 0; byte_of 4].

Definition terminateConn : M unit :=
  fun cn =>
    if NetUp cn
    then Ret tt (set_NetOut (NetOut cn ++ terminateMessage) cn)
    else Fail io_WriteError cn.

(** ** Query text *)

(** [orm.QueryFormatter] and [orm.QueryAppender], interfaces of the
    package [orm]: both get the destination slice and give back a slice. *)
Class QueryFormatter (F P : Type) : Type :=
  FormatQuery : F -> bytes -> bytes -> list P -> bytes.

Class QueryAppender (Q P : Type) : Type :=
  AppendQuery : Q -> bytes -> list P -> bytes * option error.

(** The argument [query interface{}] by its dynamic type: a
    [QueryAppender], a [string], or a value of another type, of which the
    error message prints the name. *)
Inductive queryArg (Q : Type) : Type :=
| ofQueryAppender (q : Q)
| ofString (s : bytes)
| ofType (name : bytes).
Arguments ofQueryAppender {Q} _.
Arguments ofString {Q} _.
Arguments ofType {Q} _.

Definition appendQuery {F Q P} `{QueryFormatter F P} `{QueryAppender Q P}
    (dst : bytes) (fmter : F) (query : queryArg Q) (params : list P)
  : bytes * option error :=
  match query with
  | ofQueryAppender query => AppendQuery query dst params
  | ofString query => (FormatQuery fmter dst query params, None)
  | ofType name => ([], Some (Errorf "pg: can't append %T" [ArgStr name]))
  end.

(** Modelled from the spec: [pool.WriteBuffer.Reset] is not among the
    sources; section 4.1 has it restore the buffer to the start of the
    current message, which for a message with a tag, as the one of its
    use, is the byte before the length field. *)
Definition WriteBuffer_Reset (buf : WriteBuffer) : WriteBuffer :=
  set_Bytes (take (msgStart buf - 1) (Bytes buf)) buf.

(** [b[n:]]: a run-time panic when [n] is beyond [len(b)]. *)
Definition slice_from (n : nat) (b : bytes) : option bytes :=
  if (n <=? length b)%nat then Some (drop n b) else None.

(** [writeQueryMsg].  [internal.QueryLogger] is a variable of the package
    [internal]: [logger] is [None] when it is nil and holds the texts
    logged so far otherwise.  The result is [None] for a run-time panic,
    else the buffer, the logger and the error returned. *)
Definition writeQueryMsg {F Q P} `{QueryFormatter F P} `{QueryAppender Q P}
    (logger : option (list bytes)) (fmter : F) (query : queryArg Q)
    (params : list P) (buf : WriteBuffer)
  : option (WriteBuffer * option (list bytes) * option error) :=
  let buf := StartMessage queryMsg buf in
  match appendQuery (Bytes buf) fmter query params with
  | (_, Some err) => Some (WriteBuffer_Reset buf, logger, Some err)
  | (bytes, None) =>
      let finish logger :=
        let buf := set_Bytes bytes buf in
        let buf := WriteByte (byte_of 0) buf in
        let buf := FinishMessage buf in
        Some (buf, logger, None) in
      match logger with
      | None => finish None
      | Some log =>
          match slice_from 5 bytes with
          | None => None
          | Some text => finish (Some (log ++ [text]))
          end
      end
  end.

(** ** The readers that wait for one message *)

Definition readBindMsg_body (_ : unit) : M (step unit unit) :=
  let! (c, msgLen) := readMessageType in
  if Ascii.eqb c bindCompleteMsg then
    let! _ := ReadN msgLen in
    ret (Continue tt)
  else if Ascii.eqb c readyForQueryMsg then
    let! _ := ReadN msgLen in
    ret (Return tt)
  else if Ascii.eqb c errorResponseMsg then
    let! e := readError in
    fail e
  else if Ascii.eqb c noticeResponseMsg then
    let! _ := logNotice msgLen in
    ret (Continue tt)
  else if Ascii.eqb c parameterStatusMsg then
    let! _ := logParameterStatus msgLen in
    ret (Continue tt)
  else fail (unexpected "readBindMsg" c).

Definition readBindMsg : M unit := for_ever readBindMsg_body tt.

Definition readCloseCompleteMsg_body (_ : unit) : M (step unit unit) :=
  let! (c, msgLen) := readMessageType in
  if Ascii.eqb c closeCompleteMsg then
    let! _ := ReadN msgLen in
    ret (Return tt)
  else if Ascii.eqb c errorResponseMsg then
    let! e := readError in
    fail e
  else if Ascii.eqb c noticeResponseMsg then
    let! _ := logNotice msgLen in
    ret (Continue tt)
  else if Ascii.eqb c parameterStatusMsg then
    let! _ := logParameterStatus msgLen in
    ret (Continue tt)
  else fail (unexpected "readCloseCompleteMsg" c).

Definition readCloseCompleteMsg : M unit := for_ever readCloseCompleteMsg_body tt.

Definition readCopyInResponse_body (_ : unit) : M (step unit unit) :=
  let! (c, msgLen) := readMessageType in
  if Ascii.eqb c copyInResponseMsg then
    let! _ := ReadN msgLen in
    ret (Return tt)
  else if Ascii.eqb c errorResponseMsg then
    let! e := readError in
    fail e
  else if Ascii.eqb c noticeResponseMsg then
    let! _ := logNotice msgLen in
    ret (Continue tt)
  else if Ascii.eqb c parameterStatusMsg then
    let! _ := logParameterStatus msgLen in
    ret (Continue tt)
  else fail (unexpected "readCopyInResponse" c).

Definition readCopyInResponse : M unit := for_ever readCopyInResponse_body tt.

Definition readCopyOutResponse_body (_ : unit) : M (step unit unit) :=
  let! (c, msgLen) := readMessageType in
  if Ascii.eqb c copyOutResponseMsg then
    let! _ := ReadN msgLen in
    ret (Return tt)
  else if Ascii.eqb c errorResponseMsg then
    let! e := readError in
    fail e
  else if Ascii.eqb c noticeResponseMsg then
    let! _ := logNotice msgLen in
    ret (Continue tt)
  else if Ascii.eqb c parameterStatusMsg then
    let! _ := logParameterStatus msgLen in
    ret (Continue tt)
  else fail (unexpected "readCopyOutResponse" c).

Definition readCopyOutResponse : M unit := for_ever readCopyOutResponse_body tt.

(** [readNotification] returns the channel and the payload; it has no
    case for ParameterStatus. *)
Definition readNotification_body (_ : unit) : M (step unit (bytes * bytes)) :=
  let! (c, msgLen) := readMessageType in
  if Ascii.eqb c commandCompleteMsg then
    let! _ := ReadN msgLen in
    ret (Continue tt)
  else if Ascii.eqb c readyForQueryMsg then
    let! _ := ReadN msgLen in
    ret (Continue tt)
  else if Ascii.eqb c errorResponseMsg then
    let! e := readError in
    fail e
  else if Ascii.eqb c noticeResponseMsg then
    let! _ := logNotice msgLen in
    ret (Continue tt)
  else if Ascii.eqb c notificationResponseMsg then
    let! _ := readInt32 in
    let! channel := readString in
    let! payload := readString in
    ret (Return (channel, payload))
  else fail (Errorf "pg: unexpected message %q" [ArgByte c]).

Definition readNotification : M (bytes * bytes) := for_ever readNotification_body tt.

(** ** Responses by tag and payload

    The readers below meet messages the type [backendMsg] has no
    constructor for; their responses are lists of a tag and a payload. *)
Definition frames (msgs : list (ascii * bytes)) : bytes :=
  flat_map (fun m => frame m.1 m.2) msgs.

(** The payload fits the signed 32-bit length field. *)
Definition wf_frame (m : ascii * bytes) : Prop :=
  Z.of_nat (length m.2) + 4 < 2 ^ 31.

(** The payloads of the CommandComplete messages of a response, in order. *)
Definition commandTags (msgs : list backendMsg) : list bytes :=
  omap (fun m => match m with
                 | CommandComplete b => Some b
                 | _ => None
                 end) msgs.

(** The messages [readBindMsg] goes round again for. *)
Definition beforeBound (m : backendMsg) : bool :=
  match m with
  | BindComplete | NoticeResponse _ | ParameterStatus _ => true
  | _ => false
  end.

(** The text the readers [readCloseCompleteMsg], [readCopyInResponse] and
    [readCopyOutResponse] have in common: one round of a reader that waits
    for the message [own] and names itself [reader] in its error. *)
Definition awaits (own : ascii) (reader : string) (_ : unit) : M (step unit unit) :=
  let! (c, msgLen) := readMessageType in
  if Ascii.eqb c own then
    let! _ := ReadN msgLen in
    ret (Return tt)
  else if Ascii.eqb c errorResponseMsg then
    let! e := readError in
    fail e
  else if Ascii.eqb c noticeResponseMsg then
    let! _ := logNotice msgLen in
    ret (Continue tt)
  else if Ascii.eqb c parameterStatusMsg then
    let! _ := logParameterStatus msgLen in
    ret (Continue tt)
  else fail (unexpected reader c).

(** The tags a reader that waits for [own] has a case for. *)
Definition awaited (own : ascii) : list ascii :=
  [own; errorResponseMsg; noticeResponseMsg; parameterStatusMsg].

(** The messages [readNotification] goes round again for. *)
Definition beforeNotification : list ascii :=
  [commandCompleteMsg; readyForQueryMsg; noticeResponseMsg].

(** A NotificationResponse as [readNotification] reads it: the header with
    any four bytes in the place of the length, four bytes of process id,
    the channel and the payload. *)
Definition notification (len4 pid4 channel payload : bytes) : bytes :=
  notificationResponseMsg :: len4 ++ pid4 ++ cstring channel ++ cstring payload.

(** ** COPY TO STDOUT *)

(** The messages [readCopyData] goes round again for. *)
Definition duringCopy : list ascii :=
  [copyDataMsg; copyDoneMsg; commandCompleteMsg; noticeResponseMsg;
   parameterStatusMsg].

(** The payloads of the messages with the tag [c], in order. *)
Definition payloadsOf (c : ascii) (msgs : list (ascii * bytes)) : list bytes :=
  map snd (filter (fun m => m.1 = c) msgs).

(** The sink after the writes of [ps] in order, up to the first write it
    refuses. *)
Fixpoint writeAll {W} `{Writer W} (w : W) (ps : list bytes) : W * option error :=
  match ps with
  | [] => (w, None)
  | p :: ps' =>
      match Write w p with
      | (w, Some err) => (w, Some err)
      | (w, None) => writeAll w ps'
      end
  end.

(** The Result of the last of the command tags [tags], with no rows;
    [res] when there is none. *)
Definition resultOfLast (res : option Result) (tags : list bytes) : option Result :=
  match last tags with
  | Some b => Some (NewResult b 0)
  | None => res
  end.

(** A sink of four bytes: it takes what fits and refuses the rest. *)
Definition fourByteSink : Writer bytes :=
  fun w b =>
    if (length (w ++ b) <=? 4)%nat
    then (w ++ b, None)
    else (w, Some (ExternalError "sink is full")).

(** ** Requests on the wire *)

(** A request without a tag: the length of the payload plus 4, the
    payload. *)
Definition untagged (payload : bytes) : bytes :=
  BigEndian_PutUint32 (uint32 (Z.of_nat (length payload) + 4)) ++ payload.

(** The StartupMessage of a user and a database. *)
Definition startupMessage (user database : bytes) : bytes :=
  untagged (BigEndian_PutUint32 196608
            ++ cstring (str "user") ++ cstring user
            ++ cstring (str "database") ++ cstring database ++ [NUL]).

(** Parse, Describe and Sync for the statement [name] with the text [q]. *)
Definition parseDescribeSync (name q : bytes) : bytes :=
  frame parseMsg (cstring name ++ cstring q ++ BigEndian_PutUint16 0)
  ++ frame describeMsg ("S"%char :: cstring name)
  ++ frame syncMsg [].

(** ** The server's side of the startup *)

(** The messages [startup] goes round again for: BackendKeyData with the
    four bytes of the process id and the four bytes of the secret key,
    ParameterStatus, and the authentication request of the code 0,
    AuthenticationOk. *)
Inductive startupMsg : Type :=
| BackendKeyData (pid4 key4 : bytes)
| StartupParameter (payload : bytes)
| AuthenticationOk.

Definition encodeStartup (m : startupMsg) : bytes :=
  match m with
  | BackendKeyData pid4 key4 => frame backendKeyDataMsg (pid4 ++ key4)
  | StartupParameter p => frame parameterStatusMsg p
  | AuthenticationOk => frame authenticationOKMsg (BigEndian_PutUint32 0)
  end.

Definition wf_startupMsg (m : startupMsg) : Prop :=
  match m with
  | BackendKeyData pid4 key4 => length pid4 = 4%nat /\ length key4 = 4%nat
  | StartupParameter p => wf_frame (parameterStatusMsg, p)
  | AuthenticationOk => True
  end.

(** The key bytes the connection has after the message [m], [k] being the
    ones before. *)
Definition keyBytes (k : option (bytes * bytes)) (m : startupMsg)
  : option (bytes * bytes) :=
  match m with
  | BackendKeyData pid4 key4 => Some (pid4, key4)
  | _ => k
  end.

(** The connection with the key of the bytes [k], when there are any. *)
Definition keyed (k : option (bytes * bytes)) (cn : Conn) : Conn :=
  match k with
  | Some (pid4, key4) =>
      set_Key (int32 (BigEndian_Uint32 pid4)) (int32 (BigEndian_Uint32 key4)) cn
  | None => cn
  end.

(** A formatter and a query for the concrete runs: the formatter appends
    the text as it stands, the query refuses to be appended. *)
#[export] Instance verbatim_QueryFormatter : QueryFormatter unit (option bytes) :=
  fun _ dst query _ => dst ++ query.
#[export] Instance refusing_QueryAppender : QueryAppender unit (option bytes) :=
  fun _ _ _ => ([], Some (ExternalError "cannot append")).

(** ** The SASL exchange on the wire *)

(** The server's part: the continuation with the challenge and the final
    message with the server's signature. *)
Definition saslContinue (challenge : bytes) : bytes :=
  frame authenticationSASLContinueMsg (BigEndian_PutUint32 11 ++ challenge).
Definition saslFinal (final : bytes) : bytes :=
  frame authenticationSASLFinalMsg (BigEndian_PutUint32 12 ++ final).

(** The client's part: the initial response, naming the mechanism and
    giving the length of the first message in 32 bits, and the response to
    the challenge. *)
Definition saslInitialResponse (mech : Mechanism) (resp : bytes) : bytes :=
  frame saslInitialResponseMsg
    (cstring (Mechanism_Name mech)
     ++ BigEndian_PutUint32 (Z.of_nat (length resp) mod 2 ^ 32) ++ resp).
Definition saslResponse (resp : bytes) : bytes := frame saslResponseMsg resp.

(** ** Queries with a model

    [orm.Model], [orm.ColumnScanner] and [orm.NewModel] belong to the
    package [orm], an interface here.  Its objects are shared and changed
    in place: the row target a model hands out may be a part of the model
    itself.  Their states are therefore one store [St], into which models
    [Md] and row targets [Sc] refer, and every method takes the store and
    gives it back.  [mod interface{}], here [mod_], is a value of [Mod];
    [asModel] is the type assertion [mod.(orm.Model)].  [Discard] is a variable of the
    package [pg] that is not among the sources: the readers use it as a
    model like any other. *)
Class Orm (St Mod Md Sc : Type) : Type := {
  asModel : Mod -> option Md;
  orm_NewModel : Mod -> St -> St * (Md + error);
  Model_Reset : Md -> St -> St * option error;
  Model_NewModel : Md -> St -> St * Sc;
  Model_AddModel : Md -> Sc -> St -> St * option error;
  Row_ScanColumn : Sc -> St -> Z -> bytes -> option bytes -> St * option error;
  Discard : Md;
}.

(** The loop state of [readSimpleQueryData] and [readExtQueryData]: the
    store, the named results [res], [model] and [retErr], the local
    [rows].  A nil [model] is [None]. *)
Module Data.
Record state (St Md : Type) : Type := mk {
  store : St;
  res : option Result;
  model : option Md;
  retErr : option error;
  rows : Z;
}.
Arguments mk {St Md} _ _ _ _ _.
Arguments store {St Md} _.
Arguments res {St Md} _.
Arguments model {St Md} _.
Arguments retErr {St Md} _.
Arguments rows {St Md} _.
End Data.

Section WithModel.
Context {St Mod Md Sc : Type} `{!Orm St Mod Md Sc}.

(** A row target with the store is a scanner for [readDataRow]. *)
#[export] Instance row_ColumnScanner : ColumnScanner (St * Sc) :=
  fun s colIdx column b =>
    let '(st, err) := Row_ScanColumn s.2 s.1 colIdx column b in
    ((st, s.2), err).

(** [newModel]: the store afterwards, the model and the error. *)
Definition newModel (mod_ : Mod) (st : St) : St * option Md * option error :=
  match asModel mod_ with
  | Some m =>
      let '(st, err) := Model_Reset m st in
      (st, Some m, err)
  | None =>
      match orm_NewModel mod_ st with
      | (st, inr err) => (st, None, Some err)
      | (st, inl m) =>
          let '(st, err) := Model_Reset m st in
          (st, Some m, err)
      end
  end.

(** [model, err = newModel(mod)] and, on an error, [setErr(err)] and
    [model = Discard]. *)
Definition makeModel (mod_ : Mod) (s : Data.state St Md) : Data.state St Md :=
  match newModel mod_ (Data.store s) with
  | (st, _, Some err) =>
      Data.mk st (Data.res s) (Some Discard) (setErr (Data.retErr s) err) (Data.rows s)
  | (st, model, None) =>
      Data.mk st (Data.res s) model (Data.retErr s) (Data.rows s)
  end.

(** The case of a DataRow in both readers: a row target from the model,
    the row read into it, the target added to the model unless the read
    returned an error, and [rows++].  A nil model is a method call on a
    nil interface.  [readDataRow] fails on a short read only, with the
    stream at its end, so that the round after it fails as well and
    nothing is returned but the error: the store the rounds go on with is
    then of no account. *)
Definition scanRow (columns : slice bytes) (s : Data.state St Md)
  : M (step (Data.state St Md) (St * option Result * option Md * option error)) :=
  match Data.model s with
  | None => panic
  | Some model =>
      let '(st, m) := Model_NewModel model (Data.store s) in
      let! r := try (readDataRow (st, m) columns) in
      match r with
      | inr err =>
          ret (Continue (Data.mk st (Data.res s) (Data.model s)
                           (setErr (Data.retErr s) err) (Data.rows s + 1)))
      | inl ((st, m), Some err) =>
          ret (Continue (Data.mk st (Data.res s) (Data.model s)
                           (setErr (Data.retErr s) err) (Data.rows s + 1)))
      | inl ((st, m), None) =>
          let '(st, err) := Model_AddModel model m st in
          let retErr := match err with
                        | Some err => setErr (Data.retErr s) err
                        | None => Data.retErr s
                        end in
          ret (Continue (Data.mk st (Data.res s) (Data.model s) retErr
                           (Data.rows s + 1)))
      end
  end.

Definition readSimpleQueryData_body (mod_ : Mod) (s : Data.state St Md)
  : M (step (Data.state St Md) (St * option Result * option Md * option error)) :=
  let! (c, msgLen) := readMessageType in
  if Ascii.eqb c rowDescriptionMsg then
    let! cn := get in
    match reslice (Columns cn) 0 with
    | None => panic
    | Some columns =>
        let! r := try (readRowDescription columns) in
        match r with
        | inr err =>
            let! _ := modify (set_Columns nil_slice) in
            fail err
        | inl columns =>
            let! _ := modify (set_Columns columns) in
            match Data.model s with
            | None => ret (Continue (makeModel mod_ s))
            | Some _ => ret (Continue s)
            end
        end
    end
  else if Ascii.eqb c dataRowMsg then
    let! cn := get in
    scanRow (Columns cn) s
  else if Ascii.eqb c commandCompleteMsg then
    let! b := ReadN msgLen in
    ret (Continue (Data.mk (Data.store s) (Some (NewResult b (Data.rows s)))
                     (Data.model s) (Data.retErr s) (Data.rows s)))
  else if Ascii.eqb c readyForQueryMsg then
    let! _ := ReadN msgLen in
    ret (Return (Data.store s, Data.res s, Data.model s, Data.retErr s))
  else if Ascii.eqb c errorResponseMsg then
    let! e := readError in
    ret (Continue (Data.mk (Data.store s) (Data.res s) (Data.model s)
                     (setErr (Data.retErr s) e) (Data.rows s)))
  else if Ascii.eqb c noticeResponseMsg then
    let! _ := logNotice msgLen in
    ret (Continue s)
  else if Ascii.eqb c parameterStatusMsg then
    let! _ := logParameterStatus msgLen in
    ret (Continue s)
  else fail (unexpected "readSimpleQueryData" c).

(** [Ret (st, res, model, retErr)] is the [return res, model, retErr] at
    ReadyForQuery, with the store as the readers leave it; [Fail err] is a
    [return nil, nil, err]. *)
Definition readSimpleQueryData (mod_ : Mod) (st : St)
  : M (St * option Result * option Md * option error) :=
  for_ever (readSimpleQueryData_body mod_) (Data.mk st None None None 0).

Definition readExtQueryData_body (mod_ : Mod) (columns : slice bytes)
    (s : Data.state St Md)
  : M (step (Data.state St Md) (St * option Result * option Md * option error)) :=
  let! (c, msgLen) := readMessageType in
  if Ascii.eqb c bindCompleteMsg then
    let! _ := ReadN msgLen in
    ret (Continue s)
  else if Ascii.eqb c dataRowMsg then
    let s := match Data.model s with
             | None => makeModel mod_ s
             | Some _ => s
             end in
    scanRow columns s
  else if Ascii.eqb c commandCompleteMsg then
    let! b := ReadN msgLen in
    ret (Continue (Data.mk (Data.store s) (Some (NewResult b (Data.rows s)))
                     (Data.model s) (Data.retErr s) (Data.rows s)))
  else if Ascii.eqb c readyForQueryMsg then
    let! _ := ReadN msgLen in
    ret (Return (Data.store s, Data.res s, Data.model s, Data.retErr s))
  else if Ascii.eqb c errorResponseMsg then
    let! e := readError in
    ret (Continue (Data.mk (Data.store s) (Data.res s) (Data.model s)
                     (setErr (Data.retErr s) e) (Data.rows s)))
  else if Ascii.eqb c noticeResponseMsg then
    let! _ := logNotice msgLen in
    ret (Continue s)
  else if Ascii.eqb c parameterStatusMsg then
    let! _ := logParameterStatus msgLen in
    ret (Continue s)
  else fail (unexpected "readExtQueryData" c).

Definition readExtQueryData (mod_ : Mod) (columns : slice bytes) (st : St)
  : M (St * option Result * option Md * option error) :=
  for_ever (readExtQueryData_body mod_ columns) (Data.mk st None None None 0).

End WithModel.

(** ** Responses with rows *)

(** The DataRow messages of the rows [rows], each a list of values. *)
Definition dataRows_of (rows : list (list (option bytes))) : bytes :=
  flat_map (fun values => frame dataRowMsg (dataRow values)) rows.

(** A row a reader with [n] column names can take: values that fit their
    length fields, no more of them than names, a payload that fits the
    length field of the message. *)
Definition wf_row (n : nat) (values : list (option bytes)) : Prop :=
  Forall wf_value values /\ (length values <= n)%nat
  /\ wf_frame (dataRowMsg, dataRow values).

Section RowsIntoModel.
Context {St Mod Md Sc : Type} `{!Orm St Mod Md Sc}.

(** What the readers do with one row, on the store and the error held: a
    row target from the model, the columns scanned into it in order under
    their names, and the target added to the model when no column
    failed. *)
Definition addRow (model : Md) (names : list bytes) (s : St * option error)
    (values : list (option bytes)) : St * option error :=
  let '(st, m) := Model_NewModel model s.1 in
  let '(sc, errs) := scanColumns (st, m) 0 (zip names values) in
  match head errs with
  | Some err => (sc.1, setErr s.2 err)
  | None =>
      let '(st, err) := Model_AddModel model sc.2 sc.1 in
      (st, match err with
           | Some err => setErr s.2 err
           | None => s.2
           end)
  end.

(** The state of the loop after the rows [rows], the model being [model]. *)
Definition afterRows (model : Md) (names : list bytes) (s : Data.state St Md)
    (rows : list (list (option bytes))) : Data.state St Md :=
  let r := foldl (addRow model names) (Data.store s, Data.retErr s) rows in
  Data.mk r.1 (Data.res s) (Some model) r.2 (Data.rows s + Z.of_nat (length rows)).

(** The model the readers go on with after [newModel]. *)
Definition modelOf (r : St * option Md * option error) : option Md :=
  match r with
  | (_, _, Some _) => Some Discard
  | (_, model, None) => model
  end.

End RowsIntoModel.

(** An [orm] for the concrete runs.  The store is the list of the rows of
    the one model, newest last, a row being the columns scanned into it: a
    row is part of the model from [NewModel] on, as the element of a slice
    is, and [AddModel] has nothing left to do.  The model is the value
    [true] of [Mod] and of [Md]; [orm.NewModel] refuses the value [false];
    [Discard], the model [false], hands out the row target [false] and
    keeps nothing.  The column "bad" cannot be scanned. *)
Definition rowsStore : Type := list (list (bytes * option bytes)).

Definition scanIntoLast (st : rowsStore) (name : bytes) (v : option bytes)
  : rowsStore :=
  match reverse st with
  | [] => [[(name, v)]]
  | row :: before => reverse before ++ [row ++ [(name, v)]]
  end.

#[export] Instance rows_Orm : Orm rowsStore bool bool bool := {|
  asModel := fun mod_ : bool => if mod_ then Some true else None;
  orm_NewModel := fun (_ : bool) (st : rowsStore) =>
    (st, inr (ExternalError "not a model"));
  Model_Reset := fun (_ : bool) (_ : rowsStore) => ([], None);
  Model_NewModel := fun (model : bool) (st : rowsStore) =>
    if model then (st ++ [[]], true) else (st, false);
  Model_AddModel := fun (_ _ : bool) (st : rowsStore) => (st, None);
  Row_ScanColumn := fun (row : bool) (st : rowsStore) (_ : Z) (name : bytes)
                        (v : option bytes) =>
    if row
    then (scanIntoLast st name v,
          if bool_decide (name = str "bad")
          then Some (ExternalError "cannot scan") else None)
    else (st, None);
  Discard := false;
|}.

(** The 18 bytes of metadata behind a column name. *)
Definition meta18 : bytes := replicate 18 NUL.

(** The digits of lower-case hexadecimal text. *)
Definition hexDigits : bytes := str "0123456789abcdef".

(** The answer to Parse, Describe and Sync for a statement with a result
    set: ParseComplete, the parameter description, the row description. *)
Definition prepared (params : bytes) (fields : list (bytes * bytes)) : bytes :=
  frame parseCompleteMsg []
  ++ frame parameterDescriptionMsg params
  ++ frame rowDescriptionMsg (rowDescription fields).

(** ** Run-time panics of the readers

    [reaches body x y]: the loop of the rounds [body], being in the state
    and on the connection [x], comes to a round in the state and on the
    connection [y]. *)
Inductive reaches {S R} (body : S -> M (step S R)) : S * Conn -> S * Conn -> Prop :=
| reaches_here (x : S * Conn) : reaches body x x
| reaches_round (s s' : S) (cn cn' : Conn) (y : S * Conn) :
    body s cn = Ret (Continue s') cn' ->
    reaches body (s', cn') y ->
    reaches body (s, cn) y.

(** The reader [reader], the loop of the rounds [body] from the state [s],
    panics on the connections on which it comes to a round of which
    [cause] holds, and on no other. *)
Definition panics_at {S R} (reader : M R) (body : S -> M (step S R)) (s : S)
    (cause : S -> Conn -> Prop) : Prop :=
  forall cn,
    reader cn = Panic
    <-> exists s' cn', reaches body (s, cn) (s', cn') /\ cause s' cn'.

(** The input of [cn] begins with the header of a message, and [P] holds
    of its tag, of the length the readers take from it, which is its
    length field less 4, and of the connection behind the header. *)
Definition atHeader (P : ascii -> Z -> Conn -> Prop) (cn : Conn) : Prop :=
  exists c l rest,
    Rd cn = c :: l ++ rest /\ length l = 4%nat
    /\ P c (int32 (BigEndian_Uint32 l) - 4) (set_Rd rest cn).

(** A header with a tag among [tags] and a length field below 4: the
    count of bytes the reader then asks [ReadN] for is negative. *)
Definition negativeLength (tags : list ascii) : Conn -> Prop :=
  atHeader (fun c n _ => c ∈ tags /\ n < 0).

(** The input begins with a count of fields, two bytes, whose top bit is
    set: as the [int16] it is read as, the count is negative. *)
Definition negativeCount (cn : Conn) : Prop :=
  exists n rest,
    Rd cn = n ++ rest /\ length n = 2%nat /\ int16 (BigEndian_Uint16 n) < 0.

(** Somewhere on the input [r] stands the header of a message of the SASL
    exchange, the tag [R], with a length field below 8.  Behind such a
    header comes the code of the message, four bytes, and then the data,
    of which the reader takes the length to be the length field less 8. *)
Definition shortSaslMessage (r : bytes) : Prop :=
  exists pre l rest,
    r = pre ++ authenticationSASLContinueMsg :: l ++ rest
    /\ length l = 4%nat /\ int32 (BigEndian_Uint32 l) < 8.

(** The rows on which [readDataRow] panics when it has [names] column
    names.  The input begins with the count of fields and with fields that
    are there in full; and either these are one more than there are names,
    the count allowing for them all, or they are no more than there are
    names and fewer than the count, and the length of the field behind
    them is below -1. *)
Definition rowPanics (names : nat) (cn : Conn) : Prop :=
  exists n values tail,
    Rd cn = n ++ flat_map fieldValue values ++ tail /\ length n = 2%nat
    /\ Forall wf_value values
    /\ ((length values = Datatypes.S names
         /\ Z.of_nat (length values) <= int16 (BigEndian_Uint16 n))
        \/ ((length values <= names)%nat
            /\ Z.of_nat (length values) < int16 (BigEndian_Uint16 n)
            /\ exists l rest,
                 tail = l ++ rest /\ length l = 4%nat
                 /\ int32 (BigEndian_Uint32 l) < -1)).

(** * Properties *)

(** ** The digest against the test suite of RFC 1321 *)

Example md5s_empty : md5s [] = str "d41d8cd98f00b204e9800998ecf8427e".
Proof. vm_compute. reflexivity. Qed.

Example md5s_abc : md5s (str "abc") = str "900150983cd24fb0d6963f7d28e17f72".
Proof. vm_compute. reflexivity. Qed.

Example md5s_two_blocks :
  md5s (str "12345678901234567890123456789012345678901234567890123456789012345678901234567890")
  = str "57edf4a22be3c955ac49da2e2107b67a".
Proof. vm_compute. reflexivity. Qed.

(** ** Bytes and machine integers *)

Lemma byte_val_of (z : Z) : byte_val (byte_of z) = z mod 256.
Proof.
  unfold byte_val, byte_of.
  assert (Hr : 0 <= z mod 256 < 256) by (apply Z.mod_pos_bound; lia).
  rewrite N_ascii_embedding by lia.
  apply Z2N.id. lia.
Qed.

Lemma byte_val_range (c : ascii) : 0 <= byte_val c < 256.
Proof.
  unfold byte_val. pose proof (N_ascii_bounded c). lia.
Qed.

Lemma byte_of_val (c : ascii) : byte_of (byte_val c) = c.
Proof.
  unfold byte_of. pose proof (byte_val_range c) as Hr.
  rewrite Z.mod_small by lia.
  unfold byte_val. rewrite N2Z.id. apply ascii_N_embedding.
Qed.

Lemma Uint32_PutUint32 (v : Z) (rest : bytes) :
  BigEndian_Uint32 (BigEndian_PutUint32 v ++ rest) = v mod 2 ^ 32.
Proof.
  unfold BigEndian_Uint32, BigEndian_PutUint32. cbn [app nth].
  rewrite !byte_val_of.
  change (2 ^ 8) with 256. change (2 ^ 16) with 65536.
  change (2 ^ 24) with 16777216. change (2 ^ 32) with 4294967296.
  Z.to_euclidean_division_equations. lia.
Qed.

Lemma Uint16_PutUint16 (v : Z) (rest : bytes) :
  BigEndian_Uint16 (BigEndian_PutUint16 v ++ rest) = v mod 2 ^ 16.
Proof.
  unfold BigEndian_Uint16, BigEndian_PutUint16. cbn [app nth].
  rewrite !byte_val_of.
  change (2 ^ 8) with 256. change (2 ^ 16) with 65536.
  Z.to_euclidean_division_equations. lia.
Qed.

Lemma int32_uint32 (v : Z) :
  - 2 ^ 31 <= v < 2 ^ 31 -> int32 (uint32 v) = v.
Proof.
  unfold int32, uint32, wrap. intros Hv.
  change (2 ^ (32 - 1)) with 2147483648 in *.
  change (2 ^ 31) with 2147483648 in *.
  change (2 ^ 32) with 4294967296 in *.
  Z.to_euclidean_division_equations. lia.
Qed.

Lemma int16_uint16 (v : Z) :
  - 2 ^ 15 <= v < 2 ^ 15 -> int16 (uint16 v) = v.
Proof.
  unfold int16, uint16, wrap. intros Hv.
  change (2 ^ (16 - 1)) with 32768 in *.
  change (2 ^ 15) with 32768 in *.
  change (2 ^ 16) with 65536 in *.
  Z.to_euclidean_division_equations. lia.
Qed.

Lemma uint32_idem (v : Z) : uint32 (uint32 v) = uint32 v.
Proof. unfold uint32. apply Z.mod_mod. lia. Qed.

Lemma uint16_idem (v : Z) : uint16 (uint16 v) = uint16 v.
Proof. unfold uint16. apply Z.mod_mod. lia. Qed.

Lemma PutUint32_length (v : Z) : length (BigEndian_PutUint32 v) = 4%nat.
Proof. reflexivity. Qed.

Lemma PutUint16_length (v : Z) : length (BigEndian_PutUint16 v) = 2%nat.
Proof. reflexivity. Qed.

(** ** The connection's reads *)

Lemma set_Rd_id (cn : Conn) : set_Rd (Rd cn) cn = cn.
Proof. destruct cn; reflexivity. Qed.

Lemma ReadN_app (p rest : bytes) (cn : Conn) :
  ReadN (Z.of_nat (length p)) (set_Rd (p ++ rest) cn) = Ret p (set_Rd rest cn).
Proof.
  unfold ReadN. cbn [Rd set_Rd].
  destruct (Z.ltb_spec (Z.of_nat (length p)) 0) as [Hneg|_]; [lia|].
  rewrite Nat2Z.id.
  destruct (Nat.leb_spec (length p) (length (p ++ rest))) as [_|Hlt].
  - rewrite take_app_length, drop_app_length. reflexivity.
  - rewrite length_app in Hlt. lia.
Qed.

Lemma ReadN_exact (n : Z) (p rest : bytes) (cn : Conn) :
  n = Z.of_nat (length p) ->
  ReadN n (set_Rd (p ++ rest) cn) = Ret p (set_Rd rest cn).
Proof. intros ->. apply ReadN_app. Qed.

Lemma readInt32_put (v : Z) (rest : bytes) (cn : Conn) :
  - 2 ^ 31 <= v < 2 ^ 31 ->
  readInt32 (set_Rd (BigEndian_PutUint32 (uint32 v) ++ rest) cn)
  = Ret v (set_Rd rest cn).
Proof.
  intros Hv. unfold readInt32, bind.
  rewrite (ReadN_exact 4 (BigEndian_PutUint32 (uint32 v))) by reflexivity.
  unfold ret. f_equal.
  rewrite <- (app_nil_r (BigEndian_PutUint32 _)), Uint32_PutUint32.
  fold (uint32 (uint32 v)). rewrite uint32_idem. apply int32_uint32, Hv.
Qed.

Lemma readInt16_put (v : Z) (rest : bytes) (cn : Conn) :
  - 2 ^ 15 <= v < 2 ^ 15 ->
  readInt16 (set_Rd (BigEndian_PutUint16 (uint16 v) ++ rest) cn)
  = Ret v (set_Rd rest cn).
Proof.
  intros Hv. unfold readInt16, bind.
  rewrite (ReadN_exact 2 (BigEndian_PutUint16 (uint16 v))) by reflexivity.
  unfold ret. f_equal.
  rewrite <- (app_nil_r (BigEndian_PutUint16 _)), Uint16_PutUint16.
  fold (uint16 (uint16 v)). rewrite uint16_idem. apply int16_uint16, Hv.
Qed.

Lemma ReadByte_cons (c : ascii) (rest : bytes) (cn : Conn) :
  ReadByte (set_Rd (c :: rest) cn) = Ret c (set_Rd rest cn).
Proof. reflexivity. Qed.

Lemma readMessageType_header (c : ascii) (n : Z) (rest : bytes) (cn : Conn) :
  0 <= n -> n + 4 < 2 ^ 31 ->
  readMessageType
    (set_Rd (c :: BigEndian_PutUint32 (uint32 (n + 4)) ++ rest) cn)
  = Ret (c, n) (set_Rd rest cn).
Proof.
  intros Hn Hlt. unfold readMessageType, bind at 1.
  rewrite ReadByte_cons. unfold bind.
  rewrite readInt32_put by lia.
  unfold ret. f_equal. f_equal. lia.
Qed.

Lemma readMessageType_frame (c : ascii) (p rest : bytes) (cn : Conn) :
  Z.of_nat (length p) + 4 < 2 ^ 31 ->
  readMessageType (set_Rd (frame c p ++ rest) cn)
  = Ret (c, Z.of_nat (length p)) (set_Rd (p ++ rest) cn).
Proof.
  intros Hlt. unfold frame. cbn [app]. rewrite <- app_assoc.
  apply readMessageType_header; lia.
Qed.

(** ** NUL-terminated strings *)

Lemma NUL_eqb (c : ascii) : Ascii.eqb c NUL = bool_decide (c = NUL).
Proof.
  destruct (Ascii.eqb_spec c NUL) as [->|Hne].
  - symmetry. apply bool_decide_eq_true. reflexivity.
  - symmetry. apply bool_decide_eq_false. exact Hne.
Qed.

Lemma NUL_not_in (s : bytes) : bool_decide (NUL ∉ s) = true -> NUL ∉ s.
Proof. apply bool_decide_eq_true. Qed.

Lemma span_NUL_cstring (s rest : bytes) :
  NUL ∉ s -> span_NUL (s ++ NUL :: rest) = Some (s, rest).
Proof.
  induction s as [|c s IH]; intros Hs.
  - reflexivity.
  - apply not_elem_of_cons in Hs as [Hc Hs].
    cbn [app span_NUL].
    destruct (Ascii.eqb_spec c NUL) as [->|_]; [congruence|].
    rewrite IH by exact Hs. reflexivity.
Qed.

Lemma span_NUL_none (s : bytes) : NUL ∉ s -> span_NUL s = None.
Proof.
  induction s as [|c s IH]; intros Hs.
  - reflexivity.
  - apply not_elem_of_cons in Hs as [Hc Hs].
    cbn [span_NUL].
    destruct (Ascii.eqb_spec c NUL) as [->|_]; [congruence|].
    rewrite IH by exact Hs. reflexivity.
Qed.

Lemma removelast_cstring (s : bytes) : removelast (s ++ [NUL]) = s.
Proof. apply removelast_last. Qed.

Lemma readString_cstring (s rest : bytes) (cn : Conn) :
  NUL ∉ s ->
  readString (set_Rd (cstring s ++ rest) cn) = Ret s (set_Rd rest cn).
Proof.
  intros Hs. unfold readString, bind, ReadString0, cstring.
  cbn [Rd set_Rd]. rewrite <- app_assoc. cbn [app].
  rewrite span_NUL_cstring by exact Hs.
  unfold ret. rewrite removelast_cstring. reflexivity.
Qed.

Lemma set_Rd_twice (a b : bytes) (cn : Conn) :
  set_Rd a (set_Rd b cn) = set_Rd a cn.
Proof. reflexivity. Qed.

Lemma loop_unfold {S R} (body : S -> M (step S R)) (fuel : nat) (s : S) (cn : Conn) :
  loop body (Datatypes.S fuel) s cn
  = match body s cn with
    | Ret (Continue s') cn' => loop body fuel s' cn'
    | Ret (Return r) cn' => Ret r cn'
    | Fail e cn' => Fail e cn'
    | Panic => Panic
    | Exhausted => Exhausted
    end.
Proof.
  cbn [loop]. unfold bind. destruct (body s cn) as [[s'|r] cn'|e cn'| |]; reflexivity.
Qed.

Lemma ReadSlice0_line (s rest : bytes) (cn : Conn) :
  NUL ∉ s -> (length s < Pos.to_nat (RdSize cn))%nat ->
  ReadSlice0 (set_Rd (cstring s ++ rest) cn)
  = Ret (cstring s, None) (set_Rd rest cn).
Proof.
  intros Hs Hshort. unfold ReadSlice0. cbn [Rd set_Rd RdSize].
  set (n := Pos.to_nat (RdSize cn)) in *.
  unfold cstring. rewrite <- app_assoc. cbn [app].
  rewrite take_app_ge by lia.
  replace (n - length s)%nat with (Datatypes.S (n - length s - 1)) by lia.
  cbn [take]. rewrite span_NUL_cstring by exact Hs.
  rewrite drop_app_ge by lia.
  replace (Datatypes.S (length s) - length s)%nat with 1%nat by lia.
  reflexivity.
Qed.

Lemma ReadSlice0_full (s rest : bytes) (cn : Conn) :
  NUL ∉ s -> (Pos.to_nat (RdSize cn) <= length s)%nat ->
  ReadSlice0 (set_Rd (cstring s ++ rest) cn)
  = Ret (take (Pos.to_nat (RdSize cn)) s, Some bufio_ErrBufferFull)
        (set_Rd (cstring (drop (Pos.to_nat (RdSize cn)) s) ++ rest) cn).
Proof.
  intros Hs Hlong. unfold ReadSlice0. cbn [Rd set_Rd RdSize].
  set (n := Pos.to_nat (RdSize cn)) in *.
  unfold cstring. rewrite <- !app_assoc.
  rewrite take_app_le by lia.
  rewrite span_NUL_none.
  2:{ intros Hin. apply Hs. eapply subseteq_take, Hin. }
  destruct (Nat.leb_spec n (length (s ++ [NUL] ++ rest))) as [_|Hbad].
  2:{ rewrite length_app in Hbad. lia. }
  rewrite drop_app_le by lia. reflexivity.
Qed.

(** [readBytes] reads buffer after buffer until the terminator shows up:
    whatever the size of the buffer, the name comes out whole. *)
Lemma readBytes_loop (fuel : nat) (b s rest : bytes) (cn : Conn) :
  NUL ∉ s -> (length s < fuel)%nat ->
  loop readBytes_body fuel b (set_Rd (cstring s ++ rest) cn)
  = Ret (b ++ cstring s) (set_Rd rest cn).
Proof.
  revert b s. induction fuel as [|fuel IH]; intros b s Hs Hlen; [lia|].
  rewrite loop_unfold. unfold readBytes_body, bind.
  assert (Hn : (0 < Pos.to_nat (RdSize cn))%nat) by lia.
  destruct (Nat.lt_ge_cases (length s) (Pos.to_nat (RdSize cn))) as [Hshort|Hlong].
  - rewrite ReadSlice0_line by assumption. reflexivity.
  - rewrite ReadSlice0_full by assumption. cbn [ret].
    rewrite IH.
    + unfold cstring. rewrite <- app_assoc, (app_assoc (take _ s)), take_drop.
      reflexivity.
    + intros Hin. apply Hs. eapply subseteq_drop, Hin.
    + rewrite length_drop. lia.
Qed.

Lemma readBytes_cstring (b s rest : bytes) (cn : Conn) :
  NUL ∉ s ->
  readBytes b (set_Rd (cstring s ++ rest) cn) = Ret (b ++ s) (set_Rd rest cn).
Proof.
  intros Hs. unfold readBytes, bind, for_ever.
  rewrite readBytes_loop; [|exact Hs|].
  - unfold cstring. rewrite app_assoc, removelast_cstring.
    destruct ((b ++ s) ++ [NUL]) eqn:E; [|reflexivity].
    apply app_eq_nil in E as [_ E]. discriminate.
  - unfold rounds. cbn [Rd set_Rd]. unfold cstring.
    rewrite !length_app. lia.
Qed.

(** ** ErrorResponse bodies *)

Lemma readError_body_field (m : gmap ascii bytes) (f : ascii * bytes)
    (rest : bytes) (cn : Conn) :
  wf_field f ->
  readError_body m (set_Rd (fieldBytes f ++ rest) cn)
  = Ret (Continue (addField m f)) (set_Rd rest cn).
Proof.
  intros [Hc Hs]. unfold readError_body, fieldBytes, bind at 1.
  cbn [app]. rewrite ReadByte_cons.
  destruct (Ascii.eqb_spec f.1 NUL) as [E|_]; [contradiction|].
  unfold bind. rewrite readString_cstring by exact Hs. reflexivity.
Qed.

Lemma readError_body_end (m : gmap ascii bytes) (rest : bytes) (cn : Conn) :
  readError_body m (set_Rd (NUL :: rest) cn) = Ret (Return m) (set_Rd rest cn).
Proof. reflexivity. Qed.

Lemma readError_loop (fuel : nat) (m : gmap ascii bytes)
    (fields : list (ascii * bytes)) (rest : bytes) (cn : Conn) :
  Forall wf_field fields -> (length fields < fuel)%nat ->
  loop readError_body fuel m (set_Rd (errorBody fields ++ rest) cn)
  = Ret (foldl addField m fields) (set_Rd rest cn).
Proof.
  intros Hwf. revert fuel m.
  induction Hwf as [|f fields Hf Hwf IH]; intros fuel m Hfuel;
    (destruct fuel as [|fuel]; [exfalso; revert Hfuel; apply Nat.nlt_0_r|]);
    rewrite loop_unfold.
  - unfold errorBody. cbn [flat_map app]. rewrite readError_body_end. reflexivity.
  - unfold errorBody. cbn [flat_map]. rewrite <- !app_assoc.
    rewrite readError_body_field by exact Hf.
    cbn [foldl]. rewrite app_assoc. apply IH. cbn [length] in Hfuel. lia.
Qed.

Lemma errorBody_length (fields : list (ascii * bytes)) :
  (length fields < length (errorBody fields))%nat.
Proof.
  unfold errorBody. rewrite length_app. cbn [length].
  induction fields as [|f fields IH]; cbn [flat_map length]; [lia|].
  rewrite length_app. unfold fieldBytes at 1. cbn [length]. lia.
Qed.

Lemma readError_errorBody (fields : list (ascii * bytes)) (rest : bytes) (cn : Conn) :
  Forall wf_field fields ->
  readError (set_Rd (errorBody fields ++ rest) cn)
  = Ret (pgError (RemoteAddr cn) fields) (set_Rd rest cn).
Proof.
  intros Hwf. unfold readError, bind, get, for_ever.
  cbn [RemoteAddr set_Rd].
  rewrite readError_loop; [reflexivity|exact Hwf|].
  unfold rounds. cbn [Rd set_Rd]. rewrite length_app.
  pose proof (errorBody_length fields). lia.
Qed.

(** ** A reader's loop over a well-formed response

    A reader whose round handles every accepted message by [upd] and
    returns [fin] of its state at ReadyForQuery folds [upd] over the
    response and consumes it up to and including ReadyForQuery. *)

Lemma encode_length (m : backendMsg) : (0 < length (encode m))%nat.
Proof. destruct m; cbn [encode frame length]; lia. Qed.

Lemma encodeAll_length (msgs : list backendMsg) :
  (length msgs <= length (encodeAll msgs))%nat.
Proof.
  induction msgs as [|m msgs IH]; [reflexivity|].
  unfold encodeAll in *. cbn [flat_map length]. rewrite length_app.
  pose proof (encode_length m). lia.
Qed.

Section ReaderLoop.
Context {S R : Type}.
Variable body : S -> M (step S R).
Variable accepts : backendMsg -> bool.
Variable upd : bytes -> S -> backendMsg -> S.
Variable fin : S -> R.

Hypothesis body_msg : forall s m rest cn,
  wf_msg m -> accepts m = true ->
  body s (set_Rd (encode m ++ rest) cn)
  = Ret (Continue (upd (RemoteAddr cn) s m)) (set_Rd rest cn).

Hypothesis body_ready : forall s status rest cn,
  body s (set_Rd (ReadyForQuery status ++ rest) cn)
  = Ret (Return (fin s)) (set_Rd rest cn).

Lemma reader_loop (msgs : list backendMsg) (fuel : nat) (s : S)
    (status : ascii) (rest : bytes) (cn : Conn) :
  Forall wf_msg msgs -> Forall (fun m => accepts m = true) msgs ->
  (length msgs < fuel)%nat ->
  loop body fuel s (set_Rd (encodeAll msgs ++ ReadyForQuery status ++ rest) cn)
  = Ret (fin (foldl (upd (RemoteAddr cn)) s msgs)) (set_Rd rest cn).
Proof.
  intros Hwf. revert fuel s.
  induction Hwf as [|m msgs Hm Hwf IH]; intros fuel s Hacc Hfuel;
    (destruct fuel as [|fuel]; [exfalso; revert Hfuel; apply Nat.nlt_0_r|]);
    rewrite loop_unfold.
  - cbn [encodeAll flat_map app]. rewrite body_ready. reflexivity.
  - apply Forall_cons in Hacc as [Hacc1 Hacc].
    unfold encodeAll. cbn [flat_map]. rewrite <- app_assoc.
    rewrite body_msg by assumption.
    cbn [foldl]. apply IH; [exact Hacc|]. cbn [length] in Hfuel. lia.
Qed.

Lemma reader_for_ever (msgs : list backendMsg) (s : S)
    (status : ascii) (rest : bytes) (cn : Conn) :
  Forall wf_msg msgs -> Forall (fun m => accepts m = true) msgs ->
  for_ever body s (set_Rd (encodeAll msgs ++ ReadyForQuery status ++ rest) cn)
  = Ret (fin (foldl (upd (RemoteAddr cn)) s msgs)) (set_Rd rest cn).
Proof.
  intros Hwf Hacc. unfold for_ever. apply reader_loop; [exact Hwf|exact Hacc|].
  unfold rounds. cbn [Rd set_Rd]. rewrite length_app.
  pose proof (encodeAll_length msgs). lia.
Qed.

End ReaderLoop.

(** ** One round of the query readers *)

Ltac reader_round Hlen Hwf :=
  unfold bind;
  rewrite readMessageType_frame by exact Hlen;
  simpl (Ascii.eqb _ _); cbv iota beta;
  unfold logNotice, logParameterStatus, bind;
  first [ rewrite ReadN_app | rewrite readError_errorBody by exact Hwf ];
  reflexivity.

Lemma readSimpleQuery_body_msg (s : queryState) (m : backendMsg)
    (rest : bytes) (cn : Conn) :
  wf_msg m -> negb (isBindComplete m) = true ->
  readSimpleQuery_body s (set_Rd (encode m ++ rest) cn)
  = Ret (Continue (query_step (RemoteAddr cn) s m)) (set_Rd rest cn).
Proof.
  intros [Hlen Hwf] Hacc.
  destruct m as [p|p|p| |fields|p|p]; try discriminate Hacc;
    cbn [payloadOf] in Hlen; cbn [encode];
    unfold readSimpleQuery_body; reader_round Hlen Hwf.
Qed.

Lemma readExtQuery_body_msg (s : queryState) (m : backendMsg)
    (rest : bytes) (cn : Conn) :
  wf_msg m -> negb (isRowDescription m) = true ->
  readExtQuery_body s (set_Rd (encode m ++ rest) cn)
  = Ret (Continue (query_step (RemoteAddr cn) s m)) (set_Rd rest cn).
Proof.
  intros [Hlen Hwf] Hacc.
  destruct m as [p|p|p| |fields|p|p]; try discriminate Hacc;
    cbn [payloadOf] in Hlen; cbn [encode];
    unfold readExtQuery_body; reader_round Hlen Hwf.
Qed.

Lemma ReadyForQuery_wf (status : ascii) : Z.of_nat (length [status]) + 4 < 2 ^ 31.
Proof. cbn [length]. lia. Qed.

Lemma readSimpleQuery_body_ready (s : queryState) (status : ascii)
    (rest : bytes) (cn : Conn) :
  readSimpleQuery_body s (set_Rd (ReadyForQuery status ++ rest) cn)
  = Ret (Return (res s, retErr s)) (set_Rd rest cn).
Proof.
  unfold ReadyForQuery, readSimpleQuery_body.
  reader_round (ReadyForQuery_wf status) I.
Qed.

Lemma readExtQuery_body_ready (s : queryState) (status : ascii)
    (rest : bytes) (cn : Conn) :
  readExtQuery_body s (set_Rd (ReadyForQuery status ++ rest) cn)
  = Ret (Return (res s, retErr s)) (set_Rd rest cn).
Proof.
  unfold ReadyForQuery, readExtQuery_body.
  reader_round (ReadyForQuery_wf status) I.
Qed.

Lemma readReadyForQuery_body_msg (s : option Result * option error)
    (m : backendMsg) (rest : bytes) (cn : Conn) :
  wf_msg m -> afterCopy m = true ->
  readReadyForQuery_body s (set_Rd (encode m ++ rest) cn)
  = Ret (Continue (ready_step (RemoteAddr cn) s m)) (set_Rd rest cn).
Proof.
  intros [Hlen Hwf] Hacc. destruct s as [r e].
  destruct m as [p|p|p| |fields|p|p]; try discriminate Hacc;
    cbn [payloadOf] in Hlen; cbn [encode];
    unfold readReadyForQuery_body; reader_round Hlen Hwf.
Qed.

Lemma readReadyForQuery_body_ready (s : option Result * option error)
    (status : ascii) (rest : bytes) (cn : Conn) :
  readReadyForQuery_body s (set_Rd (ReadyForQuery status ++ rest) cn)
  = Ret (Return s) (set_Rd rest cn).
Proof.
  destruct s as [r e]. unfold ReadyForQuery, readReadyForQuery_body.
  reader_round (ReadyForQuery_wf status) I.
Qed.

(** ** What the folds compute *)

Lemma dataRows_cons (m : backendMsg) (msgs : list backendMsg) :
  dataRows (m :: msgs) = (if isDataRow m then 1 else 0) + dataRows msgs.
Proof.
  unfold dataRows. rewrite filter_cons.
  destruct (isDataRow m); cbn.
  - rewrite decide_True by reflexivity. cbn [length]. lia.
  - rewrite decide_False by discriminate. lia.
Qed.

Lemma dataRows_app (l1 l2 : list backendMsg) :
  dataRows (l1 ++ l2) = dataRows l1 + dataRows l2.
Proof.
  unfold dataRows. rewrite filter_app, length_app. lia.
Qed.

Lemma query_fold_rows (addr : bytes) (msgs : list backendMsg) (s : queryState) :
  rows (foldl (query_step addr) s msgs) = rows s + dataRows msgs.
Proof.
  revert s. induction msgs as [|m msgs IH]; intros s.
  - unfold dataRows. cbn. lia.
  - cbn [foldl]. rewrite IH, dataRows_cons.
    destruct m; cbn [query_step rows isDataRow]; lia.
Qed.

Lemma query_fold_retErr (addr : bytes) (msgs : list backendMsg) (s : queryState) :
  retErr (foldl (query_step addr) s msgs)
  = match retErr s with
    | Some e => Some e
    | None => head (errorsOf addr msgs)
    end.
Proof.
  revert s. induction msgs as [|m msgs IH]; intros s.
  - cbn. destruct (retErr s); reflexivity.
  - cbn [foldl]. rewrite IH.
    destruct m; cbn [query_step retErr errorsOf omap]; try reflexivity.
    destruct (retErr s); reflexivity.
Qed.

Lemma query_fold_res_none (addr : bytes) (msgs : list backendMsg) (s : queryState) :
  Forall (fun m => isCommandComplete m = false) msgs ->
  res (foldl (query_step addr) s msgs) = res s.
Proof.
  intros Hno. revert s. induction Hno as [|m msgs Hm Hno IH]; intros s.
  - reflexivity.
  - cbn [foldl]. rewrite IH.
    destruct m; try discriminate Hm; reflexivity.
Qed.

Lemma query_fold_res_last (addr : bytes) (pre post : list backendMsg)
    (b : bytes) (s : queryState) :
  Forall (fun m => isCommandComplete m = false) post ->
  res (foldl (query_step addr) s (pre ++ CommandComplete b :: post))
  = Some (NewResult b (rows s + dataRows pre)).
Proof.
  intros Hno. rewrite foldl_app. cbn [foldl].
  rewrite query_fold_res_none by exact Hno.
  cbn [query_step res]. rewrite query_fold_rows. reflexivity.
Qed.

Lemma ready_fold_retErr (addr : bytes) (msgs : list backendMsg)
    (s : option Result * option error) :
  (foldl (ready_step addr) s msgs).2
  = match last (errorsOf addr msgs) with
    | Some e => Some e
    | None => s.2
    end.
Proof.
  revert s. induction msgs as [|m msgs IH]; intros s.
  - reflexivity.
  - cbn [foldl]. rewrite IH.
    destruct m; cbn [ready_step errorsOf omap]; try reflexivity.
    change (errorsOf addr (ErrorResponse fields :: msgs))
      with (pgError addr fields :: errorsOf addr msgs).
    rewrite last_cons. destruct (last _); reflexivity.
Qed.

(** ** The query readers on a whole response *)

Lemma readSimpleQuery_response (msgs : list backendMsg) (status : ascii)
    (rest : bytes) (cn : Conn) :
  Forall wf_msg msgs -> Forall (fun m => isBindComplete m = false) msgs ->
  readSimpleQuery (set_Rd (encodeAll msgs ++ ReadyForQuery status ++ rest) cn)
  = let s := foldl (query_step (RemoteAddr cn)) (mkQueryState None None 0) msgs in
    Ret (res s, retErr s) (set_Rd rest cn).
Proof.
  intros Hwf Hacc. unfold readSimpleQuery.
  apply (reader_for_ever readSimpleQuery_body (fun m => negb (isBindComplete m))
           query_step (fun s => (res s, retErr s))).
  - apply readSimpleQuery_body_msg.
  - apply readSimpleQuery_body_ready.
  - exact Hwf.
  - eapply Forall_impl; [exact Hacc|]. intros m Hm. cbn beta in *. rewrite Hm. reflexivity.
Qed.

Lemma readExtQuery_response (msgs : list backendMsg) (status : ascii)
    (rest : bytes) (cn : Conn) :
  Forall wf_msg msgs -> Forall (fun m => isRowDescription m = false) msgs ->
  readExtQuery (set_Rd (encodeAll msgs ++ ReadyForQuery status ++ rest) cn)
  = let s := foldl (query_step (RemoteAddr cn)) (mkQueryState None None 0) msgs in
    Ret (res s, retErr s) (set_Rd rest cn).
Proof.
  intros Hwf Hacc. unfold readExtQuery.
  apply (reader_for_ever readExtQuery_body (fun m => negb (isRowDescription m))
           query_step (fun s => (res s, retErr s))).
  - apply readExtQuery_body_msg.
  - apply readExtQuery_body_ready.
  - exact Hwf.
  - eapply Forall_impl; [exact Hacc|]. intros m Hm. cbn beta in *. rewrite Hm. reflexivity.
Qed.

Lemma readReadyForQuery_response (msgs : list backendMsg) (status : ascii)
    (rest : bytes) (cn : Conn) :
  Forall wf_msg msgs -> Forall (fun m => afterCopy m = true) msgs ->
  readReadyForQuery (set_Rd (encodeAll msgs ++ ReadyForQuery status ++ rest) cn)
  = Ret (foldl (ready_step (RemoteAddr cn)) (None, None) msgs) (set_Rd rest cn).
Proof.
  intros Hwf Hacc. unfold readReadyForQuery.
  apply (reader_for_ever readReadyForQuery_body afterCopy ready_step (fun s => s)).
  - apply readReadyForQuery_body_msg.
  - apply readReadyForQuery_body_ready.
  - exact Hwf.
  - exact Hacc.
Qed.

(** X1: the simple-query reader drains a well-formed response up to and
    including ReadyForQuery and returns the first of its errors; the later
    ones are dropped. *)
Theorem readSimpleQuery_first_error (msgs : list backendMsg) (status : ascii)
    (rest : bytes) (cn : Conn) :
  Forall wf_msg msgs -> Forall (fun m => isBindComplete m = false) msgs ->
  exists r,
    readSimpleQuery (set_Rd (encodeAll msgs ++ ReadyForQuery status ++ rest) cn)
    = Ret (r, head (errorsOf (RemoteAddr cn) msgs)) (set_Rd rest cn).
Proof.
  intros Hwf Hacc. eexists.
  rewrite readSimpleQuery_response by assumption. cbv zeta.
  rewrite query_fold_retErr. reflexivity.
Qed.

Lemma readSimpleQuery_first_error_witness :
  exists r,
    readSimpleQuery
      (set_Rd (encodeAll [DataRow (str "row"); ErrorResponse [("C"%char, str "23505")];
                          ErrorResponse [("C"%char, str "25P02")]]
               ++ ReadyForQuery "I" ++ str "rest") (conn0 []))
    = Ret (r, head (errorsOf (RemoteAddr (conn0 []))
                      [DataRow (str "row"); ErrorResponse [("C"%char, str "23505")];
                       ErrorResponse [("C"%char, str "25P02")]]))
          (set_Rd (str "rest") (conn0 [])).
Proof.
  apply (readSimpleQuery_first_error
           [DataRow (str "row"); ErrorResponse [("C"%char, str "23505")];
            ErrorResponse [("C"%char, str "25P02")]] "I" (str "rest") (conn0 [])).
  - constructor; [split; [reflexivity|exact I]|].
    constructor; [split; [reflexivity|]|].
    { constructor; [|constructor].
      split; [discriminate|apply NUL_not_in; reflexivity]. }
    constructor; [split; [reflexivity|]|constructor].
    constructor; [|constructor].
    split; [discriminate|apply NUL_not_in; reflexivity].
  - repeat constructor.
Defined.


(** X2: the extended-query reader drains a well-formed response up to
    and including ReadyForQuery and returns the first of its errors; the
    later ones are dropped. *)
Theorem readExtQuery_first_error (msgs : list backendMsg) (status : ascii)
    (rest : bytes) (cn : Conn) :
  Forall wf_msg msgs -> Forall (fun m => isRowDescription m = false) msgs ->
  exists r,
    readExtQuery (set_Rd (encodeAll msgs ++ ReadyForQuery status ++ rest) cn)
    = Ret (r, head (errorsOf (RemoteAddr cn) msgs)) (set_Rd rest cn).
Proof.
  intros Hwf Hacc. eexists.
  rewrite readExtQuery_response by assumption. cbv zeta.
  rewrite query_fold_retErr. reflexivity.
Qed.

Lemma readExtQuery_first_error_witness :
  exists r,
    readExtQuery
      (set_Rd (encodeAll [DataRow (str "row"); ErrorResponse [("C"%char, str "23505")];
                          ErrorResponse [("C"%char, str "25P02")]]
               ++ ReadyForQuery "I" ++ str "rest") (conn0 []))
    = Ret (r, head (errorsOf (RemoteAddr (conn0 []))
                      [DataRow (str "row"); ErrorResponse [("C"%char, str "23505")];
                       ErrorResponse [("C"%char, str "25P02")]]))
          (set_Rd (str "rest") (conn0 [])).
Proof.
  apply (readExtQuery_first_error
           [DataRow (str "row"); ErrorResponse [("C"%char, str "23505")];
            ErrorResponse [("C"%char, str "25P02")]] "I" (str "rest") (conn0 [])).
  - constructor; [split; [reflexivity|exact I]|].
    constructor; [split; [reflexivity|]|].
    { constructor; [|constructor].
      split; [discriminate|apply NUL_not_in; reflexivity]. }
    constructor; [split; [reflexivity|]|constructor].
    constructor; [|constructor].
    split; [discriminate|apply NUL_not_in; reflexivity].
  - repeat constructor.
Defined.


(** The ready-for-query reader drains a well-formed response up to and
    including ReadyForQuery as well, but the error it returns is the last
    one of the response: each ErrorResponse overwrites [retErr]. *)
Theorem readReadyForQuery_last_error (msgs : list backendMsg) (status : ascii)
    (rest : bytes) (cn : Conn) :
  Forall wf_msg msgs -> Forall (fun m => afterCopy m = true) msgs ->
  exists r,
    readReadyForQuery (set_Rd (encodeAll msgs ++ ReadyForQuery status ++ rest) cn)
    = Ret (r, last (errorsOf (RemoteAddr cn) msgs)) (set_Rd rest cn).
Proof.
  intros Hwf Hacc. eexists.
  rewrite readReadyForQuery_response by assumption.
  rewrite (surjective_pairing (foldl _ _ _)).
  rewrite ready_fold_retErr. cbn [snd]. destruct (last _); reflexivity.
Qed.

(** C1 (at the failing input): two ErrorResponse messages before
    ReadyForQuery.  [readReadyForQuery] consumes the three messages and
    returns the second error, not the first. *)
Theorem readReadyForQuery_returns_second_error :
  readReadyForQuery
    (conn0 (encodeAll [ErrorResponse [("M"%char, str "first")];
                       ErrorResponse [("M"%char, str "second")]]
            ++ ReadyForQuery "I"))
  = Ret (None, Some (pgError (str "127.0.0.1:5432") [("M"%char, str "second")]))
        (conn0 [])
  /\ pgError (str "127.0.0.1:5432") [("M"%char, str "second")]
     <> pgError (str "127.0.0.1:5432") [("M"%char, str "first")].
Proof.
  split.
  - vm_compute. reflexivity.
  - intros E. apply (f_equal (fun e => errorField e "M")) in E.
    vm_compute in E. discriminate E.
Qed.

(** On the same input the simple-query reader returns the first error. *)
Example readSimpleQuery_returns_first_of_two :
  readSimpleQuery
    (conn0 (encodeAll [ErrorResponse [("M"%char, str "first")];
                       ErrorResponse [("M"%char, str "second")]]
            ++ ReadyForQuery "I"))
  = Ret (None, Some (pgError (str "127.0.0.1:5432") [("M"%char, str "first")]))
        (conn0 []).
Proof. vm_compute. reflexivity. Qed.

(** ** Row counts and command tags *)

(** C7 (amended): the Result of the simple-query and of the
    extended-query reader carries the payload of the last CommandComplete
    and the number of DataRow messages consumed before that
    CommandComplete; this is the number of all DataRow messages when none
    follows it. *)
Theorem query_result_of_last_CommandComplete (pre post : list backendMsg)
    (b : bytes) (status : ascii) (rest : bytes) (cn : Conn) :
  Forall wf_msg (pre ++ CommandComplete b :: post) ->
  Forall (fun m => isCommandComplete m = false) post ->
  (Forall (fun m => isBindComplete m = false) (pre ++ CommandComplete b :: post) ->
   exists err,
     readSimpleQuery
       (set_Rd (encodeAll (pre ++ CommandComplete b :: post)
                ++ ReadyForQuery status ++ rest) cn)
     = Ret (Some (mkResult b (dataRows pre)), err) (set_Rd rest cn))
  /\ (Forall (fun m => isRowDescription m = false) (pre ++ CommandComplete b :: post) ->
      exists err,
        readExtQuery
          (set_Rd (encodeAll (pre ++ CommandComplete b :: post)
                   ++ ReadyForQuery status ++ rest) cn)
        = Ret (Some (mkResult b (dataRows pre)), err) (set_Rd rest cn))
  /\ (Forall (fun m => isDataRow m = false) post ->
      dataRows pre = dataRows (pre ++ CommandComplete b :: post)).
Proof.
  intros Hwf Hpost. split; [|split].
  - intros Hacc. eexists.
    rewrite readSimpleQuery_response by assumption. cbv zeta.
    rewrite query_fold_res_last by exact Hpost. cbn [rows].
    rewrite Z.add_0_l. reflexivity.
  - intros Hacc. eexists.
    rewrite readExtQuery_response by assumption. cbv zeta.
    rewrite query_fold_res_last by exact Hpost. cbn [rows].
    rewrite Z.add_0_l. reflexivity.
  - intros Hno. rewrite dataRows_app, dataRows_cons. cbn [isDataRow].
    assert (dataRows post = 0) as ->; [|lia].
    clear Hwf Hpost.
    induction Hno as [|m post Hm Hno IH]; [reflexivity|].
    rewrite dataRows_cons, Hm, IH. reflexivity.
Qed.

Lemma query_result_of_last_CommandComplete_witness :
  (exists err,
     readSimpleQuery
       (set_Rd (encodeAll ([RowDescription (str "cols"); DataRow (str "row1");
                            DataRow (str "row2")]
                           ++ CommandComplete (cstring (str "SELECT 2")) :: [])
                ++ ReadyForQuery "I" ++ []) (conn0 []))
     = Ret (Some (mkResult (cstring (str "SELECT 2"))
                    (dataRows [RowDescription (str "cols"); DataRow (str "row1");
                               DataRow (str "row2")])), err)
           (set_Rd [] (conn0 []))).
Proof.
  apply (query_result_of_last_CommandComplete
           [RowDescription (str "cols"); DataRow (str "row1"); DataRow (str "row2")]
           [] (cstring (str "SELECT 2")) "I" [] (conn0 [])).
  - repeat constructor; vm_compute; reflexivity.
  - constructor.
  - repeat constructor.
Defined.

(** C7 (as stated, refuted): a first statement completes after one row,
    a second one sends a row and then fails.  The Result carries the row
    count 1, and two DataRow messages were consumed. *)
Lemma readSimpleQuery_rows_counterexample :
  readSimpleQuery
    (conn0 (encodeAll [RowDescription (str "cols"); DataRow (str "row1");
                       CommandComplete (cstring (str "SELECT 1"));
                       RowDescription (str "cols"); DataRow (str "row2");
                       ErrorResponse [("C"%char, str "22012")]]
            ++ ReadyForQuery "I"))
  = Ret (Some (mkResult (cstring (str "SELECT 1")) 1),
         Some (pgError (str "127.0.0.1:5432") [("C"%char, str "22012")]))
        (conn0 [])
  /\ dataRows [RowDescription (str "cols"); DataRow (str "row1");
               CommandComplete (cstring (str "SELECT 1"));
               RowDescription (str "cols"); DataRow (str "row2");
               ErrorResponse [("C"%char, str "22012")]] = 2.
Proof. split; vm_compute; reflexivity. Qed.

(** ** Readers that return at the first error *)

(** [readParseDescribeSync] returns as soon as it has parsed an
    ErrorResponse: whatever follows it, ReadyForQuery included, stays
    unread. *)
Lemma readParseDescribeSync_returns_at_error (fields : list (ascii * bytes))
    (rest : bytes) (cn : Conn) :
  wf_msg (ErrorResponse fields) ->
  readParseDescribeSync (set_Rd (encode (ErrorResponse fields) ++ rest) cn)
  = Fail (pgError (RemoteAddr cn) fields) (set_Rd rest cn).
Proof.
  intros [Hlen Hwf]. cbn [payloadOf] in Hlen.
  unfold readParseDescribeSync, for_ever, rounds.
  rewrite loop_unfold. cbn [encode].
  unfold readParseDescribeSync_body, bind.
  rewrite readMessageType_frame by exact Hlen.
  simpl (Ascii.eqb _ _). cbv iota beta.
  rewrite readError_errorBody by exact Hwf. reflexivity.
Qed.

(** So does [readCopyData]. *)
Lemma readCopyData_returns_at_error {W} `{Writer W} (w : W)
    (fields : list (ascii * bytes)) (rest : bytes) (cn : Conn) :
  wf_msg (ErrorResponse fields) ->
  readCopyData w (set_Rd (encode (ErrorResponse fields) ++ rest) cn)
  = Fail (pgError (RemoteAddr cn) fields) (set_Rd rest cn).
Proof.
  intros [Hlen Hwf]. cbn [payloadOf] in Hlen.
  unfold readCopyData, for_ever, rounds.
  rewrite loop_unfold. cbn [encode].
  unfold readCopyData_body, bind.
  rewrite readMessageType_frame by exact Hlen.
  simpl (Ascii.eqb _ _). cbv iota beta.
  rewrite readError_errorBody by exact Hwf. reflexivity.
Qed.

(** C2 (at the failing input): an ErrorResponse followed by
    ReadyForQuery.  [readParseDescribeSync] and [readCopyData] return the
    server error with the ReadyForQuery message still unread on the
    stream: the last message consumed is the ErrorResponse. *)
Theorem prepare_and_copy_leave_ReadyForQuery_unread :
  readParseDescribeSync
    (conn0 (encode (ErrorResponse [("C"%char, str "42601")]) ++ ReadyForQuery "I"))
  = Fail (pgError (str "127.0.0.1:5432") [("C"%char, str "42601")])
         (conn0 (ReadyForQuery "I"))
  /\ readCopyData ([] : bytes)
       (conn0 (encode (ErrorResponse [("C"%char, str "42601")]) ++ ReadyForQuery "I"))
     = Fail (pgError (str "127.0.0.1:5432") [("C"%char, str "42601")])
            (conn0 (ReadyForQuery "I")).
Proof. split; vm_compute; reflexivity. Qed.

(** On the same input the simple-query reader consumes ReadyForQuery
    before it returns the error. *)
Example readSimpleQuery_drains_to_ReadyForQuery :
  readSimpleQuery
    (conn0 (encode (ErrorResponse [("C"%char, str "42601")]) ++ ReadyForQuery "I"))
  = Ret (None, Some (pgError (str "127.0.0.1:5432") [("C"%char, str "42601")]))
        (conn0 []).
Proof. vm_compute. reflexivity. Qed.

(** ** Row descriptions *)

Lemma setByteSliceLen_ok (b : slice bytes) (n : Z) :
  0 <= n ->
  exists c, setByteSliceLen b n = Some c /\ len c = Z.to_nat n
            /\ (len c <= length (arr c))%nat.
Proof.
  intros Hn. unfold setByteSliceLen.
  destruct (Z.leb_spec n (Z.of_nat (cap b))) as [Hle|Hgt].
  - unfold reslice.
    destruct (Z.leb_spec 0 n) as [_|]; [|lia].
    destruct (Z.leb_spec n (Z.of_nat (cap b))) as [_|]; [|lia].
    cbn [andb]. eexists. split; [reflexivity|]. cbn [len arr].
    unfold cap in Hle. split; [reflexivity|lia].
  - eexists. split; [reflexivity|]. unfold append_full, elems, cap in *.
    cbn [len arr]. rewrite length_replicate, length_app, length_replicate.
    rewrite firstn_all, Nat.add_comm. split; lia.
Qed.

Lemma index_ok {A} (b : slice A) (i : nat) :
  (i < len b)%nat -> (len b <= length (arr b))%nat ->
  exists x, index b (Z.of_nat i) = Some x.
Proof.
  intros Hi Hlen. unfold index.
  destruct (Z.leb_spec 0 (Z.of_nat i)) as [_|]; [|lia].
  destruct (Z.ltb_spec (Z.of_nat i) (Z.of_nat (len b))) as [_|]; [|lia].
  cbn [andb]. rewrite Nat2Z.id.
  destruct (lookup_lt_is_Some_2 (arr b) i) as [x Hx]; [lia|].
  exists x. exact Hx.
Qed.

Lemma assign_ok {A} (b : slice A) (i : nat) (x : A) :
  (i < len b)%nat ->
  assign b (Z.of_nat i) x = Some (mkSlice (<[i := x]> (arr b)) (len b)).
Proof.
  intros Hi. unfold assign.
  destruct (Z.leb_spec 0 (Z.of_nat i)) as [_|]; [|lia].
  destruct (Z.ltb_spec (Z.of_nat i) (Z.of_nat (len b))) as [_|]; [|lia].
  cbn [andb]. rewrite Nat2Z.id. reflexivity.
Qed.

Lemma fieldDesc_length (fields : list (bytes * bytes)) :
  (length fields <= length (flat_map fieldDesc fields))%nat.
Proof.
  induction fields as [|f fields IH]; [reflexivity|].
  cbn [flat_map length]. unfold fieldDesc at 1, cstring.
  rewrite !length_app. cbn [length]. lia.
Qed.

(** The loop stores the names of the fields it reads at the indices from
    [i] on and leaves the other elements alone. *)
Lemma readRowDescription_loop_names (fields : list (bytes * bytes)) (fuel i : nat)
    (columns : slice bytes) (rest : bytes) (cn : Conn) :
  Forall wf_fieldDesc fields ->
  (length fields < fuel)%nat ->
  (i + length fields <= len columns)%nat ->
  (len columns <= length (arr columns))%nat ->
  loop (readRowDescription_body (Z.of_nat (i + length fields))) fuel
    (Z.of_nat i, columns) (set_Rd (flat_map fieldDesc fields ++ rest) cn)
  = Ret (mkSlice (take i (arr columns) ++ map fst fields
                  ++ drop (i + length fields) (arr columns))
                 (len columns))
        (set_Rd rest cn).
Proof.
  intros Hwf. revert fuel i columns.
  induction Hwf as [|[name meta] fields [Hname Hmeta] Hwf IH];
    intros fuel i columns Hfuel Hi Hlen;
    (destruct fuel as [|fuel]; [exfalso; revert Hfuel; apply Nat.nlt_0_r|]);
    rewrite loop_unfold; unfold readRowDescription_body at 1.
  - cbn [length flat_map map app]. rewrite Nat.add_0_r, Z.ltb_irrefl.
    rewrite take_drop. destruct columns; reflexivity.
  - cbn [length] in *. cbn [fst snd] in Hname, Hmeta.
    destruct (Z.ltb_spec (Z.of_nat i) (Z.of_nat (i + Datatypes.S (length fields))))
      as [_|]; [|lia].
    destruct (index_ok columns i) as [old Hold]; [lia|exact Hlen|].
    rewrite Hold. unfold bind at 1. cbn [flat_map].
    unfold fieldDesc at 1. cbn [fst snd]. rewrite <- !app_assoc.
    rewrite readBytes_cstring by exact Hname.
    rewrite assign_ok by lia. unfold bind.
    rewrite (ReadN_exact 18 meta) by (rewrite Hmeta; reflexivity).
    cbn [ret].
    replace (Z.of_nat i + 1) with (Z.of_nat (Datatypes.S i)) by lia.
    replace (i + Datatypes.S (length fields))%nat
      with (Datatypes.S i + length fields)%nat by lia.
    rewrite IH; cbn [len arr]; [|lia|lia|rewrite length_insert; exact Hlen].
    f_equal. f_equal. cbn [app map fst].
    assert (Hia : (i < length (arr columns))%nat) by lia.
    rewrite (take_S_r _ _ name) by (apply list_lookup_insert_eq; exact Hia).
    rewrite take_insert_ge by lia.
    rewrite drop_insert_lt by lia.
    rewrite <- app_assoc. reflexivity.
Qed.

Lemma readRowDescription_wf (fields : list (bytes * bytes))
    (columns : slice bytes) (rest : bytes) (cn : Conn) :
  Forall wf_fieldDesc fields ->
  Z.of_nat (length fields) < 2 ^ 15 ->
  exists columns',
    readRowDescription columns (set_Rd (rowDescription fields ++ rest) cn)
    = Ret columns' (set_Rd rest cn)
    /\ elems columns' = map fst fields.
Proof.
  intros Hwf Hcount.
  destruct (setByteSliceLen_ok columns (Z.of_nat (length fields)))
    as (c & Hc & Hlenc & Hcap); [lia|].
  rewrite Nat2Z.id in Hlenc.
  eexists. split.
  - unfold readRowDescription, rowDescription, bind.
    rewrite <- app_assoc. rewrite readInt16_put by lia.
    rewrite Hc. unfold for_ever.
    apply (readRowDescription_loop_names fields _ 0 c rest cn Hwf); [|lia|lia].
    unfold rounds. cbn [Rd set_Rd]. rewrite length_app.
    pose proof (fieldDesc_length fields). lia.
  - unfold elems. cbn [len arr]. rewrite take_0. cbn [app]. rewrite Hlenc.
    rewrite take_app_length'; [reflexivity|]. rewrite length_map. reflexivity.
Qed.

(** C6: on a well-formed RowDescription [readRowDescription] returns the
    names of its fields, one entry per field in the order of the message,
    having consumed per field the name, its terminator and 18 bytes of
    metadata, and nothing behind the last field; with no field the list is
    empty.  The slice passed in does not matter. *)
Theorem readRowDescription_names (fields : list (bytes * bytes))
    (columns : slice bytes) (rest : bytes) (cn : Conn) :
  Forall wf_fieldDesc fields ->
  Z.of_nat (length fields) < 2 ^ 15 ->
  exists columns',
    readRowDescription columns (set_Rd (rowDescription fields ++ rest) cn)
    = Ret columns' (set_Rd rest cn)
    /\ elems columns' = map fst fields
    /\ length (elems columns') = length fields
    /\ (fields = [] -> elems columns' = []).
Proof.
  intros Hwf Hcount.
  destruct (readRowDescription_wf fields columns rest cn Hwf Hcount)
    as (columns' & Hrun & Hel).
  exists columns'. split; [exact Hrun|]. split; [exact Hel|]. split.
  - rewrite Hel. apply length_map.
  - intros ->. exact Hel.
Qed.

Lemma readRowDescription_names_witness :
  exists columns',
    readRowDescription nil_slice
      (set_Rd (rowDescription [(str "id", replicate 18 NUL);
                               (str "name", replicate 18 NUL)] ++ str "rest")
              (conn0 []))
    = Ret columns' (set_Rd (str "rest") (conn0 []))
    /\ elems columns' = map fst [(str "id", replicate 18 NUL);
                                 (str "name", replicate 18 NUL)]
    /\ length (elems columns') = length [(str "id", replicate 18 NUL);
                                         (str "name", replicate 18 NUL)]
    /\ ([(str "id", replicate 18 NUL); (str "name", replicate 18 NUL)] = [] ->
        elems columns' = []).
Proof.
  apply (readRowDescription_names
           [(str "id", replicate 18 NUL); (str "name", replicate 18 NUL)]
           nil_slice (str "rest") (conn0 [])).
  - constructor; [split; [apply NUL_not_in; reflexivity|reflexivity]|].
    constructor; [split; [apply NUL_not_in; reflexivity|reflexivity]|].
    constructor.
  - reflexivity.
Defined.

(** A RowDescription of two columns read into a slice that held three
    names before, and one without columns. *)
Example readRowDescription_two_columns :
  readRowDescription (mkSlice [str "old1"; str "old2"; str "old3"] 0)
    (conn0 (rowDescription [(str "id", replicate 18 NUL);
                            (str "name", replicate 18 NUL)] ++ str "rest"))
  = Ret (mkSlice [str "id"; str "name"; str "old3"] 2) (conn0 (str "rest"))
  /\ readRowDescription nil_slice (conn0 (rowDescription [] ++ str "rest"))
     = Ret (mkSlice [] 0) (conn0 (str "rest")).
Proof. split; vm_compute; reflexivity. Qed.

(** ** Data rows *)

Lemma readValue_field (v : option bytes) (rest : bytes) (cn : Conn) :
  wf_value v ->
  (let! l := readInt32 in
   (if negb (l =? -1)
    then let! b := ReadN l in ret (Some b)
    else ret None)) (set_Rd (fieldValue v ++ rest) cn)
  = Ret v (set_Rd rest cn).
Proof.
  intros Hv. unfold bind at 1. destruct v as [b|]; cbn [fieldValue wf_value] in *.
  - rewrite <- app_assoc, readInt32_put by lia.
    destruct (Z.eqb_spec (Z.of_nat (length b)) (-1)) as [E|_]; [lia|].
    cbn [negb]. unfold bind. rewrite ReadN_app. reflexivity.
  - rewrite readInt32_put by lia. reflexivity.
Qed.

Lemma fieldValue_length (values : list (option bytes)) :
  (length values <= length (flat_map fieldValue values))%nat.
Proof.
  induction values as [|v values IH]; [reflexivity|].
  cbn [flat_map length]. rewrite length_app.
  destruct v; cbn [fieldValue]; rewrite ?length_app, PutUint32_length; lia.
Qed.

Lemma readDataRow_body_field {S} `{ColumnScanner S} (colNum colIdx : Z)
    (scanner : S) (columns : slice bytes) (retErr : option error)
    (v : option bytes) (rest : bytes) (cn : Conn) :
  wf_value v -> colIdx < colNum ->
  readDataRow_body colNum columns (colIdx, scanner, retErr)
    (set_Rd (fieldValue v ++ rest) cn)
  = match index columns colIdx with
    | None => Panic
    | Some column =>
        let '(scanner, err) := ScanColumn scanner colIdx column v in
        Ret (Continue (int16 (colIdx + 1), scanner,
                       match err with Some err => setErr retErr err | None => retErr end))
            (set_Rd rest cn)
    end.
Proof.
  intros Hv Hlt. unfold readDataRow_body.
  destruct (Z.ltb_spec colIdx colNum) as [_|]; [|lia].
  unfold bind at 1. unfold bind at 1.
  pose proof (readValue_field v rest cn Hv) as E. unfold bind at 1 in E.
  destruct (readInt32 (set_Rd (fieldValue v ++ rest) cn)) as [l cn'| | |];
    try discriminate E.
  rewrite E. destruct (index columns colIdx) as [column|]; [|reflexivity].
  destruct (ScanColumn scanner colIdx column v); reflexivity.
Qed.

Lemma readDataRow_body_done {S} `{ColumnScanner S} (colNum : Z)
    (scanner : S) (columns : slice bytes) (retErr : option error) (cn : Conn) :
  readDataRow_body colNum columns (colNum, scanner, retErr) cn
  = Ret (Return (scanner, retErr)) cn.
Proof. unfold readDataRow_body. rewrite Z.ltb_irrefl. reflexivity. Qed.

Lemma index_elems {A} (b : slice A) (i : nat) (x : A) :
  elems b !! i = Some x -> index b (Z.of_nat i) = Some x.
Proof.
  unfold elems, index. intros Hx.
  apply lookup_take_Some in Hx as [Hx Hi].
  destruct (Z.leb_spec 0 (Z.of_nat i)) as [_|]; [|lia].
  destruct (Z.ltb_spec (Z.of_nat i) (Z.of_nat (len b))) as [_|]; [|lia].
  cbn [andb]. rewrite Nat2Z.id. exact Hx.
Qed.

Lemma index_out {A} (b : slice A) (i : Z) :
  Z.of_nat (len b) <= i -> index b i = None.
Proof.
  unfold index. intros Hi.
  destruct (Z.ltb_spec i (Z.of_nat (len b))) as [|_]; [lia|].
  rewrite andb_false_r. reflexivity.
Qed.

Lemma int16_small (z : Z) : - 2 ^ 15 <= z < 2 ^ 15 -> int16 z = z.
Proof.
  intros Hz. unfold int16, wrap.
  change (2 ^ (16 - 1)) with 32768 in *. change (2 ^ 15) with 32768 in *.
  change (2 ^ 16) with 65536 in *.
  Z.to_euclidean_division_equations. lia.
Qed.

Lemma readDataRow_loop_scans {S} `{ColumnScanner S} (values : list (option bytes))
    (names : list bytes) (fuel i : nat) (scanner : S)
    (columns : slice bytes) (retErr : option error) (rest : bytes) (cn : Conn) :
  Forall wf_value values ->
  (length values < fuel)%nat ->
  length names = length values ->
  drop i (elems columns) = names ++ drop (i + length values) (elems columns) ->
  Z.of_nat (i + length values) < 2 ^ 15 ->
  loop (readDataRow_body (Z.of_nat (i + length values)) columns) fuel
    (Z.of_nat i, scanner, retErr)
    (set_Rd (flat_map fieldValue values ++ rest) cn)
  = let '(scanner', es) := scanColumns scanner (Z.of_nat i) (zip names values) in
    Ret (scanner', coalesce retErr es) (set_Rd rest cn).
Proof.
  intros Hwf. revert names fuel i scanner retErr.
  induction Hwf as [|v values Hv Hwf IH];
    intros names fuel i scanner retErr Hfuel Hlen Hnames Hi;
    (destruct fuel as [|fuel]; [exfalso; revert Hfuel; apply Nat.nlt_0_r|]);
    rewrite loop_unfold.
  - destruct names; [|discriminate Hlen].
    cbn [length flat_map app]. rewrite Nat.add_0_r, readDataRow_body_done.
    cbn. destruct retErr; reflexivity.
  - destruct names as [|name names]; [discriminate Hlen|].
    cbn [length] in *. cbn [flat_map]. rewrite <- app_assoc.
    rewrite readDataRow_body_field by (try exact Hv; lia).
    assert (Hname : elems columns !! i = Some name).
    { rewrite <- (Nat.add_0_r i), <- lookup_drop, Hnames. reflexivity. }
    rewrite (index_elems _ _ _ Hname).
    cbn [zip zip_with scanColumns].
    destruct (ScanColumn scanner (Z.of_nat i) name v) as [scanner1 e].
    rewrite int16_small by lia.
    replace (Z.of_nat i + 1) with (Z.of_nat (Datatypes.S i)) by lia.
    replace (i + Datatypes.S (length values))%nat
      with (Datatypes.S i + length values)%nat in * by lia.
    rewrite (IH names).
    + destruct (scanColumns scanner1 _ _) as [scanner2 es].
      f_equal. f_equal. destruct e as [e|], retErr as [r|]; reflexivity.
    + lia.
    + lia.
    + replace (Datatypes.S i) with (i + 1)%nat by lia.
      rewrite <- (drop_drop (elems columns) 1 i), Hnames. cbn [app skipn].
      replace (i + 1 + length values)%nat
        with (Datatypes.S i + length values)%nat by lia.
      reflexivity.
    + lia.
Qed.

Lemma readDataRow_loop_panics {S} `{ColumnScanner S} (values : list (option bytes))
    (fuel i : nat) (scanner : S) (columns : slice bytes)
    (retErr : option error) (rest : bytes) (cn : Conn) :
  Forall wf_value values ->
  (length values < fuel)%nat ->
  (i <= len columns < i + length values)%nat ->
  (len columns <= cap columns)%nat ->
  Z.of_nat (i + length values) < 2 ^ 15 ->
  loop (readDataRow_body (Z.of_nat (i + length values)) columns) fuel
    (Z.of_nat i, scanner, retErr)
    (set_Rd (flat_map fieldValue values ++ rest) cn)
  = Panic.
Proof.
  intros Hwf. revert fuel i scanner retErr.
  induction Hwf as [|v values Hv Hwf IH];
    intros fuel i scanner retErr Hfuel Hi Hcap Hsmall.
  - cbn [length] in Hi. lia.
  - destruct fuel as [|fuel]; [exfalso; revert Hfuel; apply Nat.nlt_0_r|].
    rewrite loop_unfold.
    cbn [length] in *. cbn [flat_map]. rewrite <- app_assoc.
    rewrite readDataRow_body_field by (try exact Hv; lia).
    destruct (Nat.eq_dec i (len columns)) as [->|Hne].
    + rewrite index_out by lia. reflexivity.
    + destruct (index_ok columns i) as [column Hcol]; [lia|exact Hcap|].
      rewrite Hcol.
      destruct (ScanColumn scanner (Z.of_nat i) column v) as [scanner1 e].
      rewrite int16_small by lia.
      replace (Z.of_nat i + 1) with (Z.of_nat (Datatypes.S i)) by lia.
      replace (i + Datatypes.S (length values))%nat
        with (Datatypes.S i + length values)%nat in * by lia.
      apply IH; [lia|lia|exact Hcap|lia].
Qed.

Lemma readDataRow_within_columns {S} `{ColumnScanner S} (values : list (option bytes))
    (scanner : S) (columns : slice bytes) (rest : bytes) (cn : Conn) :
  Forall wf_value values ->
  Z.of_nat (length values) < 2 ^ 15 ->
  (length values <= len columns <= cap columns)%nat ->
  readDataRow scanner columns (set_Rd (dataRow values ++ rest) cn)
  = Ret ((scanColumns scanner 0 (zip (elems columns) values)).1,
         head (scanColumns scanner 0 (zip (elems columns) values)).2)
        (set_Rd rest cn).
Proof.
  intros Hwf Hsmall [Hlen Hcap].
  unfold readDataRow, dataRow, bind.
  rewrite <- app_assoc, readInt16_put by lia.
  assert (Hel : length (elems columns) = len columns).
  { unfold elems. apply length_take_le. exact Hcap. }
  unfold for_ever.
  rewrite (readDataRow_loop_scans values (take (length values) (elems columns)) _ 0).
  - rewrite (zip_with_take_l pair (elems columns) values).
    change (Z.of_nat 0) with 0.
    destruct (scanColumns scanner 0 _) as [scanner' es]. reflexivity.
  - exact Hwf.
  - unfold rounds. cbn [Rd set_Rd]. rewrite length_app.
    pose proof (fieldValue_length values). lia.
  - apply length_take_le. lia.
  - cbn [drop plus]. symmetry. apply take_drop.
  - cbn [plus]. exact Hsmall.
Qed.

(** C5: on a well-formed DataRow whose fields the column names cover,
    [readDataRow] consumes the count and every field, nothing more, and
    hands the scanner each column in order with its index, its name and its
    value, the nil slice for a field of length -1, which has no bytes.  It
    scans on after an error of the scanner and returns the first such
    error. *)
Theorem readDataRow_scans_every_column {S} `{ColumnScanner S}
    (values : list (option bytes)) (scanner : S) (columns : slice bytes)
    (rest : bytes) (cn : Conn) :
  Forall wf_value values ->
  Z.of_nat (length values) < 2 ^ 15 ->
  (length values <= len columns <= cap columns)%nat ->
  readDataRow scanner columns (set_Rd (dataRow values ++ rest) cn)
  = Ret ((scanColumns scanner 0 (zip (elems columns) values)).1,
         head (scanColumns scanner 0 (zip (elems columns) values)).2)
        (set_Rd rest cn).
Proof. apply readDataRow_within_columns. Qed.

Lemma readDataRow_scans_every_column_witness :
  readDataRow ([] : scanLog) (slice_of [str "id"; str "bad"; str "name"])
    (set_Rd (dataRow [Some (str "7"); Some (str "x"); None] ++ str "rest") (conn0 []))
  = Ret ((scanColumns ([] : scanLog) 0
            (zip (elems (slice_of [str "id"; str "bad"; str "name"]))
                 [Some (str "7"); Some (str "x"); None])).1,
         head (scanColumns ([] : scanLog) 0
                 (zip (elems (slice_of [str "id"; str "bad"; str "name"]))
                      [Some (str "7"); Some (str "x"); None])).2)
        (set_Rd (str "rest") (conn0 [])).
Proof.
  apply (readDataRow_scans_every_column (S := scanLog)
           [Some (str "7"); Some (str "x"); None] []
           (slice_of [str "id"; str "bad"; str "name"]) (str "rest") (conn0 [])).
  - constructor; [reflexivity|]. constructor; [reflexivity|].
    constructor; [exact I|]. constructor.
  - reflexivity.
  - cbn. lia.
Defined.

(** A row of three fields, the second one NULL, the third one under a
    column the scanner refuses, then a fourth: the scanner sees all four,
    the NULL as a nil slice, and the error of the third is returned. *)
Example readDataRow_null_and_error :
  readDataRow ([] : scanLog)
    (slice_of [str "id"; str "name"; str "bad"; str "bad"])
    (conn0 (dataRow [Some (str "7"); None; Some (str "x"); Some (str "y")]
            ++ str "next"))
  = Ret ([(0, str "id", Some (str "7")); (1, str "name", None);
          (2, str "bad", Some (str "x")); (3, str "bad", Some (str "y"))],
         Some (ExternalError "cannot scan"))
        (conn0 (str "next")).
Proof. vm_compute. reflexivity. Qed.

(** C9: [readDataRow] indexes the column names without a check of its
    own: on a well-formed DataRow it panics exactly when the row has more
    fields than there are column names. *)
Theorem readDataRow_panics_beyond_columns {S} `{ColumnScanner S}
    (values : list (option bytes)) (scanner : S) (columns : slice bytes)
    (rest : bytes) (cn : Conn) :
  Forall wf_value values ->
  Z.of_nat (length values) < 2 ^ 15 ->
  (len columns <= cap columns)%nat ->
  readDataRow scanner columns (set_Rd (dataRow values ++ rest) cn) = Panic
  <-> (len columns < length values)%nat.
Proof.
  intros Hwf Hsmall Hcap. split.
  - intros Hpanic.
    destruct (Nat.lt_ge_cases (len columns) (length values)) as [Hlt|Hge];
      [exact Hlt|].
    rewrite readDataRow_within_columns in Hpanic by (try assumption; lia).
    discriminate Hpanic.
  - intros Hlt. unfold readDataRow, dataRow, bind.
    rewrite <- app_assoc, readInt16_put by lia.
    unfold for_ever.
    apply (readDataRow_loop_panics values _ 0); [exact Hwf| |lia|exact Hcap|exact Hsmall].
    unfold rounds. cbn [Rd set_Rd]. rewrite length_app.
    pose proof (fieldValue_length values). lia.
Qed.

Lemma readDataRow_panics_beyond_columns_witness :
  readDataRow ([] : scanLog) (slice_of [str "id"])
    (set_Rd (dataRow [Some (str "7"); Some (str "x")] ++ str "rest") (conn0 []))
  = Panic.
Proof.
  apply (readDataRow_panics_beyond_columns (S := scanLog)
           [Some (str "7"); Some (str "x")] []
           (slice_of [str "id"]) (str "rest") (conn0 [])).
  - constructor; [reflexivity|]. constructor; [reflexivity|]. constructor.
  - reflexivity.
  - cbn. lia.
  - cbn. lia.
Defined.


(** ** The write buffer *)

Lemma patch_middle (pre old new post : bytes) :
  length old = length new ->
  patch (length pre) new (pre ++ old ++ post) = pre ++ new ++ post.
Proof.
  intros Hlen. unfold patch.
  rewrite take_app_length. f_equal. f_equal.
  rewrite drop_app_ge by lia.
  replace (length pre + length new - length pre)%nat with (length old) by lia.
  apply drop_app_length.
Qed.

(** A message started with a tag [c], with [payload] written since, is
    the frame of [payload] once finished. *)
Lemma FinishMessage_frame (pre payload : bytes) (c : ascii) (ps : nat) :
  FinishMessage
    (mkWriteBuffer (pre ++ c :: [NUL; NUL; NUL; NUL] ++ payload)
                   (Datatypes.S (length pre)) ps)
  = mkWriteBuffer (pre ++ frame c payload) (Datatypes.S (length pre)) ps.
Proof.
  unfold FinishMessage, set_Bytes. cbn [Bytes msgStart paramStart].
  f_equal.
  change (pre ++ c :: [NUL; NUL; NUL; NUL] ++ payload)
    with (pre ++ [c] ++ [NUL; NUL; NUL; NUL] ++ payload).
  rewrite (app_assoc pre [c]).
  replace (Datatypes.S (length pre)) with (length (pre ++ [c]))
    by (rewrite length_app; cbn [length]; lia).
  rewrite patch_middle by reflexivity.
  rewrite <- app_assoc. unfold frame. cbn [app]. do 3 f_equal.
  f_equal. f_equal. rewrite !length_app. cbn [length]. lia.
Qed.

(** The same for a message without a tag. *)
Lemma FinishMessage_untagged (pre payload : bytes) (ps : nat) :
  FinishMessage
    (mkWriteBuffer (pre ++ [NUL; NUL; NUL; NUL] ++ payload) (length pre) ps)
  = mkWriteBuffer
      (pre ++ BigEndian_PutUint32 (uint32 (Z.of_nat (length payload) + 4)) ++ payload)
      (length pre) ps.
Proof.
  unfold FinishMessage, set_Bytes. cbn [Bytes msgStart paramStart].
  f_equal. rewrite patch_middle by reflexivity. do 2 f_equal.
  f_equal. f_equal. rewrite !length_app. cbn [length]. lia.
Qed.

Lemma writeSSLMsg_bytes (buf : WriteBuffer) :
  Bytes (writeSSLMsg buf) = Bytes buf ++ sslRequest.
Proof.
  unfold writeSSLMsg, StartMessage, WriteInt32, set_Bytes.
  cbn [Ascii.eqb NUL Bytes msgStart paramStart].
  change (Ascii.eqb NUL NUL) with true. cbv iota.
  cbn [Bytes msgStart paramStart].
  rewrite <- app_assoc, FinishMessage_untagged. reflexivity.
Qed.

(** ** Transport negotiation *)

(** C8: [enableSSL] sends what its buffer held and the 8 bytes of the
    SSLRequest, and takes one byte off the stream.  On [S] it succeeds with
    the stream swapped for a TLS one; on any other byte it fails with
    [errSSLNotSupported], the stream not swapped; in both cases the bytes
    behind that one byte stay unread. *)
Theorem enableSSL_reads_one_byte (cn : Conn) (c : ascii) (rest : bytes) :
  NetUp cn = true ->
  BigEndian_Uint32 (drop 4 sslRequest) = 80877103
  /\ length sslRequest = 8%nat
  /\ (c = "S"%char ->
      enableSSL (set_Rd (c :: rest) cn)
      = Ret tt (set_TLS true (flushed sslRequest rest cn)))
  /\ (c <> "S"%char ->
      enableSSL (set_Rd (c :: rest) cn)
      = Fail errSSLNotSupported (flushed sslRequest rest cn)).
Proof.
  intros Hup.
  assert (E : enableSSL (set_Rd (c :: rest) cn)
              = if negb (Ascii.eqb c "S")
                then Fail errSSLNotSupported (flushed sslRequest rest cn)
                else Ret tt (set_TLS true (flushed sslRequest rest cn))).
  { unfold enableSSL, SetNetConn_tls, bind, on_Wr, modify, FlushWriter.
    cbn [NetUp set_Wr set_Rd Wr NetOut Rd RdSize TLS ProcessId SecretKey
         Columns RemoteAddr].
    rewrite Hup. unfold ReadByte.
    cbn [NetUp set_Wr set_Rd set_NetOut Wr NetOut Rd RdSize TLS ProcessId SecretKey
         Columns RemoteAddr].
    rewrite writeSSLMsg_bytes.
    destruct (Ascii.eqb c "S"); reflexivity. }
  split; [reflexivity|]. split; [reflexivity|]. split.
  - intros ->. rewrite E. reflexivity.
  - intros Hc. rewrite E.
    destruct (Ascii.eqb_spec c "S") as [->|_]; [contradiction|]. reflexivity.
Qed.

Lemma enableSSL_reads_one_byte_witness :
  enableSSL (set_Rd ("N"%char :: str "rest") (conn0 []))
  = Fail errSSLNotSupported (flushed sslRequest (str "rest") (conn0 [])).
Proof.
  apply (enableSSL_reads_one_byte (conn0 []) "N" (str "rest")).
  - reflexivity.
  - discriminate.
Defined.

(** The SSL refusal of the specification's scenarios: the single byte [N]. *)
Example enableSSL_refused :
  enableSSL (conn0 (str "N"))
  = Fail errSSLNotSupported
      (mkConn [] 4096 emptyBuffer (map byte_of [0; 0; 0; 8; 4; 210; 22; 47])
              true false 0 0 nil_slice (str "127.0.0.1:5432")).
Proof. vm_compute. reflexivity. Qed.

Example enableSSL_accepted :
  enableSSL (conn0 (str "S"))
  = Ret tt
      (mkConn [] 4096 emptyBuffer (map byte_of [0; 0; 0; 8; 4; 210; 22; 47])
              true true 0 0 nil_slice (str "127.0.0.1:5432")).
Proof. vm_compute. reflexivity. Qed.

(** ** Readers that neither write nor panic nor run out of rounds *)

Lemma reads_from_refl {A} (cn : Conn) (a : A) : reads_from cn (Ret a cn).
Proof. exists (Rd cn). split; [symmetry; apply set_Rd_id|lia]. Qed.

Lemma reads_ret {A} (a : A) : reads (ret a).
Proof. intros cn. apply reads_from_refl. Qed.

Lemma reads_fail {A} (e : error) : reads (@fail A e).
Proof. intros cn. exists (Rd cn). split; [symmetry; apply set_Rd_id|lia]. Qed.

Lemma reads_from_bind {A B} (m : M A) (k : A -> M B) (cn : Conn) :
  reads_from cn (m cn) ->
  (forall a cn', m cn = Ret a cn' -> reads_from cn' (k a cn')) ->
  reads_from cn (bind m k cn).
Proof.
  intros Hm Hk. unfold bind.
  destruct (m cn) as [a cn'|e cn'| |] eqn:E; try exact Hm.
  destruct Hm as (r & -> & Hr).
  specialize (Hk a _ eq_refl).
  destruct (k a (set_Rd r cn)) as [b cn''|e cn''| |]; try exact Hk;
    destruct Hk as (r' & -> & Hr'); exists r'; cbn [Rd set_Rd] in Hr';
    (split; [reflexivity|lia]).
Qed.

Lemma reads_bind {A B} (m : M A) (k : A -> M B) :
  reads m -> (forall a, reads (k a)) -> reads (bind m k).
Proof.
  intros Hm Hk cn. apply reads_from_bind; [apply Hm|].
  intros a cn' _. apply Hk.
Qed.

Lemma reads_ReadByte : reads ReadByte.
Proof.
  intros cn. unfold ReadByte. destruct (Rd cn) as [|c r] eqn:E.
  - exists []. split; [rewrite <- E; symmetry; apply set_Rd_id|cbn [length]; lia].
  - exists r. split; [reflexivity|rewrite E; cbn [length]; lia].
Qed.

Lemma reads_ReadN (n : Z) : 0 <= n -> reads (ReadN n).
Proof.
  intros Hn cn. unfold ReadN.
  destruct (Z.ltb_spec n 0) as [|_]; [lia|].
  destruct (Z.to_nat n <=? length (Rd cn))%nat.
  - eexists. split; [reflexivity|]. rewrite length_drop. lia.
  - exists []. split; [reflexivity|cbn [length]; lia].
Qed.

Lemma reads_readInt32 : reads readInt32.
Proof.
  apply reads_bind; [apply reads_ReadN; lia|]. intros b. apply reads_ret.
Qed.

Lemma span_NUL_length (l s rest : bytes) :
  span_NUL l = Some (s, rest) -> (length rest < length l)%nat.
Proof.
  revert s. induction l as [|c l IH]; intros s; cbn [span_NUL]; [discriminate|].
  destruct (Ascii.eqb c NUL).
  - intros [= <- <-]. cbn [length]. lia.
  - destruct (span_NUL l) as [[s' rest']|]; [|discriminate].
    intros [= <- <-]. specialize (IH _ eq_refl). cbn [length]. lia.
Qed.

Lemma reads_readString : reads readString.
Proof.
  apply reads_bind; [|intros s; apply reads_ret].
  intros cn. unfold ReadString0.
  destruct (span_NUL (Rd cn)) as [[s rest]|] eqn:E.
  - exists rest. split; [reflexivity|]. apply span_NUL_length in E. lia.
  - exists []. split; [reflexivity|cbn [length]; lia].
Qed.

(** A loop whose rounds only read, and consume input when they go round
    again, returns within the rounds [for_ever] grants it. *)
Lemma reads_loop {S R} (body : S -> M (step S R)) :
  (forall s, reads (body s)) ->
  (forall s cn s' cn', body s cn = Ret (Continue s') cn' ->
                       (length (Rd cn') < length (Rd cn))%nat) ->
  forall fuel s cn, (length (Rd cn) < fuel)%nat ->
                    reads_from cn (loop body fuel s cn).
Proof.
  intros Hbody Hprogress. induction fuel as [|fuel IH]; intros s cn Hfuel; [lia|].
  rewrite loop_unfold.
  pose proof (Hbody s cn) as Hb. pose proof (Hprogress s cn) as Hp.
  destruct (body s cn) as [[s'|r] cn'|e cn'| |]; try exact Hb.
  specialize (Hp s' cn' eq_refl).
  destruct Hb as (r & -> & Hr).
  specialize (IH s' (set_Rd r cn)). cbn [Rd set_Rd] in IH, Hp.
  specialize (IH ltac:(lia)).
  destruct (loop body fuel s' (set_Rd r cn)) as [x cn''|e cn''| |]; try exact IH;
    destruct IH as (r' & -> & Hr'); exists r'; cbn [Rd set_Rd] in Hr';
    (split; [reflexivity|lia]).
Qed.

Lemma reads_for_ever {S R} (body : S -> M (step S R)) (s : S) :
  (forall s, reads (body s)) ->
  (forall s cn s' cn', body s cn = Ret (Continue s') cn' ->
                       (length (Rd cn') < length (Rd cn))%nat) ->
  reads (for_ever body s).
Proof.
  intros Hbody Hprogress cn. unfold for_ever, rounds.
  apply reads_loop; [exact Hbody|exact Hprogress|lia].
Qed.

Lemma reads_readError : reads readError.
Proof.
  apply reads_bind; [intros cn; apply reads_from_refl|]. intros cn0.
  apply reads_bind; [|intros m; apply reads_ret].
  apply reads_for_ever.
  - intros m cn. unfold readError_body.
    apply reads_from_bind; [apply reads_ReadByte|]. intros c cn' _.
    destruct (Ascii.eqb c NUL); [apply reads_ret|].
    apply reads_bind; [apply reads_readString|]. intros s. apply reads_ret.
  - intros m cn m' cn'. unfold readError_body, bind, ReadByte.
    destruct (Rd cn) as [|c r] eqn:E; [discriminate|].
    destruct (Ascii.eqb c NUL); [discriminate|].
    pose proof (reads_readString (set_Rd r cn)) as Hs.
    destruct (readString (set_Rd r cn)) as [s cn1|e cn1| |]; try discriminate.
    intros [= <- <-]. destruct Hs as (r' & -> & Hr').
    cbn [Rd set_Rd length] in *. lia.
Qed.

Lemma reads_readMessageType : reads readMessageType.
Proof.
  apply reads_bind; [apply reads_ReadByte|]. intros c.
  apply reads_bind; [apply reads_readInt32|]. intros l. apply reads_ret.
Qed.

Lemma reads_passwordResponse : reads authenticate_passwordResponse.
Proof.
  unfold authenticate_passwordResponse.
  apply reads_bind; [apply reads_readMessageType|]. intros [c n].
  destruct (Ascii.eqb c authenticationOKMsg).
  - apply reads_bind; [apply reads_readInt32|]. intros num.
    destruct (negb (num =? 0)); [apply reads_fail|apply reads_ret].
  - destruct (Ascii.eqb c errorResponseMsg); [|apply reads_fail].
    apply reads_bind; [apply reads_readError|]. intros e. apply reads_fail.
Qed.

(** ** MD5 authentication *)

Lemma writePasswordMsg_bytes (password : bytes) (buf : WriteBuffer) :
  Bytes (writePasswordMsg password buf)
  = Bytes buf ++ frame passwordMessageMsg (cstring password).
Proof.
  unfold writePasswordMsg, StartMessage, WriteString, set_Bytes.
  change (Ascii.eqb passwordMessageMsg NUL) with false. cbv iota.
  cbn [Bytes msgStart paramStart].
  rewrite <- app_assoc. cbn [app].
  change (passwordMessageMsg :: NUL :: NUL :: NUL :: NUL :: password ++ [NUL])
    with (passwordMessageMsg :: [NUL; NUL; NUL; NUL] ++ cstring password).
  rewrite FinishMessage_frame. reflexivity.
Qed.

(** After the salt, the MD5 case sends one PasswordMessage and goes on to
    read the server's answer. *)
Lemma authenticate_md5_continues {N} `{Sasl N} (user password salt rest : bytes)
    (cn : Conn) :
  length salt = 4%nat -> NetUp cn = true ->
  authenticate user password
    (set_Rd (BigEndian_PutUint32 (uint32 authenticationMD5Password) ++ salt ++ rest) cn)
  = authenticate_passwordResponse
      (flushed (frame passwordMessageMsg
                  (cstring (str "md5" ++ md5s (md5s (password ++ user) ++ salt))))
               rest cn).
Proof.
  intros Hsalt Hup. unfold authenticate, bind at 1.
  rewrite readInt32_put by (unfold authenticationMD5Password; lia).
  change (authenticationMD5Password =? authenticationOK) with false.
  change (authenticationMD5Password =? authenticationCleartextPassword) with false.
  change (authenticationMD5Password =? authenticationMD5Password) with true.
  cbv iota. unfold bind at 1.
  rewrite (ReadN_exact 4 salt) by (rewrite Hsalt; reflexivity).
  unfold bind, on_Wr, modify, FlushWriter.
  cbn [NetUp set_Wr set_Rd Wr NetOut]. rewrite Hup.
  rewrite writePasswordMsg_bytes. reflexivity.
Qed.


Example authenticate_md5_u_p :
  md5s (md5s (str "pu") ++ map byte_of [0x12; 0x34; 0x56; 0x78])
  = str "653172af189cff52cc70c3f400610a7d"
  /\ authenticate (N := nat) (str "u") (str "p")
       (conn0 (BigEndian_PutUint32 5 ++ map byte_of [0x12; 0x34; 0x56; 0x78]
               ++ frame authenticationOKMsg (BigEndian_PutUint32 0)))
     = Ret tt
         (mkConn [] 4096 emptyBuffer
            (str "p" ++ BigEndian_PutUint32 40
             ++ str "md5653172af189cff52cc70c3f400610a7d" ++ [NUL])
            true false 0 0 nil_slice (str "127.0.0.1:5432")).
Proof. split; vm_compute; reflexivity. Qed.


(** ** SASL mechanism selection *)

Lemma knownMech_wf (s : bytes) : knownMech s -> wf_mechName s.
Proof.
  intros [->| ->]; (split; [discriminate|]);
    apply NUL_not_in; vm_compute; reflexivity.
Qed.

Lemma saslLoop_body_known (saslMech : Mechanism) (s rest : bytes) (cn : Conn) :
  knownMech s ->
  authenticate_saslLoop_body saslMech (set_Rd (cstring s ++ rest) cn)
  = Ret (Continue (selectMech saslMech [s])) (set_Rd rest cn).
Proof.
  intros Hk. destruct (knownMech_wf s Hk) as [Hne Hnul].
  unfold authenticate_saslLoop_body, bind.
  rewrite readString_cstring by exact Hnul.
  rewrite bool_decide_eq_false_2 by exact Hne.
  cbn [selectMech foldl].
  destruct Hk as [->| ->].
  - rewrite bool_decide_eq_true_2 by reflexivity. reflexivity.
  - rewrite bool_decide_eq_false_2 by discriminate.
    rewrite bool_decide_eq_true_2 by reflexivity. reflexivity.
Qed.

Lemma saslLoop_body_unknown (saslMech : Mechanism) (s rest : bytes) (cn : Conn) :
  wf_mechName s -> ~ knownMech s ->
  authenticate_saslLoop_body saslMech (set_Rd (cstring s ++ rest) cn)
  = Fail (Errorf "got %q, wanted %q"
            [ArgStr s; ArgStr (Mechanism_Name ScramSha256)])
         (set_Rd rest cn).
Proof.
  intros [Hne Hnul] Hk. unfold authenticate_saslLoop_body, bind.
  rewrite readString_cstring by exact Hnul.
  rewrite bool_decide_eq_false_2 by exact Hne.
  rewrite bool_decide_eq_false_2 by (intros E; apply Hk; left; exact E).
  rewrite bool_decide_eq_false_2 by (intros E; apply Hk; right; exact E).
  reflexivity.
Qed.

Lemma saslLoop_body_end (saslMech : Mechanism) (rest : bytes) (cn : Conn) :
  authenticate_saslLoop_body saslMech (set_Rd (NUL :: rest) cn)
  = Ret (Return saslMech) (set_Rd rest cn).
Proof. reflexivity. Qed.

(** The loop over known names: each takes a round and updates the
    mechanism held. *)
Lemma saslLoop_known (names : list bytes) (fuel : nat) (saslMech : Mechanism)
    (tail : bytes) (cn : Conn) :
  Forall knownMech names ->
  loop authenticate_saslLoop_body (length names + fuel) saslMech
    (set_Rd (flat_map cstring names ++ tail) cn)
  = loop authenticate_saslLoop_body fuel (selectMech saslMech names)
      (set_Rd tail cn).
Proof.
  intros Hk. revert saslMech.
  induction Hk as [|s names Hs Hk IH]; intros saslMech; [reflexivity|].
  cbn [length plus flat_map]. rewrite loop_unfold, <- app_assoc.
  rewrite saslLoop_body_known by exact Hs. apply IH.
Qed.

Lemma names_length (names : list bytes) :
  (length names <= length (flat_map cstring names))%nat.
Proof.
  induction names as [|s names IH]; [reflexivity|].
  cbn [flat_map length]. unfold cstring at 1.
  rewrite !length_app. cbn [length]. lia.
Qed.

Lemma saslLoop_rounds (names : list bytes) (tail : bytes) (cn : Conn) :
  exists fuel,
    rounds (set_Rd (flat_map cstring names ++ tail) cn)
    = (length names + Datatypes.S fuel)%nat.
Proof.
  unfold rounds. cbn [Rd set_Rd]. rewrite length_app.
  pose proof (names_length names).
  exists (length (flat_map cstring names) + length tail - length names)%nat.
  lia.
Qed.

Lemma selectMech_offered (names : list bytes) (saslMech : Mechanism) :
  Mechanism_Name ScramSha256 ∈ names -> selectMech saslMech names = ScramSha256.
Proof.
  revert saslMech. induction names as [|s names IH]; intros saslMech Hin.
  - apply elem_of_nil in Hin. contradiction.
  - cbn [selectMech foldl].
    destruct (decide (s = Mechanism_Name ScramSha256)) as [->|Hne].
    + rewrite bool_decide_eq_true_2 by reflexivity.
      clear. induction names as [|s names IH]; [reflexivity|].
      cbn [foldl]. destruct (bool_decide _); exact IH.
    + rewrite bool_decide_eq_false_2 by exact Hne.
      apply IH. apply elem_of_cons in Hin as [E|Hin]; [congruence|exact Hin].
Qed.

Lemma authenticate_sasl_loop {N} `{Sasl N} (user password rest : bytes) (cn : Conn) :
  authenticate user password
    (set_Rd (BigEndian_PutUint32 (uint32 authenticationSASL) ++ rest) cn)
  = (let! saslMech := authenticate_saslLoop in
     authenticate_saslExchange saslMech user password) (set_Rd rest cn).
Proof.
  unfold authenticate, bind at 1.
  rewrite readInt32_put by (unfold authenticationSASL; lia).
  reflexivity.
Qed.

(** C4 (amended): the loop over the mechanism names offered.  When every
    name offered is SCRAM-SHA-256 or SCRAM-SHA-256-PLUS and SCRAM-SHA-256 is
    among them, the list is read up to its empty string and the exchange
    goes on with SCRAM-SHA-256, SCRAM-SHA-256-PLUS being passed over.  At
    the first name that is neither of the two, [authenticate] fails with
    the error that names it, whatever was offered before it or is offered
    behind it. *)
Theorem authenticate_sasl_mechanisms {N} `{Sasl N} (user password : bytes)
    (names : list bytes) (tail : bytes) (cn : Conn) :
  Forall knownMech names ->
  (Mechanism_Name ScramSha256 ∈ names ->
   authenticate_saslLoop (set_Rd (mechanismList names ++ tail) cn)
   = Ret ScramSha256 (set_Rd tail cn)
   /\ authenticate user password
        (set_Rd (BigEndian_PutUint32 (uint32 authenticationSASL)
                 ++ mechanismList names ++ tail) cn)
      = authenticate_saslExchange ScramSha256 user password (set_Rd tail cn))
  /\ (forall s, wf_mechName s -> ~ knownMech s ->
      authenticate user password
        (set_Rd (BigEndian_PutUint32 (uint32 authenticationSASL)
                 ++ flat_map cstring names ++ cstring s ++ tail) cn)
      = Fail (Errorf "got %q, wanted %q"
                [ArgStr s; ArgStr (Mechanism_Name ScramSha256)])
             (set_Rd tail cn)).
Proof.
  intros Hk. split.
  - intros Hin.
    assert (E : authenticate_saslLoop (set_Rd (mechanismList names ++ tail) cn)
                = Ret ScramSha256 (set_Rd tail cn)).
    { unfold authenticate_saslLoop, for_ever, mechanismList.
      rewrite <- app_assoc.
      destruct (saslLoop_rounds names ([NUL] ++ tail) cn) as [fuel ->].
      rewrite saslLoop_known by exact Hk.
      rewrite loop_unfold. cbn [app]. rewrite saslLoop_body_end.
      rewrite selectMech_offered by exact Hin. reflexivity. }
    split; [exact E|].
    rewrite authenticate_sasl_loop. unfold bind. rewrite E. reflexivity.
  - intros s Hwf Hunknown.
    rewrite authenticate_sasl_loop. unfold bind.
    unfold authenticate_saslLoop, for_ever.
    destruct (saslLoop_rounds names (cstring s ++ tail) cn) as [fuel ->].
    rewrite saslLoop_known by exact Hk.
    rewrite loop_unfold.
    rewrite saslLoop_body_unknown by assumption. reflexivity.
Qed.

Lemma authenticate_sasl_mechanisms_witness :
  authenticate_saslLoop
    (set_Rd (mechanismList [str "SCRAM-SHA-256-PLUS"; str "SCRAM-SHA-256"]
             ++ str "next") (conn0 []))
  = Ret ScramSha256 (set_Rd (str "next") (conn0 [])).
Proof.
  apply (authenticate_sasl_mechanisms (N := nat) (str "u") (str "p")
           [str "SCRAM-SHA-256-PLUS"; str "SCRAM-SHA-256"] (str "next") (conn0 [])).
  - constructor; [right; reflexivity|].
    constructor; [left; reflexivity|]. constructor.
  - apply list_elem_of_further, list_elem_of_here.
Defined.

(** C4 (as stated, refuted): the server offers SCRAM-SHA-256 and, behind
    it, a mechanism the engine does not know.  SCRAM-SHA-256 is in the list
    and yet [authenticate] fails with the unsupported-mechanism error. *)
Lemma authenticate_sasl_counterexample :
  Mechanism_Name ScramSha256 ∈ [str "SCRAM-SHA-256"; str "PLAIN"]
  /\ authenticate (N := nat) (str "u") (str "p")
       (conn0 (BigEndian_PutUint32 10
               ++ mechanismList [str "SCRAM-SHA-256"; str "PLAIN"]))
     = Fail (Errorf "got %q, wanted %q" [ArgStr (str "PLAIN"); ArgStr (str "SCRAM-SHA-256")])
            (conn0 [NUL]).
Proof.
  split.
  - apply list_elem_of_here.
  - vm_compute. reflexivity.
Qed.

(** The SCRAM-SHA-256 scenario of the specification, the negotiator being
    the echo of the concrete runs: the initial response names the mechanism,
    and the handshake ends at AuthenticationOk. *)
Example authenticate_sasl_handshake :
  authenticate (N := nat) (str "u") (str "p")
    (conn0 (BigEndian_PutUint32 10 ++ mechanismList [str "SCRAM-SHA-256"]
            ++ frame authenticationSASLContinueMsg (BigEndian_PutUint32 11 ++ str "abc")
            ++ frame authenticationSASLFinalMsg (BigEndian_PutUint32 12 ++ str "v=x")
            ++ frame authenticationOKMsg (BigEndian_PutUint32 0)))
  = Ret tt
      (mkConn [] 4096
         (mkWriteBuffer [] 0 0)
         (frame saslInitialResponseMsg (cstring (str "SCRAM-SHA-256") ++ BigEndian_PutUint32 0)
          ++ frame saslResponseMsg (str "cba"))
         true false 0 0 nil_slice (str "127.0.0.1:5432")).
Proof. vm_compute. reflexivity. Qed.

(** ** Bind, Execute, Sync *)

Lemma StartMessage_building (c : ascii) (buf : WriteBuffer) :
  c <> NUL ->
  StartMessage c buf = building (Bytes buf) c [] (paramStart buf).
Proof.
  intros Hc. unfold StartMessage, building.
  destruct (Ascii.eqb_spec c NUL) as [E|_]; [contradiction|]. reflexivity.
Qed.

Lemma append_building (pre : bytes) (c : ascii) (payload more : bytes) (ps : nat) :
  set_Bytes (Bytes (building pre c payload ps) ++ more) (building pre c payload ps)
  = building pre c (payload ++ more) ps.
Proof.
  unfold building, set_Bytes. cbn [Bytes msgStart paramStart app].
  f_equal. rewrite <- app_assoc. reflexivity.
Qed.

Lemma WriteString_building (s pre : bytes) (c : ascii) (payload : bytes) (ps : nat) :
  WriteString s (building pre c payload ps)
  = building pre c (payload ++ cstring s) ps.
Proof. apply append_building. Qed.

Lemma WriteInt16_building (n : Z) (pre : bytes) (c : ascii) (payload : bytes) (ps : nat) :
  WriteInt16 n (building pre c payload ps)
  = building pre c (payload ++ BigEndian_PutUint16 (uint16 n)) ps.
Proof. apply append_building. Qed.

Lemma WriteInt32_building (n : Z) (pre : bytes) (c : ascii) (payload : bytes) (ps : nat) :
  WriteInt32 n (building pre c payload ps)
  = building pre c (payload ++ BigEndian_PutUint32 (uint32 n)) ps.
Proof. apply append_building. Qed.

Lemma FinishMessage_building (pre : bytes) (c : ascii) (payload : bytes) (ps : nat) :
  FinishMessage (building pre c payload ps)
  = mkWriteBuffer (pre ++ frame c payload) (Datatypes.S (length pre)) ps.
Proof. apply FinishMessage_frame. Qed.

(** One parameter: the placeholder of [StartParam] becomes the length of
    the value, or -1. *)
Lemma param_building {P} `{ValueCodec P} (param : P) (pre : bytes) (c : ascii)
    (payload : bytes) (ps : nat) :
  exists ps',
    writeBindExecuteMsg_params [param] (building pre c payload ps)
    = building pre c (payload ++ fieldValue (encode_value param)) ps'.
Proof.
  cbn [writeBindExecuteMsg_params].
  exists (length (pre ++ c :: [NUL; NUL; NUL; NUL] ++ payload)).
  unfold StartParam, Append. cbn [building Bytes msgStart paramStart].
  set (B := pre ++ c :: [NUL; NUL; NUL; NUL] ++ payload).
  assert (HB : forall tail, building pre c (payload ++ tail) (length B)
                            = mkWriteBuffer (B ++ tail) (Datatypes.S (length pre)) (length B)).
  { intros tail. unfold building, B. f_equal.
    rewrite <- app_assoc. reflexivity. }
  rewrite HB.
  destruct (encode_value param) as [enc|]; cbn [fieldValue].
  - unfold FinishParam, set_Bytes. cbn [Bytes msgStart paramStart]. f_equal.
    rewrite <- app_assoc, patch_middle by reflexivity. do 3 f_equal.
    f_equal. rewrite !length_app. cbn [length]. lia.
  - unfold FinishNullParam, set_Bytes. cbn [Bytes msgStart paramStart]. f_equal.
    rewrite <- (app_nil_r [NUL; NUL; NUL; NUL]) at 1.
    rewrite patch_middle by reflexivity. rewrite app_nil_r. reflexivity.
Qed.

Lemma params_building {P} `{ValueCodec P} (params : list P) (pre : bytes) (c : ascii)
    (payload : bytes) (ps : nat) :
  exists ps',
    writeBindExecuteMsg_params params (building pre c payload ps)
    = building pre c (payload ++ paramBytes params) ps'.
Proof.
  revert payload ps. induction params as [|param params IH]; intros payload ps.
  - exists ps. cbn [writeBindExecuteMsg_params paramBytes flat_map].
    rewrite app_nil_r. reflexivity.
  - destruct (param_building param pre c payload ps) as [ps1 E1].
    destruct (IH (payload ++ fieldValue (encode_value param)) ps1) as [ps2 E2].
    exists ps2. cbn [writeBindExecuteMsg_params] in *. rewrite E1, E2.
    unfold paramBytes. cbn [flat_map]. rewrite <- app_assoc. reflexivity.
Qed.

Lemma uint16_int16 (n : Z) : uint16 (int16 n) = n mod 2 ^ 16.
Proof.
  unfold uint16, int16, wrap.
  change (2 ^ (16 - 1)) with 32768. change (2 ^ 16) with 65536.
  Z.to_euclidean_division_equations. lia.
Qed.

Lemma writeBindExecuteMsg_bytes {P} `{ValueCodec P} (name : bytes)
    (params : list P) (buf : WriteBuffer) :
  writeBindExecuteMsg name params buf
  = (let (b, _) := writeBindExecuteMsg name params buf in b, None)
  /\ Bytes (writeBindExecuteMsg name params buf).1
     = Bytes buf
       ++ bindExecuteSync name (Z.of_nat (length params) mod 2 ^ 16) params.
Proof.
  split; [reflexivity|].
  unfold writeBindExecuteMsg. cbn [fst].
  rewrite (StartMessage_building bindMsg) by discriminate.
  rewrite !WriteString_building, !WriteInt16_building.
  destruct (params_building params (Bytes buf) bindMsg
              ((([] ++ cstring []) ++ cstring name) ++ BigEndian_PutUint16 (uint16 0)
               ++ BigEndian_PutUint16 (uint16 (int16 (Z.of_nat (length params)))))
              (paramStart buf)) as [ps E].
  rewrite <- !app_assoc in E. rewrite <- !app_assoc. rewrite E.
  rewrite WriteInt16_building, FinishMessage_building.
  rewrite (StartMessage_building executeMsg) by discriminate.
  cbn [Bytes paramStart].
  rewrite WriteString_building, WriteInt32_building, FinishMessage_building.
  unfold writeSyncMsg.
  rewrite (StartMessage_building syncMsg) by discriminate.
  cbn [Bytes paramStart].
  rewrite FinishMessage_building. cbn [Bytes].
  unfold bindExecuteSync. rewrite uint16_int16, <- !app_assoc.
  reflexivity.
Qed.

(** C10: [writeBindExecuteMsg] never returns an error, and the two bytes
    of the parameter count in its Bind message, behind the portal name,
    the statement name and the count of formats, hold the length of the
    parameter list modulo 2^16: the length itself for up to 32767
    parameters, a truncated count beyond 65535. *)
Theorem writeBindExecuteMsg_param_count {P} `{ValueCodec P} (name : bytes)
    (params : list P) (buf : WriteBuffer) :
  (writeBindExecuteMsg name params buf).2 = None
  /\ Bytes (writeBindExecuteMsg name params buf).1
     = Bytes buf
       ++ bindExecuteSync name (Z.of_nat (length params) mod 2 ^ 16) params
  /\ BigEndian_Uint16
       (take 2 (drop (length (Bytes buf) + 5 + 1 + length (cstring name) + 2)
                     (Bytes (writeBindExecuteMsg name params buf).1)))
     = Z.of_nat (length params) mod 2 ^ 16
  /\ (Z.of_nat (length params) <= 32767 ->
      Z.of_nat (length params) mod 2 ^ 16 = Z.of_nat (length params))
  /\ (65536 <= Z.of_nat (length params) ->
      Z.of_nat (length params) mod 2 ^ 16 <> Z.of_nat (length params)).
Proof.
  destruct (writeBindExecuteMsg_bytes name params buf) as [_ Hbytes].
  split; [reflexivity|]. split; [exact Hbytes|]. split; [|split].
  - rewrite Hbytes. unfold bindExecuteSync, frame at 1.
    set (count := Z.of_nat (length params) mod 2 ^ 16).
    set (len4 := BigEndian_PutUint32 _).
    set (after := paramBytes params ++ BigEndian_PutUint16 0).
    set (others := frame executeMsg _ ++ frame syncMsg _).
    replace (Bytes buf
             ++ (bindMsg :: len4
                 ++ cstring [] ++ cstring name ++ BigEndian_PutUint16 0
                 ++ BigEndian_PutUint16 count ++ after) ++ others)
      with ((Bytes buf ++ [bindMsg] ++ len4 ++ cstring [] ++ cstring name
             ++ BigEndian_PutUint16 0)
            ++ BigEndian_PutUint16 count ++ after ++ others).
    2:{ rewrite <- ?app_assoc. cbn [app]. rewrite <- ?app_assoc. reflexivity. }
    rewrite drop_app_length'.
    2:{ rewrite !length_app. subst len4. rewrite PutUint32_length.
        change (length (cstring [])) with 1%nat.
        change (length (BigEndian_PutUint16 0)) with 2%nat.
        cbn [length]. lia. }
    cbn [take app BigEndian_PutUint16]. rewrite take_0.
    change [byte_of (count / 2 ^ 8); byte_of count]
      with (BigEndian_PutUint16 count ++ []).
    rewrite Uint16_PutUint16. subst count. apply Z.mod_mod. lia.
  - intros Hsmall. apply Z.mod_small. lia.
  - intros Hbig E.
    assert (0 <= Z.of_nat (length params) mod 2 ^ 16 < 2 ^ 16)
      by (apply Z.mod_pos_bound; lia).
    lia.
Qed.

(** Two parameters, one of them NULL. *)
Example writeBindExecuteMsg_two_params :
  writeBindExecuteMsg (str "s1") [Some (str "42"); None] emptyBuffer
  = (mkWriteBuffer
       (str "B" ++ map byte_of [0; 0; 0; 24] ++ [NUL] ++ str "s1" ++ [NUL]
        ++ map byte_of [0; 0] ++ map byte_of [0; 2]
        ++ map byte_of [0; 0; 0; 2] ++ str "42"
        ++ map byte_of [255; 255; 255; 255]
        ++ map byte_of [0; 0]
        ++ str "E" ++ map byte_of [0; 0; 0; 9] ++ [NUL] ++ map byte_of [0; 0; 0; 0]
        ++ str "S" ++ map byte_of [0; 0; 0; 4])
       36 19,
     None).
Proof. vm_compute. reflexivity. Qed.

(** 65537 parameters go out under the count 1. *)
Example writeBindExecuteMsg_65537_params (buf : WriteBuffer) (name : bytes) :
  Bytes (writeBindExecuteMsg name (replicate (Z.to_nat 65537) (@None bytes)) buf).1
  = Bytes buf ++ bindExecuteSync name 1 (replicate (Z.to_nat 65537) (@None bytes)).
Proof.
  destruct (writeBindExecuteMsg_bytes name (replicate (Z.to_nat 65537) (@None bytes)) buf)
    as [_ ->].
  rewrite length_replicate. reflexivity.
Qed.

(** ** Every reader returns

    The rounds [for_ever] grants a loop are an artefact of the model.  They
    never run out: every round of every loop of [messages.go] consumes
    input before it goes round again. *)

Create HintDb consumes.

Lemma reads_consumes {A} (m : M A) : reads m -> consumes m.
Proof.
  intros Hm cn. specialize (Hm cn).
  destruct (m cn) as [a cn'|e cn'| |]; try contradiction;
    destruct Hm as (r & -> & Hr); exact Hr.
Qed.

Lemma advances_consumes {A} (m : M A) : advances m -> consumes m.
Proof.
  intros Hm cn. specialize (Hm cn).
  destruct (m cn) as [a cn'|e cn'| |]; try exact Hm. lia.
Qed.

Lemma consumes_ret {A} (a : A) : consumes (ret a).
Proof. intros cn. cbn. lia. Qed.

Lemma consumes_fail {A} (e : error) : consumes (@fail A e).
Proof. intros cn. cbn. lia. Qed.

Lemma consumes_panic {A} : consumes (@panic A).
Proof. intros cn. exact I. Qed.

Lemma consumes_bind {A B} (m : M A) (k : A -> M B) :
  consumes m -> (forall a, consumes (k a)) -> consumes (bind m k).
Proof.
  intros Hm Hk cn. unfold bind. specialize (Hm cn).
  destruct (m cn) as [a cn'|e cn'| |]; try exact Hm.
  specialize (Hk a cn').
  destruct (k a cn') as [b cn''|e cn''| |]; try exact Hk; lia.
Qed.

Lemma advances_bind {A B} (m : M A) (k : A -> M B) :
  advances m -> (forall a, consumes (k a)) -> advances (bind m k).
Proof.
  intros Hm Hk cn. unfold bind. specialize (Hm cn).
  destruct (m cn) as [a cn'|e cn'| |]; try exact Hm.
  specialize (Hk a cn').
  destruct (k a cn') as [b cn''|e cn''| |]; try exact Hk; lia.
Qed.

Lemma consumes_try {A} (m : M A) : consumes m -> consumes (try m).
Proof.
  intros Hm cn. unfold try. specialize (Hm cn).
  destruct (m cn); exact Hm.
Qed.

Lemma consumes_ReadN (n : Z) : consumes (ReadN n).
Proof.
  intros cn. unfold ReadN.
  destruct (n <? 0); [exact I|].
  destruct (Z.to_nat n <=? length (Rd cn))%nat; cbn [Rd set_Rd length].
  - rewrite length_drop. lia.
  - lia.
Qed.

Lemma advances_ReadByte : advances ReadByte.
Proof.
  intros cn. unfold ReadByte.
  destruct (Rd cn) as [|c r] eqn:E; cbn [Rd set_Rd length]; rewrite ?E;
    cbn [length]; lia.
Qed.

Lemma advances_ReadString0 : advances ReadString0.
Proof.
  intros cn. unfold ReadString0.
  destruct (span_NUL (Rd cn)) as [[s rest]|] eqn:E; cbn [Rd set_Rd length].
  - apply span_NUL_length in E. exact E.
  - lia.
Qed.

Lemma advances_ReadSlice0 : advances ReadSlice0.
Proof.
  intros cn. unfold ReadSlice0.
  assert (Hn : (0 < Pos.to_nat (RdSize cn))%nat) by lia.
  destruct (span_NUL (take _ (Rd cn))) as [[s rest]|] eqn:E.
  - cbn [Rd set_Rd]. rewrite length_drop.
    apply span_NUL_length in E. rewrite length_take in E. lia.
  - destruct (Nat.leb_spec (Pos.to_nat (RdSize cn)) (length (Rd cn)));
      cbn [Rd set_Rd length]; [rewrite length_drop|]; lia.
Qed.

Lemma consumes_readInt16 : consumes readInt16.
Proof.
  apply consumes_bind; [apply consumes_ReadN|]. intros b. apply consumes_ret.
Qed.

Lemma consumes_readInt32 : consumes readInt32.
Proof.
  apply consumes_bind; [apply consumes_ReadN|]. intros b. apply consumes_ret.
Qed.

Lemma advances_readMessageType : advances readMessageType.
Proof.
  apply advances_bind; [apply advances_ReadByte|]. intros c.
  apply consumes_bind; [apply consumes_readInt32|]. intros l. apply consumes_ret.
Qed.

Lemma advances_readString : advances readString.
Proof.
  apply advances_bind; [apply advances_ReadString0|]. intros s. apply consumes_ret.
Qed.

Lemma advances_progresses {S R} (m : M (step S R)) : advances m -> progresses m.
Proof.
  intros Hm cn. specialize (Hm cn).
  destruct (m cn) as [[s|r] cn'|e cn'| |]; try exact Hm. lia.
Qed.

Lemma progresses_bind {A S R} (m : M A) (k : A -> M (step S R)) :
  advances m -> (forall a, consumes (k a)) -> progresses (bind m k).
Proof. intros Hm Hk. apply advances_progresses, advances_bind; assumption. Qed.

Lemma progresses_return {S R} (r : R) : progresses (@ret (step S R) (Return r)).
Proof. intros cn. cbn. lia. Qed.

Lemma progresses_panic {S R} : progresses (@panic (step S R)).
Proof. intros cn. exact I. Qed.

(** A loop whose rounds progress returns within its rounds. *)
Lemma consumes_loop {S R} (body : S -> M (step S R)) :
  (forall s, progresses (body s)) ->
  forall fuel s cn,
    (length (Rd cn) < fuel)%nat ->
    match loop body fuel s cn with
    | Ret _ cn' | Fail _ cn' => (length (Rd cn') <= length (Rd cn))%nat
    | Panic => True
    | Exhausted => False
    end.
Proof.
  intros Hbody. induction fuel as [|fuel IH]; intros s cn Hfuel; [lia|].
  rewrite loop_unfold. specialize (Hbody s cn).
  destruct (body s cn) as [[s'|r] cn'|e cn'| |]; try exact Hbody.
  specialize (IH s' cn' ltac:(lia)).
  destruct (loop body fuel s' cn') as [x cn''|e cn''| |]; try exact IH; lia.
Qed.

Lemma consumes_for_ever {S R} (body : S -> M (step S R)) (s : S) :
  (forall s, progresses (body s)) -> consumes (for_ever body s).
Proof.
  intros Hbody cn. unfold for_ever, rounds.
  apply consumes_loop; [exact Hbody|lia].
Qed.

(** When every round advances, so does the loop: it returns after a round
    at the least. *)
Lemma advances_for_ever {S R} (body : S -> M (step S R)) (s : S) :
  (forall s, advances (body s)) -> advances (for_ever body s).
Proof.
  intros Hbody cn. unfold for_ever, rounds. rewrite loop_unfold.
  pose proof (Hbody s cn) as Hb.
  destruct (body s cn) as [[s'|r] cn'|e cn'| |]; try exact Hb.
  pose proof (consumes_loop body (fun s => advances_progresses _ (Hbody s))
                (length (Rd cn)) s' cn' Hb) as Hl.
  destruct (loop body (length (Rd cn)) s' cn') as [x cn''|e cn''| |];
    try exact Hl; lia.
Qed.

#[local] Hint Resolve consumes_ret consumes_fail consumes_panic consumes_ReadN
  consumes_try : consumes.
#[local] Hint Extern 1 (consumes (bind _ _)) =>
  apply consumes_bind; [|intro] : consumes.
#[local] Hint Extern 1 (consumes (match ?x with _ => _ end)) =>
  destruct x : consumes.

Lemma advances_readBytes (b : bytes) : advances (readBytes b).
Proof.
  unfold readBytes. apply advances_bind.
  - apply advances_for_ever. intros b'. unfold readBytes_body.
    apply advances_bind; [apply advances_ReadSlice0|].
    intros [line [[]|]]; auto with consumes.
  - intros [|c b']; auto with consumes.
Qed.

Lemma consumes_readError : consumes readError.
Proof. apply reads_consumes, reads_readError. Qed.

#[local] Hint Resolve consumes_readInt16 consumes_readInt32 consumes_readError
  : consumes.

Lemma consumes_logNotice (msgLen : Z) : consumes (logNotice msgLen).
Proof. unfold logNotice. auto with consumes. Qed.

Lemma consumes_logParameterStatus (msgLen : Z) : consumes (logParameterStatus msgLen).
Proof. unfold logParameterStatus. auto with consumes. Qed.

#[local] Hint Resolve consumes_logNotice consumes_logParameterStatus : consumes.

Lemma consumes_readRowDescription (columns : slice bytes) :
  consumes (readRowDescription columns).
Proof.
  unfold readRowDescription. apply consumes_bind; [auto with consumes|].
  intros colNum. destruct (setByteSliceLen columns colNum) as [c|];
    [|apply consumes_panic].
  apply consumes_for_ever. intros [i cols]. unfold readRowDescription_body.
  destruct (i <? colNum); [|apply progresses_return].
  destruct (index cols i) as [old|]; [|apply progresses_panic].
  apply progresses_bind; [apply advances_readBytes|].
  intros name. auto with consumes.
Qed.

Lemma consumes_readDataRow {S} `{ColumnScanner S} (scanner : S)
    (columns : slice bytes) : consumes (readDataRow scanner columns).
Proof.
  unfold readDataRow. apply consumes_bind; [auto with consumes|].
  intros colNum. apply consumes_for_ever. intros [[colIdx sc] retErr].
  unfold readDataRow_body.
  destruct (colIdx <? colNum); [|apply progresses_return].
  apply progresses_bind.
  - apply advances_bind; [|auto with consumes].
    intros cn. unfold ReadN. cbn [Z.ltb Z.compare].
    destruct (Z.to_nat 4 <=? length (Rd cn))%nat eqn:E; cbn [Rd set_Rd length].
    + apply Nat.leb_le in E. rewrite length_drop.
      change (Z.to_nat 4) with 4%nat in *. lia.
    + lia.
  - intros l. apply consumes_bind; [destruct (negb _); auto with consumes|].
    intros b. destruct (index columns colIdx) as [column|]; [|apply consumes_panic].
    destruct (ScanColumn sc colIdx column b). apply consumes_ret.
Qed.

#[local] Hint Resolve consumes_readRowDescription : consumes.

Ltac reader_progresses :=
  apply progresses_bind; [apply advances_readMessageType|];
  intros [c msgLen];
  repeat match goal with
         | |- consumes (if ?b then _ else _) => destruct b
         end;
  auto with consumes.

(** Every round of the query readers, of the prepare reader and of the
    COPY reader consumes the header of a message at the least. *)
Lemma progresses_readSimpleQuery (s : queryState) :
  progresses (readSimpleQuery_body s).
Proof. unfold readSimpleQuery_body. reader_progresses. Qed.

Lemma progresses_readExtQuery (s : queryState) :
  progresses (readExtQuery_body s).
Proof. unfold readExtQuery_body. reader_progresses. Qed.

Lemma progresses_readReadyForQuery (s : option Result * option error) :
  progresses (readReadyForQuery_body s).
Proof. destruct s as [r e]. unfold readReadyForQuery_body. reader_progresses. Qed.

Lemma progresses_readParseDescribeSync (columns : slice bytes) :
  progresses (readParseDescribeSync_body columns).
Proof. unfold readParseDescribeSync_body. reader_progresses. Qed.

Lemma progresses_readCopyData {W} `{Writer W} (s : W * option Result) :
  progresses (readCopyData_body s).
Proof. destruct s as [w r]. unfold readCopyData_body. reader_progresses. Qed.

(** ** The scenarios of the specification *)

(** Startup with MD5, then a simple query of three rows: [startup] keeps
    the process id and the secret key, and the query returns the tag
    [SELECT 3] with three rows. *)
Example scenario_startup_md5_then_query :
  startup (N := nat) (str "u") (str "p") (str "db")
    (conn0 (frame authenticationOKMsg
              (BigEndian_PutUint32 5 ++ map byte_of [0x12; 0x34; 0x56; 0x78])
            ++ frame authenticationOKMsg (BigEndian_PutUint32 0)
            ++ frame backendKeyDataMsg (BigEndian_PutUint32 4242 ++ BigEndian_PutUint32 99)
            ++ frame parameterStatusMsg (cstring (str "client_encoding") ++ cstring (str "UTF8"))
            ++ ReadyForQuery "I"
            ++ encodeAll [RowDescription (str "cols"); DataRow (str "1");
                          DataRow (str "2"); DataRow (str "3");
                          CommandComplete (cstring (str "SELECT 3"))]
            ++ ReadyForQuery "I"))
  = Ret tt
      (mkConn (encodeAll [RowDescription (str "cols"); DataRow (str "1");
                          DataRow (str "2"); DataRow (str "3");
                          CommandComplete (cstring (str "SELECT 3"))]
               ++ ReadyForQuery "I")
         4096 emptyBuffer
         (BigEndian_PutUint32 28 ++ BigEndian_PutUint32 196608
          ++ cstring (str "user") ++ cstring (str "u")
          ++ cstring (str "database") ++ cstring (str "db") ++ [NUL]
          ++ frame passwordMessageMsg (cstring (str "md5653172af189cff52cc70c3f400610a7d")))
         true false 4242 99 nil_slice (str "127.0.0.1:5432"))
  /\ readSimpleQuery
       (conn0 (encodeAll [RowDescription (str "cols"); DataRow (str "1");
                          DataRow (str "2"); DataRow (str "3");
                          CommandComplete (cstring (str "SELECT 3"))]
               ++ ReadyForQuery "I"))
     = Ret (Some (mkResult (cstring (str "SELECT 3")) 3), None) (conn0 []).
Proof. split; vm_compute; reflexivity. Qed.

(** A server error in the middle of a query: the error comes back, the
    stream stands behind ReadyForQuery, and the next query succeeds. *)
Example scenario_error_mid_query :
  readSimpleQuery
    (conn0 (encodeAll [RowDescription (str "cols"); DataRow (str "1");
                       ErrorResponse [("S"%char, str "ERROR"); ("C"%char, str "23505")]]
            ++ ReadyForQuery "I"
            ++ encodeAll [CommandComplete (cstring (str "SELECT 0"))]
            ++ ReadyForQuery "I"))
  = Ret (None,
         Some (pgError (str "127.0.0.1:5432")
                 [("S"%char, str "ERROR"); ("C"%char, str "23505")]))
        (conn0 (encodeAll [CommandComplete (cstring (str "SELECT 0"))]
                ++ ReadyForQuery "I"))
  /\ errorField (pgError (str "127.0.0.1:5432")
                   [("S"%char, str "ERROR"); ("C"%char, str "23505")]) "C"
     = Some (str "23505")
  /\ readSimpleQuery
       (conn0 (encodeAll [CommandComplete (cstring (str "SELECT 0"))]
               ++ ReadyForQuery "I"))
     = Ret (Some (mkResult (cstring (str "SELECT 0")) 0), None) (conn0 []).
Proof. repeat split; vm_compute; reflexivity. Qed.

(** An unknown message in a simple query. *)
Example scenario_unknown_message :
  readSimpleQuery
    (conn0 (encodeAll [RowDescription (str "cols"); DataRow (str "1")]
            ++ frame "!" []))
  = Fail (Errorf "pg: readSimpleQuery: unexpected message %#x" [ArgByte "!"])
         (conn0 []).
Proof. vm_compute. reflexivity. Qed.

(** After a COPY FROM: CommandComplete and ReadyForQuery. *)
Example scenario_copy_from :
  readReadyForQuery
    (conn0 (encodeAll [CommandComplete (cstring (str "COPY 2"))] ++ ReadyForQuery "I"))
  = Ret (Some (mkResult (cstring (str "COPY 2")) 0), None) (conn0 []).
Proof. vm_compute. reflexivity. Qed.

(** ** Notices and parameter updates between the messages of a response *)

Lemma query_fold_side_channel (addr : bytes) (msgs : list backendMsg) (s : queryState) :
  foldl (query_step addr) s (filter (fun m => isSideChannel m = false) msgs)
  = foldl (query_step addr) s msgs.
Proof.
  revert s. induction msgs as [|m msgs IH]; intros s; [reflexivity|].
  rewrite filter_cons. destruct (decide (isSideChannel m = false)) as [Hm|Hm].
  - cbn [foldl]. apply IH.
  - cbn [foldl]. rewrite IH. destruct m; try discriminate; try reflexivity;
      exfalso; apply Hm; reflexivity.
Qed.

Lemma Forall_filter_keep {A} (P : A -> Prop) (Q : A -> Prop)
    `{forall x, Decision (Q x)} (l : list A) :
  Forall P l -> Forall P (filter Q l).
Proof.
  intros Hl. apply Forall_forall. intros x Hx.
  apply list_elem_of_filter in Hx as [_ Hx].
  revert x Hx. apply Forall_forall. exact Hl.
Qed.

(** X4: NoticeResponse and ParameterStatus messages between the messages
    of a response change nothing of what the simple-query and the
    extended-query reader return: the result, error and stream position are
    those of the response without them. *)
Theorem side_channel_messages_change_nothing (msgs : list backendMsg)
    (status : ascii) (rest : bytes) (cn : Conn) :
  Forall wf_msg msgs ->
  (Forall (fun m => isBindComplete m = false) msgs ->
   readSimpleQuery
     (set_Rd (encodeAll msgs ++ ReadyForQuery status ++ rest) cn)
   = readSimpleQuery
       (set_Rd (encodeAll (filter (fun m => isSideChannel m = false) msgs)
                ++ ReadyForQuery status ++ rest) cn))
  /\ (Forall (fun m => isRowDescription m = false) msgs ->
      readExtQuery
        (set_Rd (encodeAll msgs ++ ReadyForQuery status ++ rest) cn)
      = readExtQuery
          (set_Rd (encodeAll (filter (fun m => isSideChannel m = false) msgs)
                   ++ ReadyForQuery status ++ rest) cn)).
Proof.
  intros Hwf. split; intros Hacc.
  - rewrite !readSimpleQuery_response
      by (try apply Forall_filter_keep; assumption).
    cbv zeta. rewrite query_fold_side_channel. reflexivity.
  - rewrite !readExtQuery_response
      by (try apply Forall_filter_keep; assumption).
    cbv zeta. rewrite query_fold_side_channel. reflexivity.
Qed.

Lemma side_channel_messages_change_nothing_witness :
  readSimpleQuery
    (set_Rd (encodeAll [NoticeResponse (str "n"); DataRow (str "1");
                        ParameterStatus (str "p");
                        CommandComplete (cstring (str "SELECT 1"))]
             ++ ReadyForQuery "I" ++ []) (conn0 []))
  = readSimpleQuery
      (set_Rd (encodeAll (filter (fun m => isSideChannel m = false)
                            [NoticeResponse (str "n"); DataRow (str "1");
                             ParameterStatus (str "p");
                             CommandComplete (cstring (str "SELECT 1"))])
               ++ ReadyForQuery "I" ++ []) (conn0 [])).
Proof.
  refine (proj1 (side_channel_messages_change_nothing
                   [NoticeResponse (str "n"); DataRow (str "1");
                    ParameterStatus (str "p");
                    CommandComplete (cstring (str "SELECT 1"))]
                   "I" [] (conn0 []) _) _).
  - repeat (constructor; [split; [reflexivity|exact I]|]). constructor.
  - repeat constructor.
Defined.

(** ** The prepare reader on the answer to Parse, Describe, Sync *)

Lemma loop_more_fuel {S R} (body : S -> M (step S R)) (fuel fuel' : nat)
    (s : S) (cn : Conn) :
  (fuel <= fuel')%nat ->
  loop body fuel s cn <> Exhausted ->
  loop body fuel' s cn = loop body fuel s cn.
Proof.
  revert fuel' s cn. induction fuel as [|fuel IH]; intros fuel' s cn Hle Hne.
  - exfalso. apply Hne. reflexivity.
  - destruct fuel' as [|fuel']; [lia|].
    rewrite !loop_unfold in *.
    destruct (body s cn) as [[s'|r] cn'|e cn'| |]; try reflexivity.
    apply IH; [lia|exact Hne].
Qed.

Lemma readParseDescribeSync_body_skip (columns : slice bytes) (c : ascii)
    (p rest : bytes) (cn : Conn) :
  c = parseCompleteMsg \/ c = parameterDescriptionMsg \/ c = noDataMsg ->
  Z.of_nat (length p) + 4 < 2 ^ 31 ->
  readParseDescribeSync_body columns (set_Rd (frame c p ++ rest) cn)
  = Ret (Continue columns) (set_Rd rest cn).
Proof.
  intros Hc Hlen. unfold readParseDescribeSync_body, bind.
  rewrite readMessageType_frame by exact Hlen.
  destruct Hc as [->|[->| ->]]; simpl (Ascii.eqb _ _); cbv iota beta;
    rewrite ReadN_app; reflexivity.
Qed.

Lemma readParseDescribeSync_body_ready (columns : slice bytes) (status : ascii)
    (rest : bytes) (cn : Conn) :
  readParseDescribeSync_body columns (set_Rd (ReadyForQuery status ++ rest) cn)
  = Ret (Return (columns, None)) (set_Rd rest cn).
Proof.
  unfold ReadyForQuery, readParseDescribeSync_body, bind.
  rewrite readMessageType_frame by apply ReadyForQuery_wf.
  simpl (Ascii.eqb _ _). cbv iota beta. unfold try.
  rewrite ReadN_app. reflexivity.
Qed.

(** X5: the answer to Parse, Describe, Sync for a statement with a result
    set: ParseComplete, ParameterDescription, RowDescription, ReadyForQuery.
    The prepare reader consumes it up to and including ReadyForQuery and
    returns the names of the RowDescription, as many as its field count;
    with NoData in the place of the RowDescription it returns no column. *)
Theorem readParseDescribeSync_columns (fields : list (bytes * bytes))
    (params : bytes) (status : ascii) (rest : bytes) (cn : Conn) :
  Forall wf_fieldDesc fields ->
  Z.of_nat (length fields) < 2 ^ 15 ->
  Z.of_nat (length params) + 4 < 2 ^ 31 ->
  Z.of_nat (length (rowDescription fields)) + 4 < 2 ^ 31 ->
  (exists columns,
     readParseDescribeSync
       (set_Rd (frame parseCompleteMsg []
                ++ frame parameterDescriptionMsg params
                ++ frame rowDescriptionMsg (rowDescription fields)
                ++ ReadyForQuery status ++ rest) cn)
     = Ret (columns, None) (set_Rd rest cn)
     /\ elems columns = map fst fields
     /\ length (elems columns) = length fields)
  /\ readParseDescribeSync
       (set_Rd (frame parseCompleteMsg []
                ++ frame parameterDescriptionMsg params
                ++ frame noDataMsg []
                ++ ReadyForQuery status ++ rest) cn)
     = Ret (nil_slice, None) (set_Rd rest cn).
Proof.
  intros Hwf Hcount Hparams Hrow. split.
  - destruct (readRowDescription_wf fields nil_slice
                (ReadyForQuery status ++ rest) cn Hwf Hcount)
      as (columns & Hrun & Hel).
    exists columns. split; [|split; [exact Hel|rewrite Hel; apply length_map]].
    unfold readParseDescribeSync, for_ever.
    assert (E : loop readParseDescribeSync_body 4 nil_slice
                  (set_Rd (frame parseCompleteMsg []
                           ++ frame parameterDescriptionMsg params
                           ++ frame rowDescriptionMsg (rowDescription fields)
                           ++ ReadyForQuery status ++ rest) cn)
                = Ret (columns, None) (set_Rd rest cn)).
    { rewrite loop_unfold, readParseDescribeSync_body_skip
        by (auto; cbn [length]; lia).
      rewrite loop_unfold, readParseDescribeSync_body_skip by auto.
      rewrite loop_unfold. unfold readParseDescribeSync_body at 1, bind.
      rewrite readMessageType_frame by exact Hrow.
      simpl (Ascii.eqb _ _). cbv iota beta.
      rewrite Hrun. cbn [ret].
      rewrite loop_unfold, readParseDescribeSync_body_ready. reflexivity. }
    rewrite <- E. apply loop_more_fuel; [|rewrite E; discriminate].
    unfold rounds, frame. cbn [Rd set_Rd app length].
    rewrite !length_app, !PutUint32_length. cbn [length]. lia.
  - unfold readParseDescribeSync, for_ever.
    assert (E : loop readParseDescribeSync_body 4 nil_slice
                  (set_Rd (frame parseCompleteMsg []
                           ++ frame parameterDescriptionMsg params
                           ++ frame noDataMsg []
                           ++ ReadyForQuery status ++ rest) cn)
                = Ret (nil_slice, None) (set_Rd rest cn)).
    { rewrite loop_unfold, readParseDescribeSync_body_skip
        by (auto; cbn [length]; lia).
      rewrite loop_unfold, readParseDescribeSync_body_skip by auto.
      rewrite loop_unfold, readParseDescribeSync_body_skip
        by (auto; cbn [length]; lia).
      rewrite loop_unfold, readParseDescribeSync_body_ready. reflexivity. }
    rewrite <- E. apply loop_more_fuel; [|rewrite E; discriminate].
    unfold rounds, frame. cbn [Rd set_Rd app length].
    rewrite !length_app, !PutUint32_length. cbn [length]. lia.
Qed.

Lemma readParseDescribeSync_columns_witness :
  exists columns,
    readParseDescribeSync
      (set_Rd (frame parseCompleteMsg []
               ++ frame parameterDescriptionMsg (map byte_of [0; 0])
               ++ frame rowDescriptionMsg
                    (rowDescription [(str "id", replicate 18 NUL);
                                     (str "name", replicate 18 NUL)])
               ++ ReadyForQuery "I" ++ str "rest") (conn0 []))
    = Ret (columns, None) (set_Rd (str "rest") (conn0 []))
    /\ elems columns = map fst [(str "id", replicate 18 NUL);
                                (str "name", replicate 18 NUL)]
    /\ length (elems columns) = length [(str "id", replicate 18 NUL);
                                        (str "name", replicate 18 NUL)].
Proof.
  apply (readParseDescribeSync_columns
           [(str "id", replicate 18 NUL); (str "name", replicate 18 NUL)]
           (map byte_of [0; 0]) "I" (str "rest") (conn0 [])).
  - constructor; [split; [apply NUL_not_in; reflexivity|reflexivity]|].
    constructor; [split; [apply NUL_not_in; reflexivity|reflexivity]|].
    constructor.
  - reflexivity.
  - reflexivity.
  - reflexivity.
Defined.

(** ** The diagnostic of an ErrorResponse *)

(** X6: on a well-formed ErrorResponse body [readError] consumes the
    fields and the terminating zero byte, nothing more, and returns the
    map of its fields with the remote address under the code [a]: a body of
    the zero byte alone gives the address and nothing else, and the last
    field of a code is the one the map holds. *)
Theorem readError_diagnostic (fields : list (ascii * bytes)) (rest : bytes)
    (cn : Conn) :
  Forall wf_field fields ->
  readError (set_Rd (errorBody fields ++ rest) cn)
  = Ret (pgError (RemoteAddr cn) fields) (set_Rd rest cn)
  /\ pgError (RemoteAddr cn) [] = PGError {[ "a"%char := RemoteAddr cn ]}
  /\ (forall c s, last fields = Some (c, s) ->
      errorField (pgError (RemoteAddr cn) fields) c = Some s).
Proof.
  intros Hwf. split; [apply readError_errorBody; exact Hwf|].
  split; [reflexivity|].
  intros c s Hlast.
  destruct fields as [|f fields _] using rev_ind; [discriminate Hlast|].
  rewrite last_snoc in Hlast. injection Hlast as ->.
  unfold pgError, errorField. rewrite foldl_app. cbn [foldl addField fst snd].
  apply lookup_insert_eq.
Qed.

Lemma readError_diagnostic_witness :
  readError
    (set_Rd (errorBody [("S"%char, str "ERROR"); ("C"%char, str "23505")]
             ++ str "rest") (conn0 []))
  = Ret (pgError (RemoteAddr (conn0 []))
           [("S"%char, str "ERROR"); ("C"%char, str "23505")])
        (set_Rd (str "rest") (conn0 [])).
Proof.
  apply (readError_diagnostic [("S"%char, str "ERROR"); ("C"%char, str "23505")]
           (str "rest") (conn0 [])).
  constructor; [split; [discriminate|apply NUL_not_in; reflexivity]|].
  constructor; [split; [discriminate|apply NUL_not_in; reflexivity]|].
  constructor.
Defined.

(** ** The messages a reader skips

    A reader whose round handles every accepted message by [upd] and goes
    round again works through a run of such messages and is then at the
    round on what follows them. *)

Section SkipLoop.
Context {Msg S R : Type}.
Variable enc : Msg -> bytes.
Variable body : S -> M (step S R).
Variable accepted : Msg -> Prop.
Variable upd : bytes -> S -> Msg -> S.

Hypothesis body_msg : forall s m rest cn,
  accepted m ->
  body s (set_Rd (enc m ++ rest) cn)
  = Ret (Continue (upd (RemoteAddr cn) s m)) (set_Rd rest cn).

Hypothesis enc_length : forall m, accepted m -> (0 < length (enc m))%nat.

Lemma skip_loop (msgs : list Msg) (fuel : nat) (s : S) (tail : bytes) (cn : Conn) :
  Forall accepted msgs ->
  loop body (length msgs + fuel) s (set_Rd (flat_map enc msgs ++ tail) cn)
  = loop body fuel (foldl (upd (RemoteAddr cn)) s msgs) (set_Rd tail cn).
Proof.
  intros Hacc. revert s.
  induction Hacc as [|m msgs Hm Hacc IH]; intros s; [reflexivity|].
  cbn [length Nat.add flat_map foldl]. rewrite loop_unfold, <- app_assoc.
  rewrite body_msg by exact Hm. apply IH.
Qed.

Lemma flat_map_enc_length (msgs : list Msg) :
  Forall accepted msgs -> (length msgs <= length (flat_map enc msgs))%nat.
Proof.
  induction 1 as [|m msgs Hm Hacc IH]; [reflexivity|].
  cbn [flat_map length]. rewrite length_app.
  pose proof (enc_length m Hm). lia.
Qed.

(** [loop body 1] is one round that has to return. *)
Lemma skip_for_ever (msgs : list Msg) (s : S) (tail : bytes) (cn : Conn)
    (o : outcome R) :
  Forall accepted msgs ->
  loop body 1 (foldl (upd (RemoteAddr cn)) s msgs) (set_Rd tail cn) = o ->
  o <> Exhausted ->
  for_ever body s (set_Rd (flat_map enc msgs ++ tail) cn) = o.
Proof.
  intros Hacc Hlast Hne. unfold for_ever.
  rewrite <- Hlast, <- (skip_loop msgs 1 s tail cn Hacc).
  apply loop_more_fuel.
  - unfold rounds. cbn [Rd set_Rd]. rewrite length_app.
    pose proof (flat_map_enc_length msgs Hacc). lia.
  - rewrite skip_loop, Hlast by exact Hacc. exact Hne.
Qed.

End SkipLoop.

Lemma loop_1_return {S R} (body : S -> M (step S R)) (s : S) (cn cn' : Conn) (r : R) :
  body s cn = Ret (Return r) cn' -> loop body 1 s cn = Ret r cn'.
Proof. intros E. rewrite loop_unfold, E. reflexivity. Qed.

Lemma loop_1_fail {S R} (body : S -> M (step S R)) (s : S) (cn cn' : Conn) (e : error) :
  body s cn = Fail e cn' -> loop body 1 s cn = Fail e cn'.
Proof. intros E. rewrite loop_unfold, E. reflexivity. Qed.

(** ** The reader of the answer to Bind *)

Lemma readBindMsg_body_msg (s : unit) (m : backendMsg) (rest : bytes) (cn : Conn) :
  wf_msg m /\ beforeBound m = true ->
  readBindMsg_body s (set_Rd (encode m ++ rest) cn)
  = Ret (Continue tt) (set_Rd rest cn).
Proof.
  intros [[Hlen Hwf] Hacc].
  destruct m as [p|p|p| |fields|p|p]; try discriminate Hacc;
    cbn [payloadOf] in Hlen; cbn [encode];
    unfold readBindMsg_body; reader_round Hlen Hwf.
Qed.

Lemma encode_accepted_length (accepted : backendMsg -> Prop) (m : backendMsg) :
  accepted m -> (0 < length (encode m))%nat.
Proof. intros _. apply encode_length. Qed.

Lemma Forall_both {A} (P Q : A -> Prop) (l : list A) :
  Forall P l -> Forall Q l -> Forall (fun x => P x /\ Q x) l.
Proof. intros HP HQ. apply Forall_and. split; assumption. Qed.

Lemma readBindMsg_skips (msgs : list backendMsg) (tail : bytes) (cn : Conn)
    (o : outcome unit) :
  Forall wf_msg msgs -> Forall (fun m => beforeBound m = true) msgs ->
  loop readBindMsg_body 1 tt (set_Rd tail cn) = o -> o <> Exhausted ->
  readBindMsg (set_Rd (encodeAll msgs ++ tail) cn) = o.
Proof.
  intros Hwf Hacc Hlast Hne. unfold readBindMsg, encodeAll.
  apply (skip_for_ever encode readBindMsg_body
           (fun m => wf_msg m /\ beforeBound m = true) (fun _ _ _ => tt)).
  - intros [] m rest' cn'. apply readBindMsg_body_msg.
  - apply encode_accepted_length.
  - apply Forall_both; assumption.
  - replace (foldl _ tt msgs) with tt by (destruct (foldl _ tt msgs); reflexivity).
    exact Hlast.
  - exact Hne.
Qed.

Lemma unlisted_tag (c : ascii) (l : list ascii) (d : ascii) :
  c ∉ l -> d ∈ l -> Ascii.eqb c d = false.
Proof.
  intros Hc Hd. destruct (Ascii.eqb_spec c d) as [->|]; [contradiction|reflexivity].
Qed.

Ltac not_listed :=
  let H := fresh in
  intros H;
  repeat (apply elem_of_cons in H as [H|H]; [discriminate H|]);
  apply elem_of_nil in H; exact H.

Ltac foreign_tag Hc :=
  rewrite !(unlisted_tag _ _ _ Hc)
    by (repeat first [apply list_elem_of_here | apply list_elem_of_further]).

(** X7: [readBindMsg] skips BindComplete, NoticeResponse and
    ParameterStatus messages.  At ReadyForQuery it consumes the message and
    returns nil; at an ErrorResponse it returns the server's error at
    once, what follows the ErrorResponse staying unread; at any other
    message it fails with the error naming the reader and the tag, the
    payload of that message staying unread. *)
Theorem readBindMsg_returns (msgs : list backendMsg) (rest : bytes) (cn : Conn) :
  Forall wf_msg msgs -> Forall (fun m => beforeBound m = true) msgs ->
  (forall status,
     readBindMsg (set_Rd (encodeAll msgs ++ ReadyForQuery status ++ rest) cn)
     = Ret tt (set_Rd rest cn))
  /\ (forall fields,
        wf_msg (ErrorResponse fields) ->
        readBindMsg
          (set_Rd (encodeAll msgs ++ encode (ErrorResponse fields) ++ rest) cn)
        = Fail (pgError (RemoteAddr cn) fields) (set_Rd rest cn))
  /\ (forall c p,
        c ∉ [bindCompleteMsg; readyForQueryMsg; errorResponseMsg;
             noticeResponseMsg; parameterStatusMsg] ->
        wf_frame (c, p) ->
        readBindMsg (set_Rd (encodeAll msgs ++ frame c p ++ rest) cn)
        = Fail (unexpected "readBindMsg" c) (set_Rd (p ++ rest) cn)).
Proof.
  intros Hwf Hacc. split; [|split].
  - intros status. apply readBindMsg_skips; [exact Hwf|exact Hacc| |discriminate].
    apply loop_1_return. unfold ReadyForQuery, readBindMsg_body.
    reader_round (ReadyForQuery_wf status) I.
  - intros fields [Hlen Hf].
    apply readBindMsg_skips; [exact Hwf|exact Hacc| |discriminate].
    apply loop_1_fail. cbn [encode payloadOf] in *. unfold readBindMsg_body.
    reader_round Hlen Hf.
  - intros c p Hc Hlen.
    apply readBindMsg_skips; [exact Hwf|exact Hacc| |discriminate].
    apply loop_1_fail. unfold readBindMsg_body, bind.
    rewrite readMessageType_frame by exact Hlen.
    foreign_tag Hc. reflexivity.
Qed.

Lemma readBindMsg_returns_witness :
  readBindMsg
    (set_Rd (encodeAll [ParameterStatus (str "p"); BindComplete]
             ++ ReadyForQuery "I" ++ str "left") (conn0 []))
  = Ret tt (set_Rd (str "left") (conn0 []))
  /\ readBindMsg
       (set_Rd (encodeAll [ParameterStatus (str "p"); BindComplete]
                ++ encode (ErrorResponse [("C"%char, str "22P02")])
                ++ ReadyForQuery "I") (conn0 []))
     = Fail (pgError (RemoteAddr (conn0 [])) [("C"%char, str "22P02")])
            (set_Rd (ReadyForQuery "I") (conn0 []))
  /\ readBindMsg
       (set_Rd (encodeAll [ParameterStatus (str "p"); BindComplete]
                ++ frame dataRowMsg (str "row") ++ []) (conn0 []))
     = Fail (unexpected "readBindMsg" dataRowMsg)
            (set_Rd (str "row" ++ []) (conn0 [])).
Proof.
  assert (Hwf : Forall wf_msg [ParameterStatus (str "p"); BindComplete])
    by (repeat constructor; cbn; lia).
  assert (Hacc : Forall (fun m => beforeBound m = true)
                   [ParameterStatus (str "p"); BindComplete])
    by (repeat constructor).
  split; [|split].
  - exact (proj1 (readBindMsg_returns _ (str "left") (conn0 []) Hwf Hacc) "I"%char).
  - refine (proj1 (proj2 (readBindMsg_returns _ (ReadyForQuery "I") (conn0 []) Hwf Hacc))
              [("C"%char, str "22P02")] _).
    split; [vm_compute; reflexivity|].
    repeat constructor; [discriminate|]. cbn. apply NUL_not_in. reflexivity.
  - refine (proj2 (proj2 (readBindMsg_returns _ [] (conn0 []) Hwf Hacc))
              dataRowMsg (str "row") _ _).
    + not_listed.
    + vm_compute. reflexivity.
Defined.

(** ** The readers that wait for one message *)

Section Awaits.
Variable own : ascii.
Variable reader : string.

Hypothesis own_tag :
  own ∉ [errorResponseMsg; noticeResponseMsg; parameterStatusMsg].

Lemma awaits_note (s : unit) (m : backendMsg) (rest : bytes) (cn : Conn) :
  wf_msg m /\ isSideChannel m = true ->
  awaits own reader s (set_Rd (encode m ++ rest) cn)
  = Ret (Continue tt) (set_Rd rest cn).
Proof.
  intros [[Hlen Hwf] Hacc].
  destruct m as [p|p|p| |fields|p|p]; try discriminate Hacc;
    cbn [payloadOf] in Hlen; cbn [encode]; unfold awaits, bind;
    rewrite readMessageType_frame by exact Hlen.
  - destruct (Ascii.eqb_spec noticeResponseMsg own) as [E|_].
    { exfalso. apply own_tag. rewrite <- E.
      apply list_elem_of_further, list_elem_of_here. }
    simpl (Ascii.eqb _ _). cbv iota beta. unfold logNotice, bind.
    rewrite ReadN_app. reflexivity.
  - destruct (Ascii.eqb_spec parameterStatusMsg own) as [E|_].
    { exfalso. apply own_tag. rewrite <- E.
      do 2 apply list_elem_of_further. apply list_elem_of_here. }
    simpl (Ascii.eqb _ _). cbv iota beta. unfold logParameterStatus, bind.
    rewrite ReadN_app. reflexivity.
Qed.

Lemma awaits_skips (notes : list backendMsg) (tail : bytes) (cn : Conn)
    (o : outcome unit) :
  Forall wf_msg notes -> Forall (fun m => isSideChannel m = true) notes ->
  loop (awaits own reader) 1 tt (set_Rd tail cn) = o -> o <> Exhausted ->
  for_ever (awaits own reader) tt (set_Rd (encodeAll notes ++ tail) cn) = o.
Proof.
  intros Hwf Hacc Hlast Hne. unfold encodeAll.
  apply (skip_for_ever encode (awaits own reader)
           (fun m => wf_msg m /\ isSideChannel m = true) (fun _ _ _ => tt)).
  - intros [] m rest' cn'. apply awaits_note.
  - apply encode_accepted_length.
  - apply Forall_both; assumption.
  - replace (foldl _ tt notes) with tt by (destruct (foldl _ tt notes); reflexivity).
    exact Hlast.
  - exact Hne.
Qed.

Lemma awaits_own (notes : list backendMsg) (p rest : bytes) (cn : Conn) :
  Forall wf_msg notes -> Forall (fun m => isSideChannel m = true) notes ->
  wf_frame (own, p) ->
  for_ever (awaits own reader) tt
    (set_Rd (encodeAll notes ++ frame own p ++ rest) cn)
  = Ret tt (set_Rd rest cn).
Proof.
  intros Hwf Hacc Hlen.
  apply awaits_skips; [exact Hwf|exact Hacc| |discriminate].
  apply loop_1_return. unfold awaits, bind.
  rewrite readMessageType_frame by exact Hlen.
  rewrite Ascii.eqb_refl, ReadN_app. reflexivity.
Qed.

Lemma awaits_error (notes : list backendMsg) (fields : list (ascii * bytes))
    (rest : bytes) (cn : Conn) :
  Forall wf_msg notes -> Forall (fun m => isSideChannel m = true) notes ->
  wf_msg (ErrorResponse fields) ->
  for_ever (awaits own reader) tt
    (set_Rd (encodeAll notes ++ encode (ErrorResponse fields) ++ rest) cn)
  = Fail (pgError (RemoteAddr cn) fields) (set_Rd rest cn).
Proof.
  intros Hwf Hacc [Hlen Hf].
  apply awaits_skips; [exact Hwf|exact Hacc| |discriminate].
  apply loop_1_fail. cbn [encode payloadOf] in *. unfold awaits, bind.
  rewrite readMessageType_frame by exact Hlen.
  destruct (Ascii.eqb_spec errorResponseMsg own) as [E|_].
  { exfalso. apply own_tag. rewrite <- E. apply list_elem_of_here. }
  simpl (Ascii.eqb _ _). cbv iota beta.
  rewrite readError_errorBody by exact Hf. reflexivity.
Qed.

Lemma awaits_foreign (notes : list backendMsg) (c : ascii) (p rest : bytes)
    (cn : Conn) :
  Forall wf_msg notes -> Forall (fun m => isSideChannel m = true) notes ->
  c ∉ awaited own -> wf_frame (c, p) ->
  for_ever (awaits own reader) tt
    (set_Rd (encodeAll notes ++ frame c p ++ rest) cn)
  = Fail (unexpected reader c) (set_Rd (p ++ rest) cn).
Proof.
  intros Hwf Hacc Hc Hlen.
  apply awaits_skips; [exact Hwf|exact Hacc| |discriminate].
  apply loop_1_fail. unfold awaits, bind.
  rewrite readMessageType_frame by exact Hlen.
  unfold awaited in Hc. foreign_tag Hc. reflexivity.
Qed.

End Awaits.

Lemma readCloseCompleteMsg_awaits :
  readCloseCompleteMsg = for_ever (awaits closeCompleteMsg "readCloseCompleteMsg") tt.
Proof. reflexivity. Qed.

Lemma readCopyInResponse_awaits :
  readCopyInResponse = for_ever (awaits copyInResponseMsg "readCopyInResponse") tt.
Proof. reflexivity. Qed.

Lemma readCopyOutResponse_awaits :
  readCopyOutResponse = for_ever (awaits copyOutResponseMsg "readCopyOutResponse") tt.
Proof. reflexivity. Qed.

(** X8: [readCloseCompleteMsg], [readCopyInResponse] and
    [readCopyOutResponse] skip NoticeResponse and ParameterStatus messages
    and return nil once they have consumed their own message
    (CloseComplete, CopyInResponse, CopyOutResponse), what follows it
    staying unread.  At an ErrorResponse they return the server's error.
    Any other message, ReadyForQuery among them, is refused with the error
    naming the reader and the tag, its payload staying unread. *)
Theorem readers_await_their_message (notes : list backendMsg) (rest : bytes)
    (cn : Conn) :
  Forall wf_msg notes -> Forall (fun m => isSideChannel m = true) notes ->
  let stream tail := set_Rd (encodeAll notes ++ tail) cn in
  (forall p,
     wf_frame (closeCompleteMsg, p) ->
     readCloseCompleteMsg (stream (frame closeCompleteMsg p ++ rest))
     = Ret tt (set_Rd rest cn)
     /\ readCopyInResponse (stream (frame copyInResponseMsg p ++ rest))
        = Ret tt (set_Rd rest cn)
     /\ readCopyOutResponse (stream (frame copyOutResponseMsg p ++ rest))
        = Ret tt (set_Rd rest cn))
  /\ (forall fields,
        wf_msg (ErrorResponse fields) ->
        let failed := Fail (pgError (RemoteAddr cn) fields) (set_Rd rest cn) in
        readCloseCompleteMsg (stream (encode (ErrorResponse fields) ++ rest)) = failed
        /\ readCopyInResponse (stream (encode (ErrorResponse fields) ++ rest)) = failed
        /\ readCopyOutResponse (stream (encode (ErrorResponse fields) ++ rest)) = failed)
  /\ (forall c p,
        wf_frame (c, p) ->
        (c ∉ awaited closeCompleteMsg ->
         readCloseCompleteMsg (stream (frame c p ++ rest))
         = Fail (unexpected "readCloseCompleteMsg" c) (set_Rd (p ++ rest) cn))
        /\ (c ∉ awaited copyInResponseMsg ->
            readCopyInResponse (stream (frame c p ++ rest))
            = Fail (unexpected "readCopyInResponse" c) (set_Rd (p ++ rest) cn))
        /\ (c ∉ awaited copyOutResponseMsg ->
            readCopyOutResponse (stream (frame c p ++ rest))
            = Fail (unexpected "readCopyOutResponse" c) (set_Rd (p ++ rest) cn))).
Proof.
  intros Hwf Hacc stream. subst stream. cbv beta.
  rewrite readCloseCompleteMsg_awaits, readCopyInResponse_awaits,
    readCopyOutResponse_awaits.
  split; [|split].
  - intros p Hp. repeat split; apply awaits_own; solve [assumption | not_listed].
  - intros fields Hf. cbv zeta.
    repeat split; apply awaits_error; solve [assumption | not_listed].
  - intros c p Hp. repeat split; intros Hc;
      apply awaits_foreign; solve [assumption | not_listed].
Qed.

Lemma readers_await_their_message_witness :
  readCloseCompleteMsg
    (set_Rd (encodeAll [NoticeResponse (str "n")]
             ++ frame closeCompleteMsg [] ++ ReadyForQuery "I") (conn0 []))
  = Ret tt (set_Rd (ReadyForQuery "I") (conn0 []))
  /\ readCopyInResponse
       (set_Rd (encodeAll [NoticeResponse (str "n")]
                ++ encode (ErrorResponse [("C"%char, str "42P01")])
                ++ ReadyForQuery "I") (conn0 []))
     = Fail (pgError (RemoteAddr (conn0 [])) [("C"%char, str "42P01")])
            (set_Rd (ReadyForQuery "I") (conn0 []))
  /\ readCloseCompleteMsg
       (set_Rd (encodeAll [NoticeResponse (str "n")]
                ++ frame readyForQueryMsg (str "I") ++ []) (conn0 []))
     = Fail (unexpected "readCloseCompleteMsg" readyForQueryMsg)
            (set_Rd (str "I" ++ []) (conn0 [])).
Proof.
  assert (Hwf : Forall wf_msg [NoticeResponse (str "n")])
    by (repeat constructor; cbn; lia).
  assert (Hacc : Forall (fun m => isSideChannel m = true) [NoticeResponse (str "n")])
    by (repeat constructor).
  split; [|split].
  - refine (proj1 (proj1 (readers_await_their_message _ (ReadyForQuery "I")
                            (conn0 []) Hwf Hacc) [] _)).
    vm_compute. reflexivity.
  - refine (proj1 (proj2 (proj1 (proj2 (readers_await_their_message _
              (ReadyForQuery "I") (conn0 []) Hwf Hacc))
              [("C"%char, str "42P01")] _))).
    split; [vm_compute; reflexivity|].
    repeat constructor; [discriminate|]. cbn. apply NUL_not_in. reflexivity.
  - refine (proj1 (proj2 (proj2 (readers_await_their_message _ [] (conn0 []) Hwf Hacc))
              readyForQueryMsg (str "I") _) _).
    + vm_compute. reflexivity.
    + not_listed.
Defined.

(** ** Notifications *)

Lemma readInt32_bytes (b4 rest : bytes) (cn : Conn) :
  length b4 = 4%nat ->
  readInt32 (set_Rd (b4 ++ rest) cn)
  = Ret (int32 (BigEndian_Uint32 b4)) (set_Rd rest cn).
Proof.
  intros Hlen. unfold readInt32, bind.
  rewrite (ReadN_exact 4 b4) by (rewrite Hlen; reflexivity). reflexivity.
Qed.

Lemma frame_accepted_length (accepted : ascii * bytes -> Prop) (m : ascii * bytes) :
  accepted m -> (0 < length (frame m.1 m.2))%nat.
Proof. intros _. unfold frame. cbn [length]. lia. Qed.

Lemma readNotification_body_skip (s : unit) (m : ascii * bytes) (rest : bytes)
    (cn : Conn) :
  wf_frame m /\ m.1 ∈ beforeNotification ->
  readNotification_body s (set_Rd (frame m.1 m.2 ++ rest) cn)
  = Ret (Continue tt) (set_Rd rest cn).
Proof.
  intros [Hlen Hc]. destruct m as [c p]. cbn [fst snd] in *.
  unfold readNotification_body, bind.
  rewrite readMessageType_frame by exact Hlen.
  unfold beforeNotification in Hc.
  repeat (apply elem_of_cons in Hc as [->|Hc];
          [simpl (Ascii.eqb _ _); cbv iota beta; unfold logNotice, bind;
           rewrite ReadN_app; reflexivity|]).
  apply elem_of_nil in Hc. contradiction.
Qed.

Lemma readNotification_skips (skipped : list (ascii * bytes)) (tail : bytes)
    (cn : Conn) (o : outcome (bytes * bytes)) :
  Forall wf_frame skipped -> Forall (fun m => m.1 ∈ beforeNotification) skipped ->
  loop readNotification_body 1 tt (set_Rd tail cn) = o -> o <> Exhausted ->
  readNotification (set_Rd (frames skipped ++ tail) cn) = o.
Proof.
  intros Hwf Hacc Hlast Hne. unfold readNotification, frames.
  apply (skip_for_ever (fun m => frame m.1 m.2) readNotification_body
           (fun m => wf_frame m /\ m.1 ∈ beforeNotification) (fun _ _ _ => tt)).
  - intros [] m rest' cn'. apply readNotification_body_skip.
  - apply frame_accepted_length.
  - apply Forall_both; assumption.
  - replace (foldl _ tt skipped) with tt
      by (destruct (foldl _ tt skipped); reflexivity).
    exact Hlast.
  - exact Hne.
Qed.

(** X9: [readNotification] skips CommandComplete, ReadyForQuery and
    NoticeResponse messages and returns the channel and the payload of the
    first NotificationResponse, read as two NUL-terminated strings behind
    the four bytes of the process id: the length field of the message
    plays no part, and the stream is left behind the NUL of the payload.
    At an ErrorResponse it returns the server's error.  It has no case for
    ParameterStatus: that message is refused as unexpected, as any other. *)
Theorem readNotification_returns (skipped : list (ascii * bytes)) (rest : bytes)
    (cn : Conn) :
  Forall wf_frame skipped -> Forall (fun m => m.1 ∈ beforeNotification) skipped ->
  (forall len4 pid4 channel payload,
     length len4 = 4%nat -> length pid4 = 4%nat ->
     NUL ∉ channel -> NUL ∉ payload ->
     readNotification
       (set_Rd (frames skipped ++ notification len4 pid4 channel payload ++ rest) cn)
     = Ret (channel, payload) (set_Rd rest cn))
  /\ (forall fields,
        wf_msg (ErrorResponse fields) ->
        readNotification
          (set_Rd (frames skipped ++ encode (ErrorResponse fields) ++ rest) cn)
        = Fail (pgError (RemoteAddr cn) fields) (set_Rd rest cn))
  /\ (forall c p,
        c ∉ errorResponseMsg :: notificationResponseMsg :: beforeNotification ->
        wf_frame (c, p) ->
        readNotification (set_Rd (frames skipped ++ frame c p ++ rest) cn)
        = Fail (Errorf "pg: unexpected message %q" [ArgByte c])
               (set_Rd (p ++ rest) cn))
  /\ parameterStatusMsg
       ∉ errorResponseMsg :: notificationResponseMsg :: beforeNotification.
Proof.
  intros Hwf Hacc. split; [|split; [|split]].
  - intros len4 pid4 channel payload Hlen Hpid Hch Hpl.
    apply readNotification_skips; [exact Hwf|exact Hacc| |discriminate].
    apply loop_1_return. unfold notification, readNotification_body, readMessageType.
    cbn [app]. unfold bind at 1 2. rewrite ReadByte_cons.
    rewrite <- !app_assoc. unfold bind at 1.
    rewrite readInt32_bytes by exact Hlen. cbn [ret].
    simpl (Ascii.eqb _ _). cbv iota beta. unfold bind.
    rewrite readInt32_bytes by exact Hpid.
    rewrite readString_cstring by exact Hch.
    rewrite readString_cstring by exact Hpl. reflexivity.
  - intros fields [Hlen Hf].
    apply readNotification_skips; [exact Hwf|exact Hacc| |discriminate].
    apply loop_1_fail. cbn [encode payloadOf] in *. unfold readNotification_body.
    reader_round Hlen Hf.
  - intros c p Hc Hlen.
    apply readNotification_skips; [exact Hwf|exact Hacc| |discriminate].
    apply loop_1_fail. unfold readNotification_body, bind.
    rewrite readMessageType_frame by exact Hlen.
    unfold beforeNotification in Hc. foreign_tag Hc. reflexivity.
  - not_listed.
Qed.

Lemma readNotification_returns_witness :
  readNotification
    (set_Rd (frames [(commandCompleteMsg, cstring (str "LISTEN"));
                     (readyForQueryMsg, str "I")]
             ++ notification [NUL; NUL; NUL; NUL] [NUL; NUL; NUL; byte_of 7]
                  (str "jobs") (str "42")
             ++ str "more") (conn0 []))
  = Ret (str "jobs", str "42") (set_Rd (str "more") (conn0 []))
  /\ readNotification
       (set_Rd (frames [(commandCompleteMsg, cstring (str "LISTEN"));
                        (readyForQueryMsg, str "I")]
                ++ frame parameterStatusMsg (str "TimeZone") ++ []) (conn0 []))
     = Fail (Errorf "pg: unexpected message %q" [ArgByte parameterStatusMsg])
            (set_Rd (str "TimeZone" ++ []) (conn0 [])).
Proof.
  assert (Hwf : Forall wf_frame [(commandCompleteMsg, cstring (str "LISTEN"));
                                 (readyForQueryMsg, str "I")])
    by (repeat constructor; vm_compute; reflexivity).
  assert (Hacc : Forall (fun m => m.1 ∈ beforeNotification)
                   [(commandCompleteMsg, cstring (str "LISTEN"));
                    (readyForQueryMsg, str "I")]).
  { repeat constructor. }
  split.
  - refine (proj1 (readNotification_returns _ (str "more") (conn0 []) Hwf Hacc)
              [NUL; NUL; NUL; NUL] [NUL; NUL; NUL; byte_of 7] (str "jobs") (str "42")
              _ _ _ _); try reflexivity; apply NUL_not_in; reflexivity.
  - refine (proj1 (proj2 (proj2 (readNotification_returns _ [] (conn0 []) Hwf Hacc)))
              parameterStatusMsg (str "TimeZone") _ _).
    + not_listed.
    + vm_compute. reflexivity.
Defined.

(** ** The ready-for-query reader *)

Lemma ready_fold_res (addr : bytes) (msgs : list backendMsg)
    (s : option Result * option error) :
  (foldl (ready_step addr) s msgs).1 = resultOfLast s.1 (commandTags msgs).
Proof.
  revert s. induction msgs as [|m msgs IH]; intros s; [reflexivity|].
  cbn [foldl]. rewrite IH. unfold resultOfLast.
  destruct m; cbn [ready_step commandTags omap fst]; try reflexivity.
  change (commandTags (CommandComplete payload :: msgs))
    with (payload :: commandTags msgs).
  rewrite last_cons. destruct (last _); reflexivity.
Qed.

(** X10: on a well-formed response of CommandComplete, ErrorResponse,
    NoticeResponse and ParameterStatus messages [readReadyForQuery]
    consumes the messages up to and including ReadyForQuery and returns
    the Result of the last CommandComplete, with a row count of zero (nil
    when there is none), and the last error of the response. *)
Theorem readReadyForQuery_result (msgs : list backendMsg) (status : ascii)
    (rest : bytes) (cn : Conn) :
  Forall wf_msg msgs -> Forall (fun m => afterCopy m = true) msgs ->
  readReadyForQuery (set_Rd (encodeAll msgs ++ ReadyForQuery status ++ rest) cn)
  = Ret (resultOfLast None (commandTags msgs), last (errorsOf (RemoteAddr cn) msgs))
        (set_Rd rest cn).
Proof.
  intros Hwf Hacc. rewrite readReadyForQuery_response by assumption.
  f_equal. rewrite (surjective_pairing (foldl _ _ _)).
  rewrite ready_fold_res, ready_fold_retErr. cbn [fst snd].
  destruct (last (errorsOf _ _)); reflexivity.
Qed.

Lemma readReadyForQuery_result_witness :
  readReadyForQuery
    (set_Rd (encodeAll [CommandComplete (cstring (str "COPY 1"));
                        NoticeResponse (str "n");
                        CommandComplete (cstring (str "COPY 2"))]
             ++ ReadyForQuery "I" ++ str "x") (conn0 []))
  = Ret (resultOfLast None
           (commandTags [CommandComplete (cstring (str "COPY 1"));
                         NoticeResponse (str "n");
                         CommandComplete (cstring (str "COPY 2"))]),
         last (errorsOf (RemoteAddr (conn0 []))
                 [CommandComplete (cstring (str "COPY 1"));
                  NoticeResponse (str "n");
                  CommandComplete (cstring (str "COPY 2"))]))
        (set_Rd (str "x") (conn0 [])).
Proof.
  apply (readReadyForQuery_result _ "I" (str "x") (conn0 [])).
  - repeat constructor; cbn; lia.
  - repeat constructor.
Defined.

Example readReadyForQuery_two_tags :
  resultOfLast None
    (commandTags [CommandComplete (cstring (str "COPY 1"));
                  NoticeResponse (str "n");
                  CommandComplete (cstring (str "COPY 2"))])
  = Some (mkResult (cstring (str "COPY 2")) 0).
Proof. reflexivity. Qed.

(** ** COPY TO STDOUT *)

Lemma payloadsOf_cons (c : ascii) (m : ascii * bytes) (msgs : list (ascii * bytes)) :
  payloadsOf c (m :: msgs)
  = if bool_decide (m.1 = c) then m.2 :: payloadsOf c msgs else payloadsOf c msgs.
Proof.
  unfold payloadsOf. rewrite filter_cons.
  destruct (decide (m.1 = c)) as [E|E].
  - rewrite bool_decide_eq_true_2 by exact E. reflexivity.
  - rewrite bool_decide_eq_false_2 by exact E. reflexivity.
Qed.

Lemma resultOfLast_cons (res : option Result) (b : bytes) (tags : list bytes) :
  resultOfLast res (b :: tags) = resultOfLast (Some (NewResult b 0)) tags.
Proof. unfold resultOfLast. rewrite last_cons. destruct (last tags); reflexivity. Qed.

(** One round of [readCopyData] on a message it goes round again for. *)
Lemma readCopyData_body_msg {W} `{Writer W} (w : W) (res : option Result)
    (m : ascii * bytes) (rest : bytes) (cn : Conn) :
  wf_frame m -> m.1 ∈ duringCopy ->
  readCopyData_body (w, res) (set_Rd (frame m.1 m.2 ++ rest) cn)
  = if bool_decide (m.1 = copyDataMsg)
    then match Write w m.2 with
         | (_, Some err) => Fail err (set_Rd rest cn)
         | (w, None) => Ret (Continue (w, res)) (set_Rd rest cn)
         end
    else Ret (Continue (w, resultOfLast res (payloadsOf commandCompleteMsg [m])))
             (set_Rd rest cn).
Proof.
  intros Hlen Hc. destruct m as [c p]. cbn [fst snd] in *.
  unfold readCopyData_body, bind.
  rewrite readMessageType_frame by exact Hlen.
  unfold duringCopy in Hc.
  repeat (apply elem_of_cons in Hc as [->|Hc];
          [simpl (Ascii.eqb _ _); cbv iota beta; unfold logNotice, logParameterStatus,
             bind; rewrite ReadN_app; try reflexivity|]).
  - rewrite bool_decide_eq_true_2 by reflexivity.
    destruct (Write w p) as [w1 [err|]]; reflexivity.
  - apply elem_of_nil in Hc. contradiction.
Qed.

Lemma readCopyData_loop {W} `{Writer W} (msgs : list (ascii * bytes)) (fuel : nat)
    (w w' : W) (res : option Result) (tail : bytes) (cn : Conn) :
  Forall wf_frame msgs -> Forall (fun m => m.1 ∈ duringCopy) msgs ->
  writeAll w (payloadsOf copyDataMsg msgs) = (w', None) ->
  loop readCopyData_body (length msgs + fuel) (w, res)
    (set_Rd (frames msgs ++ tail) cn)
  = loop readCopyData_body fuel
      (w', resultOfLast res (payloadsOf commandCompleteMsg msgs))
      (set_Rd tail cn).
Proof.
  intros Hwf. revert w res.
  induction Hwf as [|m msgs Hm Hwf IH]; intros w res Hacc Hw.
  - cbn in Hw. injection Hw as ->. reflexivity.
  - apply Forall_cons in Hacc as [Hc Hacc].
    unfold frames. cbn [length Nat.add flat_map]. rewrite loop_unfold, <- app_assoc.
    rewrite readCopyData_body_msg by assumption.
    rewrite !payloadsOf_cons in *.
    destruct (bool_decide (m.1 = copyDataMsg)) eqn:Ed.
    + cbn [writeAll] in Hw.
      destruct (Write w m.2) as [w1 [err|]]; [discriminate Hw|].
      apply bool_decide_eq_true_1 in Ed.
      rewrite bool_decide_eq_false_2 by (rewrite Ed; discriminate).
      apply IH; assumption.
    + rewrite (IH w _ Hacc Hw). f_equal. f_equal.
      destruct (bool_decide (m.1 = commandCompleteMsg)); [|reflexivity].
      cbn [payloadsOf filter map]. rewrite !resultOfLast_cons. reflexivity.
Qed.

Lemma frames_length (msgs : list (ascii * bytes)) :
  (length msgs <= length (frames msgs))%nat.
Proof.
  induction msgs as [|m msgs IH]; [reflexivity|].
  change (frames (m :: msgs)) with (frame m.1 m.2 ++ frames msgs).
  rewrite length_app. unfold frame. cbn [length]. lia.
Qed.

Lemma readCopyData_for_ever {W} `{Writer W} (msgs : list (ascii * bytes))
    (w w' : W) (tail : bytes) (cn : Conn)
    (o : outcome (W * option Result * option error)) :
  Forall wf_frame msgs -> Forall (fun m => m.1 ∈ duringCopy) msgs ->
  writeAll w (payloadsOf copyDataMsg msgs) = (w', None) ->
  loop readCopyData_body 1
    (w', resultOfLast None (payloadsOf commandCompleteMsg msgs)) (set_Rd tail cn) = o ->
  o <> Exhausted ->
  readCopyData w (set_Rd (frames msgs ++ tail) cn) = o.
Proof.
  intros Hwf Hacc Hw Hlast Hne. unfold readCopyData, for_ever.
  rewrite <- Hlast, <- (readCopyData_loop msgs 1 w w' None tail cn Hwf Hacc Hw).
  apply loop_more_fuel.
  - unfold rounds. cbn [Rd set_Rd]. rewrite length_app.
    pose proof (frames_length msgs). lia.
  - rewrite (readCopyData_loop msgs 1 w w' None tail cn Hwf Hacc Hw), Hlast.
    exact Hne.
Qed.

(** X11: [readCopyData] hands the payload of every CopyData message to
    the sink, in the order of arrival, skipping CopyDone, NoticeResponse
    and ParameterStatus.  At ReadyForQuery it returns the sink's state
    with the Result of the last CommandComplete, its row count zero.  When
    the sink refuses a payload, [readCopyData] returns the sink's error at
    once: the stream stays behind that CopyData message, the rest of the
    response unread. *)
Theorem readCopyData_copies {W} `{Writer W} (msgs : list (ascii * bytes))
    (w w' : W) (rest : bytes) (cn : Conn) :
  Forall wf_frame msgs -> Forall (fun m => m.1 ∈ duringCopy) msgs ->
  writeAll w (payloadsOf copyDataMsg msgs) = (w', None) ->
  (forall status,
     readCopyData w (set_Rd (frames msgs ++ ReadyForQuery status ++ rest) cn)
     = Ret (w', resultOfLast None (payloadsOf commandCompleteMsg msgs), None)
           (set_Rd rest cn))
  /\ (forall p w'' err,
        wf_frame (copyDataMsg, p) ->
        Write w' p = (w'', Some err) ->
        readCopyData w (set_Rd (frames msgs ++ frame copyDataMsg p ++ rest) cn)
        = Fail err (set_Rd rest cn)).
Proof.
  intros Hwf Hacc Hw. split.
  - intros status.
    apply (readCopyData_for_ever msgs w w'); try assumption; [|discriminate].
    apply loop_1_return. unfold ReadyForQuery, readCopyData_body, bind.
    rewrite readMessageType_frame by apply ReadyForQuery_wf.
    simpl (Ascii.eqb _ _). cbv iota beta. unfold try.
    rewrite ReadN_app. reflexivity.
  - intros p w'' err Hp Hrefuse.
    apply (readCopyData_for_ever msgs w w'); try assumption; [|discriminate].
    apply loop_1_fail.
    rewrite (readCopyData_body_msg w' _ (copyDataMsg, p)).
    + cbn [fst snd]. rewrite bool_decide_eq_true_2 by reflexivity.
      rewrite Hrefuse. reflexivity.
    + exact Hp.
    + apply list_elem_of_here.
Qed.

Lemma readCopyData_copies_witness :
  readCopyData (H := fourByteSink) []
    (set_Rd (frames [(copyDataMsg, str "ab"); (copyDoneMsg, []);
                     (commandCompleteMsg, cstring (str "COPY 1"))]
             ++ ReadyForQuery "I" ++ []) (conn0 []))
  = Ret (str "ab",
         resultOfLast None
           (payloadsOf commandCompleteMsg
              [(copyDataMsg, str "ab"); (copyDoneMsg, []);
               (commandCompleteMsg, cstring (str "COPY 1"))]),
         None)
        (set_Rd [] (conn0 []))
  /\ readCopyData (H := fourByteSink) []
       (set_Rd (frames [(copyDataMsg, str "ab"); (copyDoneMsg, []);
                        (commandCompleteMsg, cstring (str "COPY 1"))]
                ++ frame copyDataMsg (str "cde") ++ ReadyForQuery "I") (conn0 []))
     = Fail (ExternalError "sink is full") (set_Rd (ReadyForQuery "I") (conn0 [])).
Proof.
  assert (Hwf : Forall wf_frame [(copyDataMsg, str "ab"); (copyDoneMsg, []);
                                 (commandCompleteMsg, cstring (str "COPY 1"))])
    by (repeat constructor; vm_compute; reflexivity).
  assert (Hacc : Forall (fun m => m.1 ∈ duringCopy)
                   [(copyDataMsg, str "ab"); (copyDoneMsg, []);
                    (commandCompleteMsg, cstring (str "COPY 1"))])
    by (repeat constructor).
  assert (Hw : writeAll (H := fourByteSink) []
                 (payloadsOf copyDataMsg
                    [(copyDataMsg, str "ab"); (copyDoneMsg, []);
                     (commandCompleteMsg, cstring (str "COPY 1"))])
               = (str "ab", None))
    by reflexivity.
  split.
  - exact (proj1 (readCopyData_copies (H := fourByteSink) _ [] (str "ab") []
                    (conn0 []) Hwf Hacc Hw) "I"%char).
  - refine (proj2 (readCopyData_copies (H := fourByteSink) _ [] (str "ab")
                     (ReadyForQuery "I") (conn0 []) Hwf Hacc Hw)
              (str "cde") (str "ab") (ExternalError "sink is full") _ _).
    + vm_compute. reflexivity.
    + reflexivity.
Defined.

(** With a buffer as the sink, the output is the concatenation of the
    payloads. *)
Example readCopyData_to_buffer :
  readCopyData ([] : bytes)
    (conn0 (frames [(copyDataMsg, str "1,a"); (copyDataMsg, str "2,b");
                    (copyDoneMsg, []); (commandCompleteMsg, cstring (str "COPY 2"))]
            ++ ReadyForQuery "I"))
  = Ret (str "1,a2,b", Some (mkResult (cstring (str "COPY 2")) 0), None) (conn0 []).
Proof. vm_compute. reflexivity. Qed.

(** ** The requests on the wire *)

Lemma WriteByte_building (b : ascii) (pre : bytes) (c : ascii) (payload : bytes)
    (ps : nat) :
  WriteByte b (building pre c payload ps) = building pre c (payload ++ [b]) ps.
Proof. apply append_building. Qed.

Lemma StartMessage_untagged (buf : WriteBuffer) :
  StartMessage NUL buf
  = mkWriteBuffer (Bytes buf ++ [NUL; NUL; NUL; NUL] ++ []) (length (Bytes buf))
                  (paramStart buf).
Proof. unfold StartMessage. rewrite Ascii.eqb_refl. reflexivity. Qed.

Lemma WriteInt32_untagged (n : Z) (pre payload : bytes) (ms ps : nat) :
  WriteInt32 n (mkWriteBuffer (pre ++ [NUL; NUL; NUL; NUL] ++ payload) ms ps)
  = mkWriteBuffer
      (pre ++ [NUL; NUL; NUL; NUL] ++ payload ++ BigEndian_PutUint32 (uint32 n)) ms ps.
Proof.
  unfold WriteInt32, set_Bytes. cbn [Bytes msgStart paramStart].
  f_equal. rewrite <- !app_assoc. reflexivity.
Qed.

Lemma WriteString_untagged (s : bytes) (pre payload : bytes) (ms ps : nat) :
  WriteString s (mkWriteBuffer (pre ++ [NUL; NUL; NUL; NUL] ++ payload) ms ps)
  = mkWriteBuffer (pre ++ [NUL; NUL; NUL; NUL] ++ payload ++ cstring s) ms ps.
Proof.
  unfold WriteString, set_Bytes. cbn [Bytes msgStart paramStart].
  f_equal. rewrite <- !app_assoc. reflexivity.
Qed.

Lemma writeStartupMsg_bytes (user database : bytes) (buf : WriteBuffer) :
  Bytes (writeStartupMsg user database buf)
  = Bytes buf ++ startupMessage user database.
Proof.
  unfold writeStartupMsg. rewrite StartMessage_untagged, WriteInt32_untagged.
  rewrite !WriteString_untagged, FinishMessage_untagged.
  cbn [Bytes]. unfold startupMessage, untagged.
  rewrite <- !app_assoc. reflexivity.
Qed.

Lemma writeCancelRequestMsg_bytes (processId secretKey : Z) (buf : WriteBuffer) :
  Bytes (writeCancelRequestMsg processId secretKey buf)
  = Bytes buf
    ++ untagged (BigEndian_PutUint32 80877102
                 ++ BigEndian_PutUint32 (uint32 processId)
                 ++ BigEndian_PutUint32 (uint32 secretKey)).
Proof.
  unfold writeCancelRequestMsg.
  rewrite StartMessage_untagged, !WriteInt32_untagged, FinishMessage_untagged.
  cbn [Bytes]. unfold untagged. rewrite <- !app_assoc. reflexivity.
Qed.

Lemma empty_message_bytes (c : ascii) (buf : WriteBuffer) :
  c <> NUL ->
  Bytes (FinishMessage (StartMessage c buf)) = Bytes buf ++ frame c [].
Proof.
  intros Hc. rewrite StartMessage_building by exact Hc.
  rewrite FinishMessage_building. reflexivity.
Qed.

Lemma writeSyncMsg_bytes (buf : WriteBuffer) :
  Bytes (writeSyncMsg buf) = Bytes buf ++ frame syncMsg [].
Proof. apply empty_message_bytes. discriminate. Qed.

Lemma writeCloseMsg_bytes (name : bytes) (buf : WriteBuffer) :
  Bytes (writeCloseMsg name buf)
  = Bytes buf ++ frame closeMsg ("S"%char :: cstring name).
Proof.
  unfold writeCloseMsg. rewrite StartMessage_building by discriminate.
  rewrite WriteByte_building, WriteString_building, FinishMessage_building.
  reflexivity.
Qed.

Lemma writeParseDescribeSyncMsg_bytes (name q : bytes) (buf : WriteBuffer) :
  Bytes (writeParseDescribeSyncMsg name q buf)
  = Bytes buf ++ parseDescribeSync name q.
Proof.
  unfold writeParseDescribeSyncMsg.
  rewrite (StartMessage_building parseMsg) by discriminate.
  rewrite !WriteString_building, WriteInt16_building, FinishMessage_building.
  rewrite (StartMessage_building describeMsg) by discriminate.
  cbn [Bytes paramStart].
  rewrite WriteByte_building, WriteString_building, FinishMessage_building.
  rewrite writeSyncMsg_bytes. cbn [Bytes].
  unfold parseDescribeSync. rewrite <- !app_assoc. reflexivity.
Qed.

(** ** Startup *)

Lemma byte_of_eq (z : Z) (a : ascii) : z mod 256 = byte_val a -> byte_of z = a.
Proof.
  intros E. unfold byte_of. rewrite E. unfold byte_val.
  rewrite N2Z.id. apply ascii_N_embedding.
Qed.

(** The four bytes of an [int32] read and written again. *)
Lemma PutUint32_Uint32 (b4 : bytes) :
  length b4 = 4%nat ->
  BigEndian_PutUint32 (uint32 (int32 (BigEndian_Uint32 b4))) = b4.
Proof.
  destruct b4 as [|a [|b [|c [|d [|? ?]]]]]; try discriminate. intros _.
  unfold BigEndian_PutUint32, BigEndian_Uint32, uint32, int32, wrap. cbn [nth].
  pose proof (byte_val_range a). pose proof (byte_val_range b).
  pose proof (byte_val_range c). pose proof (byte_val_range d).
  change (2 ^ (32 - 1)) with 2147483648. change (2 ^ 32) with 4294967296.
  change (2 ^ 8) with 256. change (2 ^ 16) with 65536.
  change (2 ^ 24) with 16777216.
  f_equal; [|f_equal; [|f_equal; [|f_equal]]]; apply byte_of_eq;
    Z.to_euclidean_division_equations; lia.
Qed.

Lemma startup_body_msg {N} `{Sasl N} (user password : bytes) (m : startupMsg)
    (rest : bytes) (cn : Conn) :
  wf_startupMsg m ->
  startup_body user password tt (set_Rd (encodeStartup m ++ rest) cn)
  = Ret (Continue tt) (set_Rd rest (keyed (keyBytes None m) cn)).
Proof.
  intros Hwf. destruct m as [pid4 key4|p|]; cbn [encodeStartup wf_startupMsg] in *;
    unfold startup_body, bind at 1.
  - destruct Hwf as [Hpid Hkey].
    rewrite readMessageType_frame by (rewrite length_app, Hpid, Hkey; cbn; lia).
    simpl (Ascii.eqb _ _). cbv iota beta. rewrite <- app_assoc.
    unfold bind at 1. rewrite readInt32_bytes by exact Hpid.
    unfold bind at 1. rewrite readInt32_bytes by exact Hkey.
    reflexivity.
  - rewrite readMessageType_frame by exact Hwf.
    simpl (Ascii.eqb _ _). cbv iota beta. unfold logParameterStatus, bind.
    rewrite ReadN_app. reflexivity.
  - rewrite readMessageType_frame by (cbn; lia).
    simpl (Ascii.eqb _ _). cbv iota beta. unfold authenticate, bind.
    change (BigEndian_PutUint32 0) with (BigEndian_PutUint32 (uint32 0)).
    rewrite readInt32_put by lia. reflexivity.
Qed.

Lemma keyBytes_foldl (k : option (bytes * bytes)) (msgs : list startupMsg) :
  foldl keyBytes k msgs
  = match foldl keyBytes None msgs with
    | Some x => Some x
    | None => k
    end.
Proof.
  revert k. induction msgs as [|m msgs IH]; intros k; [reflexivity|].
  cbn [foldl]. rewrite IH, (IH (keyBytes None m)).
  destruct (foldl keyBytes None msgs); [reflexivity|].
  destruct m; reflexivity.
Qed.

Lemma keyed_twice (k k' : option (bytes * bytes)) (cn : Conn) :
  keyed k' (keyed k cn) = keyed (match k' with Some x => Some x | None => k end) cn.
Proof. destruct k' as [[? ?]|], k as [[? ?]|]; reflexivity. Qed.

Lemma startup_loop {N} `{Sasl N} (user password : bytes) (msgs : list startupMsg)
    (fuel : nat) (tail : bytes) (cn : Conn) :
  Forall wf_startupMsg msgs ->
  loop (startup_body user password) (length msgs + fuel) tt
    (set_Rd (flat_map encodeStartup msgs ++ tail) cn)
  = loop (startup_body user password) fuel tt
      (set_Rd tail (keyed (foldl keyBytes None msgs) cn)).
Proof.
  intros Hwf. revert cn.
  induction Hwf as [|m msgs Hm Hwf IH]; intros cn; [reflexivity|].
  cbn [length Nat.add flat_map foldl]. rewrite loop_unfold, <- app_assoc.
  rewrite startup_body_msg by exact Hm.
  rewrite IH, keyed_twice, <- keyBytes_foldl. reflexivity.
Qed.

Lemma encodeStartup_length (msgs : list startupMsg) :
  (length msgs <= length (flat_map encodeStartup msgs))%nat.
Proof.
  induction msgs as [|m msgs IH]; [reflexivity|].
  cbn [flat_map length]. rewrite length_app.
  destruct m; cbn [encodeStartup frame length]; lia.
Qed.

Lemma startup_for_ever {N} `{Sasl N} (user password : bytes) (msgs : list startupMsg)
    (tail : bytes) (cn : Conn) (o : outcome unit) :
  Forall wf_startupMsg msgs ->
  loop (startup_body user password) 1 tt
    (set_Rd tail (keyed (foldl keyBytes None msgs) cn)) = o ->
  o <> Exhausted ->
  for_ever (startup_body user password) tt
    (set_Rd (flat_map encodeStartup msgs ++ tail) cn) = o.
Proof.
  intros Hwf Hlast Hne. unfold for_ever.
  rewrite <- Hlast, <- (startup_loop user password msgs 1 tail cn Hwf).
  apply loop_more_fuel.
  - unfold rounds. cbn [Rd set_Rd]. rewrite length_app.
    pose proof (encodeStartup_length msgs). lia.
  - rewrite (startup_loop user password msgs 1 tail cn Hwf), Hlast. exact Hne.
Qed.

Lemma startup_flushes {N} `{Sasl N} (user password database stream : bytes)
    (cn : Conn) :
  NetUp cn = true ->
  startup user password database (set_Rd stream cn)
  = for_ever (startup_body user password) tt
      (set_Rd stream (flushed (startupMessage user database) [] cn)).
Proof.
  intros Hup. unfold startup, bind, on_Wr, modify, FlushWriter.
  cbn [NetUp set_Wr set_Rd Wr NetOut]. rewrite Hup.
  rewrite writeStartupMsg_bytes. reflexivity.
Qed.

Lemma keyBytes_wf (msgs : list startupMsg) (k : option (bytes * bytes))
    (pid4 key4 : bytes) :
  Forall wf_startupMsg msgs ->
  (forall p q, k = Some (p, q) -> length p = 4%nat /\ length q = 4%nat) ->
  foldl keyBytes k msgs = Some (pid4, key4) ->
  length pid4 = 4%nat /\ length key4 = 4%nat.
Proof.
  intros Hwf. revert k.
  induction Hwf as [|m msgs Hm Hwf IH]; intros k Hk Hkey.
  - apply Hk. exact Hkey.
  - cbn [foldl] in Hkey. apply (IH (keyBytes k m)); [|exact Hkey].
    intros p q E. destruct m; cbn [keyBytes wf_startupMsg] in *;
      try (apply Hk; exact E).
    injection E as -> ->. exact Hm.
Qed.

(** X12: [startup] sends the StartupMessage of the user and the database
    behind what the buffer held and then goes through BackendKeyData,
    ParameterStatus and AuthenticationOk messages.  At ReadyForQuery it
    returns nil, at an ErrorResponse the server's error; the process id
    and the secret key of the connection are then those of the last
    BackendKeyData, and a CancelRequest written from them carries the
    eight bytes the server sent.  When the network refuses the write,
    [startup] returns its error and reads nothing. *)
Theorem startup_completes {N} `{Sasl N} (user password database : bytes)
    (msgs : list startupMsg) (rest : bytes) (cn : Conn) :
  Forall wf_startupMsg msgs ->
  let cn' := keyed (foldl keyBytes None msgs)
               (flushed (startupMessage user database) rest cn) in
  (NetUp cn = true ->
   (forall status,
      startup user password database
        (set_Rd (flat_map encodeStartup msgs ++ ReadyForQuery status ++ rest) cn)
      = Ret tt cn')
   /\ (forall fields,
         wf_msg (ErrorResponse fields) ->
         startup user password database
           (set_Rd (flat_map encodeStartup msgs
                    ++ encode (ErrorResponse fields) ++ rest) cn)
         = Fail (pgError (RemoteAddr cn) fields) cn'))
  /\ (forall pid4 key4 buf,
        foldl keyBytes None msgs = Some (pid4, key4) ->
        Bytes (writeCancelRequestMsg (ProcessId cn') (SecretKey cn') buf)
        = Bytes buf ++ untagged (BigEndian_PutUint32 80877102 ++ pid4 ++ key4))
  /\ (NetUp cn = false ->
      forall stream,
        startup user password database (set_Rd stream cn)
        = Fail io_WriteError (set_Wr emptyBuffer (set_Rd stream cn))).
Proof.
  intros Hwf cn'. split; [|split].
  - intros Hup. split.
    + intros status. rewrite startup_flushes by exact Hup.
      apply (startup_for_ever user password msgs); [exact Hwf| |discriminate].
      apply loop_1_return. unfold ReadyForQuery, startup_body, bind.
      rewrite readMessageType_frame by apply ReadyForQuery_wf.
      simpl (Ascii.eqb _ _). cbv iota beta. rewrite ReadN_app.
      unfold ret. f_equal. subst cn'.
      destruct (foldl keyBytes None msgs) as [[? ?]|]; reflexivity.
    + intros fields [Hlen Hf]. rewrite startup_flushes by exact Hup.
      apply (startup_for_ever user password msgs); [exact Hwf| |discriminate].
      apply loop_1_fail. cbn [encode payloadOf] in *. unfold startup_body, bind.
      rewrite readMessageType_frame by exact Hlen.
      simpl (Ascii.eqb _ _). cbv iota beta.
      rewrite readError_errorBody by exact Hf. unfold fail. f_equal.
      * destruct (foldl keyBytes None msgs) as [[? ?]|]; reflexivity.
      * subst cn'. destruct (foldl keyBytes None msgs) as [[? ?]|]; reflexivity.
  - intros pid4 key4 buf Hkey. subst cn'. rewrite Hkey.
    destruct (keyBytes_wf msgs None pid4 key4 Hwf) as [Hpid Hk];
      [discriminate|exact Hkey|].
    rewrite writeCancelRequestMsg_bytes. cbn [keyed ProcessId SecretKey set_Key].
    rewrite !PutUint32_Uint32 by assumption. reflexivity.
  - intros Hdown stream. unfold startup, bind, on_Wr, modify, FlushWriter.
    cbn [NetUp set_Wr set_Rd]. rewrite Hdown. reflexivity.
Qed.

Lemma startup_completes_witness :
  startup (N := nat) (str "u") (str "p") (str "db")
    (set_Rd (flat_map encodeStartup
               [AuthenticationOk; StartupParameter (str "TimeZone");
                BackendKeyData (map byte_of [0; 0; 4; 210]) (map byte_of [255; 0; 0; 1])]
             ++ ReadyForQuery "I" ++ []) (conn0 []))
  = Ret tt
      (keyed (Some (map byte_of [0; 0; 4; 210], map byte_of [255; 0; 0; 1]))
         (flushed (startupMessage (str "u") (str "db")) [] (conn0 [])))
  /\ Bytes (writeCancelRequestMsg
              (ProcessId
                 (keyed (Some (map byte_of [0; 0; 4; 210], map byte_of [255; 0; 0; 1]))
                    (flushed (startupMessage (str "u") (str "db")) [] (conn0 []))))
              (SecretKey
                 (keyed (Some (map byte_of [0; 0; 4; 210], map byte_of [255; 0; 0; 1]))
                    (flushed (startupMessage (str "u") (str "db")) [] (conn0 []))))
              emptyBuffer)
     = Bytes emptyBuffer
       ++ untagged (BigEndian_PutUint32 80877102
                    ++ map byte_of [0; 0; 4; 210] ++ map byte_of [255; 0; 0; 1]).
Proof.
  assert (Hwf : Forall wf_startupMsg
                  [AuthenticationOk; StartupParameter (str "TimeZone");
                   BackendKeyData (map byte_of [0; 0; 4; 210])
                     (map byte_of [255; 0; 0; 1])]).
  { repeat constructor. }
  split.
  - exact (proj1 (proj1 (startup_completes (N := nat) (str "u") (str "p") (str "db")
                           _ [] (conn0 []) Hwf) eq_refl) "I"%char).
  - exact (proj1 (proj2 (startup_completes (N := nat) (str "u") (str "p") (str "db")
                           _ [] (conn0 []) Hwf))
             (map byte_of [0; 0; 4; 210]) (map byte_of [255; 0; 0; 1]) emptyBuffer
             eq_refl).
Defined.

Example startup_key :
  ProcessId (keyed (Some (map byte_of [0; 0; 4; 210], map byte_of [255; 0; 0; 1]))
               (conn0 [])) = 1234
  /\ SecretKey (keyed (Some (map byte_of [0; 0; 4; 210], map byte_of [255; 0; 0; 1]))
                  (conn0 [])) = -16777215.
Proof. split; reflexivity. Qed.

(** X13: the requests [writeParseDescribeSyncMsg], [writeCloseMsg],
    [writeFlushMsg], [writeCopyDone], [writeStartupMsg] and
    [writeCancelRequestMsg] leave the bytes the buffer holds in place and
    append their messages, each with the length of its payload plus 4 in
    the length field: Parse, Describe and Sync in this order and with the
    one statement name; Close with the byte S and the name; Flush and
    CopyDone without a payload; the StartupMessage and the CancelRequest
    without a tag. *)
Theorem requests_on_the_wire (name q user database : bytes)
    (processId secretKey : Z) (buf : WriteBuffer) :
  Bytes (writeParseDescribeSyncMsg name q buf)
  = Bytes buf
    ++ frame parseMsg (cstring name ++ cstring q ++ BigEndian_PutUint16 0)
    ++ frame describeMsg ("S"%char :: cstring name)
    ++ frame syncMsg []
  /\ Bytes (writeCloseMsg name buf)
     = Bytes buf ++ frame closeMsg ("S"%char :: cstring name)
  /\ Bytes (writeFlushMsg buf) = Bytes buf ++ frame flushMsg []
  /\ Bytes (writeCopyDone buf) = Bytes buf ++ frame copyDoneMsg []
  /\ Bytes (writeStartupMsg user database buf)
     = Bytes buf
       ++ untagged (BigEndian_PutUint32 196608
                    ++ cstring (str "user") ++ cstring user
                    ++ cstring (str "database") ++ cstring database ++ [NUL])
  /\ Bytes (writeCancelRequestMsg processId secretKey buf)
     = Bytes buf
       ++ untagged (BigEndian_PutUint32 80877102
                    ++ BigEndian_PutUint32 (processId mod 2 ^ 32)
                    ++ BigEndian_PutUint32 (secretKey mod 2 ^ 32)).
Proof.
  repeat split.
  - apply writeParseDescribeSyncMsg_bytes.
  - apply writeCloseMsg_bytes.
  - apply empty_message_bytes. discriminate.
  - apply empty_message_bytes. discriminate.
  - apply writeStartupMsg_bytes.
  - apply writeCancelRequestMsg_bytes.
Qed.

Example writeParseDescribeSyncMsg_select_1 :
  Bytes (writeParseDescribeSyncMsg (str "s1") (str "SELECT 1") emptyBuffer)
  = str "P" ++ BigEndian_PutUint32 18 ++ str "s1" ++ [NUL] ++ str "SELECT 1" ++ [NUL]
    ++ BigEndian_PutUint16 0
    ++ str "D" ++ BigEndian_PutUint32 8 ++ str "Ss1" ++ [NUL]
    ++ str "S" ++ BigEndian_PutUint32 4.
Proof. vm_compute. reflexivity. Qed.

(** ** Query text *)

(** X14: [writeQueryMsg] on a query of type string, with a formatter that
    appends the text [sql] to the slice it is given, adds the Query
    message of the NUL-terminated [sql] to the buffer and returns nil.
    The text it hands to the query logger is the slice from offset 5 on:
    [sql] when the buffer was empty, and otherwise what the buffer held
    from its sixth byte on, the header of the Query message and [sql].
    When the query's own [AppendQuery] fails, or the query is of another
    type, [writeQueryMsg] returns the error and logs nothing. *)
Theorem writeQueryMsg_frames_the_text {F Q P} `{QueryFormatter F P}
    `{QueryAppender Q P} (fmter : F) (params : list P) (buf : WriteBuffer)
    (logger : option (list bytes)) :
  let started := Bytes buf ++ queryMsg :: [NUL; NUL; NUL; NUL] in
  (forall query sql,
     FormatQuery fmter started query params = started ++ sql ->
     exists buf',
       writeQueryMsg logger fmter (ofString query) params buf
       = Some (buf',
               match logger with
               | Some log => Some (log ++ [drop 5 (started ++ sql)])
               | None => None
               end,
               None)
       /\ Bytes buf' = Bytes buf ++ frame queryMsg (cstring sql))
  /\ (forall query b err,
        AppendQuery query started params = (b, Some err) ->
        exists buf',
          writeQueryMsg logger fmter (ofQueryAppender query) params buf
          = Some (buf', logger, Some err))
  /\ (forall name,
        exists buf',
          writeQueryMsg logger fmter (ofType name) params buf
          = Some (buf', logger, Some (Errorf "pg: can't append %T" [ArgStr name]))).
Proof.
  intros started. split; [|split].
  - intros query sql Hfmt.
    exists (mkWriteBuffer (Bytes buf ++ frame queryMsg (cstring sql))
              (Datatypes.S (length (Bytes buf))) (paramStart buf)).
    split; [|reflexivity].
    unfold writeQueryMsg. rewrite (StartMessage_building queryMsg) by discriminate.
    unfold appendQuery. cbn [Bytes building app].
    change (Bytes buf ++ queryMsg :: NUL :: NUL :: NUL :: NUL :: []) with started.
    rewrite Hfmt.
    assert (Hfin : FinishMessage
                     (WriteByte (byte_of 0)
                        (set_Bytes (started ++ sql) (building (Bytes buf) queryMsg []
                                                       (paramStart buf))))
                   = mkWriteBuffer (Bytes buf ++ frame queryMsg (cstring sql))
                       (Datatypes.S (length (Bytes buf))) (paramStart buf)).
    { replace (set_Bytes (started ++ sql) (building (Bytes buf) queryMsg []
                                             (paramStart buf)))
        with (building (Bytes buf) queryMsg sql (paramStart buf)).
      2:{ unfold building, set_Bytes, started. cbn [Bytes msgStart paramStart app].
          f_equal. rewrite <- app_assoc. reflexivity. }
      rewrite WriteByte_building, FinishMessage_building. reflexivity. }
    destruct logger as [log|].
    + unfold slice_from.
      destruct (Nat.leb_spec 5 (length (started ++ sql))) as [_|Hlt].
      * rewrite Hfin. reflexivity.
      * exfalso. unfold started in Hlt. rewrite !length_app in Hlt.
        cbn [length] in Hlt. lia.
    + rewrite Hfin. reflexivity.
  - intros query b err Happ. eexists.
    unfold writeQueryMsg. rewrite (StartMessage_building queryMsg) by discriminate.
    unfold appendQuery. cbn [Bytes building app].
    change (Bytes buf ++ queryMsg :: NUL :: NUL :: NUL :: NUL :: []) with started.
    rewrite Happ. reflexivity.
  - intros name. eexists.
    unfold writeQueryMsg, appendQuery. reflexivity.
Qed.

Lemma writeQueryMsg_frames_the_text_witness :
  (exists buf',
     writeQueryMsg (Q := unit) (Some []) tt (ofString (str "SELECT 1")) []
       (mkWriteBuffer (str "pending") 0 0)
     = Some (buf', Some [str "ngQ" ++ [NUL; NUL; NUL; NUL] ++ str "SELECT 1"], None)
     /\ Bytes buf' = str "pending" ++ frame queryMsg (cstring (str "SELECT 1")))
  /\ exists buf',
       writeQueryMsg (Some []) tt (ofQueryAppender tt) [] emptyBuffer
       = Some (buf', Some [], Some (ExternalError "cannot append")).
Proof.
  split.
  - exact (proj1 (writeQueryMsg_frames_the_text (Q := unit) tt []
                    (mkWriteBuffer (str "pending") 0 0) (Some []))
             (str "SELECT 1") (str "SELECT 1") eq_refl).
  - exact (proj1 (proj2 (writeQueryMsg_frames_the_text tt [] emptyBuffer (Some [])))
             tt [] (ExternalError "cannot append") eq_refl).
Defined.

Example writeQueryMsg_select_1 :
  writeQueryMsg (Q := unit) (Some []) tt (ofString (str "SELECT 1")) [] emptyBuffer
  = Some (mkWriteBuffer (str "Q" ++ BigEndian_PutUint32 13 ++ str "SELECT 1" ++ [NUL])
            1 0,
          Some [str "SELECT 1"], None).
Proof. vm_compute. reflexivity. Qed.

(** ** The password exchange *)

Lemma flushed_stream (msg stream : bytes) (cn : Conn) :
  flushed msg stream cn = set_Rd stream (flushed msg [] cn).
Proof. reflexivity. Qed.

Lemma flushed_rest (msg rest : bytes) (cn : Conn) :
  set_Rd rest (flushed msg [] cn) = flushed msg rest cn.
Proof. reflexivity. Qed.

(** The answers to a PasswordMessage. *)
Lemma passwordResponse_code (code : Z) (rest : bytes) (cn : Conn) :
  - 2 ^ 31 <= code < 2 ^ 31 ->
  authenticate_passwordResponse
    (set_Rd (frame authenticationOKMsg (BigEndian_PutUint32 (uint32 code)) ++ rest) cn)
  = if code =? 0 then Ret tt (set_Rd rest cn)
    else Fail (Errorf "pg: unexpected authentication code: %d" [ArgInt code])
              (set_Rd rest cn).
Proof.
  intros Hcode. unfold authenticate_passwordResponse, bind.
  rewrite readMessageType_frame by (cbn; lia).
  simpl (Ascii.eqb _ _). cbv iota beta.
  rewrite readInt32_put by exact Hcode.
  destruct (code =? 0); reflexivity.
Qed.

Lemma passwordResponse_error (fields : list (ascii * bytes)) (rest : bytes)
    (cn : Conn) :
  wf_msg (ErrorResponse fields) ->
  authenticate_passwordResponse
    (set_Rd (encode (ErrorResponse fields) ++ rest) cn)
  = Fail (pgError (RemoteAddr cn) fields) (set_Rd rest cn).
Proof.
  intros [Hlen Hf]. cbn [encode payloadOf] in *.
  unfold authenticate_passwordResponse. reader_round Hlen Hf.
Qed.

Lemma passwordResponse_foreign (c : ascii) (p rest : bytes) (cn : Conn) :
  c ∉ [authenticationOKMsg; errorResponseMsg] -> wf_frame (c, p) ->
  authenticate_passwordResponse (set_Rd (frame c p ++ rest) cn)
  = Fail (Errorf "pg: unknown password message response: %q" [ArgByte c])
         (set_Rd (p ++ rest) cn).
Proof.
  intros Hc Hlen. unfold authenticate_passwordResponse, bind.
  rewrite readMessageType_frame by exact Hlen.
  foreign_tag Hc. reflexivity.
Qed.

Lemma authenticate_cleartext_continues {N} `{Sasl N} (user password rest : bytes)
    (cn : Conn) :
  NetUp cn = true ->
  authenticate user password
    (set_Rd (BigEndian_PutUint32 (uint32 authenticationCleartextPassword) ++ rest) cn)
  = authenticate_passwordResponse
      (flushed (frame passwordMessageMsg (cstring password)) rest cn).
Proof.
  intros Hup. unfold authenticate, bind at 1.
  rewrite readInt32_put by (unfold authenticationCleartextPassword; lia).
  change (authenticationCleartextPassword =? authenticationOK) with false.
  change (authenticationCleartextPassword =? authenticationCleartextPassword)
    with true.
  cbv iota. unfold bind, on_Wr, modify, FlushWriter.
  cbn [NetUp set_Wr set_Rd Wr NetOut]. rewrite Hup.
  rewrite writePasswordMsg_bytes. reflexivity.
Qed.

(** X15: at the authentication request of the code 3 [authenticate]
    sends, behind what its buffer held, one PasswordMessage with the
    password as it was given, NUL-terminated, and reads one answer:
    AuthenticationOk gives nil, an authentication request of another code
    the error that names the code, an ErrorResponse the server's error,
    any other message the error that names its tag.  When the flush
    fails, the write error is returned and no answer is read. *)
Theorem authenticate_cleartext_password {N} `{Sasl N} (user password rest : bytes)
    (cn : Conn) :
  let request := BigEndian_PutUint32 (uint32 authenticationCleartextPassword) in
  let sent := flushed (frame passwordMessageMsg (cstring password)) in
  (NetUp cn = true ->
   (forall code,
      - 2 ^ 31 <= code < 2 ^ 31 ->
      authenticate user password
        (set_Rd (request
                 ++ frame authenticationOKMsg (BigEndian_PutUint32 (uint32 code))
                 ++ rest) cn)
      = if code =? 0 then Ret tt (sent rest cn)
        else Fail (Errorf "pg: unexpected authentication code: %d" [ArgInt code])
                  (sent rest cn))
   /\ (forall fields,
         wf_msg (ErrorResponse fields) ->
         authenticate user password
           (set_Rd (request ++ encode (ErrorResponse fields) ++ rest) cn)
         = Fail (pgError (RemoteAddr cn) fields) (sent rest cn))
   /\ (forall c p,
         c ∉ [authenticationOKMsg; errorResponseMsg] -> wf_frame (c, p) ->
         authenticate user password (set_Rd (request ++ frame c p ++ rest) cn)
         = Fail (Errorf "pg: unknown password message response: %q" [ArgByte c])
                (sent (p ++ rest) cn)))
  /\ (NetUp cn = false ->
      authenticate user password (set_Rd (request ++ rest) cn)
      = Fail io_WriteError (set_Wr emptyBuffer (set_Rd rest cn))).
Proof.
  intros request sent. subst request sent. split.
  - intros Hup. split; [|split].
    + intros code Hcode. rewrite authenticate_cleartext_continues by exact Hup.
      rewrite flushed_stream, passwordResponse_code by exact Hcode.
      destruct (code =? 0); reflexivity.
    + intros fields Hf. rewrite authenticate_cleartext_continues by exact Hup.
      rewrite flushed_stream, passwordResponse_error by exact Hf. reflexivity.
    + intros c p Hc Hlen. rewrite authenticate_cleartext_continues by exact Hup.
      rewrite flushed_stream, passwordResponse_foreign by assumption. reflexivity.
  - intros Hdown. unfold authenticate, bind at 1.
    rewrite readInt32_put by (unfold authenticationCleartextPassword; lia).
    change (authenticationCleartextPassword =? authenticationOK) with false.
    change (authenticationCleartextPassword =? authenticationCleartextPassword)
      with true.
    cbv iota. unfold bind, on_Wr, modify, FlushWriter.
    cbn [NetUp set_Wr set_Rd]. rewrite Hdown. reflexivity.
Qed.

Lemma authenticate_cleartext_password_witness :
  authenticate (N := nat) (str "u") (str "secret")
    (set_Rd (BigEndian_PutUint32 (uint32 authenticationCleartextPassword)
             ++ frame authenticationOKMsg (BigEndian_PutUint32 (uint32 0))
             ++ str "next") (conn0 []))
  = Ret tt (flushed (frame passwordMessageMsg (cstring (str "secret")))
              (str "next") (conn0 []))
  /\ authenticate (N := nat) (str "u") (str "secret")
       (set_Rd (BigEndian_PutUint32 (uint32 authenticationCleartextPassword)
                ++ frame authenticationOKMsg (BigEndian_PutUint32 (uint32 5))
                ++ []) (conn0 []))
     = Fail (Errorf "pg: unexpected authentication code: %d" [ArgInt 5])
            (flushed (frame passwordMessageMsg (cstring (str "secret"))) [] (conn0 [])).
Proof.
  split.
  - exact (proj1 (proj1 (authenticate_cleartext_password (N := nat) (str "u")
                           (str "secret") (str "next") (conn0 [])) eq_refl)
             0 ltac:(lia)).
  - exact (proj1 (proj1 (authenticate_cleartext_password (N := nat) (str "u")
                           (str "secret") [] (conn0 [])) eq_refl)
             5 ltac:(lia)).
Defined.

(** ** The SASL exchange *)

Lemma saslLoop_selects (names : list bytes) (tail : bytes) (cn : Conn) :
  Forall knownMech names ->
  authenticate_saslLoop (set_Rd (mechanismList names ++ tail) cn)
  = Ret (selectMech zeroMechanism names) (set_Rd tail cn).
Proof.
  intros Hk. unfold authenticate_saslLoop, for_ever, mechanismList.
  rewrite <- app_assoc.
  destruct (saslLoop_rounds names ([NUL] ++ tail) cn) as [fuel ->].
  rewrite saslLoop_known by exact Hk.
  rewrite loop_unfold. cbn [app]. rewrite saslLoop_body_end. reflexivity.
Qed.

Lemma uint32_int32 (n : Z) : uint32 (int32 n) = n mod 2 ^ 32.
Proof.
  unfold uint32, int32, wrap.
  change (2 ^ (32 - 1)) with 2147483648. change (2 ^ 32) with 4294967296.
  Z.to_euclidean_division_equations. lia.
Qed.

Lemma WriteBytes_building (b : bytes) (pre : bytes) (c : ascii) (payload : bytes)
    (ps : nat) :
  WriteBytes b (building pre c payload ps) = building pre c (payload ++ b) ps.
Proof. apply append_building. Qed.

Lemma flushed_twice (msg1 msg2 rest stream : bytes) (cn : Conn) :
  flushed msg2 rest (flushed msg1 stream cn) = flushed (msg1 ++ msg2) rest cn.
Proof.
  unfold flushed. destruct cn. unfold set_NetOut, set_Wr, set_Rd, emptyBuffer.
  cbn [Rd RdSize Wr NetOut NetUp TLS ProcessId SecretKey Columns RemoteAddr Bytes].
  f_equal. rewrite <- !app_assoc. reflexivity.
Qed.

(** A message composed on the connection's buffer and flushed. *)
Lemma compose_and_flush {B} (f g : WriteBuffer -> WriteBuffer) (msg : bytes)
    (k : M B) (cn : Conn) :
  NetUp cn = true ->
  Bytes (g (f (Wr cn))) = Bytes (Wr cn) ++ msg ->
  (let! _ := on_Wr f in let! _ := on_Wr g in let! _ := FlushWriter in k) cn
  = k (flushed msg (Rd cn) cn).
Proof.
  intros Hup Hbytes. unfold bind, on_Wr, modify, FlushWriter.
  cbn [NetUp set_Wr Wr NetOut]. rewrite Hup, Hbytes.
  destruct cn. reflexivity.
Qed.

Lemma saslInitialResponse_bytes (name resp : bytes) (buf : WriteBuffer) :
  Bytes (FinishMessage
           (WriteBytes resp
              (WriteInt32 (int32 (Z.of_nat (length resp)))
                 (WriteString name (StartMessage saslInitialResponseMsg buf)))))
  = Bytes buf
    ++ frame saslInitialResponseMsg
         (cstring name
          ++ BigEndian_PutUint32 (Z.of_nat (length resp) mod 2 ^ 32) ++ resp).
Proof.
  rewrite (StartMessage_building saslInitialResponseMsg) by discriminate.
  rewrite WriteString_building, WriteInt32_building, WriteBytes_building.
  rewrite FinishMessage_building, uint32_int32. cbn [Bytes].
  rewrite <- !app_assoc. reflexivity.
Qed.

Lemma saslResponse_bytes (resp : bytes) (buf : WriteBuffer) :
  Bytes (FinishMessage (WriteBytes resp (StartMessage saslResponseMsg buf)))
  = Bytes buf ++ frame saslResponseMsg resp.
Proof.
  rewrite (StartMessage_building saslResponseMsg) by discriminate.
  rewrite WriteBytes_building, FinishMessage_building. reflexivity.
Qed.

Lemma saslExchange_runs {N} `{Sasl N} (saslMech : Mechanism) (user password : bytes)
    (c1 c2 c3 : N) (resp1 resp2 resp3 challenge final tail : bytes) (cn : Conn) :
  NetUp cn = true ->
  Negotiator_Step (NewClient saslMech user password) None = Some (c1, resp1, None) ->
  Negotiator_Step c1 (Some challenge) = Some (c2, resp2, None) ->
  Negotiator_Step c2 (Some final) = Some (c3, resp3, None) ->
  Z.of_nat (length challenge) + 8 < 2 ^ 31 ->
  Z.of_nat (length final) + 8 < 2 ^ 31 ->
  authenticate_saslExchange saslMech user password
    (set_Rd (saslContinue challenge ++ saslFinal final ++ tail) cn)
  = if Negotiator_State c3 =? ValidServerResponse
    then readAuthOK
           (flushed (saslInitialResponse saslMech resp1 ++ saslResponse resp2) tail cn)
    else Fail (Errorf "pg: SASL: state=%q, wanted %q"
                 [ArgInt (Negotiator_State c3); ArgInt ValidServerResponse])
              (flushed (saslInitialResponse saslMech resp1 ++ saslResponse resp2)
                 tail cn).
Proof.
  intros Hup Hs1 Hs2 Hs3 Hch Hfin.
  unfold authenticate_saslExchange. rewrite Hs1.
  rewrite (compose_and_flush _ _ (saslInitialResponse saslMech resp1))
    by (try exact Hup; cbn [Wr set_Rd]; apply saslInitialResponse_bytes).
  cbn [Rd set_Rd]. rewrite flushed_stream.
  set (cn1 := flushed (saslInitialResponse saslMech resp1) [] _).
  assert (Hup1 : NetUp cn1 = true) by exact Hup.
  unfold bind at 1. unfold saslContinue at 1.
  rewrite readMessageType_frame
    by (rewrite length_app, PutUint32_length; lia).
  simpl (Ascii.eqb _ _). cbv iota beta. rewrite <- app_assoc.
  unfold bind at 1.
  change (BigEndian_PutUint32 11) with (BigEndian_PutUint32 (uint32 11)).
  rewrite readInt32_put by lia.
  change (negb (11 =? 11)) with false. cbv iota.
  unfold bind at 1.
  rewrite (ReadN_exact _ challenge)
    by (rewrite length_app, PutUint32_length; lia).
  rewrite Hs2.
  rewrite (compose_and_flush _ _ (saslResponse resp2))
    by (try exact Hup1; cbn [Wr set_Rd]; apply saslResponse_bytes).
  cbn [Rd set_Rd]. rewrite flushed_stream.
  set (cn2 := flushed (saslResponse resp2) [] _).
  unfold readAuthSASLFinal, bind at 1. unfold saslFinal at 1.
  rewrite readMessageType_frame
    by (rewrite length_app, PutUint32_length; lia).
  simpl (Ascii.eqb _ _). cbv iota beta. rewrite <- app_assoc.
  unfold bind at 1.
  change (BigEndian_PutUint32 12) with (BigEndian_PutUint32 (uint32 12)).
  rewrite readInt32_put by lia.
  change (negb (12 =? 12)) with false. cbv iota.
  unfold bind at 1.
  rewrite (ReadN_exact _ final)
    by (rewrite length_app, PutUint32_length; lia).
  rewrite Hs3.
  assert (E : set_Rd tail cn2
              = flushed (saslInitialResponse saslMech resp1 ++ saslResponse resp2)
                  tail cn).
  { subst cn2 cn1. rewrite flushed_rest.
    rewrite <- (flushed_twice _ _ tail
                  (saslContinue challenge ++ saslFinal final ++ tail) cn).
    reflexivity. }
  rewrite E.
  destruct (Negotiator_State c3 =? ValidServerResponse); reflexivity.
Qed.

Lemma readAuthOK_ok (rest : bytes) (cn : Conn) :
  readAuthOK
    (set_Rd (frame authenticationOKMsg (BigEndian_PutUint32 (uint32 0)) ++ rest) cn)
  = Ret tt (set_Rd rest cn).
Proof.
  unfold readAuthOK, bind.
  rewrite readMessageType_frame by (cbn; lia).
  simpl (Ascii.eqb _ _). cbv iota beta.
  rewrite readInt32_put by lia. reflexivity.
Qed.

(** X16: the SASL case of [authenticate] on an offer of known names with
    SCRAM-SHA-256 among them, with a negotiator whose three steps succeed.
    [authenticate] sends the SASLInitialResponse, naming SCRAM-SHA-256 and
    giving the length of the first response in 32 bits, reads the server's
    challenge, sends the second response, reads the server's final message
    and, the negotiator being in the state ValidServerResponse,
    AuthenticationOk.  With the negotiator in another state it fails
    without reading further. *)
Theorem authenticate_sasl_exchange {N} `{Sasl N} (user password : bytes)
    (names : list bytes) (c1 c2 c3 : N)
    (resp1 resp2 resp3 challenge final : bytes) (cn : Conn) :
  NetUp cn = true ->
  Forall knownMech names ->
  Mechanism_Name ScramSha256 ∈ names ->
  Negotiator_Step (NewClient ScramSha256 user password) None
  = Some (c1, resp1, None) ->
  Negotiator_Step c1 (Some challenge) = Some (c2, resp2, None) ->
  Negotiator_Step c2 (Some final) = Some (c3, resp3, None) ->
  Z.of_nat (length challenge) + 8 < 2 ^ 31 ->
  Z.of_nat (length final) + 8 < 2 ^ 31 ->
  let sent := flushed (saslInitialResponse ScramSha256 resp1 ++ saslResponse resp2) in
  let offer := BigEndian_PutUint32 (uint32 authenticationSASL)
               ++ mechanismList names
               ++ saslContinue challenge ++ saslFinal final in
  (Negotiator_State c3 = ValidServerResponse ->
   forall rest,
     authenticate user password
       (set_Rd (offer ++ frame authenticationOKMsg (BigEndian_PutUint32 (uint32 0))
                ++ rest) cn)
     = Ret tt (sent rest cn))
  /\ (Negotiator_State c3 <> ValidServerResponse ->
      forall tail,
        authenticate user password (set_Rd (offer ++ tail) cn)
        = Fail (Errorf "pg: SASL: state=%q, wanted %q"
                  [ArgInt (Negotiator_State c3); ArgInt ValidServerResponse])
               (sent tail cn)).
Proof.
  intros Hup Hk Hin Hs1 Hs2 Hs3 Hch Hfin sent offer.
  assert (Hrun : forall tail,
            authenticate user password (set_Rd (offer ++ tail) cn)
            = if Negotiator_State c3 =? ValidServerResponse
              then readAuthOK (sent tail cn)
              else Fail (Errorf "pg: SASL: state=%q, wanted %q"
                           [ArgInt (Negotiator_State c3); ArgInt ValidServerResponse])
                        (sent tail cn)).
  { intros tail. subst offer. rewrite <- !app_assoc.
    rewrite authenticate_sasl_loop. unfold bind at 1.
    rewrite saslLoop_selects by exact Hk.
    rewrite selectMech_offered by exact Hin.
    apply (saslExchange_runs ScramSha256 user password c1 c2 c3 resp1 resp2 resp3);
      assumption. }
  split.
  - intros Hstate rest. rewrite Hrun, Hstate. change (_ =? _) with true. cbv iota.
    subst sent. cbv beta. rewrite flushed_stream, readAuthOK_ok. reflexivity.
  - intros Hstate tail. rewrite Hrun.
    destruct (Z.eqb_spec (Negotiator_State c3) ValidServerResponse) as [E|_];
      [contradiction|reflexivity].
Qed.

Lemma authenticate_sasl_exchange_witness :
  authenticate (N := nat) (str "u") (str "p")
    (set_Rd ((BigEndian_PutUint32 (uint32 authenticationSASL)
              ++ mechanismList [str "SCRAM-SHA-256-PLUS"; str "SCRAM-SHA-256"]
              ++ saslContinue (str "abc") ++ saslFinal (str "v=x"))
             ++ frame authenticationOKMsg (BigEndian_PutUint32 (uint32 0))
             ++ str "next") (conn0 []))
  = Ret tt
      (flushed (saslInitialResponse ScramSha256 [] ++ saslResponse (str "cba"))
         (str "next") (conn0 [])).
Proof.
  refine (proj1 (authenticate_sasl_exchange (N := nat) (str "u") (str "p")
                   [str "SCRAM-SHA-256-PLUS"; str "SCRAM-SHA-256"]
                   2%nat 3%nat 4%nat [] (str "cba") (str "x=v")
                   (str "abc") (str "v=x") (conn0 []) eq_refl _ _ eq_refl eq_refl
                   eq_refl _ _) eq_refl (str "next")).
  - constructor; [right; reflexivity|].
    constructor; [left; reflexivity|constructor].
  - apply list_elem_of_further, list_elem_of_here.
  - vm_compute. reflexivity.
  - vm_compute. reflexivity.
Defined.

(** ** The other loops return *)

Lemma consumes_on_Wr (f : WriteBuffer -> WriteBuffer) : consumes (on_Wr f).
Proof. intros cn. cbn. lia. Qed.

Lemma consumes_modify (f : Conn -> Conn) :
  (forall cn, Rd (f cn) = Rd cn) -> consumes (modify f).
Proof. intros Hf cn. cbn. rewrite Hf. lia. Qed.

Lemma consumes_FlushWriter : consumes FlushWriter.
Proof. intros cn. unfold FlushWriter. destruct (NetUp cn); cbn; lia. Qed.

Lemma consumes_readString : consumes readString.
Proof. apply advances_consumes, advances_readString. Qed.

#[local] Hint Resolve consumes_on_Wr consumes_FlushWriter consumes_readString
  : consumes.

Lemma consumes_readMessageType : consumes readMessageType.
Proof. apply advances_consumes, advances_readMessageType. Qed.

Lemma consumes_passwordResponse : consumes authenticate_passwordResponse.
Proof.
  unfold authenticate_passwordResponse.
  apply consumes_bind; [apply consumes_readMessageType|]. intros [c n].
  repeat match goal with
         | |- consumes (if ?b then _ else _) => destruct b
         end;
    auto with consumes.
Qed.

Lemma consumes_readAuthOK : consumes readAuthOK.
Proof.
  unfold readAuthOK.
  apply consumes_bind; [apply consumes_readMessageType|]. intros [c n].
  repeat match goal with
         | |- consumes (if ?b then _ else _) => destruct b
         end;
    auto with consumes.
Qed.

Lemma consumes_readAuthSASLFinal {N} `{Sasl N} (client : N) :
  consumes (readAuthSASLFinal client).
Proof.
  unfold readAuthSASLFinal.
  apply consumes_bind; [apply consumes_readMessageType|]. intros [c n].
  destruct (Ascii.eqb c authenticationSASLFinalMsg).
  - apply consumes_bind; [auto with consumes|]. intros c12.
    destruct (negb _); [auto with consumes|].
    apply consumes_bind; [auto with consumes|]. intros b.
    destruct (Negotiator_Step client (Some b)) as [[[client' resp] [err|]]|];
      auto with consumes.
    destruct (negb _); [auto with consumes|apply consumes_readAuthOK].
  - destruct (Ascii.eqb c errorResponseMsg); auto with consumes.
Qed.

Lemma consumes_saslExchange {N} `{Sasl N} (saslMech : Mechanism)
    (user password : bytes) :
  consumes (authenticate_saslExchange saslMech user password).
Proof.
  unfold authenticate_saslExchange.
  destruct (Negotiator_Step _ None) as [[[client resp] [err|]]|];
    auto with consumes.
  do 3 (apply consumes_bind; [auto with consumes|]; intros _).
  apply consumes_bind; [apply consumes_readMessageType|]. intros [typ n].
  destruct (Ascii.eqb typ authenticationSASLContinueMsg).
  - apply consumes_bind; [auto with consumes|]. intros c11.
    destruct (negb _); [auto with consumes|].
    apply consumes_bind; [auto with consumes|]. intros b.
    destruct (Negotiator_Step client (Some b)) as [[[client' resp'] [err|]]|];
      auto with consumes.
    do 3 (apply consumes_bind; [auto with consumes|]; intros _).
    apply consumes_readAuthSASLFinal.
  - destruct (Ascii.eqb typ errorResponseMsg); auto with consumes.
Qed.

Lemma consumes_authenticate {N} `{Sasl N} (user password : bytes) :
  consumes (authenticate user password).
Proof.
  unfold authenticate. apply consumes_bind; [auto with consumes|]. intros num.
  destruct (num =? authenticationOK); [auto with consumes|].
  destruct (num =? authenticationCleartextPassword).
  { do 2 (apply consumes_bind; [auto with consumes|]; intros _).
    apply consumes_passwordResponse. }
  destruct (num =? authenticationMD5Password).
  { apply consumes_bind; [auto with consumes|]. intros b.
    do 2 (apply consumes_bind; [auto with consumes|]; intros _).
    apply consumes_passwordResponse. }
  destruct (num =? authenticationSASL); [|auto with consumes].
  apply consumes_bind; [|intros saslMech; apply consumes_saslExchange].
  apply consumes_for_ever. intros saslMech. unfold authenticate_saslLoop_body.
  apply progresses_bind; [apply advances_readString|]. intros s.
  repeat match goal with
         | |- consumes (if ?b then _ else _) => destruct b
         end;
    auto with consumes.
Qed.

Lemma progresses_startup {N} `{Sasl N} (user password : bytes) (s : unit) :
  progresses (startup_body user password s).
Proof.
  unfold startup_body.
  apply progresses_bind; [apply advances_readMessageType|]. intros [c msgLen].
  destruct (Ascii.eqb c backendKeyDataMsg).
  { do 2 (apply consumes_bind; [auto with consumes|]; intro).
    apply consumes_bind; [|auto with consumes].
    apply consumes_modify. reflexivity. }
  destruct (Ascii.eqb c parameterStatusMsg); [auto with consumes|].
  destruct (Ascii.eqb c authenticationOKMsg).
  { apply consumes_bind; [apply consumes_authenticate|auto with consumes]. }
  repeat match goal with
         | |- consumes (if ?b then _ else _) => destruct b
         end;
    auto with consumes.
Qed.

Lemma consumes_startup {N} `{Sasl N} (user password database : bytes) :
  consumes (startup user password database).
Proof.
  unfold startup. do 2 (apply consumes_bind; [auto with consumes|]; intros _).
  apply consumes_for_ever, progresses_startup.
Qed.

Lemma progresses_readBindMsg (s : unit) : progresses (readBindMsg_body s).
Proof. unfold readBindMsg_body. reader_progresses. Qed.

Lemma progresses_awaits (own : ascii) (reader : string) (s : unit) :
  progresses (awaits own reader s).
Proof. unfold awaits. reader_progresses. Qed.

Lemma progresses_readNotification (s : unit) :
  progresses (readNotification_body s).
Proof. unfold readNotification_body. reader_progresses. Qed.

(** ** Strings longer than the reader's buffer *)

Lemma NUL_split (l : bytes) :
  (NUL ∉ l) \/ exists s rest, (NUL ∉ s) /\ l = s ++ NUL :: rest.
Proof.
  induction l as [|c l IH].
  - left. apply not_elem_of_nil.
  - destruct (decide (c = NUL)) as [->|Hc].
    + right. exists [], l. split; [apply not_elem_of_nil|reflexivity].
    + destruct IH as [Hl|(s & rest & Hs & ->)].
      * left. apply not_elem_of_cons. split; [congruence|exact Hl].
      * right. exists (c :: s), rest. split; [|reflexivity].
        apply not_elem_of_cons. split; [congruence|exact Hs].
Qed.

Lemma ReadSlice0_no_line (l : bytes) (cn : Conn) :
  NUL ∉ l ->
  ReadSlice0 (set_Rd l cn)
  = if (Pos.to_nat (RdSize cn) <=? length l)%nat
    then Ret (take (Pos.to_nat (RdSize cn)) l, Some bufio_ErrBufferFull)
             (set_Rd (drop (Pos.to_nat (RdSize cn)) l) cn)
    else Fail io_EOF (set_Rd [] cn).
Proof.
  intros Hl. unfold ReadSlice0. cbn [Rd set_Rd RdSize].
  rewrite span_NUL_none; [reflexivity|].
  intros Hin. apply Hl. eapply subseteq_take, Hin.
Qed.

Lemma readBytes_loop_eof (fuel : nat) (b l : bytes) (cn : Conn) :
  NUL ∉ l -> (length l < fuel)%nat ->
  loop readBytes_body fuel b (set_Rd l cn) = Fail io_EOF (set_Rd [] cn).
Proof.
  revert b l. induction fuel as [|fuel IH]; intros b l Hl Hlen; [lia|].
  rewrite loop_unfold. unfold readBytes_body, bind.
  rewrite ReadSlice0_no_line by exact Hl.
  destruct (Nat.leb_spec (Pos.to_nat (RdSize cn)) (length l)) as [Hfull|_];
    [|reflexivity].
  cbn [ret]. apply IH.
  - intros Hin. apply Hl. eapply subseteq_drop, Hin.
  - rewrite length_drop. lia.
Qed.

(** X18: [readBytes] appends to the slice it is given the string
    [readString] returns, and leaves the connection as [readString]
    does, on every stream and for every size of the reader's buffer: a
    string that does not fit the buffer comes out whole, and a stream
    that ends before a NUL gives the same error with all input consumed. *)
Theorem readBytes_as_readString (b : bytes) (cn : Conn) :
  readBytes b cn = (let! s := readString in ret (b ++ s)) cn.
Proof.
  rewrite <- (set_Rd_id cn) at 1 2.
  destruct (NUL_split (Rd cn)) as [Hl|(s & rest & Hs & ->)].
  - unfold readBytes, bind at 1, for_ever.
    rewrite readBytes_loop_eof; [|exact Hl|unfold rounds; cbn [Rd set_Rd]; lia].
    unfold bind, readString, bind, ReadString0. cbn [Rd set_Rd].
    rewrite span_NUL_none by exact Hl. reflexivity.
  - change (s ++ NUL :: rest) with (s ++ [NUL] ++ rest).
    rewrite app_assoc. fold (cstring s).
    rewrite readBytes_cstring by exact Hs.
    unfold bind. rewrite readString_cstring by exact Hs. reflexivity.
Qed.

Example readBytes_small_buffer :
  readBytes (str "t.")
    (mkConn (cstring (str "a_long_column_name") ++ str "rest") 4 emptyBuffer []
       true false 0 0 nil_slice [])
  = Ret (str "t.a_long_column_name")
      (mkConn (str "rest") 4 emptyBuffer [] true false 0 0 nil_slice []).
Proof. vm_compute. reflexivity. Qed.

(** ** Field counts beyond 32767 *)

Lemma readInt16_top_bit (u : Z) (rest : bytes) (cn : Conn) :
  2 ^ 15 <= u < 2 ^ 16 ->
  readInt16 (set_Rd (BigEndian_PutUint16 u ++ rest) cn)
  = Ret (u - 2 ^ 16) (set_Rd rest cn).
Proof.
  intros Hu. rewrite <- (readInt16_put (u - 2 ^ 16) rest cn) by lia.
  unfold uint16. replace ((u - 2 ^ 16) mod 2 ^ 16) with u; [reflexivity|].
  change (2 ^ 15) with 32768 in *. change (2 ^ 16) with 65536 in *.
  Z.to_euclidean_division_equations. lia.
Qed.

(** X19: the field count of a RowDescription and of a DataRow is read as
    a signed 16-bit integer.  On a count whose top bit is set
    [readRowDescription] panics, the negative count being the bound of a
    slice expression in [setByteSliceLen]; [readDataRow] runs its loop not
    once: it returns nil with the two bytes of the count consumed, no
    column scanned and the fields of the row left on the stream. *)
Theorem field_count_top_bit {S} `{ColumnScanner S} (u : Z) (rest : bytes)
    (columns : slice bytes) (scanner : S) (cn : Conn) :
  2 ^ 15 <= u < 2 ^ 16 ->
  readRowDescription columns (set_Rd (BigEndian_PutUint16 u ++ rest) cn) = Panic
  /\ readDataRow scanner columns (set_Rd (BigEndian_PutUint16 u ++ rest) cn)
     = Ret (scanner, None) (set_Rd rest cn).
Proof.
  intros Hu.
  assert (Hneg : u - 2 ^ 16 < 0) by lia.
  split.
  - unfold readRowDescription, bind. rewrite readInt16_top_bit by exact Hu.
    unfold setByteSliceLen, reslice.
    destruct (Z.leb_spec (u - 2 ^ 16) (Z.of_nat (cap columns))) as [_|Hbad]; [|lia].
    destruct (Z.leb_spec 0 (u - 2 ^ 16)) as [Hbad|_]; [lia|]. reflexivity.
  - unfold readDataRow, bind. rewrite readInt16_top_bit by exact Hu.
    unfold for_ever, rounds. rewrite loop_unfold. unfold readDataRow_body.
    destruct (Z.ltb_spec 0 (u - 2 ^ 16)) as [Hbad|_]; [lia|]. reflexivity.
Qed.

Lemma field_count_top_bit_witness :
  readRowDescription (slice_of [str "a"])
    (set_Rd (BigEndian_PutUint16 40000 ++ str "fields") (conn0 [])) = Panic
  /\ readDataRow ([] : scanLog) (slice_of [str "a"])
       (set_Rd (BigEndian_PutUint16 40000 ++ str "fields") (conn0 []))
     = Ret ([], None) (set_Rd (str "fields") (conn0 [])).
Proof.
  apply (field_count_top_bit 40000 _ _ _ (conn0 [])). lia.
Defined.

(** ** Queries with a model *)

Lemma readRowDescription_shape (fields : list (bytes * bytes))
    (columns : slice bytes) (rest : bytes) (cn : Conn) :
  Forall wf_fieldDesc fields ->
  Z.of_nat (length fields) < 2 ^ 15 ->
  exists columns',
    readRowDescription columns (set_Rd (rowDescription fields ++ rest) cn)
    = Ret columns' (set_Rd rest cn)
    /\ elems columns' = map fst fields
    /\ len columns' = length fields
    /\ (len columns' <= cap columns')%nat.
Proof.
  intros Hwf Hcount.
  destruct (setByteSliceLen_ok columns (Z.of_nat (length fields)))
    as (c & Hc & Hlenc & Hcap); [lia|].
  rewrite Nat2Z.id in Hlenc.
  eexists. split; [|split; [|split]].
  - unfold readRowDescription, rowDescription, bind.
    rewrite <- app_assoc. rewrite readInt16_put by lia.
    rewrite Hc. unfold for_ever.
    apply (readRowDescription_loop_names fields _ 0 c rest cn Hwf); [|lia|lia].
    unfold rounds. cbn [Rd set_Rd]. rewrite length_app.
    pose proof (fieldDesc_length fields). lia.
  - unfold elems. cbn [len arr]. rewrite take_0. cbn [app]. rewrite Hlenc.
    rewrite take_app_length'; [reflexivity|]. rewrite length_map. reflexivity.
  - cbn [len]. exact Hlenc.
  - unfold cap. cbn [len arr]. rewrite take_0. cbn [app].
    rewrite length_app, length_map. lia.
Qed.

Section WithModelProps.
Context {St Mod Md Sc : Type} `{!Orm St Mod Md Sc}.

Lemma afterRows_cons (model : Md) (names : list bytes) (s : Data.state St Md)
    (values : list (option bytes)) (rows : list (list (option bytes))) :
  Data.model s = Some model ->
  afterRows model names s (values :: rows)
  = afterRows model names (afterRows model names s [values]) rows.
Proof.
  intros Hm. unfold afterRows. cbn [foldl length Data.store Data.retErr Data.res
                                       Data.rows].
  rewrite <- surjective_pairing. f_equal. lia.
Qed.

Lemma afterRows_nil (model : Md) (names : list bytes) (s : Data.state St Md) :
  Data.model s = Some model -> afterRows model names s [] = s.
Proof.
  intros Hm. unfold afterRows. cbn [foldl length fst snd]. destruct s.
  cbn in *. rewrite Hm. f_equal. lia.
Qed.

(** One row, the model being there. *)
Lemma scanRow_dataRow (model : Md) (columns : slice bytes) (s : Data.state St Md)
    (values : list (option bytes)) (rest : bytes) (cn : Conn) :
  Data.model s = Some model ->
  Forall wf_value values ->
  Z.of_nat (length values) < 2 ^ 15 ->
  (length values <= len columns <= cap columns)%nat ->
  scanRow columns s (set_Rd (dataRow values ++ rest) cn)
  = Ret (Continue (afterRows model (elems columns) s [values])) (set_Rd rest cn).
Proof.
  intros Hm Hwf Hsmall Hcols. unfold scanRow. rewrite Hm.
  unfold afterRows, addRow. cbn [foldl fst snd length].
  destruct (Model_NewModel model (Data.store s)) as [st m].
  unfold bind, try. rewrite readDataRow_within_columns by assumption.
  destruct (scanColumns (st, m) 0 (zip (elems columns) values)) as [[st' m'] errs].
  cbn [fst snd]. destruct (head errs) as [err|].
  - reflexivity.
  - destruct (Model_AddModel model m' st') as [st'' [err|]]; reflexivity.
Qed.

Lemma makeModel_fresh (mod_ : Mod) (st : St) :
  makeModel mod_ (Data.mk st None None None 0)
  = Data.mk (newModel mod_ st).1.1 None (modelOf (newModel mod_ st))
      (newModel mod_ st).2 0.
Proof.
  unfold makeModel, modelOf. cbn [Data.store Data.res Data.retErr Data.rows].
  destruct (newModel mod_ st) as [[st1 m] [err|]]; reflexivity.
Qed.

(** The rows of a response, in a loop whose round on a DataRow is
    [scanRow] with the names [columns]. *)
Section RowsLoop.
Variable body :
  Data.state St Md -> M (step (Data.state St Md)
                              (St * option Result * option Md * option error)).
Variable columns : slice bytes.
Variable cn : Conn.

Hypothesis body_row : forall s model values rest,
  Data.model s = Some model ->
  wf_frame (dataRowMsg, dataRow values) ->
  body s (set_Rd (frame dataRowMsg (dataRow values) ++ rest) cn)
  = scanRow columns s (set_Rd (dataRow values ++ rest) cn).

Hypothesis columns_ok : (len columns <= cap columns)%nat.
Hypothesis columns_few : Z.of_nat (len columns) < 2 ^ 15.

Lemma rows_loop (rows : list (list (option bytes))) (fuel : nat)
    (s : Data.state St Md) (model : Md) (tail : bytes) :
  Data.model s = Some model ->
  Forall (wf_row (len columns)) rows ->
  loop body (length rows + fuel) s (set_Rd (dataRows_of rows ++ tail) cn)
  = loop body fuel (afterRows model (elems columns) s rows) (set_Rd tail cn).
Proof.
  intros Hm Hrows. revert s Hm.
  induction Hrows as [|values rows (Hv & Hn & Hlen) Hrows IH]; intros s Hm.
  - rewrite afterRows_nil by exact Hm. reflexivity.
  - unfold dataRows_of. cbn [length Nat.add flat_map].
    rewrite loop_unfold, <- app_assoc.
    rewrite (body_row s model) by assumption.
    rewrite (scanRow_dataRow model) by (try assumption; lia).
    rewrite (afterRows_cons model (elems columns) s values rows Hm).
    apply IH. reflexivity.
Qed.

End RowsLoop.

Lemma for_ever_within {S R} (body : S -> M (step S R)) (fuel : nat) (s : S)
    (cn : Conn) (o : outcome R) :
  loop body fuel s cn = o -> o <> Exhausted -> (fuel <= rounds cn)%nat ->
  for_ever body s cn = o.
Proof.
  intros Hrun Hne Hfuel. unfold for_ever. rewrite <- Hrun.
  apply loop_more_fuel; [exact Hfuel|]. rewrite Hrun. exact Hne.
Qed.

Lemma dataRows_of_length (rows : list (list (option bytes))) :
  (length rows <= length (dataRows_of rows))%nat.
Proof.
  induction rows as [|values rows IH]; [reflexivity|].
  unfold dataRows_of in *. cbn [flat_map length]. rewrite length_app.
  unfold frame at 1. cbn [length]. lia.
Qed.

Lemma readSimpleQueryData_body_row (s : Data.state St Md) (values : list (option bytes))
    (rest : bytes) (mod_ : Mod) (cn : Conn) :
  wf_frame (dataRowMsg, dataRow values) ->
  readSimpleQueryData_body mod_ s
    (set_Rd (frame dataRowMsg (dataRow values) ++ rest) cn)
  = scanRow (Columns cn) s (set_Rd (dataRow values ++ rest) cn).
Proof.
  intros Hlen. unfold readSimpleQueryData_body, bind at 1.
  rewrite readMessageType_frame by exact Hlen.
  simpl (Ascii.eqb _ _). cbv iota beta. reflexivity.
Qed.

Lemma readExtQueryData_body_row (s : Data.state St Md) (model : Md)
    (values : list (option bytes)) (rest : bytes) (mod_ : Mod)
    (columns : slice bytes) (cn : Conn) :
  Data.model s = Some model ->
  wf_frame (dataRowMsg, dataRow values) ->
  readExtQueryData_body mod_ columns s
    (set_Rd (frame dataRowMsg (dataRow values) ++ rest) cn)
  = scanRow columns s (set_Rd (dataRow values ++ rest) cn).
Proof.
  intros Hm Hlen. unfold readExtQueryData_body, bind at 1.
  rewrite readMessageType_frame by exact Hlen.
  simpl (Ascii.eqb _ _). cbv iota beta. rewrite Hm. reflexivity.
Qed.

Lemma readSimpleQueryData_body_desc (mod_ : Mod) (s : Data.state St Md)
    (fields : list (bytes * bytes)) (tail : bytes) (cn : Conn) :
  Data.model s = None ->
  Forall wf_fieldDesc fields ->
  Z.of_nat (length fields) < 2 ^ 15 ->
  wf_frame (rowDescriptionMsg, rowDescription fields) ->
  exists columns,
    elems columns = map fst fields
    /\ len columns = length fields
    /\ (len columns <= cap columns)%nat
    /\ readSimpleQueryData_body mod_ s
         (set_Rd (frame rowDescriptionMsg (rowDescription fields) ++ tail) cn)
       = Ret (Continue (makeModel mod_ s)) (set_Rd tail (set_Columns columns cn)).
Proof.
  intros Hm Hwf Hcount Hlen.
  destruct (readRowDescription_shape fields (mkSlice (arr (Columns cn)) 0) tail cn
              Hwf Hcount) as (columns & Hrun & Hel & Hl & Hcap).
  exists columns. repeat (split; [assumption|]).
  unfold readSimpleQueryData_body, bind at 1.
  rewrite readMessageType_frame by exact Hlen.
  simpl (Ascii.eqb _ _). cbv iota beta.
  unfold bind at 1, get. cbn [Columns set_Rd].
  unfold reslice. change (0 <=? 0) with true.
  destruct (Z.leb_spec 0 (Z.of_nat (cap (Columns cn)))) as [_|Hbad]; [|lia].
  cbn [andb]. change (Z.to_nat 0) with 0%nat.
  unfold bind, try. rewrite Hrun. unfold modify. rewrite Hm. reflexivity.
Qed.

Lemma readSimpleQueryData_body_tag (mod_ : Mod) (s : Data.state St Md)
    (tag tail : bytes) (cn : Conn) :
  wf_frame (commandCompleteMsg, tag) ->
  readSimpleQueryData_body mod_ s (set_Rd (frame commandCompleteMsg tag ++ tail) cn)
  = Ret (Continue (Data.mk (Data.store s) (Some (NewResult tag (Data.rows s)))
                     (Data.model s) (Data.retErr s) (Data.rows s)))
        (set_Rd tail cn).
Proof.
  intros Hlen. unfold readSimpleQueryData_body, bind.
  rewrite readMessageType_frame by exact Hlen.
  simpl (Ascii.eqb _ _). cbv iota beta. rewrite ReadN_app. reflexivity.
Qed.

Lemma readSimpleQueryData_body_ready (mod_ : Mod) (s : Data.state St Md)
    (status : ascii) (tail : bytes) (cn : Conn) :
  readSimpleQueryData_body mod_ s (set_Rd (ReadyForQuery status ++ tail) cn)
  = Ret (Return (Data.store s, Data.res s, Data.model s, Data.retErr s))
        (set_Rd tail cn).
Proof.
  unfold ReadyForQuery, readSimpleQueryData_body, bind.
  rewrite readMessageType_frame by apply ReadyForQuery_wf.
  simpl (Ascii.eqb _ _). cbv iota beta. rewrite ReadN_app. reflexivity.
Qed.

Lemma readExtQueryData_body_tag (mod_ : Mod) (columns : slice bytes)
    (s : Data.state St Md) (tag tail : bytes) (cn : Conn) :
  wf_frame (commandCompleteMsg, tag) ->
  readExtQueryData_body mod_ columns s
    (set_Rd (frame commandCompleteMsg tag ++ tail) cn)
  = Ret (Continue (Data.mk (Data.store s) (Some (NewResult tag (Data.rows s)))
                     (Data.model s) (Data.retErr s) (Data.rows s)))
        (set_Rd tail cn).
Proof.
  intros Hlen. unfold readExtQueryData_body, bind.
  rewrite readMessageType_frame by exact Hlen.
  simpl (Ascii.eqb _ _). cbv iota beta. rewrite ReadN_app. reflexivity.
Qed.

Lemma readExtQueryData_body_ready (mod_ : Mod) (columns : slice bytes)
    (s : Data.state St Md) (status : ascii) (tail : bytes) (cn : Conn) :
  readExtQueryData_body mod_ columns s (set_Rd (ReadyForQuery status ++ tail) cn)
  = Ret (Return (Data.store s, Data.res s, Data.model s, Data.retErr s))
        (set_Rd tail cn).
Proof.
  unfold ReadyForQuery, readExtQueryData_body, bind.
  rewrite readMessageType_frame by apply ReadyForQuery_wf.
  simpl (Ascii.eqb _ _). cbv iota beta. rewrite ReadN_app. reflexivity.
Qed.

Lemma readExtQueryData_body_bound (mod_ : Mod) (columns : slice bytes)
    (s : Data.state St Md) (tail : bytes) (cn : Conn) :
  readExtQueryData_body mod_ columns s (set_Rd (frame bindCompleteMsg [] ++ tail) cn)
  = Ret (Continue s) (set_Rd tail cn).
Proof.
  unfold readExtQueryData_body, bind.
  rewrite readMessageType_frame by (cbn; lia).
  simpl (Ascii.eqb _ _). cbv iota beta. rewrite ReadN_app. reflexivity.
Qed.

(** X20: the simple-query reader with a model on a response of a
    RowDescription, DataRow messages, CommandComplete and ReadyForQuery.
    The model is made at the RowDescription, by [newModel], and is
    [Discard] when that fails.  Every row gets a row target from the
    model; its columns are scanned into the target in order, each under
    the name the RowDescription gave it; the target is added to the model
    unless a column failed.  The Result counts every row, also those that
    failed; the error returned is the first of the errors of [newModel],
    of the scans and of the additions; the connection keeps the column
    names. *)
Theorem readSimpleQueryData_fills_the_model (mod_ : Mod) (st : St) (model : Md)
    (fields : list (bytes * bytes)) (rows : list (list (option bytes)))
    (tag : bytes) (status : ascii) (rest : bytes) (cn : Conn) :
  Forall wf_fieldDesc fields ->
  Z.of_nat (length fields) < 2 ^ 15 ->
  wf_frame (rowDescriptionMsg, rowDescription fields) ->
  Forall (wf_row (length fields)) rows ->
  wf_frame (commandCompleteMsg, tag) ->
  modelOf (newModel mod_ st) = Some model ->
  let made := newModel mod_ st in
  let fin := foldl (addRow model (map fst fields)) (made.1.1, made.2) rows in
  exists columns,
    elems columns = map fst fields
    /\ readSimpleQueryData mod_ st
         (set_Rd (frame rowDescriptionMsg (rowDescription fields)
                  ++ dataRows_of rows
                  ++ frame commandCompleteMsg tag
                  ++ ReadyForQuery status ++ rest) cn)
       = Ret (fin.1, Some (NewResult tag (Z.of_nat (length rows))), Some model, fin.2)
             (set_Columns columns (set_Rd rest cn)).
Proof.
  intros Hwf Hcount Hdlen Hrows Htag Hmodel made fin.
  destruct (readSimpleQueryData_body_desc mod_ (Data.mk st None None None 0) fields
              (dataRows_of rows ++ frame commandCompleteMsg tag
               ++ ReadyForQuery status ++ rest) cn eq_refl Hwf Hcount Hdlen)
    as (columns & Hel & Hl & Hcap & Hdesc).
  exists columns. split; [exact Hel|].
  unfold readSimpleQueryData.
  apply (for_ever_within _ (1 + (length rows + 2))); [|discriminate|].
  - cbn [Nat.add]. rewrite loop_unfold, Hdesc, makeModel_fresh.
    rewrite (rows_loop (readSimpleQueryData_body mod_) columns
               (set_Columns columns cn)) with (model := model).
    + rewrite loop_unfold, readSimpleQueryData_body_tag by exact Htag.
      rewrite loop_unfold, readSimpleQueryData_body_ready.
      unfold afterRows. cbn [Data.store Data.res Data.model Data.retErr Data.rows].
      rewrite Hel. reflexivity.
    + intros s m values rest' _ Hv. apply readSimpleQueryData_body_row, Hv.
    + exact Hcap.
    + rewrite Hl. exact Hcount.
    + exact Hmodel.
    + rewrite Hl. exact Hrows.
  - unfold rounds. cbn [Rd set_Rd]. rewrite !length_app.
    pose proof (dataRows_of_length rows). unfold frame. cbn [length]. lia.
Qed.

Lemma readExtQueryData_body_first_row (mod_ : Mod) (columns : slice bytes)
    (s : Data.state St Md) (values : list (option bytes)) (rest : bytes) (cn : Conn) :
  Data.model s = None ->
  wf_frame (dataRowMsg, dataRow values) ->
  readExtQueryData_body mod_ columns s
    (set_Rd (frame dataRowMsg (dataRow values) ++ rest) cn)
  = scanRow columns (makeModel mod_ s) (set_Rd (dataRow values ++ rest) cn).
Proof.
  intros Hm Hlen. unfold readExtQueryData_body, bind at 1.
  rewrite readMessageType_frame by exact Hlen.
  simpl (Ascii.eqb _ _). cbv iota beta. rewrite Hm. reflexivity.
Qed.

(** The rows of an extended query, the model being made at the first. *)
Lemma readExtQueryData_rows (mod_ : Mod) (st : St) (model : Md)
    (columns : slice bytes) (first : list (option bytes))
    (rows : list (list (option bytes)))
    (tag : bytes) (status : ascii) (rest : bytes) (cn : Conn) :
  (len columns <= cap columns)%nat ->
  Z.of_nat (len columns) < 2 ^ 15 ->
  Forall (wf_row (len columns)) (first :: rows) ->
  wf_frame (commandCompleteMsg, tag) ->
  modelOf (newModel mod_ st) = Some model ->
  let made := newModel mod_ st in
  let fin := foldl (addRow model (elems columns)) (made.1.1, made.2) (first :: rows) in
  readExtQueryData mod_ columns st
    (set_Rd (frame bindCompleteMsg []
             ++ dataRows_of (first :: rows)
             ++ frame commandCompleteMsg tag
             ++ ReadyForQuery status ++ rest) cn)
  = Ret (fin.1, Some (NewResult tag (Z.of_nat (length (first :: rows)))),
         Some model, fin.2)
        (set_Rd rest cn).
Proof.
  intros Hcap Hfew Hrows Htag Hmodel made fin.
  apply Forall_cons in Hrows as [(Hv & Hn & Hlen) Hrows].
  unfold readExtQueryData.
  apply (for_ever_within _ (2 + (length rows + 2))); [|discriminate|].
  - cbn [Nat.add]. rewrite loop_unfold, readExtQueryData_body_bound.
    unfold dataRows_of. cbn [flat_map]. rewrite <- app_assoc.
    rewrite loop_unfold, readExtQueryData_body_first_row by (try reflexivity; exact Hlen).
    rewrite makeModel_fresh.
    rewrite (scanRow_dataRow model) by (try assumption; try reflexivity; lia).
    fold (dataRows_of rows).
    rewrite (rows_loop (readExtQueryData_body mod_ columns) columns cn)
      with (model := model).
    + rewrite loop_unfold, readExtQueryData_body_tag by exact Htag.
      rewrite loop_unfold, readExtQueryData_body_ready.
      unfold afterRows. cbn [Data.store Data.res Data.model Data.retErr Data.rows
                               foldl length].
      subst fin made. cbn [foldl]. rewrite <- surjective_pairing.
      replace (0 + Z.of_nat 1 + Z.of_nat (length rows))
        with (Z.of_nat (Datatypes.S (length rows))) by lia.
      reflexivity.
    + intros s m values rest' Hm Hvl.
      apply (readExtQueryData_body_row s m); assumption.
    + exact Hcap.
    + exact Hfew.
    + reflexivity.
    + exact Hrows.
  - unfold rounds. cbn [Rd set_Rd]. rewrite !length_app.
    pose proof (dataRows_of_length (first :: rows)) as Hd. cbn [length] in Hd.
    change (length (frame bindCompleteMsg [])) with 5%nat. lia.
Qed.

(** X21: the extended-query reader with a model on a response of
    BindComplete, at least one DataRow, CommandComplete and ReadyForQuery.
    The model is made at the first DataRow, by [newModel], and is
    [Discard] when that fails.  Every row gets a row target from the
    model; its columns are scanned into the target in order under the
    names passed to the reader; the target is added to the model unless a
    column failed.  The Result counts every row; the error returned is
    the first of the errors of [newModel], of the scans and of the
    additions. *)
Theorem readExtQueryData_fills_the_model (mod_ : Mod) (st : St) (model : Md)
    (columns : slice bytes) (first : list (option bytes))
    (rows : list (list (option bytes)))
    (tag : bytes) (status : ascii) (rest : bytes) (cn : Conn) :
  (len columns <= cap columns)%nat ->
  Z.of_nat (len columns) < 2 ^ 15 ->
  Forall (wf_row (len columns)) (first :: rows) ->
  wf_frame (commandCompleteMsg, tag) ->
  modelOf (newModel mod_ st) = Some model ->
  let made := newModel mod_ st in
  let fin := foldl (addRow model (elems columns)) (made.1.1, made.2) (first :: rows) in
  readExtQueryData mod_ columns st
    (set_Rd (frame bindCompleteMsg []
             ++ dataRows_of (first :: rows)
             ++ frame commandCompleteMsg tag
             ++ ReadyForQuery status ++ rest) cn)
  = Ret (fin.1, Some (NewResult tag (Z.of_nat (length (first :: rows)))),
         Some model, fin.2)
        (set_Rd rest cn).
Proof. apply readExtQueryData_rows. Qed.

(** X22: when the model is made.  [readSimpleQueryData] makes it at a
    RowDescription: a DataRow that arrives before any RowDescription
    finds a nil model, and the reader panics.  [readExtQueryData] makes
    it at the first DataRow: on a response without a DataRow it returns a
    nil model beside the Result, and [newModel] has not run, so that the
    model passed in is neither reset nor touched. *)
Theorem model_is_made_on_demand (mod_ : Mod) (st : St) (columns : slice bytes)
    (tag : bytes) (status : ascii) (rest : bytes) (cn : Conn) :
  (forall p tail,
     wf_frame (dataRowMsg, p) ->
     readSimpleQueryData mod_ st (set_Rd (frame dataRowMsg p ++ tail) cn) = Panic)
  /\ (wf_frame (commandCompleteMsg, tag) ->
      readExtQueryData mod_ columns st
        (set_Rd (frame bindCompleteMsg [] ++ frame commandCompleteMsg tag
                 ++ ReadyForQuery status ++ rest) cn)
      = Ret (st, Some (NewResult tag 0), None, None) (set_Rd rest cn)).
Proof.
  split.
  - intros p tail Hlen. unfold readSimpleQueryData, for_ever, rounds.
    rewrite loop_unfold. unfold readSimpleQueryData_body, bind at 1.
    rewrite readMessageType_frame by exact Hlen.
    simpl (Ascii.eqb _ _). cbv iota beta. reflexivity.
  - intros Htag. unfold readExtQueryData.
    apply (for_ever_within _ 3); [|discriminate|].
    + rewrite loop_unfold, readExtQueryData_body_bound.
      rewrite loop_unfold, readExtQueryData_body_tag by exact Htag.
      rewrite loop_unfold, readExtQueryData_body_ready. reflexivity.
    + unfold rounds. cbn [Rd set_Rd]. rewrite !length_app.
      unfold frame. cbn [length]. lia.
Qed.

End WithModelProps.

Lemma readSimpleQueryData_fills_the_model_witness :
  exists columns,
    elems columns = map fst [(str "id", meta18); (str "bad", meta18)]
    /\ readSimpleQueryData true ([] : rowsStore)
         (set_Rd (frame rowDescriptionMsg
                    (rowDescription [(str "id", meta18); (str "bad", meta18)])
                  ++ dataRows_of [[Some (str "1"); None]; [Some (str "2")]]
                  ++ frame commandCompleteMsg (cstring (str "SELECT 2"))
                  ++ ReadyForQuery "I" ++ []) (conn0 []))
       = Ret ((foldl (addRow true (map fst [(str "id", meta18); (str "bad", meta18)]))
                 ((newModel true ([] : rowsStore)).1.1,
                  (newModel true ([] : rowsStore)).2)
                 [[Some (str "1"); None]; [Some (str "2")]]).1,
              Some (NewResult (cstring (str "SELECT 2")) (Z.of_nat 2)),
              Some true,
              (foldl (addRow true (map fst [(str "id", meta18); (str "bad", meta18)]))
                 ((newModel true ([] : rowsStore)).1.1,
                  (newModel true ([] : rowsStore)).2)
                 [[Some (str "1"); None]; [Some (str "2")]]).2)
             (set_Columns columns (set_Rd [] (conn0 []))).
Proof.
  refine (readSimpleQueryData_fills_the_model true ([] : rowsStore) true
            [(str "id", meta18); (str "bad", meta18)]
            [[Some (str "1"); None]; [Some (str "2")]]
            (cstring (str "SELECT 2")) "I" [] (conn0 []) _ _ _ _ _ _).
  - repeat constructor; cbn; apply NUL_not_in; reflexivity.
  - vm_compute. reflexivity.
  - vm_compute. reflexivity.
  - repeat constructor; cbn; lia.
  - vm_compute. reflexivity.
  - reflexivity.
Defined.

(** The run of the witness: the first row has a column that cannot be
    scanned and is counted all the same; being an element of the model
    from [NewModel] on, it stays in the model. *)
Example readSimpleQueryData_two_rows :
  readSimpleQueryData true ([] : rowsStore)
    (conn0 (frame rowDescriptionMsg
              (rowDescription [(str "id", meta18); (str "bad", meta18)])
            ++ dataRows_of [[Some (str "1"); None]; [Some (str "2")]]
            ++ frame commandCompleteMsg (cstring (str "SELECT 2"))
            ++ ReadyForQuery "I"))
  = Ret ([[(str "id", Some (str "1")); (str "bad", None)];
          [(str "id", Some (str "2"))]],
         Some (mkResult (cstring (str "SELECT 2")) 2),
         Some true,
         Some (ExternalError "cannot scan"))
        (set_Columns (slice_of [str "id"; str "bad"]) (conn0 [])).
Proof. vm_compute. reflexivity. Qed.

(** A model that cannot be made: the rows go to [Discard]. *)
Lemma readExtQueryData_fills_the_model_witness :
  readExtQueryData false (slice_of [str "id"]) ([] : rowsStore)
    (set_Rd (frame bindCompleteMsg []
             ++ dataRows_of [[Some (str "1")]; [Some (str "2")]]
             ++ frame commandCompleteMsg (cstring (str "SELECT 2"))
             ++ ReadyForQuery "I" ++ []) (conn0 []))
  = Ret ((foldl (addRow false (elems (slice_of [str "id"])))
            ((newModel false ([] : rowsStore)).1.1,
             (newModel false ([] : rowsStore)).2)
            [[Some (str "1")]; [Some (str "2")]]).1,
         Some (NewResult (cstring (str "SELECT 2"))
                 (Z.of_nat (length [[Some (str "1")]; [Some (str "2")]]))),
         Some false,
         (foldl (addRow false (elems (slice_of [str "id"])))
            ((newModel false ([] : rowsStore)).1.1,
             (newModel false ([] : rowsStore)).2)
            [[Some (str "1")]; [Some (str "2")]]).2)
        (set_Rd [] (conn0 [])).
Proof.
  refine (readExtQueryData_fills_the_model false ([] : rowsStore) false
            (slice_of [str "id"]) [Some (str "1")] [[Some (str "2")]]
            (cstring (str "SELECT 2")) "I" [] (conn0 []) _ _ _ _ _).
  - cbn. lia.
  - vm_compute. reflexivity.
  - repeat constructor; cbn; lia.
  - vm_compute. reflexivity.
  - reflexivity.
Defined.

Example readExtQueryData_discards :
  readExtQueryData false (slice_of [str "id"]) ([] : rowsStore)
    (conn0 (frame bindCompleteMsg []
            ++ dataRows_of [[Some (str "1")]; [Some (str "2")]]
            ++ frame commandCompleteMsg (cstring (str "SELECT 2"))
            ++ ReadyForQuery "I"))
  = Ret ([], Some (mkResult (cstring (str "SELECT 2")) 2), Some false,
         Some (ExternalError "not a model"))
        (conn0 []).
Proof. vm_compute. reflexivity. Qed.

Lemma model_is_made_on_demand_witness :
  readExtQueryData true (slice_of [str "id"]) ([[(str "id", Some (str "0"))]] : rowsStore)
    (set_Rd (frame bindCompleteMsg []
             ++ frame commandCompleteMsg (cstring (str "UPDATE 0"))
             ++ ReadyForQuery "I" ++ []) (conn0 []))
  = Ret ([[(str "id", Some (str "0"))]],
         Some (NewResult (cstring (str "UPDATE 0")) 0), None, None)
        (set_Rd [] (conn0 [])).
Proof.
  refine (proj2 (model_is_made_on_demand true
                   ([[(str "id", Some (str "0"))]] : rowsStore)
                   (slice_of [str "id"]) (cstring (str "UPDATE 0")) "I" []
                   (conn0 [])) _).
  vm_compute. reflexivity.
Defined.

Example readSimpleQueryData_row_without_description :
  readSimpleQueryData true ([] : rowsStore)
    (conn0 (frame dataRowMsg (dataRow [Some (str "1")]) ++ ReadyForQuery "I"))
  = Panic.
Proof. vm_compute. reflexivity. Qed.

Lemma consumes_get : consumes get.
Proof. intros cn. cbn. lia. Qed.

#[local] Hint Resolve consumes_get : consumes.

Section WithModelReturns.
Context {St Mod Md Sc : Type} `{!Orm St Mod Md Sc}.

Lemma consumes_scanRow (columns : slice bytes) (s : Data.state St Md) :
  consumes (scanRow columns s).
Proof.
  unfold scanRow. destruct (Data.model s) as [model|]; [|apply consumes_panic].
  destruct (Model_NewModel model (Data.store s)) as [st m].
  apply consumes_bind; [apply consumes_try, consumes_readDataRow|].
  intros [[[st' m'] [err|]]|err]; auto with consumes.
Qed.

Lemma progresses_readSimpleQueryData (mod_ : Mod) (s : Data.state St Md) :
  progresses (readSimpleQueryData_body mod_ s).
Proof.
  unfold readSimpleQueryData_body.
  apply progresses_bind; [apply advances_readMessageType|]. intros [c msgLen].
  destruct (Ascii.eqb c rowDescriptionMsg).
  { apply consumes_bind; [apply consumes_get|]. intros cn.
    destruct (reslice (Columns cn) 0) as [columns0|]; [|apply consumes_panic].
    apply consumes_bind; [apply consumes_try, consumes_readRowDescription|].
    intros [cols|err].
    - apply consumes_bind; [apply consumes_modify; reflexivity|]. intros _.
      destruct (Data.model s); apply consumes_ret.
    - apply consumes_bind; [apply consumes_modify; reflexivity|]. intros _.
      apply consumes_fail. }
  destruct (Ascii.eqb c dataRowMsg).
  { apply consumes_bind; [apply consumes_get|]. intros cn.
    apply consumes_scanRow. }
  repeat match goal with
         | |- consumes (if ?b then _ else _) => destruct b
         end;
    auto with consumes.
Qed.

Lemma progresses_readExtQueryData (mod_ : Mod) (columns : slice bytes)
    (s : Data.state St Md) :
  progresses (readExtQueryData_body mod_ columns s).
Proof.
  unfold readExtQueryData_body.
  apply progresses_bind; [apply advances_readMessageType|]. intros [c msgLen].
  destruct (Ascii.eqb c bindCompleteMsg); [auto with consumes|].
  destruct (Ascii.eqb c dataRowMsg); [apply consumes_scanRow|].
  repeat match goal with
         | |- consumes (if ?b then _ else _) => destruct b
         end;
    auto with consumes.
Qed.

End WithModelReturns.

(** ** The answer to an empty query *)

Section EmptyQuery.
Context {St Mod Md Sc : Type} `{!Orm St Mod Md Sc}.

(** X24: the tag of EmptyQueryResponse is declared among the constants
    of [messages.go], and no reader has a case for it.  On the server's
    answer to an empty query string, EmptyQueryResponse and ReadyForQuery,
    the four query readers fail with the error that names the reader and
    the tag, and the ReadyForQuery message stays unread. *)
Theorem empty_query_is_refused (mod_ : Mod) (st : St) (columns : slice bytes)
    (status : ascii) (rest : bytes) (cn : Conn) :
  let answer := set_Rd (frame emptyQueryResponseMsg []
                        ++ ReadyForQuery status ++ rest) cn in
  let left := set_Rd (ReadyForQuery status ++ rest) cn in
  readSimpleQuery answer
  = Fail (unexpected "readSimpleQuery" emptyQueryResponseMsg) left
  /\ readExtQuery answer
     = Fail (unexpected "readExtQuery" emptyQueryResponseMsg) left
  /\ readSimpleQueryData mod_ st answer
     = Fail (unexpected "readSimpleQueryData" emptyQueryResponseMsg) left
  /\ readExtQueryData mod_ columns st answer
     = Fail (unexpected "readExtQueryData" emptyQueryResponseMsg) left.
Proof.
  intros answer left. subst answer left.
  unfold readSimpleQuery, readExtQuery, readSimpleQueryData, readExtQueryData,
    for_ever, rounds.
  rewrite !loop_unfold. repeat split; reflexivity.
Qed.

End EmptyQuery.

Example empty_query :
  readSimpleQuery (conn0 (frame emptyQueryResponseMsg [] ++ ReadyForQuery "I"))
  = Fail (Errorf "pg: readSimpleQuery: unexpected message %#x" [ArgByte "I"])
         (conn0 (ReadyForQuery "I")).
Proof. vm_compute. reflexivity. Qed.

(** ** Terminate *)

Example terminateConn_bypasses_the_buffer :
  terminateMessage = frame terminateMsg []
  /\ terminateConn
       (mkConn [] 4096 (mkWriteBuffer (str "pending") 0 0) (str "sent")
          true false 0 0 nil_slice [])
     = Ret tt
         (mkConn [] 4096 (mkWriteBuffer (str "pending") 0 0)
            (str "sent" ++ frame terminateMsg [])
            true false 0 0 nil_slice []).
Proof. split; reflexivity. Qed.

(** ** The shape of the MD5 secret *)

Lemma le_bytes_length (width : nat) (v : Z) : length (le_bytes width v) = width.
Proof. unfold le_bytes. rewrite length_map. apply length_seq. Qed.

Lemma md5_Sum_length (s : bytes) : length (md5_Sum s) = 16%nat.
Proof.
  unfold md5_Sum. destruct (md5_blocks _ _ _) as [[[A B] C] D].
  rewrite !length_app, !le_bytes_length. reflexivity.
Qed.

Lemma hex_digit_is_hex (n : Z) : 0 <= n < 16 -> hex_digit n ∈ hexDigits.
Proof.
  intros Hn.
  assert (Hall : Forall (fun k => hex_digit (Z.of_nat k) ∈ hexDigits) (seq 0 16))
    by (vm_compute; repeat constructor).
  rewrite Forall_forall in Hall.
  rewrite <- (Z2Nat.id n) by lia. apply Hall, elem_of_seq. lia.
Qed.

Lemma hex_EncodeToString_hex (b : bytes) :
  length (hex_EncodeToString b) = (2 * length b)%nat
  /\ Forall (fun c => c ∈ hexDigits) (hex_EncodeToString b).
Proof.
  unfold hex_EncodeToString. induction b as [|c b [IHl IHf]].
  - split; [reflexivity|constructor].
  - cbn [flat_map app length]. split; [rewrite IHl; lia|].
    pose proof (byte_val_range c) as Hc.
    constructor; [|constructor; [|exact IHf]]; apply hex_digit_is_hex.
    + split; [apply Z.div_pos; lia|apply Z.div_lt_upper_bound; lia].
    + apply Z.mod_pos_bound. lia.
Qed.

Lemma hexDigits_not_NUL (c : ascii) : c ∈ hexDigits -> c <> NUL.
Proof.
  unfold hexDigits. intros Hc ->. revert Hc. not_listed.
Qed.

(** X25: [md5s] returns 32 lower-case hexadecimal digits for every
    input.  The secret of the MD5 case of [authenticate] is therefore
    always 35 bytes without a NUL among them, and its PasswordMessage has
    41 bytes with the length 40 in its length field, whatever the user
    name, the password and the salt. *)
Theorem md5s_is_hex (user password salt : bytes) :
  (forall s, length (md5s s) = 32%nat /\ Forall (fun c => c ∈ hexDigits) (md5s s))
  /\ let secret := str "md5" ++ md5s (md5s (password ++ user) ++ salt) in
     length secret = 35%nat
     /\ (NUL ∉ secret)
     /\ frame passwordMessageMsg (cstring secret)
        = passwordMessageMsg :: BigEndian_PutUint32 40 ++ secret ++ [NUL].
Proof.
  assert (Hhex : forall s, length (md5s s) = 32%nat
                           /\ Forall (fun c => c ∈ hexDigits) (md5s s)).
  { intros s. unfold md5s.
    destruct (hex_EncodeToString_hex (md5_Sum s)) as [Hl Hf].
    rewrite md5_Sum_length in Hl. split; [exact Hl|exact Hf]. }
  split; [exact Hhex|].
  set (digest := md5s (md5s (password ++ user) ++ salt)).
  destruct (Hhex (md5s (password ++ user) ++ salt)) as [Hl Hf]. fold digest in Hl, Hf.
  cbv zeta.
  assert (Hlen : length (str "md5" ++ digest) = 35%nat)
    by (rewrite length_app, Hl; reflexivity).
  split; [exact Hlen|]. split.
  - intros Hin. apply elem_of_app in Hin as [Hin|Hin].
    + revert Hin. not_listed.
    + rewrite Forall_forall in Hf. exact (hexDigits_not_NUL _ (Hf _ Hin) eq_refl).
  - unfold frame, cstring. rewrite length_app, Hlen. reflexivity.
Qed.

(** ** Two statements in one query *)

Section TwoStatements.
Context {St Mod Md Sc : Type} `{!Orm St Mod Md Sc}.

(** A RowDescription with the model there already: the names on the
    connection are replaced and the model is kept. *)
Lemma readSimpleQueryData_body_desc_again (mod_ : Mod) (s : Data.state St Md)
    (model : Md) (fields : list (bytes * bytes)) (tail : bytes) (cn : Conn) :
  Data.model s = Some model ->
  Forall wf_fieldDesc fields ->
  Z.of_nat (length fields) < 2 ^ 15 ->
  wf_frame (rowDescriptionMsg, rowDescription fields) ->
  exists columns,
    elems columns = map fst fields
    /\ len columns = length fields
    /\ (len columns <= cap columns)%nat
    /\ readSimpleQueryData_body mod_ s
         (set_Rd (frame rowDescriptionMsg (rowDescription fields) ++ tail) cn)
       = Ret (Continue s) (set_Rd tail (set_Columns columns cn)).
Proof.
  intros Hm Hwf Hcount Hlen.
  destruct (readRowDescription_shape fields (mkSlice (arr (Columns cn)) 0) tail cn
              Hwf Hcount) as (columns & Hrun & Hel & Hl & Hcap).
  exists columns. repeat (split; [assumption|]).
  unfold readSimpleQueryData_body, bind at 1.
  rewrite readMessageType_frame by exact Hlen.
  simpl (Ascii.eqb _ _). cbv iota beta.
  unfold bind at 1, get. cbn [Columns set_Rd].
  unfold reslice. change (0 <=? 0) with true.
  destruct (Z.leb_spec 0 (Z.of_nat (cap (Columns cn)))) as [_|Hbad]; [|lia].
  cbn [andb]. change (Z.to_nat 0) with 0%nat.
  unfold bind, try. rewrite Hrun. unfold modify. rewrite Hm. reflexivity.
Qed.

(** X26: a simple query of two statements with a model: RowDescription,
    rows and CommandComplete of the first statement, then those of the
    second, then ReadyForQuery.  [newModel] runs once, at the first
    RowDescription; the rows of both statements go into the one model,
    those of the second under the column names of the second
    RowDescription, which replace the first on the connection.  The
    Result carries the tag of the second statement with the rows of both
    statements counted together. *)
Theorem readSimpleQueryData_two_statements (mod_ : Mod) (st : St) (model : Md)
    (fields1 fields2 : list (bytes * bytes))
    (rows1 rows2 : list (list (option bytes)))
    (tag1 tag2 : bytes) (status : ascii) (rest : bytes) (cn : Conn) :
  Forall wf_fieldDesc fields1 -> Forall wf_fieldDesc fields2 ->
  Z.of_nat (length fields1) < 2 ^ 15 -> Z.of_nat (length fields2) < 2 ^ 15 ->
  wf_frame (rowDescriptionMsg, rowDescription fields1) ->
  wf_frame (rowDescriptionMsg, rowDescription fields2) ->
  Forall (wf_row (length fields1)) rows1 ->
  Forall (wf_row (length fields2)) rows2 ->
  wf_frame (commandCompleteMsg, tag1) -> wf_frame (commandCompleteMsg, tag2) ->
  modelOf (newModel mod_ st) = Some model ->
  let made := newModel mod_ st in
  let fin1 := foldl (addRow model (map fst fields1)) (made.1.1, made.2) rows1 in
  let fin2 := foldl (addRow model (map fst fields2)) fin1 rows2 in
  exists columns,
    elems columns = map fst fields2
    /\ readSimpleQueryData mod_ st
         (set_Rd (frame rowDescriptionMsg (rowDescription fields1)
                  ++ dataRows_of rows1 ++ frame commandCompleteMsg tag1
                  ++ frame rowDescriptionMsg (rowDescription fields2)
                  ++ dataRows_of rows2 ++ frame commandCompleteMsg tag2
                  ++ ReadyForQuery status ++ rest) cn)
       = Ret (fin2.1,
              Some (NewResult tag2 (Z.of_nat (length rows1 + length rows2))),
              Some model, fin2.2)
             (set_Columns columns (set_Rd rest cn)).
Proof.
  intros Hwf1 Hwf2 Hc1 Hc2 Hd1 Hd2 Hrows1 Hrows2 Htag1 Htag2 Hmodel made fin1 fin2.
  set (tail2 := dataRows_of rows2 ++ frame commandCompleteMsg tag2
                ++ ReadyForQuery status ++ rest).
  set (tail1 := dataRows_of rows1 ++ frame commandCompleteMsg tag1
                ++ frame rowDescriptionMsg (rowDescription fields2) ++ tail2).
  destruct (readSimpleQueryData_body_desc mod_ (Data.mk st None None None 0) fields1
              tail1 cn eq_refl Hwf1 Hc1 Hd1)
    as (columns1 & Hel1 & Hl1 & Hcap1 & Hdesc1).
  set (s1 := afterRows model (elems columns1)
               (makeModel mod_ (Data.mk st None None None 0)) rows1).
  set (s2 := Data.mk (Data.store s1) (Some (NewResult tag1 (Data.rows s1)))
               (Data.model s1) (Data.retErr s1) (Data.rows s1)).
  destruct (readSimpleQueryData_body_desc_again mod_ s2 model fields2 tail2
              (set_Columns columns1 cn) eq_refl Hwf2 Hc2 Hd2)
    as (columns2 & Hel2 & Hl2 & Hcap2 & Hdesc2).
  exists columns2. split; [exact Hel2|].
  unfold readSimpleQueryData.
  apply (for_ever_within _ (1 + (length rows1 + (2 + (length rows2 + 2)))));
    [|discriminate|].
  - cbn [Nat.add]. fold tail1. rewrite loop_unfold, Hdesc1. subst tail1.
    rewrite (rows_loop (readSimpleQueryData_body mod_) columns1
               (set_Columns columns1 cn)) with (model := model).
    + fold s1. rewrite loop_unfold, readSimpleQueryData_body_tag by exact Htag1.
      fold s2. rewrite loop_unfold, Hdesc2. subst tail2.
      rewrite (rows_loop (readSimpleQueryData_body mod_) columns2
                 (set_Columns columns2 (set_Columns columns1 cn)))
        with (model := model).
      * rewrite loop_unfold, readSimpleQueryData_body_tag by exact Htag2.
        rewrite loop_unfold, readSimpleQueryData_body_ready.
        subst s2 s1. rewrite makeModel_fresh. unfold afterRows.
        cbn [Data.store Data.res Data.model Data.retErr Data.rows].
        rewrite Hel1, Hel2, <- !surjective_pairing.
        replace (0 + Z.of_nat (length rows1) + Z.of_nat (length rows2))
          with (Z.of_nat (length rows1 + length rows2)) by lia.
        reflexivity.
      * intros s m values rest' _ Hv. apply readSimpleQueryData_body_row, Hv.
      * exact Hcap2.
      * rewrite Hl2. exact Hc2.
      * reflexivity.
      * rewrite Hl2. exact Hrows2.
    + intros s m values rest' _ Hv. apply readSimpleQueryData_body_row, Hv.
    + exact Hcap1.
    + rewrite Hl1. exact Hc1.
    + rewrite makeModel_fresh. exact Hmodel.
    + rewrite Hl1. exact Hrows1.
  - unfold rounds. cbn [Rd set_Rd]. subst tail1 tail2. rewrite !length_app.
    pose proof (dataRows_of_length rows1). pose proof (dataRows_of_length rows2).
    unfold frame. cbn [length]. lia.
Qed.

End TwoStatements.

Lemma readSimpleQueryData_two_statements_witness :
  exists columns,
    elems columns = map fst [(str "name", meta18)]
    /\ readSimpleQueryData true ([] : rowsStore)
         (set_Rd (frame rowDescriptionMsg (rowDescription [(str "id", meta18)])
                  ++ dataRows_of [[Some (str "1")]]
                  ++ frame commandCompleteMsg (cstring (str "SELECT 1"))
                  ++ frame rowDescriptionMsg (rowDescription [(str "name", meta18)])
                  ++ dataRows_of [[Some (str "a")]; [Some (str "b")]]
                  ++ frame commandCompleteMsg (cstring (str "SELECT 2"))
                  ++ ReadyForQuery "I" ++ []) (conn0 []))
       = Ret ((foldl (addRow true (map fst [(str "name", meta18)]))
                 (foldl (addRow true (map fst [(str "id", meta18)]))
                    ((newModel true ([] : rowsStore)).1.1,
                     (newModel true ([] : rowsStore)).2)
                    [[Some (str "1")]])
                 [[Some (str "a")]; [Some (str "b")]]).1,
              Some (NewResult (cstring (str "SELECT 2"))
                      (Z.of_nat (length [[Some (str "1")]]
                                 + length [[Some (str "a")]; [Some (str "b")]]))),
              Some true,
              (foldl (addRow true (map fst [(str "name", meta18)]))
                 (foldl (addRow true (map fst [(str "id", meta18)]))
                    ((newModel true ([] : rowsStore)).1.1,
                     (newModel true ([] : rowsStore)).2)
                    [[Some (str "1")]])
                 [[Some (str "a")]; [Some (str "b")]]).2)
             (set_Columns columns (set_Rd [] (conn0 []))).
Proof.
  refine (readSimpleQueryData_two_statements true ([] : rowsStore) true
            [(str "id", meta18)] [(str "name", meta18)]
            [[Some (str "1")]] [[Some (str "a")]; [Some (str "b")]]
            (cstring (str "SELECT 1")) (cstring (str "SELECT 2")) "I" [] (conn0 [])
            _ _ _ _ _ _ _ _ _ _ _).
  - repeat constructor; cbn; apply NUL_not_in; reflexivity.
  - repeat constructor; cbn; apply NUL_not_in; reflexivity.
  - vm_compute. reflexivity.
  - vm_compute. reflexivity.
  - vm_compute. reflexivity.
  - vm_compute. reflexivity.
  - repeat constructor; cbn; lia.
  - repeat constructor; cbn; lia.
  - vm_compute. reflexivity.
  - vm_compute. reflexivity.
  - reflexivity.
Defined.

Example readSimpleQueryData_select_twice :
  readSimpleQueryData true ([] : rowsStore)
    (conn0 (frame rowDescriptionMsg (rowDescription [(str "id", meta18)])
            ++ dataRows_of [[Some (str "1")]]
            ++ frame commandCompleteMsg (cstring (str "SELECT 1"))
            ++ frame rowDescriptionMsg (rowDescription [(str "name", meta18)])
            ++ dataRows_of [[Some (str "a")]; [Some (str "b")]]
            ++ frame commandCompleteMsg (cstring (str "SELECT 2"))
            ++ ReadyForQuery "I"))
  = Ret ([[(str "id", Some (str "1"))]; [(str "name", Some (str "a"))];
          [(str "name", Some (str "b"))]],
         Some (mkResult (cstring (str "SELECT 2")) 3), Some true, None)
        (set_Columns (slice_of [str "name"]) (conn0 [])).
Proof. vm_compute. reflexivity. Qed.

(** ** A prepared statement and its rows *)

Lemma readParseDescribeSync_prepared (fields : list (bytes * bytes))
    (params : bytes) (status : ascii) (rest : bytes) (cn : Conn) :
  Forall wf_fieldDesc fields ->
  Z.of_nat (length fields) < 2 ^ 15 ->
  wf_frame (parameterDescriptionMsg, params) ->
  wf_frame (rowDescriptionMsg, rowDescription fields) ->
  exists columns,
    readParseDescribeSync
      (set_Rd (prepared params fields ++ ReadyForQuery status ++ rest) cn)
    = Ret (columns, None) (set_Rd rest cn)
    /\ elems columns = map fst fields
    /\ len columns = length fields
    /\ (len columns <= cap columns)%nat.
Proof.
  intros Hwf Hcount Hparams Hrow.
  destruct (readRowDescription_shape fields nil_slice
              (ReadyForQuery status ++ rest) cn Hwf Hcount)
    as (columns & Hrun & Hel & Hl & Hcap).
  exists columns. split; [|repeat split; assumption].
  unfold readParseDescribeSync, prepared. rewrite <- !app_assoc.
  apply (for_ever_within _ 4); [|discriminate|].
  - rewrite loop_unfold, readParseDescribeSync_body_skip
      by (auto; cbn [length]; lia).
    rewrite loop_unfold, readParseDescribeSync_body_skip by auto.
    rewrite loop_unfold. unfold readParseDescribeSync_body at 1, bind.
    rewrite readMessageType_frame by exact Hrow.
    simpl (Ascii.eqb _ _). cbv iota beta.
    rewrite Hrun. cbn [ret].
    rewrite loop_unfold, readParseDescribeSync_body_ready. reflexivity.
  - unfold rounds, frame. cbn [Rd set_Rd app length].
    rewrite !length_app, !PutUint32_length. cbn [length]. lia.
Qed.

Section PreparedRows.
Context {St Mod Md Sc : Type} `{!Orm St Mod Md Sc}.

(** X27: a statement is prepared and then executed.  The column names
    [readParseDescribeSync] returns for the answer to Parse, Describe and
    Sync are those of the RowDescription, and [readExtQueryData], given
    these names, scans the columns of every row of the answer to Bind,
    Execute and Sync under them, into the row targets of the model made
    at the first row. *)
Theorem prepared_statement_rows (mod_ : Mod) (st : St) (model : Md)
    (params : bytes) (fields : list (bytes * bytes))
    (first : list (option bytes)) (rows : list (list (option bytes)))
    (tag : bytes) (status status' : ascii) (rest rest' : bytes) (cn cn' : Conn) :
  Forall wf_fieldDesc fields ->
  Z.of_nat (length fields) < 2 ^ 15 ->
  wf_frame (parameterDescriptionMsg, params) ->
  wf_frame (rowDescriptionMsg, rowDescription fields) ->
  Forall (wf_row (length fields)) (first :: rows) ->
  wf_frame (commandCompleteMsg, tag) ->
  modelOf (newModel mod_ st) = Some model ->
  let made := newModel mod_ st in
  let fin := foldl (addRow model (map fst fields)) (made.1.1, made.2)
               (first :: rows) in
  exists columns,
    readParseDescribeSync
      (set_Rd (prepared params fields ++ ReadyForQuery status ++ rest) cn)
    = Ret (columns, None) (set_Rd rest cn)
    /\ readExtQueryData mod_ columns st
         (set_Rd (frame bindCompleteMsg []
                  ++ dataRows_of (first :: rows)
                  ++ frame commandCompleteMsg tag
                  ++ ReadyForQuery status' ++ rest') cn')
       = Ret (fin.1, Some (NewResult tag (Z.of_nat (length (first :: rows)))),
              Some model, fin.2)
             (set_Rd rest' cn').
Proof.
  intros Hwf Hcount Hparams Hrow Hrows Htag Hmodel made fin.
  destruct (readParseDescribeSync_prepared fields params status rest cn
              Hwf Hcount Hparams Hrow) as (columns & Hrun & Hel & Hl & Hcap).
  exists columns. split; [exact Hrun|].
  subst fin made. rewrite <- Hel.
  apply readExtQueryData_rows; try assumption.
  - rewrite Hl. exact Hcount.
  - rewrite Hl. exact Hrows.
Qed.

End PreparedRows.

Lemma prepared_statement_rows_witness :
  exists columns,
    readParseDescribeSync
      (set_Rd (prepared (BigEndian_PutUint16 0) [(str "id", meta18)]
               ++ ReadyForQuery "I" ++ []) (conn0 []))
    = Ret (columns, None) (set_Rd [] (conn0 []))
    /\ readExtQueryData true columns ([] : rowsStore)
         (set_Rd (frame bindCompleteMsg []
                  ++ dataRows_of ([Some (str "1")] :: [[Some (str "2")]])
                  ++ frame commandCompleteMsg (cstring (str "SELECT 2"))
                  ++ ReadyForQuery "I" ++ []) (conn0 []))
       = Ret ((foldl (addRow true (map fst [(str "id", meta18)]))
                 ((newModel true ([] : rowsStore)).1.1,
                  (newModel true ([] : rowsStore)).2)
                 ([Some (str "1")] :: [[Some (str "2")]])).1,
              Some (NewResult (cstring (str "SELECT 2"))
                      (Z.of_nat (length ([Some (str "1")] :: [[Some (str "2")]])))),
              Some true,
              (foldl (addRow true (map fst [(str "id", meta18)]))
                 ((newModel true ([] : rowsStore)).1.1,
                  (newModel true ([] : rowsStore)).2)
                 ([Some (str "1")] :: [[Some (str "2")]])).2)
             (set_Rd [] (conn0 [])).
Proof.
  refine (prepared_statement_rows true ([] : rowsStore) true
            (BigEndian_PutUint16 0) [(str "id", meta18)]
            [Some (str "1")] [[Some (str "2")]]
            (cstring (str "SELECT 2")) "I" "I" [] [] (conn0 []) (conn0 [])
            _ _ _ _ _ _ _).
  - repeat constructor; cbn; apply NUL_not_in; reflexivity.
  - vm_compute. reflexivity.
  - vm_compute. reflexivity.
  - vm_compute. reflexivity.
  - repeat constructor; cbn; lia.
  - vm_compute. reflexivity.
  - reflexivity.
Defined.

(** ** Where the readers panic

    A loop whose rounds progress panics exactly when it comes to a round
    that panics; the rounds of the readers panic at the headers their
    cases name.  What is said of panics is said of the text of
    [messages.go]: the collaborators that are interfaces here (the sink of
    a COPY, the methods of [orm]) and [types.NewResult], which is not
    among the sources, are functions of the model and always return. *)

Section PanicLoop.
Context {S R : Type} (body : S -> M (step S R)).
Hypothesis body_progresses : forall s, progresses (body s).

Lemma loop_panics (fuel : nat) (s : S) (cn : Conn) :
  (length (Rd cn) < fuel)%nat ->
  loop body fuel s cn = Panic
  <-> exists s' cn', reaches body (s, cn) (s', cn') /\ body s' cn' = Panic.
Proof.
  revert s cn. induction fuel as [|fuel IH]; intros s cn Hfuel; [lia|].
  rewrite loop_unfold. pose proof (body_progresses s cn) as Hp.
  destruct (body s cn) as [[s1|r] cn1|e cn1| |] eqn:E.
  - rewrite IH by lia. split; intros (s' & cn' & Hr & Hb).
    + exists s', cn'. split; [|exact Hb]. eapply reaches_round; eassumption.
    + inversion Hr as [x|s0 s2 cn0 cn2 y Hround Hrest]; subst.
      * rewrite E in Hb. discriminate Hb.
      * rewrite E in Hround. injection Hround as -> ->.
        exists s', cn'. split; assumption.
  - split; [discriminate|]. intros (s' & cn' & Hr & Hb).
    inversion Hr as [x|s0 s2 cn0 cn2 y Hround Hrest]; subst;
      [rewrite E in Hb|rewrite E in Hround]; discriminate.
  - split; [discriminate|]. intros (s' & cn' & Hr & Hb).
    inversion Hr as [x|s0 s2 cn0 cn2 y Hround Hrest]; subst;
      [rewrite E in Hb|rewrite E in Hround]; discriminate.
  - split; [|reflexivity]. intros _. exists s, cn. split; [constructor|exact E].
  - contradiction.
Qed.

Lemma for_ever_panics_at (s : S) (cause : S -> Conn -> Prop) :
  (forall s cn, body s cn = Panic <-> cause s cn) ->
  panics_at (for_ever body s) body s cause.
Proof.
  intros Hc cn. unfold for_ever.
  rewrite loop_panics by (unfold rounds; lia).
  split; intros (s' & cn' & Hr & Hb); exists s', cn';
    (split; [exact Hr|apply Hc, Hb]).
Qed.

End PanicLoop.

(** The header of a message is five bytes; on less, [readMessageType]
    fails. *)
Lemma readMessageType_cases (cn : Conn) :
  (exists c l rest,
     Rd cn = c :: l ++ rest /\ length l = 4%nat
     /\ readMessageType cn
        = Ret (c, int32 (BigEndian_Uint32 l) - 4) (set_Rd rest cn))
  \/ ((length (Rd cn) < 5)%nat
      /\ exists e cn', readMessageType cn = Fail e cn').
Proof.
  unfold readMessageType, bind, ReadByte, readInt32, bind, ReadN.
  destruct (Rd cn) as [|c r] eqn:E.
  { right. split; [cbn; lia|]. eexists _, _. reflexivity. }
  cbn [Rd set_Rd]. change (4 <? 0) with false. cbv iota.
  change (Z.to_nat 4) with 4%nat.
  destruct r as [|b1 [|b2 [|b3 [|b4 rest]]]];
    try (right; split; [cbn; lia|]; eexists _, _; reflexivity).
  left. exists c, [b1; b2; b3; b4], rest.
  split; [reflexivity|]. split; reflexivity.
Qed.

Lemma readInt32_cases (cn : Conn) :
  (exists l rest,
     Rd cn = l ++ rest /\ length l = 4%nat
     /\ readInt32 cn = Ret (int32 (BigEndian_Uint32 l)) (set_Rd rest cn))
  \/ ((length (Rd cn) < 4)%nat /\ exists e cn', readInt32 cn = Fail e cn').
Proof.
  unfold readInt32, bind, ReadN.
  change (4 <? 0) with false. cbv iota. change (Z.to_nat 4) with 4%nat.
  destruct (Rd cn) as [|b1 [|b2 [|b3 [|b4 rest]]]] eqn:E;
    try (right; split; [cbn; lia|]; eexists _, _; reflexivity).
  left. exists [b1; b2; b3; b4], rest. split; [reflexivity|]. split; reflexivity.
Qed.

Lemma header_panics {A} (k : ascii * Z -> M A) (cn : Conn) :
  bind readMessageType k cn = Panic
  <-> atHeader (fun c n cn' => k (c, n) cn' = Panic) cn.
Proof.
  unfold atHeader, bind at 1.
  destruct (readMessageType_cases cn)
    as [(c & l & rest & Hrd & Hl & ->)|(Hshort & e & cn' & ->)].
  - split.
    + intros Hk. exists c, l, rest. auto.
    + intros (c' & l' & rest' & Hrd' & Hl' & Hk).
      rewrite Hrd in Hrd'. injection Hrd' as -> Happ.
      apply app_inj_1 in Happ as [-> ->]; [exact Hk|congruence].
  - split; [discriminate|]. intros (c' & l' & rest' & Hrd' & Hl' & _).
    rewrite Hrd' in Hshort. cbn [length] in Hshort.
    rewrite length_app in Hshort. lia.
Qed.

Lemma atHeader_iff (P Q : ascii -> Z -> Conn -> Prop) (cn : Conn) :
  (forall c n cn', P c n cn' <-> Q c n cn') -> atHeader P cn <-> atHeader Q cn.
Proof.
  intros HPQ. unfold atHeader.
  split; intros (c & l & rest & Hrd & Hl & H); exists c, l, rest;
    (split; [exact Hrd|]; split; [exact Hl|]; apply HPQ, H).
Qed.

(** A round that reads a header and goes on by its tag. *)
Lemma round_panics {A} (k : ascii * Z -> M A) (P : ascii -> Z -> Conn -> Prop)
    (cn : Conn) :
  (forall c n cn', k (c, n) cn' = Panic <-> P c n cn') ->
  bind readMessageType k cn = Panic <-> atHeader P cn.
Proof. intros Hk. rewrite header_panics. apply atHeader_iff, Hk. Qed.

Lemma bind_bind {A B C} (m : M A) (f : A -> M B) (g : B -> M C) (cn : Conn) :
  bind (bind m f) g cn = bind m (fun a => bind (f a) g) cn.
Proof. unfold bind. destruct (m cn); reflexivity. Qed.

(** [ReadN] is what panics in a case that reads its message by length. *)
Lemma ReadN_panics {A} (n : Z) (k : bytes -> M A) (cn : Conn) :
  (forall b cn', k b cn' <> Panic) ->
  bind (ReadN n) k cn = Panic <-> n < 0.
Proof.
  intros Hk. unfold bind, ReadN.
  destruct (Z.ltb_spec n 0) as [Hneg|Hpos]; [split; auto|].
  destruct (_ <=? _)%nat; (split; [|lia]); intros Hp;
    [exfalso; eapply Hk, Hp|discriminate Hp].
Qed.

Lemma try_ReadN_panics {A} (n : Z) (k : bytes + error -> M A) (cn : Conn) :
  (forall r cn', k r cn' <> Panic) ->
  bind (try (ReadN n)) k cn = Panic <-> n < 0.
Proof.
  intros Hk. unfold bind, try, ReadN.
  destruct (Z.ltb_spec n 0) as [Hneg|Hpos]; [split; auto|].
  destruct (_ <=? _)%nat; (split; [|lia]); intros Hp;
    exfalso; eapply Hk, Hp.
Qed.

Lemma reads_no_panic {A} (m : M A) (cn : Conn) : reads m -> m cn <> Panic.
Proof.
  intros Hm. specialize (Hm cn).
  destruct (m cn) as [a cn'|e cn'| |]; try contradiction; discriminate.
Qed.

(** A case that reads integers, strings and an error, and returns. *)
Ltac only_reads :=
  repeat first
    [ apply reads_ret | apply reads_fail | apply reads_readError
    | apply reads_readInt32 | apply reads_readString
    | apply reads_bind; [|intro] ].

(** The tag [c] of a case is among the tags listed. *)
Ltac listed :=
  repeat first [apply list_elem_of_here | apply list_elem_of_further].

(** The tag of a case without [ReadN] is none of the tags listed. *)
Ltac unlisted :=
  let H := fresh in
  intros H;
  repeat (apply elem_of_cons in H as [H|H];
          [first [discriminate H | congruence]|]);
  apply elem_of_nil in H; exact H.

(** A continuation that returns or fails. *)
Ltac returns :=
  intros; unfold bind, ret, fail;
  repeat match goal with
         | |- context [match ?x with _ => _ end] => destruct x
         end;
  discriminate.

(** The cases of a round, by the tag [c], each of them either reading by
    the length [n] or not panicking at all. *)
Ltac by_length c n :=
  repeat match goal with
         | |- context [Ascii.eqb c ?t] =>
             destruct (Ascii.eqb_spec c t) as [->|?]; cbv iota
         end;
  try congruence;
  unfold logNotice, logParameterStatus; rewrite ?bind_bind;
  first
    [ rewrite ReadN_panics by returns;
      split; [intros ?; split; [listed|assumption]|intros [_ ?]; assumption]
    | rewrite try_ReadN_panics by returns;
      split; [intros ?; split; [listed|assumption]|intros [_ ?]; assumption]
    | split;
      [ intros Hp; exfalso; revert Hp; apply reads_no_panic; only_reads
      | intros [Hin _]; exfalso; revert Hin; unlisted ] ].

Lemma readSimpleQuery_body_panics (s : queryState) (cn : Conn) :
  readSimpleQuery_body s cn = Panic
  <-> negativeLength [commandCompleteMsg; readyForQueryMsg; rowDescriptionMsg;
                      dataRowMsg; noticeResponseMsg; parameterStatusMsg] cn.
Proof.
  apply round_panics. intros c n cn'. by_length c n.
Qed.

Lemma readExtQuery_body_panics (s : queryState) (cn : Conn) :
  readExtQuery_body s cn = Panic
  <-> negativeLength [bindCompleteMsg; dataRowMsg; commandCompleteMsg;
                      readyForQueryMsg; noticeResponseMsg; parameterStatusMsg] cn.
Proof.
  apply round_panics. intros c n cn'. by_length c n.
Qed.

Lemma readReadyForQuery_body_panics (s : option Result * option error) (cn : Conn) :
  readReadyForQuery_body s cn = Panic
  <-> negativeLength [commandCompleteMsg; readyForQueryMsg; noticeResponseMsg;
                      parameterStatusMsg] cn.
Proof.
  destruct s as [r e]. apply round_panics. intros c n cn'. by_length c n.
Qed.

Lemma readCopyData_body_panics {W} `{Writer W} (s : W * option Result) (cn : Conn) :
  readCopyData_body s cn = Panic
  <-> negativeLength [copyDataMsg; copyDoneMsg; commandCompleteMsg;
                      readyForQueryMsg; noticeResponseMsg; parameterStatusMsg] cn.
Proof.
  destruct s as [w r]. apply round_panics. intros c n cn'. by_length c n.
Qed.

Lemma readBindMsg_body_panics (s : unit) (cn : Conn) :
  readBindMsg_body s cn = Panic
  <-> negativeLength [bindCompleteMsg; readyForQueryMsg; noticeResponseMsg;
                      parameterStatusMsg] cn.
Proof.
  apply round_panics. intros c n cn'. by_length c n.
Qed.

Lemma awaits_panics (own : ascii) (reader : string) (s : unit) (cn : Conn) :
  own <> errorResponseMsg ->
  awaits own reader s cn = Panic
  <-> negativeLength [own; noticeResponseMsg; parameterStatusMsg] cn.
Proof.
  intros Hown. apply round_panics. intros c n cn'. by_length c n.
Qed.

Lemma readNotification_body_panics (s : unit) (cn : Conn) :
  readNotification_body s cn = Panic
  <-> negativeLength [commandCompleteMsg; readyForQueryMsg; noticeResponseMsg] cn.
Proof.
  apply round_panics. intros c n cn'. by_length c n.
Qed.

(** *** The field count of a RowDescription *)

Lemma readBytes_returns (b : bytes) (cn : Conn) : readBytes b cn <> Panic.
Proof.
  rewrite <- (set_Rd_id cn).
  destruct (NUL_split (Rd cn)) as [Hl|(s & rest & Hs & ->)].
  - unfold readBytes, bind, for_ever.
    rewrite readBytes_loop_eof; [discriminate|exact Hl|].
    unfold rounds. cbn [Rd set_Rd]. lia.
  - change (s ++ NUL :: rest) with (s ++ [NUL] ++ rest).
    rewrite app_assoc. fold (cstring s).
    rewrite readBytes_cstring by exact Hs. discriminate.
Qed.

Lemma ReadN_returns (n : Z) (cn : Conn) : 0 <= n -> ReadN n cn <> Panic.
Proof.
  intros Hn. unfold ReadN.
  destruct (Z.ltb_spec n 0) as [Hneg|_]; [lia|].
  destruct (_ <=? _)%nat; discriminate.
Qed.

Lemma readInt16_cases (cn : Conn) :
  (exists n rest,
     Rd cn = n ++ rest /\ length n = 2%nat
     /\ readInt16 cn = Ret (int16 (BigEndian_Uint16 n)) (set_Rd rest cn))
  \/ ((length (Rd cn) < 2)%nat /\ exists e cn', readInt16 cn = Fail e cn').
Proof.
  unfold readInt16, bind, ReadN.
  change (2 <? 0) with false. cbv iota. change (Z.to_nat 2) with 2%nat.
  destruct (Rd cn) as [|b1 [|b2 rest]] eqn:E;
    try (right; split; [cbn; lia|]; eexists _, _; reflexivity).
  left. exists [b1; b2], rest. split; [reflexivity|]. split; reflexivity.
Qed.

Lemma readRowDescription_loop_returns (colNum : Z) (fuel i : nat)
    (columns : slice bytes) (cn : Conn) :
  Z.of_nat (len columns) = colNum ->
  (len columns <= length (arr columns))%nat ->
  loop (readRowDescription_body colNum) fuel (Z.of_nat i, columns) cn <> Panic.
Proof.
  revert i columns cn.
  induction fuel as [|fuel IH]; intros i columns cn Hlen Hcap; [discriminate|].
  rewrite loop_unfold. unfold readRowDescription_body at 1.
  destruct (Z.ltb_spec (Z.of_nat i) colNum) as [Hlt|_]; [|discriminate].
  destruct (index_ok columns i) as [old Hold]; [lia|exact Hcap|].
  rewrite Hold. unfold bind at 1.
  pose proof (readBytes_returns (take 0 old) cn) as Hname.
  destruct (readBytes (take 0 old) cn) as [name cn1|e cn1| |];
    [|discriminate|contradiction|discriminate].
  rewrite assign_ok by lia. unfold bind.
  pose proof (ReadN_returns 18 cn1 ltac:(lia)) as Hmeta.
  destruct (ReadN 18 cn1) as [meta cn2|e cn2| |];
    [|discriminate|contradiction|discriminate].
  cbn [ret].
  replace (Z.of_nat i + 1) with (Z.of_nat (Datatypes.S i)) by lia.
  apply IH; cbn [len arr]; [exact Hlen|].
  rewrite length_insert. exact Hcap.
Qed.

(** [readRowDescription] panics on a negative count and on nothing else. *)
Lemma readRowDescription_panics (columns : slice bytes) (cn : Conn) :
  readRowDescription columns cn = Panic <-> negativeCount cn.
Proof.
  unfold readRowDescription, bind, negativeCount.
  destruct (readInt16_cases cn)
    as [(n & rest & Hrd & Hn & ->)|(Hshort & e & cn' & ->)].
  - destruct (Z.lt_ge_cases (int16 (BigEndian_Uint16 n)) 0) as [Hneg|Hpos].
    + unfold setByteSliceLen, reslice.
      destruct (Z.leb_spec (int16 (BigEndian_Uint16 n)) (Z.of_nat (cap columns)))
        as [_|Hbad]; [|lia].
      destruct (Z.leb_spec 0 (int16 (BigEndian_Uint16 n))) as [Hbad|_]; [lia|].
      cbn [andb]. split; [|reflexivity].
      intros _. exists n, rest. auto.
    + destruct (setByteSliceLen_ok columns _ Hpos) as (c & -> & Hlen & Hcap).
      split.
      * intros Hp. exfalso. revert Hp. unfold for_ever.
        apply (readRowDescription_loop_returns _ _ 0); [lia|exact Hcap].
      * intros (n' & rest' & Hrd' & Hn' & Hneg). exfalso.
        rewrite Hrd in Hrd'.
        apply app_inj_1 in Hrd' as [-> _]; [lia|congruence].
  - split; [discriminate|]. intros (n' & rest' & Hrd' & Hn' & _).
    rewrite Hrd', length_app in Hshort. lia.
Qed.

Lemma readParseDescribeSync_body_panics (columns : slice bytes) (cn : Conn) :
  readParseDescribeSync_body columns cn = Panic
  <-> atHeader (fun c n cn' =>
        (c ∈ [parseCompleteMsg; parameterDescriptionMsg; noDataMsg;
              readyForQueryMsg; noticeResponseMsg; parameterStatusMsg] /\ n < 0)
        \/ (c = rowDescriptionMsg /\ negativeCount cn')) cn.
Proof.
  apply round_panics. intros c n cn'.
  destruct (Ascii.eqb_spec c rowDescriptionMsg) as [->|Hne].
  - simpl (Ascii.eqb _ _). cbv iota. unfold bind at 1.
    pose proof (readRowDescription_panics nil_slice cn') as Hrow.
    destruct (readRowDescription nil_slice cn') as [cols cn1|e cn1| |].
    + split; [discriminate|]. intros [[Hin _]|[_ Hc]].
      * exfalso. revert Hin. unlisted.
      * apply Hrow in Hc. discriminate Hc.
    + split; [discriminate|]. intros [[Hin _]|[_ Hc]].
      * exfalso. revert Hin. unlisted.
      * apply Hrow in Hc. discriminate Hc.
    + split; [|reflexivity]. intros _. right. split; [reflexivity|].
      apply Hrow. reflexivity.
    + split; [discriminate|]. intros [[Hin _]|[_ Hc]].
      * exfalso. revert Hin. unlisted.
      * apply Hrow in Hc. discriminate Hc.
  - transitivity (c ∈ [parseCompleteMsg; parameterDescriptionMsg; noDataMsg;
                       readyForQueryMsg; noticeResponseMsg; parameterStatusMsg]
                  /\ n < 0); [|tauto].
    by_length c n.
Qed.

(** X3: the query readers, the prepare reader and the COPY reader return
    on every input, with a result or with an error, or panic; the rounds
    of the model never run out, and no reader leaves more input than it
    found.  Each of them panics exactly when it comes, at the start of a
    round of its loop, to the header of a message that it reads by its
    length and whose length field is below 4: the count it then passes to
    [ReadN] is negative.  [readParseDescribeSync] panics also when it
    comes to a RowDescription whose count of fields has its top bit set.
    An ErrorResponse and a message without a case never panic, whatever
    their length fields.  The sink of [readCopyData] and [types.NewResult]
    are taken to return. *)
Theorem readers_return {W} `{Writer W} (w : W) :
  (consumes readSimpleQuery
   /\ panics_at readSimpleQuery readSimpleQuery_body (mkQueryState None None 0)
        (fun _ => negativeLength
                    [commandCompleteMsg; readyForQueryMsg; rowDescriptionMsg;
                     dataRowMsg; noticeResponseMsg; parameterStatusMsg]))
  /\ (consumes readExtQuery
      /\ panics_at readExtQuery readExtQuery_body (mkQueryState None None 0)
           (fun _ => negativeLength
                       [bindCompleteMsg; dataRowMsg; commandCompleteMsg;
                        readyForQueryMsg; noticeResponseMsg; parameterStatusMsg]))
  /\ (consumes readReadyForQuery
      /\ panics_at readReadyForQuery readReadyForQuery_body (None, None)
           (fun _ => negativeLength
                       [commandCompleteMsg; readyForQueryMsg; noticeResponseMsg;
                        parameterStatusMsg]))
  /\ (consumes readParseDescribeSync
      /\ panics_at readParseDescribeSync readParseDescribeSync_body nil_slice
           (fun _ => atHeader (fun c n cn' =>
              (c ∈ [parseCompleteMsg; parameterDescriptionMsg; noDataMsg;
                    readyForQueryMsg; noticeResponseMsg; parameterStatusMsg]
               /\ n < 0)
              \/ (c = rowDescriptionMsg /\ negativeCount cn'))))
  /\ (consumes (readCopyData w)
      /\ panics_at (readCopyData w) readCopyData_body (w, None)
           (fun _ => negativeLength
                       [copyDataMsg; copyDoneMsg; commandCompleteMsg;
                        readyForQueryMsg; noticeResponseMsg; parameterStatusMsg])).
Proof.
  split; [|split; [|split; [|split]]]; split.
  - apply consumes_for_ever, progresses_readSimpleQuery.
  - apply for_ever_panics_at; [apply progresses_readSimpleQuery|].
    apply readSimpleQuery_body_panics.
  - apply consumes_for_ever, progresses_readExtQuery.
  - apply for_ever_panics_at; [apply progresses_readExtQuery|].
    apply readExtQuery_body_panics.
  - apply consumes_for_ever, progresses_readReadyForQuery.
  - apply for_ever_panics_at; [apply progresses_readReadyForQuery|].
    apply readReadyForQuery_body_panics.
  - apply consumes_for_ever, progresses_readParseDescribeSync.
  - apply for_ever_panics_at; [apply progresses_readParseDescribeSync|].
    apply readParseDescribeSync_body_panics.
  - apply consumes_for_ever, progresses_readCopyData.
  - apply for_ever_panics_at; [apply progresses_readCopyData|].
    apply readCopyData_body_panics.
Qed.

(** A CommandComplete with the length field 3 behind a DataRow. *)
Lemma readers_return_witness :
  readSimpleQuery
    (conn0 (frame dataRowMsg (str "row")
            ++ commandCompleteMsg :: BigEndian_PutUint32 3 ++ str "SELECT 1"))
  = Panic.
Proof.
  destruct (proj2 (proj1 (readers_return (W := bytes) []))
              (conn0 (frame dataRowMsg (str "row")
                      ++ commandCompleteMsg :: BigEndian_PutUint32 3
                      ++ str "SELECT 1"))) as [_ Hpanics].
  apply Hpanics. eexists _, _. split.
  - eapply reaches_round; [vm_compute; reflexivity|apply reaches_here].
  - exists commandCompleteMsg, (BigEndian_PutUint32 3), (str "SELECT 1").
    split; [reflexivity|]. split; [reflexivity|].
    split; [listed|vm_compute; reflexivity].
Defined.

(** *** The handshake *)

Lemma behind_ReadN (n : Z) (cn cn' : Conn) (b : bytes) :
  ReadN n cn = Ret b cn' -> Rd cn = b ++ Rd cn'.
Proof.
  unfold ReadN. destruct (n <? 0); [discriminate|].
  destruct (_ <=? _)%nat; [|discriminate].
  intros [= <- <-]. cbn [Rd set_Rd]. symmetry. apply take_drop.
Qed.

Lemma behind_readInt32 (cn cn' : Conn) (v : Z) :
  readInt32 cn = Ret v cn' -> Rd cn' `suffix_of` Rd cn.
Proof.
  unfold readInt32, bind.
  destruct (ReadN 4 cn) as [b cn1|e cn1| |] eqn:E; try discriminate.
  intros [= _ <-]. exists b. apply behind_ReadN in E. exact E.
Qed.

Lemma span_NUL_app (l s rest : bytes) :
  span_NUL l = Some (s, rest) -> l = s ++ NUL :: rest.
Proof.
  revert s. induction l as [|c l IH]; intros s; cbn [span_NUL]; [discriminate|].
  destruct (Ascii.eqb_spec c NUL) as [->|_].
  - intros [= <- <-]. reflexivity.
  - destruct (span_NUL l) as [[s' rest']|]; [|discriminate].
    intros [= <- <-]. cbn [app]. f_equal. apply IH. reflexivity.
Qed.

Lemma behind_readString (cn cn' : Conn) (s : bytes) :
  readString cn = Ret s cn' -> Rd cn' `suffix_of` Rd cn.
Proof.
  unfold readString, bind, ReadString0.
  destruct (span_NUL (Rd cn)) as [[s' rest]|] eqn:E; [|discriminate].
  intros [= _ <-]. cbn [Rd set_Rd]. exists (s' ++ [NUL]).
  rewrite <- app_assoc. apply span_NUL_app, E.
Qed.

Lemma behind_loop {S R} (body : S -> M (step S R)) :
  (forall s cn x cn', body s cn = Ret x cn' -> Rd cn' `suffix_of` Rd cn) ->
  forall fuel s cn r cn',
    loop body fuel s cn = Ret r cn' -> Rd cn' `suffix_of` Rd cn.
Proof.
  intros Hbody. induction fuel as [|fuel IH]; intros s cn r cn'; [discriminate|].
  rewrite loop_unfold.
  destruct (body s cn) as [[s1|r1] cn1|e cn1| |] eqn:E; try discriminate.
  - intros Hl. etransitivity; [eapply IH, Hl|eapply Hbody, E].
  - intros [= <- <-]. eapply Hbody, E.
Qed.

Lemma behind_saslLoop (cn cn' : Conn) (m : Mechanism) :
  authenticate_saslLoop cn = Ret m cn' -> Rd cn' `suffix_of` Rd cn.
Proof.
  unfold authenticate_saslLoop, for_ever. apply behind_loop.
  intros s cn0 x cn1. unfold authenticate_saslLoop_body, bind.
  destruct (readString cn0) as [name cn2|e cn2| |] eqn:E; try discriminate.
  apply behind_readString in E.
  repeat match goal with
         | |- context [bool_decide ?P] => destruct (bool_decide P)
         end;
    try discriminate; intros [= _ <-]; exact E.
Qed.

Lemma shortSaslMessage_behind (r' r : bytes) :
  r' `suffix_of` r -> shortSaslMessage r' -> shortSaslMessage r.
Proof.
  intros [k ->] (pre & l & rest & -> & Hl & Hshort).
  exists (k ++ pre), l, rest. rewrite <- app_assoc. auto.
Qed.

(** A message composed and flushed leaves the input as it is. *)
Lemma composed_and_flushed {B} (f g : WriteBuffer -> WriteBuffer) (k : M B)
    (cn : Conn) :
  (let! _ := on_Wr f in let! _ := on_Wr g in let! _ := FlushWriter in k) cn = Panic ->
  exists cn', Rd cn' = Rd cn /\ k cn' = Panic.
Proof.
  unfold bind, on_Wr, modify, FlushWriter. cbn [NetUp set_Wr].
  destruct (NetUp cn); [|discriminate].
  intros Hk. eexists. split; [|exact Hk]. reflexivity.
Qed.

Lemma reads_readAuthOK : reads readAuthOK.
Proof.
  unfold readAuthOK.
  apply reads_bind; [apply reads_readMessageType|]. intros [c n].
  destruct (Ascii.eqb c authenticationOKMsg).
  - apply reads_bind; [apply reads_readInt32|]. intros num.
    destruct (negb (num =? 0)); [apply reads_fail|apply reads_ret].
  - destruct (Ascii.eqb c errorResponseMsg); [|apply reads_fail].
    apply reads_bind; [apply reads_readError|]. intros e. apply reads_fail.
Qed.

(** A message of the exchange: the header, the code, the data.  The
    reader panics on a length field below 8 and when the negotiator does. *)
Lemma saslMessage_panics {N} `{Sasl N} {A} (code : Z) (e1 : error)
    (again : N -> bytes -> M A) (client : N) (k : ascii * Z -> M A) (cn : Conn) :
  (forall c n cn',
     k (c, n) cn' = Panic ->
     c = authenticationSASLContinueMsg
     /\ (let! c11 := readInt32 in
         if negb (c11 =? code) then fail e1
         else
           let! b := ReadN (n - 4) in
           match Negotiator_Step client (Some b) with
           | None => panic
           | Some (_, _, Some err) => fail err
           | Some (client, resp, None) => again client resp
           end) cn' = Panic) ->
  (forall client resp cn',
     again client resp cn' = Panic ->
     (exists client input, Negotiator_Step client input = None)
     \/ shortSaslMessage (Rd cn')) ->
  bind readMessageType k cn = Panic ->
  (exists client input, Negotiator_Step client input = None)
  \/ shortSaslMessage (Rd cn).
Proof.
  intros Hk Hagain Hp.
  apply header_panics in Hp as (c & l & rest & Hrd & Hl & Hp).
  apply Hk in Hp as [-> Hp]. unfold bind at 1 in Hp.
  destruct (readInt32 (set_Rd rest cn)) as [c11 cn1|e cn1| |] eqn:E11;
    try discriminate Hp.
  2:{ exfalso. apply (reads_no_panic readInt32 (set_Rd rest cn) reads_readInt32).
      exact E11. }
  apply behind_readInt32 in E11. cbn [Rd set_Rd] in E11.
  destruct (negb (c11 =? code)); [discriminate Hp|].
  unfold bind in Hp.
  destruct (ReadN (int32 (BigEndian_Uint32 l) - 4 - 4) cn1) as [b cn2|e cn2| |] eqn:Eb;
    try discriminate Hp.
  - apply behind_ReadN in Eb.
    destruct (Negotiator_Step client (Some b)) as [[[client' resp] [err|]]|] eqn:Es;
      try discriminate Hp.
    + apply Hagain in Hp as [Hp|Hp]; [left; exact Hp|right].
      apply (shortSaslMessage_behind (Rd cn2)); [|exact Hp].
      rewrite Hrd. destruct E11 as [k1 ->]. rewrite Eb.
      exists (authenticationSASLContinueMsg :: l ++ k1 ++ b).
      cbn [app]. rewrite <- !app_assoc. reflexivity.
    + left. exists client, (Some b). exact Es.
  - right. exists [], l, rest. split; [exact Hrd|]. split; [exact Hl|].
    unfold ReadN in Eb.
    destruct (Z.ltb_spec (int32 (BigEndian_Uint32 l) - 4 - 4) 0) as [Hneg|_]; [lia|].
    destruct (_ <=? _)%nat; discriminate Eb.
Qed.

Lemma readAuthSASLFinal_panics {N} `{Sasl N} (client : N) (cn : Conn) :
  readAuthSASLFinal client cn = Panic ->
  (exists client input, Negotiator_Step client input = None)
  \/ shortSaslMessage (Rd cn).
Proof.
  unfold readAuthSASLFinal.
  apply (saslMessage_panics 12
           (Errorf "pg: SASL: got %q, wanted %q"
              [ArgByte authenticationSASLFinalMsg; ArgInt 12])
           (fun client _ =>
              if negb (Negotiator_State client =? ValidServerResponse)
              then fail (Errorf "pg: SASL: state=%q, wanted %q"
                           [ArgInt (Negotiator_State client);
                            ArgInt ValidServerResponse])
              else readAuthOK) client).
  - intros c n cn'. cbv beta iota.
    destruct (Ascii.eqb_spec c authenticationSASLFinalMsg) as [->|_].
    + intros Hp. split; [reflexivity|exact Hp].
    + intros Hp. exfalso. revert Hp.
      destruct (Ascii.eqb c errorResponseMsg);
        apply reads_no_panic; only_reads.
  - intros client' _ cn'.
    destruct (negb _); [discriminate|].
    intros Hp. exfalso. revert Hp. apply reads_no_panic, reads_readAuthOK.
Qed.

Lemma saslExchange_panics {N} `{Sasl N} (saslMech : Mechanism)
    (user password : bytes) (cn : Conn) :
  authenticate_saslExchange saslMech user password cn = Panic ->
  (exists client input, Negotiator_Step client input = None)
  \/ shortSaslMessage (Rd cn).
Proof.
  unfold authenticate_saslExchange.
  destruct (Negotiator_Step (NewClient saslMech user password) None)
    as [[[client resp] [err|]]|] eqn:Es; [discriminate| |].
  2:{ intros _. left. eexists _, _. exact Es. }
  intros Hp. apply composed_and_flushed in Hp as (cn1 & Hrd & Hp).
  rewrite <- Hrd. revert Hp.
  apply (saslMessage_panics 11
           (Errorf "pg: SASL: got %q, wanted %q"
              [ArgByte authenticationSASLContinueMsg; ArgInt 11])
           (fun client resp =>
              let! _ := on_Wr (fun buf =>
                          let buf := StartMessage saslResponseMsg buf in
                          WriteBytes resp buf) in
              let! _ := on_Wr FinishMessage in
              let! _ := FlushWriter in
              readAuthSASLFinal client) client).
  - intros c n cn'. cbv beta iota.
    destruct (Ascii.eqb_spec c authenticationSASLContinueMsg) as [->|_].
    + intros Hp. split; [reflexivity|exact Hp].
    + intros Hp. exfalso. revert Hp.
      destruct (Ascii.eqb c errorResponseMsg);
        apply reads_no_panic; only_reads.
  - intros client' resp' cn' Hp.
    apply composed_and_flushed in Hp as (cn2 & Hrd2 & Hp).
    rewrite <- Hrd2. apply (readAuthSASLFinal_panics client'), Hp.
Qed.

Lemma written_and_flushed {B} (f : WriteBuffer -> WriteBuffer) (k : M B)
    (cn : Conn) :
  (let! _ := on_Wr f in let! _ := FlushWriter in k) cn = Panic ->
  exists cn', k cn' = Panic.
Proof.
  unfold bind, on_Wr, modify, FlushWriter. cbn [NetUp set_Wr].
  destruct (NetUp cn); [|discriminate].
  intros Hk. eexists. exact Hk.
Qed.

(** [authenticate] panics in the SASL case only, and there when the
    negotiator does or on a message with a length field below 8. *)
Lemma authenticate_panics {N} `{Sasl N} (user password : bytes) (cn : Conn) :
  authenticate user password cn = Panic ->
  (exists l rest,
     Rd cn = l ++ rest /\ length l = 4%nat
     /\ int32 (BigEndian_Uint32 l) = authenticationSASL)
  /\ ((exists client input, Negotiator_Step client input = None)
      \/ shortSaslMessage (Rd cn)).
Proof.
  unfold authenticate, bind at 1.
  destruct (readInt32_cases cn)
    as [(l & rest & Hrd & Hl & ->)|(_ & e & cn' & ->)]; [|discriminate].
  destruct (int32 (BigEndian_Uint32 l) =? authenticationOK); [discriminate|].
  destruct (int32 (BigEndian_Uint32 l) =? authenticationCleartextPassword).
  { intros Hp. exfalso. apply written_and_flushed in Hp as (cn2 & Hp).
    revert Hp. apply reads_no_panic, reads_passwordResponse. }
  destruct (int32 (BigEndian_Uint32 l) =? authenticationMD5Password).
  { unfold bind at 1.
    pose proof (ReadN_returns 4 (set_Rd rest cn) ltac:(lia)) as Hsalt.
    destruct (ReadN 4 (set_Rd rest cn)) as [b cn2|e cn2| |];
      [|discriminate|contradiction|discriminate].
    intros Hp. exfalso. apply written_and_flushed in Hp as (cn3 & Hp).
    revert Hp. apply reads_no_panic, reads_passwordResponse. }
  destruct (Z.eqb_spec (int32 (BigEndian_Uint32 l)) authenticationSASL)
    as [Hcode|_]; [|discriminate].
  intros Hp. split; [exists l, rest; auto|]. revert Hp.
  unfold bind.
  destruct (authenticate_saslLoop (set_Rd rest cn)) as [saslMech cn2|e cn2| |] eqn:El;
    try discriminate.
  - intros Hp. apply saslExchange_panics in Hp as [Hp|Hp]; [left; exact Hp|right].
    apply (shortSaslMessage_behind (Rd cn2)); [|exact Hp].
    etransitivity; [eapply behind_saslLoop, El|].
    cbn [Rd set_Rd]. exists l. exact Hrd.
  - intros _. exfalso. revert El. apply reads_no_panic.
    apply reads_for_ever.
    + intros m. unfold authenticate_saslLoop_body.
      apply reads_bind; [apply reads_readString|]. intros s.
      repeat match goal with
             | |- context [bool_decide ?P] => destruct (bool_decide P)
             end;
        only_reads.
    + intros m cn0 m' cn0'. unfold authenticate_saslLoop_body, bind, readString, bind.
      pose proof (advances_ReadString0 cn0) as Ha.
      destruct (ReadString0 cn0) as [s cn3|e cn3| |]; try discriminate.
      unfold ret.
      repeat match goal with
             | |- context [bool_decide ?P] => destruct (bool_decide P)
             end;
        try discriminate; intros [= _ <-]; exact Ha.
Qed.

Lemma startup_body_panics {N} `{Sasl N} (user password : bytes) (s : unit)
    (cn : Conn) :
  startup_body user password s cn = Panic
  <-> atHeader (fun c n cn' =>
        (c ∈ [parameterStatusMsg; readyForQueryMsg] /\ n < 0)
        \/ (c = authenticationOKMsg
            /\ authenticate user password cn' = Panic)) cn.
Proof.
  apply round_panics. intros c n cn'.
  destruct (Ascii.eqb_spec c authenticationOKMsg) as [->|Hne].
  - simpl (Ascii.eqb _ _). cbv iota. unfold bind at 1.
    destruct (authenticate user password cn') as [[] cn1|e cn1| |].
    + split; [discriminate|]. intros [[Hin _]|[_ Hc]]; [|discriminate Hc].
      exfalso. revert Hin. unlisted.
    + split; [discriminate|]. intros [[Hin _]|[_ Hc]]; [|discriminate Hc].
      exfalso. revert Hin. unlisted.
    + split; [|reflexivity]. intros _. right. split; reflexivity.
    + split; [discriminate|]. intros [[Hin _]|[_ Hc]]; [|discriminate Hc].
      exfalso. revert Hin. unlisted.
  - transitivity (c ∈ [parameterStatusMsg; readyForQueryMsg] /\ n < 0); [|tauto].
    destruct (Ascii.eqb_spec c backendKeyDataMsg) as [->|HneK].
    + split; [|intros [Hin _]; exfalso; revert Hin; unlisted].
      intros Hp. exfalso. revert Hp. unfold bind.
      pose proof (reads_no_panic readInt32 cn' reads_readInt32) as Hpid.
      destruct (readInt32 cn') as [pid cn1|e cn1| |];
        [|discriminate|contradiction|discriminate].
      pose proof (reads_no_panic readInt32 cn1 reads_readInt32) as Hkey.
      destruct (readInt32 cn1) as [key cn2|e cn2| |];
        [|discriminate|contradiction|discriminate].
      discriminate.
    + by_length c n.
Qed.

Lemma startup_panics {N} `{Sasl N} (user password database : bytes) (cn : Conn) :
  startup user password database cn = Panic
  <-> NetUp cn = true
      /\ exists s' cn',
           reaches (startup_body user password)
             (tt, flushed (startupMessage user database) (Rd cn) cn) (s', cn')
           /\ atHeader (fun c n cn'' =>
                (c ∈ [parameterStatusMsg; readyForQueryMsg] /\ n < 0)
                \/ (c = authenticationOKMsg
                    /\ authenticate user password cn'' = Panic)) cn'.
Proof.
  destruct (NetUp cn) eqn:Hup.
  - rewrite <- (set_Rd_id cn) at 1.
    rewrite startup_flushes by exact Hup. rewrite flushed_rest.
    pose proof (for_ever_panics_at (startup_body user password)
                  (progresses_startup user password) tt _
                  (startup_body_panics user password)
                  (flushed (startupMessage user database) (Rd cn) cn)) as Hl.
    rewrite Hl. tauto.
  - split; [|intros [Hbad _]; discriminate Hbad].
    unfold startup, bind, on_Wr, modify, FlushWriter.
    cbn [NetUp set_Wr]. rewrite Hup. discriminate.
Qed.



(** *** The fields of a DataRow *)

Lemma int32_range (z : Z) : - 2 ^ 31 <= int32 z < 2 ^ 31.
Proof.
  unfold int32, wrap.
  change (2 ^ (32 - 1)) with 2147483648. change (2 ^ 31) with 2147483648.
  change (2 ^ 32) with 4294967296.
  Z.to_euclidean_division_equations. lia.
Qed.

Lemma int16_range (z : Z) : - 2 ^ 15 <= int16 z < 2 ^ 15.
Proof.
  unfold int16, wrap.
  change (2 ^ (16 - 1)) with 32768. change (2 ^ 15) with 32768.
  change (2 ^ 16) with 65536.
  Z.to_euclidean_division_equations. lia.
Qed.

(** A field begins with the four bytes of its length. *)
Lemma fieldValue_split (v : option bytes) :
  wf_value v ->
  exists l,
    length l = 4%nat
    /\ int32 (BigEndian_Uint32 l)
       = match v with Some b => Z.of_nat (length b) | None => -1 end
    /\ fieldValue v = l ++ default [] v.
Proof.
  intros Hv. destruct v as [b|]; cbn [fieldValue wf_value from_option] in *; unfold id.
  - exists (BigEndian_PutUint32 (uint32 (Z.of_nat (length b)))).
    split; [reflexivity|]. split; [|reflexivity].
    rewrite <- (app_nil_r (BigEndian_PutUint32 _)), Uint32_PutUint32.
    fold (uint32 (uint32 (Z.of_nat (length b)))).
    rewrite uint32_idem. apply int32_uint32. lia.
  - exists (BigEndian_PutUint32 (uint32 (-1))).
    split; [reflexivity|]. split; [|symmetry; apply app_nil_r].
    rewrite <- (app_nil_r (BigEndian_PutUint32 _)), Uint32_PutUint32.
    fold (uint32 (uint32 (-1))). rewrite uint32_idem. apply int32_uint32. lia.
Qed.

Lemma fieldValue_inj (v v' : option bytes) (rest rest' : bytes) :
  wf_value v -> wf_value v' ->
  fieldValue v ++ rest = fieldValue v' ++ rest' -> v = v' /\ rest = rest'.
Proof.
  intros Hv Hv' E.
  destruct (fieldValue_split v Hv) as (l & Hl & Hlen & Hf).
  destruct (fieldValue_split v' Hv') as (l' & Hl' & Hlen' & Hf').
  rewrite Hf, Hf', <- !app_assoc in E.
  apply app_inj_1 in E as [-> E]; [|congruence].
  rewrite Hlen in Hlen'.
  destruct v as [b|], v' as [b'|]; cbn [from_option] in *; unfold id in *; try lia.
  - apply app_inj_1 in E as [-> ->]; [split; reflexivity|lia].
  - split; [reflexivity|exact E].
Qed.

(** The value of a field as [readDataRow] reads it: the field whole, a
    panic on a length below -1, an error on an input that ends early. *)
Lemma readValue_cases (cn : Conn) :
  (exists v rest,
     wf_value v /\ Rd cn = fieldValue v ++ rest
     /\ (let! l := readInt32 in
         if negb (l =? -1) then let! b := ReadN l in ret (Some b) else ret None) cn
        = Ret v (set_Rd rest cn))
  \/ ((let! l := readInt32 in
       if negb (l =? -1) then let! b := ReadN l in ret (Some b) else ret None) cn
      = Panic
      /\ exists l rest,
           Rd cn = l ++ rest /\ length l = 4%nat
           /\ int32 (BigEndian_Uint32 l) < -1)
  \/ ((exists e cn',
         (let! l := readInt32 in
          if negb (l =? -1) then let! b := ReadN l in ret (Some b) else ret None) cn
         = Fail e cn')
      /\ (forall v rest, wf_value v -> Rd cn <> fieldValue v ++ rest)
      /\ (forall l rest, Rd cn = l ++ rest -> length l = 4%nat ->
                         -1 <= int32 (BigEndian_Uint32 l))).
Proof.
  unfold bind at 1 3 5.
  destruct (readInt32_cases cn)
    as [(l & rest & Hrd & Hl & ->)|(Hshort & e & cn' & ->)].
  - pose proof (int32_range (BigEndian_Uint32 l)) as Hrange.
    pose proof (PutUint32_Uint32 l Hl) as Hput.
    destruct (Z.eqb_spec (int32 (BigEndian_Uint32 l)) (-1)) as [E|Hne]; cbn [negb].
    { left. exists None, rest. split; [exact I|]. split; [|reflexivity].
      cbn [fieldValue]. rewrite <- E, Hput. exact Hrd. }
    destruct (Z.lt_ge_cases (int32 (BigEndian_Uint32 l)) 0) as [Hneg|Hpos].
    { right. left. split.
      - unfold bind, ReadN.
        destruct (Z.ltb_spec (int32 (BigEndian_Uint32 l)) 0) as [_|]; [reflexivity|lia].
      - exists l, rest. split; [exact Hrd|]. split; [exact Hl|lia]. }
    unfold bind, ReadN. cbn [Rd set_Rd].
    destruct (Z.ltb_spec (int32 (BigEndian_Uint32 l)) 0) as [|_]; [lia|].
    destruct (Nat.leb_spec (Z.to_nat (int32 (BigEndian_Uint32 l))) (length rest))
      as [Hfull|Hcut].
    + left. exists (Some (take (Z.to_nat (int32 (BigEndian_Uint32 l))) rest)),
               (drop (Z.to_nat (int32 (BigEndian_Uint32 l))) rest).
      assert (Hb : Z.of_nat (length (take (Z.to_nat (int32 (BigEndian_Uint32 l))) rest))
                   = int32 (BigEndian_Uint32 l)).
      { rewrite length_take. lia. }
      split; [cbn [wf_value]; lia|]. split; [|reflexivity].
      cbn [fieldValue]. rewrite Hb, Hput, <- app_assoc, take_drop. exact Hrd.
    + right. right. split; [eexists _, _; reflexivity|]. split.
      * intros v rest' Hv E. rewrite Hrd in E.
        destruct (fieldValue_split v Hv) as (l' & Hl' & Hlen' & Hf').
        rewrite Hf', <- app_assoc in E.
        apply app_inj_1 in E as [-> E]; [|congruence].
        destruct v as [b|]; cbn [from_option] in *; unfold id in *; [|lia].
        rewrite E, length_app in Hcut. lia.
      * intros l' rest' E Hl'. rewrite Hrd in E.
        apply app_inj_1 in E as [-> _]; [lia|congruence].
  - right. right. split; [eexists _, _; reflexivity|]. split.
    + intros v rest' Hv E.
      destruct (fieldValue_split v Hv) as (l' & Hl' & _ & Hf').
      rewrite E, Hf', !length_app in Hshort. lia.
    + intros l' rest' E Hl'. rewrite E, length_app in Hshort. lia.
Qed.

Lemma index_beyond {A} (b : slice A) (i : nat) :
  (length (elems b) <= i)%nat -> index b (Z.of_nat i) = None.
Proof.
  unfold elems, index. rewrite length_take. intros Hi.
  destruct ((0 <=? Z.of_nat i) && (Z.of_nat i <? Z.of_nat (len b))) eqn:E;
    [|reflexivity].
  apply andb_prop in E as [_ E]. apply Z.ltb_lt in E.
  rewrite Nat2Z.id. apply lookup_ge_None. lia.
Qed.

Lemma index_within {A} (b : slice A) (i : nat) :
  (i < length (elems b))%nat -> exists x, index b (Z.of_nat i) = Some x.
Proof.
  intros Hi. destruct (lookup_lt_is_Some_2 (elems b) i Hi) as [x Hx].
  exists x. apply index_elems, Hx.
Qed.

Lemma readDataRow_loop_panics_at {S} `{ColumnScanner S} (colNum : Z)
    (columns : slice bytes) (fuel i : nat) (scanner : S)
    (retErr : option error) (cn : Conn) :
  colNum < 2 ^ 15 ->
  (i <= length (elems columns))%nat ->
  (length (Rd cn) < fuel)%nat ->
  loop (readDataRow_body colNum columns) fuel (Z.of_nat i, scanner, retErr) cn
  = Panic
  <-> exists values tail,
        Rd cn = flat_map fieldValue values ++ tail
        /\ Forall wf_value values
        /\ (((i + length values)%nat = Datatypes.S (length (elems columns))
             /\ Z.of_nat (i + length values) <= colNum)
            \/ ((i + length values <= length (elems columns))%nat
                /\ Z.of_nat (i + length values) < colNum
                /\ exists l rest,
                     tail = l ++ rest /\ length l = 4%nat
                     /\ int32 (BigEndian_Uint32 l) < -1)).
Proof.
  intros Hsmall. revert i scanner retErr cn.
  induction fuel as [|fuel IH]; intros i scanner retErr cn Hi Hfuel; [lia|].
  rewrite loop_unfold.
  destruct (Z.ltb_spec (Z.of_nat i) colNum) as [Hlt|Hge].
  2:{ unfold readDataRow_body.
      destruct (Z.ltb_spec (Z.of_nat i) colNum) as [|_]; [lia|].
      split; [discriminate|].
      intros (values & tail & _ & _ & [[Hn Hc]|(_ & Hc & _)]); lia. }
  assert (Hbody :
    readDataRow_body colNum columns (Z.of_nat i, scanner, retErr) cn
    = bind (let! l := readInt32 in
            if negb (l =? -1) then let! b := ReadN l in ret (Some b) else ret None)
        (fun b =>
           match index columns (Z.of_nat i) with
           | None => panic
           | Some column =>
               let '(scanner, err) := ScanColumn scanner (Z.of_nat i) column b in
               ret (Continue (int16 (Z.of_nat i + 1), scanner,
                              match err with
                              | Some err => setErr retErr err
                              | None => retErr
                              end))
           end) cn).
  { unfold readDataRow_body.
    destruct (Z.ltb_spec (Z.of_nat i) colNum) as [_|]; [|lia].
    rewrite bind_bind. reflexivity. }
  rewrite Hbody. clear Hbody. unfold bind at 1.
  destruct (readValue_cases cn)
    as [(v & rest & Hv & Hrd & ->)
       |[(-> & l & rest & Hrd & Hl & Hneg)
        |((e & cn' & ->) & Hnofield & Hnoneg)]].
  - destruct (fieldValue_split v Hv) as (l & Hl & Hlen & Hf).
    destruct (Nat.lt_ge_cases i (length (elems columns))) as [Hin|Hout].
    + destruct (index_within columns i Hin) as [column ->].
      destruct (ScanColumn scanner (Z.of_nat i) column v) as [scanner1 err].
      cbn [ret]. rewrite int16_small by lia.
      replace (Z.of_nat i + 1) with (Z.of_nat (Datatypes.S i)) by lia.
      rewrite IH; [|lia|].
      2:{ cbn [Rd set_Rd]. rewrite Hrd, Hf, !length_app, Hl in Hfuel. lia. }
      cbn [Rd set_Rd]. split.
      * intros (values & tail & -> & Hwf & Hc).
        exists (v :: values), tail. cbn [flat_map length].
        rewrite <- app_assoc. split; [exact Hrd|].
        split; [constructor; assumption|].
        replace (i + Datatypes.S (length values))%nat
          with (Datatypes.S i + length values)%nat by lia.
        exact Hc.
      * intros (values & tail & Hrd' & Hwf & Hc).
        destruct values as [|v' values].
        { exfalso. cbn [flat_map length app] in *.
          destruct Hc as [[Hn _]|(_ & _ & l' & rest' & -> & Hl' & Hneg)]; [lia|].
          rewrite Hrd, Hf, <- app_assoc in Hrd'.
          apply app_inj_1 in Hrd' as [-> _]; [|congruence].
          destruct v; lia. }
        apply Forall_cons in Hwf as [Hv' Hwf].
        cbn [flat_map length] in *. rewrite Hrd, <- app_assoc in Hrd'.
        apply fieldValue_inj in Hrd' as [-> ->]; [|assumption|assumption].
        exists values, tail. split; [reflexivity|]. split; [exact Hwf|].
        replace (Datatypes.S i + length values)%nat
          with (i + Datatypes.S (length values))%nat by lia.
        exact Hc.
    + rewrite index_beyond by exact Hout. split; [|reflexivity].
      intros _. exists [v], rest. cbn [flat_map length]. rewrite app_nil_r.
      split; [exact Hrd|]. split; [constructor; [exact Hv|constructor]|].
      left. split; lia.
  - split; [|reflexivity]. intros _. exists [], (Rd cn).
    split; [reflexivity|]. split; [constructor|].
    right. cbn [length]. split; [lia|]. split; [lia|].
    exists l, rest. auto.
  - split; [discriminate|].
    intros (values & tail & Hrd & Hwf & Hc). exfalso.
    destruct values as [|v values].
    + cbn [flat_map length app] in *.
      destruct Hc as [[Hn _]|(_ & _ & l & rest & -> & Hl & Hneg)]; [lia|].
      specialize (Hnoneg l rest Hrd Hl). lia.
    + apply Forall_cons in Hwf as [Hv Hwf]. cbn [flat_map] in Hrd.
      rewrite <- app_assoc in Hrd. exact (Hnofield v _ Hv Hrd).
Qed.

(** [readDataRow] panics on the rows of [rowPanics] and on no others. *)
Lemma readDataRow_panics {S} `{ColumnScanner S} (scanner : S)
    (columns : slice bytes) (cn : Conn) :
  readDataRow scanner columns cn = Panic
  <-> rowPanics (length (elems columns)) cn.
Proof.
  unfold readDataRow, bind, rowPanics.
  destruct (readInt16_cases cn)
    as [(n & rest & Hrd & Hn & ->)|(Hshort & e & cn' & ->)].
  - unfold for_ever.
    pose proof (int16_range (BigEndian_Uint16 n)) as Hrange.
    change 0 with (Z.of_nat 0).
    rewrite readDataRow_loop_panics_at; [|lia|lia|unfold rounds; lia].
    cbn [Rd set_Rd plus]. split.
    + intros (values & tail & -> & Hwf & Hc). exists n, values, tail. auto.
    + intros (n' & values & tail & Hrd' & Hn' & Hwf & Hc).
      rewrite Hrd in Hrd'.
      apply app_inj_1 in Hrd' as [-> ->]; [|congruence].
      exists values, tail. auto.
  - split; [discriminate|].
    intros (n' & values & tail & Hrd' & Hn' & _).
    rewrite Hrd', length_app in Hshort. lia.
Qed.

(** *** The readers with a model *)

Lemma reslice_0 {A} (b : slice A) : reslice b 0 = Some (mkSlice (arr b) 0).
Proof.
  unfold reslice.
  destruct (Z.leb_spec 0 (Z.of_nat (cap b))) as [_|]; [reflexivity|lia].
Qed.

Section WithModelPanics.
Context {St Mod Md Sc : Type} `{!Orm St Mod Md Sc}.

Lemma makeModel_model (mod_ : Mod) (s : Data.state St Md) :
  Data.model (makeModel mod_ s) <> None.
Proof.
  unfold makeModel, newModel.
  destruct (asModel mod_) as [m|].
  - destruct (Model_Reset m (Data.store s)) as [st [err|]]; discriminate.
  - destruct (orm_NewModel mod_ (Data.store s)) as [st [m|err]]; [|discriminate].
    destruct (Model_Reset m st) as [st' [err|]]; discriminate.
Qed.

Lemma scanRow_panics (columns : slice bytes) (s : Data.state St Md) (cn : Conn) :
  scanRow columns s cn = Panic
  <-> Data.model s = None \/ rowPanics (length (elems columns)) cn.
Proof.
  unfold scanRow. destruct (Data.model s) as [model|].
  2:{ split; [intros _; left; reflexivity|reflexivity]. }
  destruct (Model_NewModel model (Data.store s)) as [st m].
  rewrite <- (readDataRow_panics (st, m) columns cn).
  unfold bind, try.
  destruct (readDataRow (st, m) columns cn) as [[[st' m'] [err|]] cn1|e cn1| |].
  - split; [discriminate|]. intros [Hbad|Hbad]; discriminate Hbad.
  - destruct (Model_AddModel model m' st') as [st'' err].
    split; [discriminate|]. intros [Hbad|Hbad]; discriminate Hbad.
  - split; [discriminate|]. intros [Hbad|Hbad]; discriminate Hbad.
  - split; [|reflexivity]. intros _. right. reflexivity.
  - split; [discriminate|]. intros [Hbad|Hbad]; discriminate Hbad.
Qed.

Lemma readSimpleQueryData_body_panics (mod_ : Mod) (s : Data.state St Md)
    (cn : Conn) :
  readSimpleQueryData_body mod_ s cn = Panic
  <-> atHeader (fun c n cn' =>
        (c ∈ [commandCompleteMsg; readyForQueryMsg; noticeResponseMsg;
              parameterStatusMsg] /\ n < 0)
        \/ (c = rowDescriptionMsg /\ negativeCount cn')
        \/ (c = dataRowMsg
            /\ (Data.model s = None
                \/ rowPanics (length (elems (Columns cn'))) cn'))) cn.
Proof.
  apply round_panics. intros c n cn'.
  destruct (Ascii.eqb_spec c rowDescriptionMsg) as [->|HneT].
  { unfold bind at 1, get. rewrite reslice_0. unfold bind at 1, try.
    pose proof (readRowDescription_panics (mkSlice (arr (Columns cn')) 0) cn') as Hrow.
    destruct (readRowDescription (mkSlice (arr (Columns cn')) 0) cn')
      as [cols cn1|e cn1| |].
    - split.
      + unfold bind, modify. destruct (Data.model s); discriminate.
      + intros [[Hin _]|[[_ Hc]|[Hbad _]]]; [| |discriminate Hbad].
        * exfalso. revert Hin. unlisted.
        * apply Hrow in Hc. discriminate Hc.
    - split; [discriminate|].
      intros [[Hin _]|[[_ Hc]|[Hbad _]]]; [| |discriminate Hbad].
      + exfalso. revert Hin. unlisted.
      + apply Hrow in Hc. discriminate Hc.
    - split; [|reflexivity]. intros _. right. left.
      split; [reflexivity|]. apply Hrow. reflexivity.
    - split; [discriminate|].
      intros [[Hin _]|[[_ Hc]|[Hbad _]]]; [| |discriminate Hbad].
      + exfalso. revert Hin. unlisted.
      + apply Hrow in Hc. discriminate Hc. }
  destruct (Ascii.eqb_spec c dataRowMsg) as [->|HneD].
  { simpl (Ascii.eqb _ _). cbv iota. unfold bind at 1, get.
    rewrite scanRow_panics. split.
    - intros Hc. right. right. split; [reflexivity|exact Hc].
    - intros [[Hin _]|[[Hbad _]|[_ Hc]]]; [|discriminate Hbad|exact Hc].
      exfalso. revert Hin. unlisted. }
  transitivity (c ∈ [commandCompleteMsg; readyForQueryMsg; noticeResponseMsg;
                     parameterStatusMsg] /\ n < 0); [|tauto].
  by_length c n.
Qed.

Lemma readExtQueryData_body_panics (mod_ : Mod) (columns : slice bytes)
    (s : Data.state St Md) (cn : Conn) :
  readExtQueryData_body mod_ columns s cn = Panic
  <-> atHeader (fun c n cn' =>
        (c ∈ [bindCompleteMsg; commandCompleteMsg; readyForQueryMsg;
              noticeResponseMsg; parameterStatusMsg] /\ n < 0)
        \/ (c = dataRowMsg /\ rowPanics (length (elems columns)) cn')) cn.
Proof.
  apply round_panics. intros c n cn'.
  destruct (Ascii.eqb_spec c dataRowMsg) as [->|HneD].
  { simpl (Ascii.eqb _ _). cbv iota. rewrite scanRow_panics. split.
    - intros [Hnil|Hc]; [|right; split; [reflexivity|exact Hc]].
      exfalso. revert Hnil.
      destruct (Data.model s) eqn:Hm; [rewrite Hm; discriminate|].
      apply makeModel_model.
    - intros [[Hin _]|[_ Hc]]; [|right; exact Hc].
      exfalso. revert Hin. unlisted. }
  transitivity (c ∈ [bindCompleteMsg; commandCompleteMsg; readyForQueryMsg;
                     noticeResponseMsg; parameterStatusMsg] /\ n < 0); [|tauto].
  by_length c n.
Qed.

(** X23: [readSimpleQueryData] and [readExtQueryData] return on every
    input, with every model and in every state of the connection, with
    their results or with an error, or panic; the rounds of the model
    never run out, and they leave no more input than they found.  They
    panic exactly when they come, at the start of a round, to one of
    these: the header of a message they read by its length, with a length
    field below 4; in [readSimpleQueryData], a RowDescription whose count
    of fields has its top bit set, or a DataRow while the model is nil,
    none having been made on a RowDescription before; a DataRow of
    [rowPanics], which has a field beyond the column names at hand or a
    field with a length below -1.  The names at hand are the ones of the
    connection in [readSimpleQueryData] and the argument [columns] in
    [readExtQueryData].  The methods of [orm] and [types.NewResult] are
    taken to return. *)
Theorem data_readers_return (mod_ : Mod) (columns : slice bytes) (st : St) :
  (consumes (readSimpleQueryData mod_ st)
   /\ panics_at (readSimpleQueryData mod_ st) (readSimpleQueryData_body mod_)
        (Data.mk st None None None 0)
        (fun s => atHeader (fun c n cn' =>
           (c ∈ [commandCompleteMsg; readyForQueryMsg; noticeResponseMsg;
                 parameterStatusMsg] /\ n < 0)
           \/ (c = rowDescriptionMsg /\ negativeCount cn')
           \/ (c = dataRowMsg
               /\ (Data.model s = None
                   \/ rowPanics (length (elems (Columns cn'))) cn')))))
  /\ (consumes (readExtQueryData mod_ columns st)
      /\ panics_at (readExtQueryData mod_ columns st)
           (readExtQueryData_body mod_ columns) (Data.mk st None None None 0)
           (fun _ => atHeader (fun c n cn' =>
              (c ∈ [bindCompleteMsg; commandCompleteMsg; readyForQueryMsg;
                    noticeResponseMsg; parameterStatusMsg] /\ n < 0)
              \/ (c = dataRowMsg /\ rowPanics (length (elems columns)) cn')))).
Proof.
  split; split.
  - apply consumes_for_ever, progresses_readSimpleQueryData.
  - apply for_ever_panics_at; [apply progresses_readSimpleQueryData|].
    apply readSimpleQueryData_body_panics.
  - apply consumes_for_ever, progresses_readExtQueryData.
  - apply for_ever_panics_at; [apply progresses_readExtQueryData|].
    apply readExtQueryData_body_panics.
Qed.

End WithModelPanics.

(** A row whose one field gives its length as -2, behind the description
    of one column. *)
Lemma data_readers_return_witness :
  readSimpleQueryData true []
    (conn0 (frame rowDescriptionMsg (rowDescription [(str "id", meta18)])
            ++ frame dataRowMsg (BigEndian_PutUint16 1
                                 ++ BigEndian_PutUint32 (uint32 (-2)))))
  = Panic.
Proof.
  destruct (proj2 (proj1 (data_readers_return (St := rowsStore) true nil_slice []))
              (conn0 (frame rowDescriptionMsg (rowDescription [(str "id", meta18)])
                      ++ frame dataRowMsg (BigEndian_PutUint16 1
                                           ++ BigEndian_PutUint32 (uint32 (-2))))))
    as [_ Hpanics].
  apply Hpanics. eexists _, _. split.
  - eapply reaches_round; [vm_compute; reflexivity|apply reaches_here].
  - exists dataRowMsg, (BigEndian_PutUint32 10),
      (BigEndian_PutUint16 1 ++ BigEndian_PutUint32 (uint32 (-2))).
    split; [reflexivity|]. split; [reflexivity|].
    right. right. split; [reflexivity|]. right.
    exists (BigEndian_PutUint16 1), [], (BigEndian_PutUint32 (uint32 (-2))).
    split; [reflexivity|]. split; [reflexivity|]. split; [constructor|].
    right. split; [vm_compute; lia|]. split; [vm_compute; reflexivity|].
    exists (BigEndian_PutUint32 (uint32 (-2))), [].
    split; [reflexivity|]. split; [reflexivity|vm_compute; reflexivity].
Defined.
